(* ===== verification/_CoqProject ===== *)
-Q . S2P
Prelude.v
Regs.v
Types.v
Context.v
Sgl.v
Descq.v
RxQueue.v
Thread.v
Resource.v
Intr.v
Queue.v
Api.v
Transfer.v
Restart.v
Sriov.v
Msg.v
Mbox.v
MboxHw.v
MboxServe.v
Vf.v
Copies.v
PciDev.v
Cstring.v
Xnl.v
Cli.v
NlUser.v
Cdev.v
Xpdev.v
Probe.v
Recover.v
Dump.v
Text.v
Nl.v
Ctl.v
Dmactl.v
Tools.v
