(* ===== verification/Prelude.v ===== *)
(** * The QDMA driver: a verification library

    This library models the Linux driver of the Xilinx QDMA subsystem, its
    library [src/drv/libqdma], its module [src/drv], the control tool
    [src/user/cli] and the transfer tools [src/tools], and proves what makes
    their parts correct.  The driver gives a PCIe device's DMA queues to its
    clients: a client adds a queue, starts it, submits requests (scatter-gather
    lists of bus addresses) to it, and is told when the device has moved the
    bytes.  Worker threads turn
    requests into descriptors in the queue's ring, the device writes back how
    far it has come, interrupts or polling threads turn that into completions.
    A physical function (PF) programs the device for itself and, asked through
    a mailbox, for its virtual functions (VF).  The module around the library
    gives each queue a character device, whose read and write calls become
    requests, and serves the commands of the control tool, which arrive as
    netlink messages.

    ** Conventions

    The definitions are the code's functions, with their names; a function that
    changes state is a state-passing function [ST S A = S → A * S] (below), its
    error codes are the negated error numbers of the code.  An integer of the
    code is a [Z] with its conversion written out ([u8], [u16], [u32], ..).  A
    result [None] stands for a fault of the code: a NULL or poisoned pointer, a
    corrupted list.  Locks are left out where the code only brackets a sequence
    with them; where a path returns with a lock held, or releases one it does
    not hold, the state records it ([qlock_bad], [irq_top]'s result).  What is
    not code of the repository is a parameter: the device's registers ([RegIo],
    with the documented laws [CtxtHw] and [MboxHw], and the executable devices
    [SimHw] and [SimMbox] that satisfy them), the PCI core ([PciIov]), the
    kernel's allocators (their answers are lists in the state), the wait queues
    (their outcome is an argument), the socket of the tool ([Socket]), the
    kernel's generic netlink layer ([Genl], with the executable parser
    [SimGenl]), the files and mappings of the tools ([Bars] with the laws
    [BarLaws] and the executable [SimBars], [FileIo] with [FileLaws] and
    [SimFile]), the memories a descriptor names and what its execution does to
    them ([MmEngine] with the laws [MmLaws] and the executable [SimMem]) or
    sends ([StEngine], [StLaws], [SimStream]), what
    the kernel prints for a pointer or the bytes there ([KPrint] with
    [KPrintLaws]).

    ** Files

    - [Prelude]: machine integers, the state monad, bit fields, record update
      ([r <| f := v |>]), lemmas on lists, tactics.
    - [Regs] (qdma_regs.c, qdma_regs.h): polling, the indirect context
      protocol, global settings, function map, vector map.
    - [Types] (xdev.h, qdma_descq.h, qdma_device.h, libqdma_export.h): the data.
    - [Context] (qdma_context.c): context words; clear, program, read, set up.
    - [Sgl] (qdma_descq.c, xdev.c): the walk over a scatter-gather list and
      [sgt_find_offset].
    - [Descq] (qdma_descq.c): submission of requests, doorbells, writeback of
      the consumer index and completion, for memory-mapped and streaming H2C
      queues.
    - [RxQueue] (qdma_descq.c): the streaming C2H side: writeback ring, free
      list, received pages, reading.
    - [Thread] (qdma_thread.c, thread.c): the threads, their tables and passes.
    - [Resource] (qdma_descq.c): configuration, allocation and release,
      programming of a queue.
    - [Intr] (qdma_intr.c, qdma_device.c): vectors, aggregation rings, the
      handler; lookup of a queue.
    - [Queue] (libqdma_export.c, qdma_device.c): the whole system state
      [sys] and the entry points: device initialisation and cleanup, add,
      configure, start, stop, remove, submit.
    - [Api]: those entry points as a transition system and its invariant.
    - [Transfer] (libqdma_export.c, qdma_thread.c, qdma_descq.c): a
      memory-mapped or streaming H2C transfer from end to end: callers, worker
      thread, device and writeback handler together, as a step relation.
    - [Restart] (libqdma_export.c, qdma_descq.c): a queue through its life:
      from [qdma_queue_add] and [qdma_queue_start] to the transfers of
      [Transfer], and through [qdma_queue_stop] and a second start.
    - [Sriov] (qdma_sriov.c): the table of virtual functions.
    - [Msg] (qdma_mbox.h): messages as 16 words with bit-fields.
    - [Mbox] (qdma_mbox.c): sending, receiving, the timer routines.
    - [MboxHw]: the laws of the mailbox registers, their executable instance,
      and the mailbox calls on them.
    - [MboxServe]: the abstract server [pf_serve] of a physical function and
      the refinement by [pf_mbox_proc].
    - [Vf] (qdma_context.c, qdma_device.c, qdma_sriov.c with [__QDMA_VF__]):
      the virtual function's calls, composed with the server.
    - [Copies] (src/libqdma/qdma_mbox.c): where the second copy of the library
      differs.
    - [PciDev] (xdev.c): the list of devices, the BARs, opening and closing;
      what the kernel grants is a set of resources, and giving back what is not
      held is a fault.
    - [Cstring], [Xnl]: C strings and numbers in them; the constants and the
      attribute layout that the tool and the driver share (nl.h).
    - [Cli] (cmd_parse.c), [NlUser] (nl_user.c): the tool: its command line, its
      requests and how it reads replies.
    - [Cdev] (cdev.c): the character devices; a read or write call.
    - [Xpdev] (qdma_mod.c): the module's table of queues, which composes the
      library's calls with the character devices.
    - [Probe] (qdma_mod.c): the functions the module is attached to: probe,
      remove, and the module's start and end.
    - [Recover] (qdma_mod.c): the handlers of PCI errors.
    - [Dump] (qdma_descq.c, libqdma_export.c): what the dump functions do
      besides printing.
    - [Text] (the same, qdma_mod.c, xdev.c, thread.c): what the dumps and lists
      write into the caller's buffer, and how far.
    - [Nl] (nl.c): the handlers of the tool's commands.
    - [Ctl]: tool and handlers together, with the netlink layer between them.
    - [Dmactl] (regs.c, reg_defs_qdma.c, nl_user.c): the tool's register
      commands and its [main].
    - [Tools] (dma_utils.c, dma_to_device.c, dma_from_device.c): the programs
      that copy files to and from a device.

    ** What the theorems show

    Submission and completion: the descriptors of a request are exactly the
    pieces of its scatter-gather list, in order, in consecutive ring slots
    ([mm_request_descriptors], [st_h2c_request_descriptors]); the ring is a
    first-in-first-out queue of descriptors, each owned by a request
    ([proc_sgt_request_fifo], [descq_mm_n_h2c_wb_fifo]): submission appends to
    it, a writeback removes from its front and completes exactly the requests
    whose last descriptor it removes.  Nothing is lost: a drained ring has
    completed everything ([drained_all_done]), a worker's pass submits the
    requests in order until the ring is full or none is left, and those left
    are the last ones ([wrk_proc_drains]).  Put together
    with a device that executes descriptors and writes its index back, in
    whatever order the parts take their turns: the device executes exactly the
    descriptors of the requests, in the order they were submitted in
    ([transfer_in_order]), nothing gets stuck ([transfer_completes]), and the
    bytes of a completed request are where its caller wanted them
    ([transfer_moves_bytes]) or have gone out on the card's stream in order
    ([transfer_streams_bytes]).  A caller may also ask for what is refused, and
    may give up a request that still waits in the work list.  These are for
    requests that fit in the ring together with those that wait; what happens
    to one that does not is [mm_resume_restarts].  They do not hold when a
    caller gives up - a time-out or a signal - on a request whose descriptors
    are in the ring: the next one then completes early
    ([giveup_in_flight_breaks]).  They hold of every queue that has been added and
    started ([added_queue_idle]), but not of one that has been stopped and
    started again ([restart_completes_early]).

    Reception: a packet's pages go to the receive queue in order with its
    length, up to the first entry with an error ([st_c2h_wb_receives]), reading delivers the byte stream of the
    queue ([rxq_read_stream]), and the waiting reads complete in order
    ([rx_completes_prefix]).

    Queues: adding takes the lowest free queue ([queue_add_lowest]); starting
    either brings the queue up, or leaves it down with nothing allocated, or
    faults when there is no thread to attach it to ([queue_start_outcome]);
    stopping brings it down, and faults when it is not linked in its thread's
    list ([queue_stop_down]); and in every state the API can reach the places
    and flags of the queues are consistent, and so are the counters unless a
    queue is configured for the other direction ([api_reachable_inv],
    [queue_config_miscounts]).

    The device: a context command writes what is read back
    ([hw_indirect_ctext_prog_roundtrip]), set-up leaves exactly the contexts
    built from the queue's settings ([context_setup_ok]) whose fields are those
    settings ([make_sw_context_fields], ..); a busy device gives [-EBUSY].

    Functions: opening a device takes everything it needs or nothing, at
    whatever step it fails, and closing gives everything back once
    ([device_open_balanced], [device_close_releases]); the module's probe and
    remove keep this for all its functions, with the module's own list,
    character devices and regions of device numbers ([probe_balanced],
    [remove_detaches]).  A function
    recovers from a reset with what it had ([reset_recovers]).

    Virtual functions: the physical function's timer routine answers every
    message as the server [pf_serve] does ([pf_mbox_proc_serves]); a virtual
    function's set-up, through a run of that routine, leaves the contexts the
    physical function's own set-up leaves ([vf_setup_programs]), and its read
    gives them back ([vf_read_returns_contexts]); queue
    ranges do not overlap ([vf_queue_range]).

    Control: parsing a command line undoes printing it ([parse_render]) and
    gives well-formed commands only ([parse_cmd_wf]); the message sent for a
    command line makes the driver do what it asks ([control_refines], for every
    command that is sent);
    whatever is sent, in any order and for any of the functions, their tables,
    the character devices and the library stay in step as long as the kernel's
    calls for character devices succeed ([nl_reachable_inv],
    [xpdev_add_tracks], [xpdev_delete_tracks]; otherwise [xpdev_add_garbage]); the tool reads back the attributes of a reply
    ([recv_attrs_reads]).  The register commands address the device the driver
    reports ([device_info_target]) and touch the registers asked for and no
    other, but for the last four addresses, where the tool faults
    ([reg_command_effect]).  A read or write call hands the queue exactly the
    caller's bytes and leaves no page pinned ([cdev_rw_buffer]).
    The list of queues is complete as long as it fits in the buffer of a reply;
    it and the dumps write behind that buffer when it does not
    ([queue_list_bounds], [dev_list_bounds], [dump_desc_bounds],
    [dump_wrb_bounds]).
    What the transfer tools copy to a device they get back
    ([dma_roundtrip]); they always end, with everything closed,
    but for sizes of the last page below 2^64, which overrun their buffer
    ([dma_tools_release]).

    Some theorems state what the code does where that is not what it is meant
    to do: [mm_resume_restarts], [rxq_read_udd_restarts],
    [intr_context_setup_zero], [pf_status_sticks], [queue_config_miscounts],
    [add_work_choice], [queue_remove_releases], [xpdev_add_garbage],
    [cdev_rw_map_fails], [nl_missing_dev_idx], [parse_cmd_undefined],
    [recv_zero_length_diverges], [dump_wrb_consumes], [dump_desc_faults],
    [restart_after_delete_faults], [mod_init_leaves], [mbox_read_copies],
    [zero_address_drifts], [queue_list_bounds], [dump_desc_bounds],
    [dump_wrb_bounds], [failed_reset_faults], [restart_completes_early],
    [giveup_in_flight_breaks], and the exceptions named above.

    ** Bounds and fuel

    [hw_poll] runs as often as the code's countdown, 5000 times for a context
    command and 50000 for the mailbox: the laws bound the device's busy time by
    that.  [read_fuel] bounds the inner loop of [qdma_descq_rxq_read] by the
    bytes asked for and the pages queued: every pass uses up one of them.
    [pf_proc_loop] needs one unit per message waiting and one to see that none
    is left ([pf_mbox_proc_serves] shows that this is enough).  The loop over
    queue parameters uses up an argument each turn ([parse_cmd_wf] and
    [parse_cmd_undefined] show that it never runs out).  [recv_fuel] allows a
    turn for each byte of a reply; attributes of length zero need more than any
    number ([recv_zero_length_diverges]).  [turns] allows the transfer loops one
    turn for each piece and one more ([dma_tools_release]).  The other recursions are structural.

    ** Not modelled

    The one-line messages of the operations ([buf] arguments of adding, starting
    and the like, the tool's usage) and the kernel's log; the tool's register
    output is kept as the arguments of its [printf]s; scheduling of the threads
    and arming of the timer; PCI configuration writes without a result (bus
    mastering, relaxed ordering, error registers); [src/libqdma], which repeats
    [src/drv/libqdma] but for what [Copies] compares and the period of a timer;
    the times the transfer tools print; the build files, scripts and
    documents. *)

From stdpp Require Export base tactics option list numbers gmap.
From Stdlib Require Export ZArith Lia.

#[global] Open Scope Z_scope.

(** ** Machine integers

    A C integer of width [w] is a [Z]; the functions below are the
    conversions to the unsigned types of the driver and to [int]. *)

Definition u8 (x : Z) : Z := x mod 2 ^ 8.
Definition u16 (x : Z) : Z := x mod 2 ^ 16.
Definition u32 (x : Z) : Z := x mod 2 ^ 32.
Definition u64 (x : Z) : Z := x mod 2 ^ 64.
Definition s8 (x : Z) : Z := (x + 2 ^ 7) mod 2 ^ 8 - 2 ^ 7.
Definition s32 (x : Z) : Z := (x + 2 ^ 31) mod 2 ^ 32 - 2 ^ 31.
Definition b2z (b : bool) : Z := if b then 1 else 0.

(** ** Error numbers of the kernel the driver returns (negated) *)

Definition EIO : Z := 5.
Definition EAGAIN : Z := 11.
Definition ENOMEM : Z := 12.
Definition EFAULT : Z := 14.
Definition EBUSY : Z := 16.
Definition EINVAL : Z := 22.
Definition ENOSPC : Z := 28.
Definition ETIME : Z := 62.

(** ** State monad

    Code that reads and writes a state [S] (a device, a queue, a table) is a
    function [S -> A * S]; [x <- m; k] in stdpp's notation sequences it. *)

Definition ST (S A : Type) : Type := S → A * S.

#[export] Instance ST_ret S : MRet (ST S) := λ A a s, (a, s).
#[export] Instance ST_bind S : MBind (ST S) :=
  λ A B f m s, let '(a, s') := m s in f a s'.

Definition st_get {S} : ST S S := λ s, (s, s).
Definition st_put {S} (s : S) : ST S unit := λ _, (tt, s).
Definition st_modify {S} (f : S → S) : ST S unit := λ s, (tt, f s).

(** [rv = m; if (rv < 0) return rv; k rv] *)
Definition or_fail {S} (m : ST S Z) (k : ST S Z) : ST S Z :=
  rv ← m; if rv <? 0 then mret rv else k.

Declare Scope qdma_scope.
Delimit Scope qdma_scope with qdma.
Notation "m ;;? k" := (or_fail m k)
  (at level 100, k at level 200, right associativity) : qdma_scope.
#[global] Open Scope qdma_scope.

Lemma st_bind_eq {S A B} (m : ST S A) (f : A → ST S B) s a s' :
  m s = (a, s') → (m ≫= f) s = f a s'.
Proof. intros E. unfold mbind, ST_bind. by rewrite E. Qed.

Lemma or_fail_ok {S} (m k : ST S Z) s rv s' :
  m s = (rv, s') → 0 <= rv → (m ;;? k) s = k s'.
Proof.
  intros E Hrv. unfold or_fail. rewrite (st_bind_eq _ _ _ _ _ E).
  by destruct (Z.ltb_spec rv 0); [lia|].
Qed.

Lemma or_fail_err {S} (m k : ST S Z) s rv s' :
  m s = (rv, s') → rv < 0 → (m ;;? k) s = (rv, s').
Proof.
  intros E Hrv. unfold or_fail. rewrite (st_bind_eq _ _ _ _ _ E).
  by destruct (Z.ltb_spec rv 0); [|lia].
Qed.

(** ** Bit fields

    [bits_get s w x] is the [w]-bit field of [x] at bit [s]: the C expression
    [(x >> s) & ((1 << w) - 1)]. *)

Definition bits_get (s w x : Z) : Z := Z.land (Z.shiftr x s) (Z.ones w).

(** [or_bits l] is the C expression [x1 | x2 | .. | xn]. *)
Definition or_bits (l : list Z) : Z := foldr Z.lor 0 l.

Lemma ones_mask w : 0 <= w → Z.ones w = 2 ^ w - 1.
Proof. intros. rewrite Z.ones_equiv. lia. Qed.

Lemma testbit_small k x n : 0 <= x < 2 ^ k → k <= n → Z.testbit x n = false.
Proof.
  intros Hx Hn. destruct (decide (0 <= k)) as [Hk|Hk].
  - rewrite <- (Z.mod_small x (2 ^ k)) by lia. by apply Z.mod_pow2_bits_high; lia.
  - rewrite Z.pow_neg_r in Hx by lia. lia.
Qed.

Lemma bits_get_lor s w x y :
  bits_get s w (Z.lor x y) = Z.lor (bits_get s w x) (bits_get s w y).
Proof. unfold bits_get. by rewrite Z.shiftr_lor, Z.land_lor_distr_l. Qed.

Lemma bits_get_0 s w : bits_get s w 0 = 0.
Proof. unfold bits_get. by rewrite Z.shiftr_0_l, Z.land_0_l. Qed.

Lemma bits_get_field s w v :
  0 <= s → 0 <= w → 0 <= v < 2 ^ w → bits_get s w (Z.shiftl v s) = v.
Proof.
  intros Hs Hw Hv. unfold bits_get.
  rewrite Z.shiftr_shiftl_l, Z.sub_diag, Z.shiftl_0_r by lia.
  rewrite Z.land_ones by lia. apply Z.mod_small. lia.
Qed.

Lemma bits_get_above s w t v :
  0 <= s → 0 <= w → s + w <= t → bits_get s w (Z.shiftl v t) = 0.
Proof.
  intros Hs Hw Ht. apply Z.bits_inj'. intros n Hn. unfold bits_get.
  rewrite Z.land_spec, Z.shiftr_spec, Z.bits_0 by lia.
  destruct (decide (n < w)).
  - by rewrite Z.shiftl_spec_low by lia.
  - by rewrite Z.ones_spec_high, andb_false_r by lia.
Qed.

Lemma bits_get_below s w t k v :
  0 <= t → 0 <= k → 0 <= w → 0 <= v < 2 ^ k → t + k <= s →
  bits_get s w (Z.shiftl v t) = 0.
Proof.
  intros Ht Hk Hw Hv Hs. apply Z.bits_inj'. intros n Hn. unfold bits_get.
  rewrite Z.land_spec, Z.shiftr_spec, Z.shiftl_spec, Z.bits_0 by lia.
  by rewrite (testbit_small k) by lia.
Qed.

Lemma bits_get_mod s w k x :
  0 <= s → 0 <= w → s + w <= k → bits_get s w (x mod 2 ^ k) = bits_get s w x.
Proof.
  intros Hs Hw Hk. apply Z.bits_inj'. intros n Hn. unfold bits_get.
  rewrite !Z.land_spec, !Z.shiftr_spec by lia.
  destruct (decide (n < w)).
  - by rewrite Z.mod_pow2_bits_low by lia.
  - by rewrite Z.ones_spec_high, !andb_false_r by lia.
Qed.

Lemma bits_get_small w x : 0 <= w → 0 <= x < 2 ^ w → bits_get 0 w x = x.
Proof. intros. rewrite <- (Z.shiftl_0_r x) at 1. by apply bits_get_field. Qed.

Lemma bits_get_range s w x : 0 <= w → 0 <= bits_get s w x < 2 ^ w.
Proof.
  intros. unfold bits_get. rewrite Z.land_ones by lia. apply Z.mod_pos_bound. lia.
Qed.

Lemma lor_0_iff a b : Z.lor a b = 0 ↔ a = 0 ∧ b = 0.
Proof. apply Z.lor_eq_0_iff. Qed.

Lemma lor_bound k a b : 0 <= k → 0 <= a < 2 ^ k → 0 <= b < 2 ^ k → 0 <= Z.lor a b < 2 ^ k.
Proof.
  intros Hk Ha Hb. split; [by apply Z.lor_nonneg; lia|].
  destruct (decide (Z.lor a b = 0)) as [->|Hn]; [lia|].
  apply Z.log2_lt_pow2; [pose proof (proj2 (Z.lor_nonneg a b)); lia|].
  rewrite Z.log2_lor by lia.
  destruct (decide (k = 0)) as [->|]; [change (2 ^ 0) with 1 in *; replace a with 0 in * by lia; replace b with 0 in * by lia; by rewrite Z.lor_0_r in Hn|].
  apply Z.max_lub_lt;
    match goal with |- Z.log2 ?x < _ => destruct (decide (x = 0)) as [->|]; [cbn; lia|apply Z.log2_lt_pow2; lia] end.
Qed.

(** Bit [n] of a word, as the test [v & (1 << n)] of the code. *)
Lemma land_pow2_testbit x n :
  0 <= n → Z.land x (2 ^ n) = if Z.testbit x n then 2 ^ n else 0.
Proof.
  intros Hn. apply Z.bits_inj'. intros m Hm.
  rewrite Z.land_spec, Z.pow2_bits_eqb by lia.
  destruct (Z.eqb_spec n m) as [->|Hne].
  - rewrite andb_true_r. destruct (Z.testbit x m).
    + by rewrite Z.pow2_bits_true.
    + by rewrite Z.bits_0.
  - rewrite andb_false_r. destruct (Z.testbit x n).
    + symmetry. apply Z.pow2_bits_false. lia.
    + by rewrite Z.bits_0.
Qed.

(** ** Lists *)

Lemma repeat_const_replicate {A} (x : A) n : map (λ _, x) (seq 0 n) = replicate n x.
Proof.
  generalize 0%nat. induction n as [|n IH]; intros k; [done|]. cbn. by rewrite IH.
Qed.

Lemma elem_of_take_in {A} (x : A) n l : x ∈ take n l → x ∈ l.
Proof. intros Hx. rewrite <- (take_drop n l). apply elem_of_app. by left. Qed.

Lemma elem_of_drop_in {A} (x : A) n l : x ∈ drop n l → x ∈ l.
Proof. intros Hx. rewrite <- (take_drop n l). apply elem_of_app. by right. Qed.

Lemma filter_all {A} (P : A → Prop) `{!∀ x, Decision (P x)} (l : list A) :
  (∀ x, x ∈ l → P x) → filter P l = l.
Proof.
  induction l as [|x l IH]; intros Hl; [done|].
  rewrite filter_cons_True by (apply Hl; left). f_equal. apply IH. intros y Hy. apply Hl. by right.
Qed.

Lemma filter_iff_in {A} (P Q : A → Prop) `{!∀ x, Decision (P x), !∀ x, Decision (Q x)} (l : list A) :
  (∀ x, x ∈ l → P x ↔ Q x) → filter P l = filter Q l.
Proof.
  induction l as [|x l IH]; intros Hpq; [done|].
  rewrite !filter_cons, IH by (intros y Hy; apply Hpq; by right).
  specialize (Hpq x ltac:(by left)). repeat case_decide; tauto.
Qed.

Lemma filter_none {A} (P : A → Prop) `{!∀ x, Decision (P x)} (l : list A) :
  (∀ x, x ∈ l → ¬ P x) → filter P l = [].
Proof.
  induction l as [|x l IH]; intros Hl; [done|].
  rewrite filter_cons_False by (apply Hl; left). apply IH. intros y Hy. apply Hl. by right.
Qed.

Definition sumZ (l : list Z) : Z := foldr Z.add 0 l.

Lemma sumZ_app l k : sumZ (l ++ k) = sumZ l + sumZ k.
Proof. induction l as [|x l IH]; cbn; [done|]. unfold sumZ in *. lia. Qed.

Lemma sumZ_map_insert {A} (f : A → Z) l i x y :
  l !! i = Some x → sumZ (map f (<[i:=y]> l)) = sumZ (map f l) - f x + f y.
Proof.
  revert i. induction l as [|z l IH]; intros [|i] H; try done.
  - injection H as ->. change (f y + sumZ (map f l) = f x + sumZ (map f l) - f x + f y). lia.
  - change (f z + sumZ (map f (<[i:=y]> l)) = f z + sumZ (map f l) - f x + f y). rewrite (IH i H). lia.
Qed.

Lemma sumZ_nonneg l : Forall (λ x, 0 <= x) l → 0 <= sumZ l.
Proof. induction 1; cbn in *; [lia|]. unfold sumZ in *. lia. Qed.

(** The number a little-endian sequence of bytes stands for. *)
Fixpoint le_get (l : list Z) : Z :=
  match l with
  | [] => 0
  | b :: l => b + 2 ^ 8 * le_get l
  end.

(** [array l i] reads an array at an index known to be in range; [0] outside. *)
Definition array (l : list Z) (i : nat) : Z := nth i l 0.

(** ** Record update

    [r <| f := v |>] is the C assignment [r->f = v].  A record type becomes
    updatable by an instance of [Settable]: its eta expansion, in which the
    setter of a field replaces the projection of that field. *)

Class Settable (R : Type) := eta : R → R.
Class Setter {R T : Type} (proj : R → T) := set : (T → T) → R → R.
Arguments set {R T} proj {_} f r /.

Ltac make_setter R T proj :=
  let e := constr:(@eta R _) in
  let e := eval hnf in e in
  match eval pattern proj in e with
  | ?upd _ =>
      let u := eval cbv beta in (λ (f : T → T), upd (λ r : R, f (proj r))) in
      exact u
  end.

#[export] Hint Extern 1 (@Setter ?R ?T ?proj) => make_setter R T proj : typeclass_instances.

Notation "r <| f := v |>" := (set f (λ _, v) r)
  (at level 1, left associativity, format "r <| f  :=  v |>") : qdma_scope.
Notation "r <| f ::= g |>" := (set f g r)
  (at level 1, left associativity, format "r <| f  ::=  g |>") : qdma_scope.

(** ** Automation *)

Create HintDb qdma.
Create Rewrite HintDb qdma_len.
#[export] Hint Rewrite @length_app @length_replicate @length_insert @length_fmap : qdma_len.

(** Reduce the projections of a record literal and the state monad. *)
Ltac st_simpl := cbn [mbind mret ST_ret ST_bind st_get st_put st_modify fst snd] in *.

(** Run the first action of a sequence: name its result and next state. *)
Tactic Notation "st_run" "as" simple_intropattern(p) "eqn" ":" ident(E) :=
  match goal with
  | |- context [mbind ?f ?m ?s] =>
      destruct (m s) as p eqn:E; rewrite (st_bind_eq m f s _ _ E); cbv beta
  end.

(** Case analysis on the boolean comparisons of the code. *)
Ltac zcmp :=
  repeat match goal with
  | |- context [?a =? ?b] => destruct (Z.eqb_spec a b)
  | |- context [?a <? ?b] => destruct (Z.ltb_spec a b)
  | |- context [?a <=? ?b] => destruct (Z.leb_spec a b)
  | H : context [?a =? ?b] |- _ => destruct (Z.eqb_spec a b)
  | H : context [?a <? ?b] |- _ => destruct (Z.ltb_spec a b)
  | H : context [?a <=? ?b] |- _ => destruct (Z.leb_spec a b)
  end.

(** Evaluate the fields of a packed word: every shifted component is either
    the field itself, or lies above or below it. *)
Ltac bits_field :=
  repeat first
    [ rewrite bits_get_lor
    | rewrite bits_get_0
    | rewrite bits_get_mod by lia ];
  repeat match goal with
  | |- context [bits_get ?s ?w (Z.shiftl ?v ?t)] =>
      first
        [ rewrite (bits_get_field s w v) by lia
        | rewrite (bits_get_above s w t v) by lia
        | rewrite (bits_get_below s w t 1 v) by lia
        | rewrite (bits_get_below s w t 2 v) by lia
        | rewrite (bits_get_below s w t 3 v) by lia
        | rewrite (bits_get_below s w t 4 v) by lia
        | rewrite (bits_get_below s w t 8 v) by lia
        | rewrite (bits_get_below s w t 11 v) by lia
        | rewrite (bits_get_below s w t 16 v) by lia
        | rewrite (bits_get_below s w t 22 v) by lia ]
  end;
  rewrite ?Z.lor_0_l, ?Z.lor_0_r.
