(* ===== verification/Regs.v ===== *)
(** * Register access (qdma_regs.h, qdma_regs.c)

    The memory-mapped registers of the device, the polling loop and the
    indirect context protocol of [src/drv/libqdma/qdma_regs.c].  The device is
    not code of the repository: it is a parameter [D] with the operations of
    the class [RegIo]; what the driver relies on is stated by the laws of the
    class [CtxtHw], which the executable device [SimHw] satisfies. *)

From S2P Require Import Prelude.

(** ** The device interface *)

(** [readl], [writel] and [udelay] on a device of type [D]; the address is the
    offset in the register BAR ([xdev->regs + reg]). *)
Class RegIo (D : Type) := {
  readl : Z → ST D Z;
  writel : Z → Z → ST D unit;
  udelay : Z → ST D unit
}.

(** ** Registers (physical function) *)

Definition QDMA_REG_POLL_DFLT_INTERVAL_US : Z := 100.
Definition QDMA_REG_POLL_DFLT_TIMEOUT_US : Z := 500 * 1000.
Definition RNG_SZ_DFLT : Z := 256.
Definition WRB_RNG_SZ_DFLT : Z := 256.
Definition C2H_TIMER_CNT_DFLT : Z := 0x1.
Definition C2H_CNT_TH_DFLT : Z := 0x1.
Definition PAGE_SIZE : Z := 4096.
Definition C2H_BUF_SZ_DFLT : Z := PAGE_SIZE.

Definition QDMA_REG_FUNC_ID : Z := 0x12C.
Definition QDMA_REG_GLBL_RNG_SZ_BASE : Z := 0x204.
Definition QDMA_REG_GLBL_RNG_SZ_COUNT : nat := 16.
Definition QDMA_REG_GLBL_WB_ACC : Z := 0x250.
Definition QDMA_REG_C2H_TIMER_CNT_BASE : Z := 0xA00.
Definition QDMA_REG_C2H_TIMER_CNT_COUNT : nat := 16.
Definition QDMA_REG_C2H_CNT_TH_BASE : Z := 0xA40.
Definition QDMA_REG_C2H_CNT_TH_COUNT : nat := 16.
Definition QDMA_REG_C2H_BUF_SZ_BASE : Z := 0xAB0.
Definition QDMA_REG_C2H_BUF_SZ_COUNT : nat := 16.

Definition QDMA_REG_TRQ_SEL_FMAP_BASE : Z := 0x400.
Definition QDMA_REG_TRQ_SEL_FMAP_STEP : Z := 0x4.
Definition SEL_FMAP_QID_BASE_SHIFT : Z := 0.
Definition SEL_FMAP_QID_BASE_MASK : Z := 0x7FF.
Definition SEL_FMAP_QID_MAX_SHIFT : Z := 11.
Definition SEL_FMAP_QID_MAX_MASK : Z := 0xFFF.

Definition QDMA_REG_C2H_QID2VEC_MAP_QID : Z := 0xa80.
Definition C2H_QID2VEC_MAP_QID_C2H_VEC_SHIFT : Z := 0.
Definition C2H_QID2VEC_MAP_QID_C2H_VEC_MASK : Z := 0xFF.
Definition C2H_QID2VEC_MAP_QID_C2H_COALEN_SHIFT : Z := 8.
Definition C2H_QID2VEC_MAP_QID_H2C_VEC_SHIFT : Z := 9.
Definition C2H_QID2VEC_MAP_QID_H2C_VEC_MASK : Z := 0xFF.
Definition C2H_QID2VEC_MAP_QID_H2C_COALEN_SHIFT : Z := 18.
Definition QDMA_REG_C2H_QID2VEC_MAP : Z := 0xa84.

Definition QDMA_REG_IND_CTXT_REG_COUNT : nat := 4.
Definition QDMA_REG_IND_CTXT_DATA_BASE : Z := 0x804.
Definition QDMA_REG_IND_CTXT_MASK_BASE : Z := 0x814.
Definition QDMA_REG_IND_CTXT_CMD : Z := 0x824.
Definition IND_CTXT_CMD_QID_SHIFT : Z := 7.
Definition IND_CTXT_CMD_QID_MASK : Z := 0x7FF.
Definition IND_CTXT_CMD_OP_SHIFT : Z := 5.
Definition IND_CTXT_CMD_OP_MASK : Z := 0x3.
Definition IND_CTXT_CMD_SEL_SHIFT : Z := 1.
Definition IND_CTXT_CMD_SEL_MASK : Z := 0xF.
Definition IND_CTXT_CMD_BUSY_MASK : Z := 0x1.

Definition QDMA_REG_MM_CONTROL_RUN : Z := 0x1.
Definition QDMA_REG_MM_CONTROL_STEP : Z := 0x100.
Definition QDMA_REG_C2H_MM_CONTROL_BASE : Z := 0x1004.
Definition QDMA_REG_H2C_MM_CONTROL_BASE : Z := 0x1204.

Definition QDMA_REG_PIDX_STEP : Z := 0x10.
Definition QDMA_REG_INT_CIDX_BASE : Z := 0x6400.
Definition QDMA_REG_H2C_PIDX_BASE : Z := 0x6404.
Definition QDMA_REG_C2H_PIDX_BASE : Z := 0x6408.
Definition QDMA_REG_WRB_CIDX_BASE : Z := 0x640C.

Inductive ind_ctxt_cmd_op :=
  QDMA_CTXT_CMD_CLR | QDMA_CTXT_CMD_WR | QDMA_CTXT_CMD_RD | QDMA_CTXT_CMD_INV.

Definition op_z (op : ind_ctxt_cmd_op) : Z :=
  match op with
  | QDMA_CTXT_CMD_CLR => 0 | QDMA_CTXT_CMD_WR => 1
  | QDMA_CTXT_CMD_RD => 2 | QDMA_CTXT_CMD_INV => 3
  end.

Inductive ind_ctxt_cmd_sel :=
  QDMA_CTXT_SEL_SW_C2H | QDMA_CTXT_SEL_SW_H2C | QDMA_CTXT_SEL_HW_C2H
| QDMA_CTXT_SEL_HW_H2C | QDMA_CTXT_SEL_CR_C2H | QDMA_CTXT_SEL_CR_H2C
| QDMA_CTXT_SEL_WRB | QDMA_CTXT_SEL_PFTCH | QDMA_CTXT_SEL_COAL.

Definition sel_z (sel : ind_ctxt_cmd_sel) : Z :=
  match sel with
  | QDMA_CTXT_SEL_SW_C2H => 0 | QDMA_CTXT_SEL_SW_H2C => 1
  | QDMA_CTXT_SEL_HW_C2H => 2 | QDMA_CTXT_SEL_HW_H2C => 3
  | QDMA_CTXT_SEL_CR_C2H => 4 | QDMA_CTXT_SEL_CR_H2C => 5
  | QDMA_CTXT_SEL_WRB => 6 | QDMA_CTXT_SEL_PFTCH => 7
  | QDMA_CTXT_SEL_COAL => 8
  end.

#[export] Instance op_eq_dec : EqDecision ind_ctxt_cmd_op.
Proof. solve_decision. Defined.
#[export] Instance sel_eq_dec : EqDecision ind_ctxt_cmd_sel.
Proof. solve_decision. Defined.

(** ** Operations *)

Section ops.
Context {D : Type} `{!RegIo D}.

(** The number of times the body of [do { .. } while (--count)] runs for an
    [int count]: [--count] wraps in 32 bits, so a count of 0 is [2^32]. *)
Definition do_while_iters (count : Z) : Z :=
  if u32 count =? 0 then 2 ^ 32 else u32 count.

(** [n] rounds of [read, compare, udelay], then the last read. *)
Fixpoint hw_poll (n : nat) (reg mask val interval_us : Z) : ST D Z :=
  match n with
  | O =>
      v ← readl reg;
      if Z.land v mask =? val then mret 1 else mret (- EBUSY)
  | S n' =>
      v ← readl reg;
      if Z.land v mask =? val then mret 1
      else _ ← udelay interval_us; hw_poll n' reg mask val interval_us
  end.

Definition hw_monitor_reg (reg mask val interval_us timeout_us : Z) : ST D Z :=
  let interval_us :=
    if interval_us =? 0 then QDMA_REG_POLL_DFLT_INTERVAL_US else interval_us in
  let timeout_us :=
    if timeout_us =? 0 then QDMA_REG_POLL_DFLT_TIMEOUT_US else timeout_us in
  let count := s32 (timeout_us / interval_us) in
  hw_poll (Z.to_nat (do_while_iters count)) reg mask val interval_us.

(** [for (..; reg += 4) __write_reg(xdev, reg, l[i])] *)
Fixpoint write_regs (reg : Z) (l : list Z) : ST D unit :=
  match l with
  | [] => mret tt
  | v :: l' => _ ← writel reg v; write_regs (reg + 4) l'
  end.

(** [for (..; reg += 4) l[i] = __read_reg(xdev, reg)] *)
Fixpoint read_regs (reg : Z) (n : nat) : ST D (list Z) :=
  match n with
  | O => mret []
  | S n' => v ← readl reg; l ← read_regs (reg + 4) n'; mret (v :: l)
  end.

Definition hw_set_global_csr : ST D unit :=
  _ ← writel QDMA_REG_GLBL_WB_ACC 0x1;
  _ ← write_regs QDMA_REG_GLBL_RNG_SZ_BASE
        (replicate QDMA_REG_GLBL_RNG_SZ_COUNT (RNG_SZ_DFLT + 1));
  _ ← write_regs QDMA_REG_C2H_BUF_SZ_BASE
        (replicate QDMA_REG_C2H_BUF_SZ_COUNT C2H_BUF_SZ_DFLT);
  _ ← write_regs QDMA_REG_C2H_TIMER_CNT_BASE
        (replicate QDMA_REG_C2H_TIMER_CNT_COUNT C2H_TIMER_CNT_DFLT);
  write_regs QDMA_REG_C2H_CNT_TH_BASE
        (replicate QDMA_REG_C2H_CNT_TH_COUNT C2H_CNT_TH_DFLT).

Definition mm_control_reg (channel : Z) (c2h : bool) : Z :=
  (if c2h then QDMA_REG_H2C_MM_CONTROL_BASE else QDMA_REG_C2H_MM_CONTROL_BASE)
  + channel * QDMA_REG_MM_CONTROL_STEP.

Definition hw_mm_channel_enable (channel : Z) (c2h : bool) : ST D unit :=
  writel (mm_control_reg channel c2h) QDMA_REG_MM_CONTROL_RUN.

Definition hw_mm_channel_disable (channel : Z) (c2h : bool) : ST D unit :=
  writel (mm_control_reg channel c2h) 0.

(** The word of the function map register; [qbase] and [qmax] are [unsigned]. *)
Definition fmap_word (qbase qmax : Z) : Z :=
  Z.lor (u32 (Z.shiftl qbase SEL_FMAP_QID_BASE_SHIFT))
        (u32 (Z.shiftl qmax SEL_FMAP_QID_MAX_SHIFT)).

Definition hw_set_fmap (func_id qbase qmax : Z) : ST D unit :=
  writel (QDMA_REG_TRQ_SEL_FMAP_BASE + func_id * QDMA_REG_TRQ_SEL_FMAP_STEP)
         (fmap_word qbase qmax).

Definition ind_ctxt_cmd (qid_hw : Z) (op : ind_ctxt_cmd_op) (sel : ind_ctxt_cmd_sel) : Z :=
  u32 (Z.lor (Z.lor (Z.shiftl qid_hw IND_CTXT_CMD_QID_SHIFT)
                    (Z.shiftl (op_z op) IND_CTXT_CMD_OP_SHIFT))
             (Z.shiftl (sel_z sel) IND_CTXT_CMD_SEL_SHIFT)).

(** The preparation of a [WR] or [RD] command: the arguments are checked,
    the mask registers opened and, for [WR], the data registers filled. *)
Definition ind_ctxt_prepare (op : ind_ctxt_cmd_op) (data : option (list Z)) (cnt : Z)
    : ST D Z :=
  if decide (op = QDMA_CTXT_CMD_WR ∨ op = QDMA_CTXT_CMD_RD) then
    if (cnt =? 0) || (Z.of_nat QDMA_REG_IND_CTXT_REG_COUNT <? cnt) then mret (- EINVAL)
    else match data with
    | None => mret (- EINVAL)
    | Some l =>
        _ ← write_regs QDMA_REG_IND_CTXT_MASK_BASE
              (replicate QDMA_REG_IND_CTXT_REG_COUNT 0xFFFFFFFF);
        if decide (op = QDMA_CTXT_CMD_WR) then
          _ ← write_regs QDMA_REG_IND_CTXT_DATA_BASE
                (map (array l) (seq 0 (Z.to_nat cnt)) ++
                 replicate (QDMA_REG_IND_CTXT_REG_COUNT - Z.to_nat cnt) 0);
          mret 0
        else mret 0
    end
  else mret 0.

(** [hw_indirect_ctext_prog]: the return code and the buffer [data] points to
    (overwritten by a [RD]). *)
Definition hw_indirect_ctext_prog (qid_hw : Z) (op : ind_ctxt_cmd_op)
    (sel : ind_ctxt_cmd_sel) (data : option (list Z)) (cnt : Z) (verify : bool)
    : ST D (Z * option (list Z)) :=
  rv ← ind_ctxt_prepare op data cnt;
  if rv <? 0 then mret (rv, data) else
  _ ← writel QDMA_REG_IND_CTXT_CMD (ind_ctxt_cmd qid_hw op sel);
  rv ← hw_monitor_reg QDMA_REG_IND_CTXT_CMD IND_CTXT_CMD_BUSY_MASK 0 100 (500 * 1000);
  if rv <? 0 then mret (- EBUSY, data) else
  if decide (op = QDMA_CTXT_CMD_RD) then
    l ← read_regs QDMA_REG_IND_CTXT_DATA_BASE (Z.to_nat cnt);
    mret (0, (λ d, l ++ drop (Z.to_nat cnt) d) <$> data)
  else if negb verify then mret (0, data) else
  _ ← writel QDMA_REG_IND_CTXT_CMD (ind_ctxt_cmd qid_hw QDMA_CTXT_CMD_RD sel);
  rv ← hw_monitor_reg QDMA_REG_IND_CTXT_CMD IND_CTXT_CMD_BUSY_MASK 0 100 (500 * 1000);
  if rv <? 0 then mret (rv, data) else
  rd ← read_regs QDMA_REG_IND_CTXT_DATA_BASE (Z.to_nat cnt);
  if decide (take (Z.to_nat cnt) (default [] data) = rd)
  then mret (0, data) else mret (- EINVAL, data).

(** The word [hw_prog_qid2vec] writes back, from the word [v] it reads. *)
Definition qid2vec_word (v : Z) (c2h : bool) (intr_id : Z) (intr_coal_en : bool) : Z :=
  let mask := if c2h then C2H_QID2VEC_MAP_QID_C2H_VEC_MASK
              else C2H_QID2VEC_MAP_QID_H2C_VEC_MASK in
  let shift := if c2h then C2H_QID2VEC_MAP_QID_C2H_VEC_SHIFT
               else C2H_QID2VEC_MAP_QID_H2C_VEC_SHIFT in
  let coal_shift := if c2h then C2H_QID2VEC_MAP_QID_C2H_COALEN_SHIFT
                    else C2H_QID2VEC_MAP_QID_H2C_COALEN_SHIFT in
  let v := Z.land v (u32 (Z.lnot (Z.shiftl mask shift))) in
  let v := Z.lor v (u32 (Z.shiftl intr_id shift)) in
  if intr_coal_en then Z.lor v (Z.shiftl 1 coal_shift) else v.

Definition hw_prog_qid2vec (qid_hw : Z) (c2h : bool) (intr_id : Z) (intr_coal_en : bool)
    : ST D unit :=
  _ ← writel QDMA_REG_C2H_QID2VEC_MAP_QID qid_hw;
  v ← readl QDMA_REG_C2H_QID2VEC_MAP;
  writel QDMA_REG_C2H_QID2VEC_MAP (qid2vec_word v c2h intr_id intr_coal_en).

End ops.

(** ** What the driver relies on: the indirect context interface

    [ctxt_view] is what the device documentation promises of the registers
    [QDMA_REG_IND_CTXT_*]: four data registers, four mask registers and one
    table of four-word contexts indexed by queue and context type. *)

Record ctxt_view := CtxtView {
  cv_data : list Z;
  cv_mask : list Z;
  cv_ctxt : gmap (Z * Z) (list Z)
}.

Definition ctxt_zero : list Z := [0; 0; 0; 0].

Definition cv_get (v : ctxt_view) (qid sel : Z) : list Z :=
  default ctxt_zero (cv_ctxt v !! (qid, sel)).

Definition cv_put (v : ctxt_view) (qid sel : Z) (w : list Z) : ctxt_view :=
  CtxtView (cv_data v) (cv_mask v) (<[(qid, sel) := w]> (cv_ctxt v)).

(** Writing one data or mask register. *)
Definition cv_set_data (i : nat) (w : Z) (v : ctxt_view) : ctxt_view :=
  CtxtView (<[i := w]> (cv_data v)) (cv_mask v) (cv_ctxt v).
Definition cv_set_mask (i : nat) (w : Z) (v : ctxt_view) : ctxt_view :=
  CtxtView (cv_data v) (<[i := w]> (cv_mask v)) (cv_ctxt v).

(** The words the mask selects are replaced, the others kept. *)
Definition mask_merge (data mask old : list Z) : list Z :=
  zip_with (λ dm o, Z.lor (Z.land dm.1 dm.2) (Z.land o (u32 (Z.lnot dm.2))))
    (zip data mask) old.

(** One command written to [QDMA_REG_IND_CTXT_CMD]; [INV] is not used. *)
Definition cv_exec (w : Z) (v : ctxt_view) : ctxt_view :=
  let qid := bits_get IND_CTXT_CMD_QID_SHIFT 11 w in
  let op := bits_get IND_CTXT_CMD_OP_SHIFT 2 w in
  let sel := bits_get IND_CTXT_CMD_SEL_SHIFT 4 w in
  if op =? 0 then cv_put v qid sel ctxt_zero
  else if op =? 1 then
    cv_put v qid sel (mask_merge (cv_data v) (cv_mask v) (cv_get v qid sel))
  else if op =? 2 then CtxtView (cv_get v qid sel) (cv_mask v) (cv_ctxt v)
  else v.

Definition is_ctxt_reg (reg : Z) : bool :=
  (QDMA_REG_IND_CTXT_DATA_BASE <=? reg) && (reg <=? QDMA_REG_IND_CTXT_CMD).

(** The laws: register writes and reads act on the view as documented, and
    after a command the busy bit clears within the driver's polling time. *)
Class CtxtHw (D : Type) `{!RegIo D} := {
  ch_view : D → ctxt_view;
  ch_busy : D → nat;
  ch_max_busy : nat;
  ch_max_busy_le : (ch_max_busy <= 5000)%nat;
  ch_write_data : ∀ (i : nat) w d, (i < 4)%nat →
    let d' := (writel (QDMA_REG_IND_CTXT_DATA_BASE + 4 * Z.of_nat i) w d).2 in
    ch_view d' = cv_set_data i w (ch_view d) ∧ ch_busy d' = ch_busy d;
  ch_write_mask : ∀ (i : nat) w d, (i < 4)%nat →
    let d' := (writel (QDMA_REG_IND_CTXT_MASK_BASE + 4 * Z.of_nat i) w d).2 in
    ch_view d' = cv_set_mask i w (ch_view d) ∧ ch_busy d' = ch_busy d;
  ch_write_cmd : ∀ w d, ch_busy d = 0%nat →
    let d' := (writel QDMA_REG_IND_CTXT_CMD w d).2 in
    ch_view d' = cv_exec w (ch_view d) ∧ (ch_busy d' <= ch_max_busy)%nat;
  ch_write_other : ∀ reg w d, is_ctxt_reg reg = false →
    let d' := (writel reg w d).2 in
    ch_view d' = ch_view d ∧ ch_busy d' = ch_busy d;
  ch_read_cmd : ∀ d,
    let '(w, d') := readl QDMA_REG_IND_CTXT_CMD d in
    ch_view d' = ch_view d ∧ ch_busy d' = ch_busy d ∧
    (Z.testbit w 0 = true ↔ ch_busy d ≠ 0%nat);
  ch_read_data : ∀ (i : nat) d, (i < 4)%nat →
    let '(w, d') := readl (QDMA_REG_IND_CTXT_DATA_BASE + 4 * Z.of_nat i) d in
    ch_view d' = ch_view d ∧ ch_busy d' = ch_busy d ∧
    (ch_busy d = 0%nat → w = array (cv_data (ch_view d)) i);
  ch_read_other : ∀ reg d, is_ctxt_reg reg = false →
    let d' := (readl reg d).2 in ch_view d' = ch_view d ∧ ch_busy d' = ch_busy d;
  ch_delay : ∀ us d,
    let d' := (udelay us d).2 in
    ch_view d' = ch_view d ∧ (ch_busy d' <= Nat.pred (ch_busy d))%nat
}.

(** Four data words, four mask words, every word 32 bits wide. *)
Definition word32 (w : Z) : Prop := 0 <= w < 2 ^ 32.
Definition words4 (l : list Z) : Prop := length l = 4%nat ∧ Forall word32 l.

Record ctxt_view_wf (v : ctxt_view) : Prop := {
  cv_data_wf : words4 (cv_data v);
  cv_mask_wf : words4 (cv_mask v);
  cv_ctxt_wf : ∀ k w, cv_ctxt v !! k = Some w → words4 w
}.

(** Idle and well formed: the state between two driver calls. *)
Definition ctxt_idle {D} `{CtxtHw D} (d : D) : Prop :=
  ch_busy d = 0%nat ∧ ctxt_view_wf (ch_view d).

(** ** An executable device *)

Module SimHw.

Record t := Sim {
  regs : gmap Z Z;
  view : ctxt_view;
  busy : nat;
  latency : nat   (* polls a command takes, at most 5000 *)
}.

Definition data_index (base reg : Z) : option nat :=
  if (base <=? reg) && (reg <? base + 16) && ((reg - base) mod 4 =? 0)
  then Some (Z.to_nat ((reg - base) / 4)) else None.

Definition read (reg : Z) : ST t Z := λ d,
  if reg =? QDMA_REG_IND_CTXT_CMD then (if Nat.eqb (busy d) 0 then 0 else 1, d) else
  match data_index QDMA_REG_IND_CTXT_DATA_BASE reg with
  | Some i => (array (cv_data (view d)) i, d)
  | None => (default 0 (regs d !! reg), d)
  end.

Definition write (reg w : Z) : ST t unit := λ d,
  let v := view d in
  if reg =? QDMA_REG_IND_CTXT_CMD then
    (tt, Sim (regs d) (cv_exec w v) (Nat.min (latency d) 5000) (latency d))
  else match data_index QDMA_REG_IND_CTXT_DATA_BASE reg with
  | Some i => (tt, Sim (regs d) (cv_set_data i w v) (busy d) (latency d))
  | None =>
    match data_index QDMA_REG_IND_CTXT_MASK_BASE reg with
    | Some i => (tt, Sim (regs d) (cv_set_mask i w v) (busy d) (latency d))
    | None => (tt, Sim (<[reg := w]> (regs d)) v (busy d) (latency d))
    end
  end.

Definition delay (us : Z) : ST t unit := λ d,
  (tt, Sim (regs d) (view d) (Nat.pred (busy d)) (latency d)).

#[export] Instance io : RegIo t := {| readl := read; writel := write; udelay := delay |}.

Definition init (latency : nat) : t :=
  Sim ∅ (CtxtView ctxt_zero ctxt_zero ∅) 0 latency.

Lemma data_index_base (base : Z) (i : nat) :
  (i < 4)%nat → data_index base (base + 4 * Z.of_nat i) = Some i.
Proof.
  intros Hi. unfold data_index.
  replace (base + 4 * Z.of_nat i - base) with (Z.of_nat i * 4) by lia.
  rewrite Z_mod_mult, Z_div_mult, Nat2Z.id by lia.
  zcmp; [done|lia..].
Qed.

Lemma data_index_None base reg :
  (reg < base ∨ base + 16 <= reg) → data_index base reg = None.
Proof.
  intros H. unfold data_index.
  destruct (Z.leb_spec base reg), (Z.ltb_spec reg (base + 16)); cbn; done || lia.
Qed.

Lemma io_read_cases reg d : (read reg d).2 = d.
Proof. unfold read. by repeat case_match. Qed.

#[export] Program Instance hw : CtxtHw t :=
  {| ch_view := view; ch_busy := busy; ch_max_busy := 5000 |}.
Next Obligation. lia. Qed.
Next Obligation.
  intros i w d Hi. cbn [writel io]. unfold write.
  destruct (Z.eqb_spec (QDMA_REG_IND_CTXT_DATA_BASE + 4 * Z.of_nat i) QDMA_REG_IND_CTXT_CMD)
    as [E|_]; [unfold QDMA_REG_IND_CTXT_DATA_BASE, QDMA_REG_IND_CTXT_CMD in E; lia|].
  by rewrite data_index_base.
Qed.
Next Obligation.
  intros i w d Hi. cbn [writel io]. unfold write.
  destruct (Z.eqb_spec (QDMA_REG_IND_CTXT_MASK_BASE + 4 * Z.of_nat i) QDMA_REG_IND_CTXT_CMD)
    as [E|_]; [unfold QDMA_REG_IND_CTXT_MASK_BASE, QDMA_REG_IND_CTXT_CMD in E; lia|].
  rewrite data_index_None
    by (unfold QDMA_REG_IND_CTXT_MASK_BASE, QDMA_REG_IND_CTXT_DATA_BASE; lia).
  by rewrite data_index_base.
Qed.
Next Obligation.
  intros w d Hb. cbn [writel io]. unfold write. rewrite Z.eqb_refl. cbn. split; [done|lia].
Qed.
Next Obligation.
  intros reg w d Hr. cbn [writel io]. unfold write, is_ctxt_reg in *.
  unfold QDMA_REG_IND_CTXT_CMD, QDMA_REG_IND_CTXT_DATA_BASE, QDMA_REG_IND_CTXT_MASK_BASE in *.
  apply andb_false_iff in Hr. rewrite !Z.leb_gt in Hr.
  destruct (Z.eqb_spec reg 0x824); [lia|]. by rewrite !data_index_None by lia.
Qed.
Next Obligation.
  intros d. cbn [readl io]. unfold read. rewrite Z.eqb_refl. cbn.
  split_and!; [done..|]. destruct (busy d); cbn; naive_solver.
Qed.
Next Obligation.
  intros i d Hi. cbn [readl io]. unfold read.
  destruct (Z.eqb_spec (QDMA_REG_IND_CTXT_DATA_BASE + 4 * Z.of_nat i) QDMA_REG_IND_CTXT_CMD)
    as [E|_]; [unfold QDMA_REG_IND_CTXT_DATA_BASE, QDMA_REG_IND_CTXT_CMD in E; lia|].
  by rewrite data_index_base.
Qed.
Next Obligation. intros reg d Hr. cbn [readl io]. by rewrite io_read_cases. Qed.
Next Obligation. intros us d. cbn. split; [done|lia]. Qed.

Lemma init_idle latency : ctxt_idle (init latency).
Proof.
  split; [done|]. split; cbn.
  - split; [done|]. repeat constructor; unfold word32; lia.
  - split; [done|]. repeat constructor; unfold word32; lia.
  - intros k w H. by rewrite lookup_empty in H.
Qed.

End SimHw.

#[export] Existing Instances SimHw.io SimHw.hw.

(** ** Lemmas on the operations *)

Section laws.
Context {D : Type} `{HC : CtxtHw D}.

Lemma words4_inv l : words4 l → ∃ a b c e, l = [a; b; c; e] ∧ word32 a ∧ word32 b ∧ word32 c ∧ word32 e.
Proof.
  intros [Hl HF]. destruct l as [|a [|b [|c [|e [|]]]]]; try discriminate.
  rewrite !Forall_cons in HF. destruct HF as (?&?&?&?&_). by exists a, b, c, e.
Qed.

Lemma cv_get_wf v qid sel : ctxt_view_wf v → words4 (cv_get v qid sel).
Proof.
  intros Hv. unfold cv_get. destruct (_ !! _) as [w|] eqn:E; cbn.
  - by eapply cv_ctxt_wf.
  - split; [done|]. repeat constructor; unfold word32; lia.
Qed.

Lemma mask_merge_all data old :
  words4 data → words4 old → mask_merge data (replicate 4 0xFFFFFFFF) old = data.
Proof.
  intros (a&b&c&e&->&Ha&Hb&Hc&He)%words4_inv (o1&o2&o3&o4&->&_)%words4_inv.
  assert (∀ w o, word32 w →
    Z.lor (Z.land w 0xFFFFFFFF) (Z.land o (u32 (Z.lnot 0xFFFFFFFF))) = w) as HM.
  { intros w o Hw. change (u32 (Z.lnot 0xFFFFFFFF)) with 0. rewrite Z.land_0_r, Z.lor_0_r.
    change 0xFFFFFFFF with (Z.ones 32). rewrite Z.land_ones by lia. by apply Z.mod_small. }
  unfold mask_merge. cbn [replicate zip zip_with fst snd]. by rewrite !HM.
Qed.

Lemma cmd_fields qid op sel :
  0 <= qid < 2048 →
  bits_get IND_CTXT_CMD_QID_SHIFT 11 (ind_ctxt_cmd qid op sel) = qid ∧
  bits_get IND_CTXT_CMD_OP_SHIFT 2 (ind_ctxt_cmd qid op sel) = op_z op ∧
  bits_get IND_CTXT_CMD_SEL_SHIFT 4 (ind_ctxt_cmd qid op sel) = sel_z sel.
Proof.
  intros Hq. unfold ind_ctxt_cmd, u32.
  unfold IND_CTXT_CMD_QID_SHIFT, IND_CTXT_CMD_OP_SHIFT, IND_CTXT_CMD_SEL_SHIFT.
  assert (0 <= op_z op < 4) by (destruct op; cbn; lia).
  assert (0 <= sel_z sel < 16) by (destruct sel; cbn; lia).
  split_and!; bits_field; done.
Qed.

(** Polling a device that is busy for at most [n] rounds ends with 1. *)
Lemma hw_poll_idle n d interval :
  (ch_busy d <= n)%nat →
  ∃ d', hw_poll n QDMA_REG_IND_CTXT_CMD IND_CTXT_CMD_BUSY_MASK 0 interval d = (1, d') ∧
        ch_view d' = ch_view d ∧ ch_busy d' = 0%nat.
Proof.
  revert d. induction n as [|n IH]; intros d Hb; cbn [hw_poll];
    pose proof (ch_read_cmd d) as Hr; destruct (readl QDMA_REG_IND_CTXT_CMD d) as [w d1] eqn:E;
    destruct Hr as (Hv & Hbu & Hw); rewrite (st_bind_eq _ _ _ _ _ E);
    change IND_CTXT_CMD_BUSY_MASK with (2 ^ 0); rewrite land_pow2_testbit by lia;
    change (2 ^ 0) with 1; destruct (Z.testbit w 0) eqn:Ht; cbn [Z.eqb].
  - pose proof (proj1 Hw eq_refl). lia.
  - exists d1. assert (ch_busy d = 0%nat) by (destruct (Nat.eq_dec (ch_busy d) 0) as [|Hn]; [done|by apply Hw in Hn]).
    by rewrite Hbu.
  - st_run as [[] d2] eqn:E2.
    pose proof (ch_delay interval d1) as Hd. rewrite E2 in Hd. cbn in Hd. destruct Hd as [Hv2 Hb2].
    destruct (IH d2) as (d3 & Hp & Hv3 & Hb3); [lia|]. exists d3. split_and!; [exact Hp|congruence|done].
  - exists d1. assert (ch_busy d = 0%nat) by (destruct (Nat.eq_dec (ch_busy d) 0) as [|Hn]; [done|by apply Hw in Hn]).
    by rewrite Hbu.
Qed.

Lemma monitor_idle d :
  (ch_busy d <= ch_max_busy)%nat →
  ∃ d', hw_monitor_reg QDMA_REG_IND_CTXT_CMD IND_CTXT_CMD_BUSY_MASK 0 100 (500 * 1000) d = (1, d')
        ∧ ch_view d' = ch_view d ∧ ch_busy d' = 0%nat.
Proof.
  intros Hb. unfold hw_monitor_reg.
  change (Z.to_nat _) with 5000%nat. cbn [Z.eqb].
  apply hw_poll_idle. pose proof ch_max_busy_le. lia.
Qed.

(** A command written to an idle device is executed and waited for. *)
Lemma command_idle d w :
  ctxt_idle d →
  ∃ d', (_ ← writel QDMA_REG_IND_CTXT_CMD w;
         hw_monitor_reg QDMA_REG_IND_CTXT_CMD IND_CTXT_CMD_BUSY_MASK 0 100 (500 * 1000)) d
        = (1, d') ∧ ch_view d' = cv_exec w (ch_view d) ∧ ch_busy d' = 0%nat.
Proof.
  intros [Hb Hwf]. pose proof (ch_write_cmd w d Hb) as Hc.
  destruct (writel QDMA_REG_IND_CTXT_CMD w d) as [[] d1] eqn:E. cbn in Hc.
  destruct Hc as [Hv Hb1]. rewrite (st_bind_eq _ _ _ _ _ E).
  destruct (monitor_idle d1 Hb1) as (d' & Hm & Hv' & Hb'). exists d'. by rewrite Hm, Hv', Hv.
Qed.

Lemma read_data_regs n k d :
  ctxt_idle d → (k + n <= 4)%nat →
  ∃ d', read_regs (QDMA_REG_IND_CTXT_DATA_BASE + 4 * Z.of_nat k) n d
        = (map (array (cv_data (ch_view d))) (seq k n), d')
        ∧ ch_view d' = ch_view d ∧ ch_busy d' = 0%nat.
Proof.
  revert k d. induction n as [|n IH]; intros k d [Hb Hwf] Hk; cbn [read_regs seq map].
  { by exists d. }
  pose proof (ch_read_data k d) as Hr.
  destruct (readl (QDMA_REG_IND_CTXT_DATA_BASE + 4 * Z.of_nat k) d) as [w d1] eqn:E.
  destruct Hr as (Hv & Hb1 & Hw); [lia|]. rewrite (st_bind_eq _ _ _ _ _ E).
  replace (QDMA_REG_IND_CTXT_DATA_BASE + 4 * Z.of_nat k + 4)
    with (QDMA_REG_IND_CTXT_DATA_BASE + 4 * Z.of_nat (S k)) by lia.
  destruct (IH (S k) d1) as (d' & Hr & Hv' & Hb'); [|lia|].
  { split; [by rewrite Hb1|by rewrite Hv]. }
  rewrite (st_bind_eq _ _ _ _ _ Hr). exists d'. rewrite Hw by done. cbn. by rewrite Hv', Hv.
Qed.

Lemma map_array_take l n : (n <= length l)%nat → map (array l) (seq 0 n) = take n l.
Proof.
  intros Hn. apply (nth_ext _ _ 0 0).
  - rewrite length_map, length_seq, length_take. lia.
  - intros i Hi. rewrite length_map, length_seq in Hi.
    rewrite (nth_indep _ 0 (array l 0)) by (rewrite length_map, length_seq; lia).
    rewrite map_nth, seq_nth by lia. unfold array. cbn.
    rewrite <- (take_drop n l) at 1. rewrite app_nth1; [done|]. rewrite length_take. lia.
Qed.

(** Writing consecutive registers applies the effect of each in order. *)
Fixpoint upd_from (upd : nat → Z → ctxt_view → ctxt_view) (k : nat) (l : list Z)
    (v : ctxt_view) : ctxt_view :=
  match l with [] => v | w :: l' => upd_from upd (S k) l' (upd k w v) end.

Lemma write_regs_upd base upd l k d :
  (∀ (i : nat) w d, (i < 4)%nat →
    let d' := (writel (base + 4 * Z.of_nat i) w d).2 in
    ch_view d' = upd i w (ch_view d) ∧ ch_busy d' = ch_busy d) →
  (k + length l <= 4)%nat →
  ∃ d', write_regs (base + 4 * Z.of_nat k) l d = (tt, d') ∧
        ch_view d' = upd_from upd k l (ch_view d) ∧ ch_busy d' = ch_busy d.
Proof.
  intros Hlaw. revert k d. induction l as [|w l IH]; intros k d Hk; cbn [write_regs upd_from].
  { by exists d. }
  cbn in Hk. destruct (Hlaw k w d) as [Hv Hb]; [lia|].
  st_run as [[] d1] eqn:E. cbn in Hv, Hb.
  replace (base + 4 * Z.of_nat k + 4) with (base + 4 * Z.of_nat (S k)) by lia.
  destruct (IH (S k) d1) as (d' & -> & Hv' & Hb'); [lia|].
  exists d'. by rewrite Hv', Hv, Hb'.
Qed.

Lemma write_data4 d a b c e :
  ctxt_idle d → Forall word32 [a; b; c; e] →
  ∃ d', write_regs QDMA_REG_IND_CTXT_DATA_BASE [a; b; c; e] d = (tt, d') ∧
        ctxt_idle d' ∧ cv_data (ch_view d') = [a; b; c; e] ∧
        cv_mask (ch_view d') = cv_mask (ch_view d) ∧ cv_ctxt (ch_view d') = cv_ctxt (ch_view d).
Proof.
  intros [Hb Hwf] HF.
  destruct (words4_inv _ (cv_data_wf _ Hwf)) as (x & y & z & t & Hx & _).
  destruct (write_regs_upd _ cv_set_data [a; b; c; e] 0 d ch_write_data) as (d' & Hr & Hv & Hb'); [done|].
  rewrite Z.add_0_r in Hr. exists d'.
  cbn in Hv. unfold cv_set_data, cv_set_mask in Hv. cbn in Hv. rewrite Hx in Hv. cbn in Hv.
  rewrite Hv. cbn. split_and!; [done| |done..]. split; [congruence|].
  rewrite Hv. destruct Hwf. by split; cbn.
Qed.

Lemma write_mask4 d :
  ctxt_idle d →
  ∃ d', write_regs QDMA_REG_IND_CTXT_MASK_BASE
          (replicate QDMA_REG_IND_CTXT_REG_COUNT 0xFFFFFFFF) d = (tt, d') ∧
        ctxt_idle d' ∧ cv_mask (ch_view d') = replicate 4 0xFFFFFFFF ∧
        cv_data (ch_view d') = cv_data (ch_view d) ∧ cv_ctxt (ch_view d') = cv_ctxt (ch_view d).
Proof.
  intros [Hb Hwf].
  destruct (words4_inv _ (cv_mask_wf _ Hwf)) as (x & y & z & t & Hx & _).
  destruct (write_regs_upd _ cv_set_mask (replicate QDMA_REG_IND_CTXT_REG_COUNT 0xFFFFFFFF) 0 d
              ch_write_mask) as (d' & Hr & Hv & Hb'); [done|].
  rewrite Z.add_0_r in Hr. exists d'.
  cbn in Hv. unfold cv_set_data, cv_set_mask in Hv. cbn in Hv. rewrite Hx in Hv. cbn in Hv.
  rewrite Hv. cbn. split_and!; [done| |done..]. split; [congruence|].
  rewrite Hv. destruct Hwf. split; cbn; [done| |done].
  split; [done|]. repeat constructor; unfold word32; lia.
Qed.

(** What one command does to the table, with the data registers as they are. *)
Lemma cv_exec_cmd qid op sel v :
  0 <= qid < 2048 →
  cv_exec (ind_ctxt_cmd qid op sel) v =
  match op with
  | QDMA_CTXT_CMD_CLR => cv_put v qid (sel_z sel) ctxt_zero
  | QDMA_CTXT_CMD_WR =>
      cv_put v qid (sel_z sel) (mask_merge (cv_data v) (cv_mask v) (cv_get v qid (sel_z sel)))
  | QDMA_CTXT_CMD_RD => CtxtView (cv_get v qid (sel_z sel)) (cv_mask v) (cv_ctxt v)
  | QDMA_CTXT_CMD_INV => v
  end.
Proof.
  intros Hq. unfold cv_exec. destruct (cmd_fields qid op sel Hq) as (-> & -> & ->).
  by destruct op.
Qed.

(** A short context is written with zeros in the remaining words. *)
Definition pad4 (l : list Z) : list Z := l ++ replicate (4 - length l) 0.

Lemma pad4_words l : (length l <= 4)%nat → Forall word32 l → words4 (pad4 l).
Proof.
  intros Hl HF. unfold pad4. split; [rewrite length_app, length_replicate; lia|].
  apply Forall_app. split; [done|]. apply Forall_replicate. unfold word32. lia.
Qed.

Lemma put_wf v qid sel w : ctxt_view_wf v → words4 w → ctxt_view_wf (cv_put v qid sel w).
Proof.
  intros [Hd Hm Hc] Hw. split; cbn; [done..|]. intros k w'.
  rewrite lookup_insert. case_decide; [congruence|]. apply Hc.
Qed.

(** The whole preparation of a [WR]: masks open, data registers loaded. *)
Lemma prepare_wr d l cnt :
  ctxt_idle d → 1 <= cnt <= 4 → cnt <= Z.of_nat (length l) → Forall word32 l →
  ∃ d', ind_ctxt_prepare QDMA_CTXT_CMD_WR (Some l) cnt d = (0, d') ∧ ctxt_idle d' ∧
        cv_mask (ch_view d') = replicate 4 0xFFFFFFFF ∧
        cv_data (ch_view d') = pad4 (take (Z.to_nat cnt) l) ∧
        cv_ctxt (ch_view d') = cv_ctxt (ch_view d).
Proof.
  intros Hi Hc Hl HF. unfold ind_ctxt_prepare.
  rewrite decide_True by (by left).
  destruct (Z.eqb_spec cnt 0); [lia|].
  destruct (Z.ltb_spec (Z.of_nat QDMA_REG_IND_CTXT_REG_COUNT) cnt); [unfold QDMA_REG_IND_CTXT_REG_COUNT in *; lia|]. cbn [orb].
  destruct (write_mask4 d Hi) as (d1 & E1 & Hi1 & Hm1 & Hd1 & Hc1).
  rewrite (st_bind_eq _ _ _ _ _ E1), decide_True by done.
  rewrite map_array_take by lia.
  assert (Hp : take (Z.to_nat cnt) l ++ replicate (QDMA_REG_IND_CTXT_REG_COUNT - Z.to_nat cnt) 0
               = pad4 (take (Z.to_nat cnt) l)).
  { unfold pad4. rewrite length_take. do 2 f_equal. unfold QDMA_REG_IND_CTXT_REG_COUNT. lia. }
  rewrite Hp.
  destruct (words4_inv (pad4 (take (Z.to_nat cnt) l))) as (a & b & c & e & Hw & Ha & Hb & Hcc & He).
  { apply pad4_words; [rewrite length_take; lia|by apply Forall_take]. }
  rewrite Hw. destruct (write_data4 d1 a b c e Hi1) as (d2 & E2 & Hi2 & Hd2 & Hm2 & Hc2);
    [by rewrite !Forall_cons|].
  rewrite (st_bind_eq _ _ _ _ _ E2). exists d2. by rewrite Hm2, Hm1, Hd2, Hc2, Hc1.
Qed.

Lemma prepare_rd d l cnt :
  ctxt_idle d → 1 <= cnt <= 4 →
  ∃ d', ind_ctxt_prepare QDMA_CTXT_CMD_RD (Some l) cnt d = (0, d') ∧ ctxt_idle d' ∧
        cv_ctxt (ch_view d') = cv_ctxt (ch_view d).
Proof.
  intros Hi Hc. unfold ind_ctxt_prepare. rewrite decide_True by (by right).
  destruct (Z.eqb_spec cnt 0); [lia|].
  destruct (Z.ltb_spec (Z.of_nat QDMA_REG_IND_CTXT_REG_COUNT) cnt); [unfold QDMA_REG_IND_CTXT_REG_COUNT in *; lia|]. cbn [orb].
  destruct (write_mask4 d Hi) as (d1 & E1 & Hi1 & Hm1 & Hd1 & Hc1).
  rewrite (st_bind_eq _ _ _ _ _ E1), decide_False by done. by exists d1.
Qed.

Lemma monitor_after_cmd {B} d w (k : Z → ST D B) :
  ctxt_idle d →
  ∃ d', (_ ← writel QDMA_REG_IND_CTXT_CMD w;
         rv ← hw_monitor_reg QDMA_REG_IND_CTXT_CMD IND_CTXT_CMD_BUSY_MASK 0 100 (500 * 1000);
         k rv) d = k 1 d' ∧ ch_view d' = cv_exec w (ch_view d) ∧ ch_busy d' = 0%nat.
Proof.
  intros Hi. destruct (command_idle d w Hi) as (d' & Hr & Hv & Hb). exists d'.
  split; [|done]. revert Hr. unfold mbind, ST_bind.
  destruct (writel _ w d) as [[] d1]. intros ->. done.
Qed.

(** The next command of the goal runs to completion on the idle device. *)
Local Tactic Notation "run_cmd" constr(d) constr(w) constr(Hi) "as" ident(d') ident(Hv) ident(Hb) :=
  match goal with |- context [(writel _ _ ≫= (λ _, hw_monitor_reg _ _ _ _ _ ≫= ?k)) _] =>
    destruct (monitor_after_cmd d w k Hi) as (d' & -> & Hv & Hb) end.

(** A write command, verified or not, succeeds and sets exactly the context
    addressed, the words beyond [cnt] to zero. *)
Lemma prog_wr d qid sel l cnt verify :
  ctxt_idle d → 0 <= qid < 2048 → 1 <= cnt <= 4 → cnt <= Z.of_nat (length l) →
  Forall word32 l →
  ∃ d', hw_indirect_ctext_prog qid QDMA_CTXT_CMD_WR sel (Some l) cnt verify d
        = ((0, Some l), d') ∧ ctxt_idle d' ∧
        cv_ctxt (ch_view d') =
          <[(qid, sel_z sel) := pad4 (take (Z.to_nat cnt) l)]> (cv_ctxt (ch_view d)).
Proof.
  intros Hi Hq Hc Hl HF. unfold hw_indirect_ctext_prog.
  destruct (prepare_wr d l cnt) as (d1 & E1 & Hi1 & Hm1 & Hd1 & Hc1); [done..|].
  rewrite (st_bind_eq _ _ _ _ _ E1). cbn [Z.ltb Z.compare].
  set (w := pad4 (take (Z.to_nat cnt) l)) in *.
  assert (Hw : words4 w) by (apply pad4_words; [rewrite length_take; lia|by apply Forall_take]).
  run_cmd d1 (ind_ctxt_cmd qid QDMA_CTXT_CMD_WR sel) Hi1 as d2 Hv2 Hb2.
  rewrite cv_exec_cmd in Hv2 by done. rewrite Hm1, Hd1 in Hv2.
  assert (Hwf1 : ctxt_view_wf (ch_view d1)) by apply Hi1.
  rewrite mask_merge_all in Hv2 by (done || by apply cv_get_wf).
  assert (Hi2 : ctxt_idle d2) by (split; [done|rewrite Hv2; by apply put_wf]).
  assert (Hct : cv_ctxt (ch_view d2) = <[(qid, sel_z sel) := w]> (cv_ctxt (ch_view d)))
    by (rewrite Hv2; cbn; by rewrite Hc1).
  cbn [Z.ltb Z.compare]. rewrite decide_False by done.
  destruct verify; cbn [negb]; [|by exists d2].
  run_cmd d2 (ind_ctxt_cmd qid QDMA_CTXT_CMD_RD sel) Hi2 as d3 Hv3 Hb3.
  rewrite cv_exec_cmd in Hv3 by done. cbn [Z.ltb Z.compare].
  assert (Hg : cv_get (ch_view d2) qid (sel_z sel) = w)
    by (unfold cv_get; rewrite Hct; by rewrite lookup_insert_eq).
  rewrite Hg in Hv3.
  assert (Hi3 : ctxt_idle d3).
  { split; [done|]. rewrite Hv3. destruct Hi2 as [_ [? ? ?]]. by split. }
  destruct (read_data_regs (Z.to_nat cnt) 0 d3) as (d4 & Hr4 & Hv4 & Hb4); [done|lia|].
  rewrite Z.add_0_r in Hr4. rewrite (st_bind_eq _ _ _ _ _ Hr4). cbn [default from_option].
  rewrite Hv3. cbn [cv_data]. rewrite map_array_take
    by (unfold w, pad4; rewrite length_app, length_replicate, length_take; lia).
  assert (Ht : take (Z.to_nat cnt) w = take (Z.to_nat cnt) l).
  { unfold w, pad4. rewrite take_app_le by (rewrite length_take; lia). by rewrite take_take, Nat.min_id. }
  rewrite decide_True by (cbn; by rewrite Ht).
  exists d4. split; [done|]. rewrite Hv4, Hv3. split; [|done].
  split; [done|]. rewrite Hv4. apply Hi3.
Qed.

Lemma prog_rd d qid sel l cnt verify :
  ctxt_idle d → 0 <= qid < 2048 → 1 <= cnt <= 4 →
  ∃ d', hw_indirect_ctext_prog qid QDMA_CTXT_CMD_RD sel (Some l) cnt verify d
        = ((0, Some (take (Z.to_nat cnt) (cv_get (ch_view d) qid (sel_z sel))
                     ++ drop (Z.to_nat cnt) l)), d') ∧ ctxt_idle d' ∧
        cv_ctxt (ch_view d') = cv_ctxt (ch_view d).
Proof.
  intros Hi Hq Hc. unfold hw_indirect_ctext_prog.
  destruct (prepare_rd d l cnt) as (d1 & E1 & Hi1 & Hc1); [done..|].
  rewrite (st_bind_eq _ _ _ _ _ E1). cbn [Z.ltb Z.compare].
  run_cmd d1 (ind_ctxt_cmd qid QDMA_CTXT_CMD_RD sel) Hi1 as d2 Hv2 Hb2.
  rewrite cv_exec_cmd in Hv2 by done. cbn [Z.ltb Z.compare]. rewrite decide_True by done.
  assert (Hg : cv_get (ch_view d1) qid (sel_z sel) = cv_get (ch_view d) qid (sel_z sel))
    by (unfold cv_get; by rewrite Hc1).
  assert (Hwf : words4 (cv_get (ch_view d) qid (sel_z sel))) by (apply cv_get_wf, Hi).
  assert (Hi2 : ctxt_idle d2).
  { split; [done|]. rewrite Hv2, Hg. destruct Hi1 as [_ [? ? ?]]. by split. }
  destruct (read_data_regs (Z.to_nat cnt) 0 d2) as (d3 & Hr3 & Hv3 & Hb3); [done|lia|].
  rewrite Z.add_0_r in Hr3. rewrite (st_bind_eq _ _ _ _ _ Hr3).
  rewrite Hv2. cbn [cv_data]. rewrite Hg, map_array_take by (destruct Hwf; lia).
  exists d3. split; [done|]. rewrite Hv3, Hv2. split; [|done].
  split; [done|]. rewrite Hv3. apply Hi2.
Qed.

Lemma prog_clr d qid sel data cnt :
  ctxt_idle d → 0 <= qid < 2048 →
  ∃ d', hw_indirect_ctext_prog qid QDMA_CTXT_CMD_CLR sel data cnt false d = ((0, data), d') ∧
        ctxt_idle d' ∧
        cv_ctxt (ch_view d') = <[(qid, sel_z sel) := ctxt_zero]> (cv_ctxt (ch_view d)).
Proof.
  intros Hi Hq. unfold hw_indirect_ctext_prog.
  assert (Hp : ind_ctxt_prepare QDMA_CTXT_CMD_CLR data cnt d = (0, d)).
  { unfold ind_ctxt_prepare. by rewrite decide_False by (by intros [|]). }
  rewrite (st_bind_eq _ _ _ _ _ Hp). cbn [Z.ltb Z.compare].
  run_cmd d (ind_ctxt_cmd qid QDMA_CTXT_CMD_CLR sel) Hi as d2 Hv2 Hb2.
  rewrite cv_exec_cmd in Hv2 by done. cbn [Z.ltb Z.compare negb].
  rewrite decide_False by done. exists d2. split; [done|].
  rewrite Hv2. split; [|done]. split; [done|]. rewrite Hv2. apply put_wf; [apply Hi|].
  split; [done|]. repeat constructor; unfold word32; lia.
Qed.

End laws.

(** ** Properties: polling *)

Section polling.
Context {D : Type} `{!RegIo D}.

(** The values the register shows at [n] polls and the last look. *)
Fixpoint poll_values (n : nat) (reg interval_us : Z) (d : D) : list Z :=
  let '(v, d1) := readl reg d in
  match n with
  | O => [v]
  | S n' => v :: poll_values n' reg interval_us (udelay interval_us d1).2
  end.

Lemma hw_poll_values n reg mask val iv (d : D) :
  (hw_poll n reg mask val iv d).1 =
  if existsb (λ v, Z.land v mask =? val) (poll_values n reg iv d) then 1 else - EBUSY.
Proof.
  revert d. induction n as [|n IH]; intros d; cbn [hw_poll poll_values];
    destruct (readl reg d) as [v d1] eqn:E; rewrite (st_bind_eq _ _ _ _ _ E); cbn [existsb];
    destruct (Z.land v mask =? val); try done.
  st_run as [[] d2] eqn:E2. rewrite IH. done.
Qed.

(** [hw_monitor_reg] returns 1 exactly when one of the polls it makes sees
    the masked value, and [-EBUSY] otherwise; it makes one poll per interval
    of the timeout and one last look, zero arguments standing for the
    defaults. *)
Theorem hw_monitor_reg_polls reg mask val interval_us timeout_us (d : D) :
  (hw_monitor_reg reg mask val interval_us timeout_us d).1 =
  let iv := if interval_us =? 0 then 100 else interval_us in
  let tmo := if timeout_us =? 0 then 500000 else timeout_us in
  if existsb (λ v, Z.land v mask =? val)
       (poll_values (Z.to_nat (do_while_iters (s32 (tmo / iv)))) reg iv d)
  then 1 else - EBUSY.
Proof. unfold hw_monitor_reg. by rewrite hw_poll_values. Qed.

(** A [WR] or [RD] with no words, more than four words or no buffer is
    refused with [-EINVAL] before the device is touched. *)
Theorem hw_indirect_ctext_prog_einval qid op sel data cnt verify (d : D) :
  op = QDMA_CTXT_CMD_WR ∨ op = QDMA_CTXT_CMD_RD →
  cnt = 0 ∨ 4 < cnt ∨ data = None →
  hw_indirect_ctext_prog qid op sel data cnt verify d = ((- EINVAL, data), d).
Proof.
  intros Hop Hbad. unfold hw_indirect_ctext_prog.
  assert (ind_ctxt_prepare op data cnt d = (- EINVAL, d)) as Hp.
  { unfold ind_ctxt_prepare. rewrite decide_True by done.
    change (Z.of_nat QDMA_REG_IND_CTXT_REG_COUNT) with 4.
    destruct (Z.eqb_spec cnt 0), (Z.ltb_spec 4 cnt); try done.
    cbn [orb]. destruct Hbad as [?|[?| ->]]; [lia..|done]. }
  by rewrite (st_bind_eq _ _ _ _ _ Hp).
Qed.

End polling.

(** A device whose context command never completes. *)
Definition stuck_io : RegIo Z :=
  {| readl _ := λ d, (1, d); writel _ _ := λ d, (tt, d + 1); udelay _ := λ d, (tt, d) |}.

Section stuck.
Context {D : Type} `{!RegIo D}.

Lemma hw_poll_stuck n iv (d : D) :
  (∀ d, Z.testbit (readl QDMA_REG_IND_CTXT_CMD d).1 0 = true) →
  (hw_poll n QDMA_REG_IND_CTXT_CMD IND_CTXT_CMD_BUSY_MASK 0 iv d).1 = - EBUSY.
Proof.
  intros Hst. rewrite hw_poll_values.
  assert (existsb (λ v, Z.land v IND_CTXT_CMD_BUSY_MASK =? 0)
            (poll_values n QDMA_REG_IND_CTXT_CMD iv d) = false) as ->; [|done].
  revert d. induction n as [|n IH]; intros d; cbn [poll_values]; pose proof (Hst d) as Hb;
    destruct (readl QDMA_REG_IND_CTXT_CMD d) as [v d1]; cbn [existsb fst] in *;
    change IND_CTXT_CMD_BUSY_MASK with (2 ^ 0); rewrite land_pow2_testbit, Hb by lia; [done|].
  apply IH.
Qed.

(** When the busy bit never clears, every command (with valid arguments)
    ends, with [-EBUSY], and the caller's buffer is as it was. *)
Theorem hw_indirect_ctext_prog_busy qid op sel data cnt verify (d : D) :
  (∀ d, Z.testbit (readl QDMA_REG_IND_CTXT_CMD d).1 0 = true) →
  1 <= cnt <= 4 → is_Some data →
  (hw_indirect_ctext_prog qid op sel data cnt verify d).1 = (- EBUSY, data).
Proof.
  intros Hst Hc [l ->]. unfold hw_indirect_ctext_prog.
  assert (∃ d1, ind_ctxt_prepare op (Some l) cnt d = (0, d1)) as [d1 Hp].
  { unfold ind_ctxt_prepare. change (Z.of_nat QDMA_REG_IND_CTXT_REG_COUNT) with 4.
    case_decide; [|by eexists].
    destruct (Z.eqb_spec cnt 0), (Z.ltb_spec 4 cnt); try lia. cbn [orb].
    st_run as [[] d1] eqn:E1. case_decide; [|by eexists].
    st_run as [[] d2] eqn:E2. by eexists. }
  rewrite (st_bind_eq _ _ _ _ _ Hp). cbn [Z.ltb Z.compare].
  st_run as [[] d2] eqn:E2. st_run as [rv d3] eqn:E3.
  pose proof (hw_poll_stuck (Z.to_nat (do_while_iters (s32 (500 * 1000 / 100)))) 100 d2 Hst) as Hb.
  change (hw_poll _ _ _ 0 100) with
    (hw_monitor_reg (D := D) QDMA_REG_IND_CTXT_CMD IND_CTXT_CMD_BUSY_MASK 0 100 (500 * 1000)) in Hb.
  rewrite E3 in Hb. cbn [fst] in Hb. by rewrite Hb.
Qed.

End stuck.

(** ** Properties: the indirect context commands on a working device *)

Section commands.
Context {D : Type} `{HC : CtxtHw D}.

(** Writing a context and reading it back gives the words written, padded
    with zeros to the register count, whatever the queue, the context type
    and the polling latency; every other context of the device is unchanged
    by the pair of commands. *)
Theorem hw_indirect_ctext_prog_roundtrip qid sel l cnt verify l0 (d : D) :
  ctxt_idle d → 0 <= qid < 2048 → 1 <= cnt <= 4 → cnt <= Z.of_nat (length l) →
  Forall word32 l →
  ∃ d1 d2,
    hw_indirect_ctext_prog qid QDMA_CTXT_CMD_WR sel (Some l) cnt verify d = ((0, Some l), d1) ∧
    hw_indirect_ctext_prog qid QDMA_CTXT_CMD_RD sel (Some l0) 4 false d1 =
      ((0, Some (pad4 (take (Z.to_nat cnt) l) ++ drop 4 l0)), d2) ∧
    ctxt_idle d2 ∧
    ∀ qid' sel', (qid', sel_z sel') ≠ (qid, sel_z sel) →
      cv_get (ch_view d2) qid' (sel_z sel') = cv_get (ch_view d) qid' (sel_z sel').
Proof.
  intros Hi Hq Hc Hl HF.
  destruct (prog_wr d qid sel l cnt verify) as (d1 & E1 & Hi1 & Hc1); [done..|].
  destruct (prog_rd d1 qid sel l0 4 false) as (d2 & E2 & Hi2 & Hc2); [done..|].
  exists d1, d2. split; [done|].
  assert (cv_get (ch_view d1) qid (sel_z sel) = pad4 (take (Z.to_nat cnt) l)) as Hg
    by (unfold cv_get; by rewrite Hc1, lookup_insert_eq).
  assert (words4 (pad4 (take (Z.to_nat cnt) l))) as [Hl4 _]
    by (apply pad4_words; [rewrite length_take; lia|by apply Forall_take]).
  rewrite E2, Hg. change (Z.to_nat 4) with 4%nat. rewrite (take_ge (pad4 _)) by lia.
  split_and!; [done..|]. intros qid' sel' Hne. unfold cv_get.
  by rewrite Hc2, Hc1, lookup_insert_ne by congruence.
Qed.

(** The clear command makes exactly the addressed context zero. *)
Theorem hw_indirect_ctext_prog_clear qid sel data cnt (d : D) :
  ctxt_idle d → 0 <= qid < 2048 →
  ∃ d', hw_indirect_ctext_prog qid QDMA_CTXT_CMD_CLR sel data cnt false d = ((0, data), d') ∧
        ctxt_idle d' ∧ cv_get (ch_view d') qid (sel_z sel) = ctxt_zero ∧
        ∀ qid' sel', (qid', sel_z sel') ≠ (qid, sel_z sel) →
          cv_get (ch_view d') qid' (sel_z sel') = cv_get (ch_view d) qid' (sel_z sel').
Proof.
  intros Hi Hq. destruct (prog_clr d qid sel data cnt) as (d' & E & Hi' & Hc); [done..|].
  exists d'. unfold cv_get. rewrite Hc, lookup_insert_eq.
  split_and!; [done..|]. intros qid' sel' Hne. by rewrite lookup_insert_ne by congruence.
Qed.

End commands.

(** ** Properties: packed registers *)

(** The function map word keeps the queue base (11 bits) and the queue
    count (12 bits) apart, for every range of the 2048 hardware queues. *)
Theorem fmap_word_fields qbase qmax :
  0 <= qbase < 2048 → 0 <= qmax <= 2048 →
  bits_get SEL_FMAP_QID_BASE_SHIFT 11 (fmap_word qbase qmax) = qbase ∧
  bits_get SEL_FMAP_QID_MAX_SHIFT 12 (fmap_word qbase qmax) = qmax.
Proof.
  intros Hb Hm. unfold fmap_word, SEL_FMAP_QID_BASE_SHIFT, SEL_FMAP_QID_MAX_SHIFT, u32.
  split; bits_field; done.
Qed.

(** A base of 2048 or more spills into the count: the register then holds a
    smaller base and a count with a wrong low bit. *)
Lemma fmap_word_overflow qbase qmax :
  2048 <= qbase < 4096 → 0 <= qmax <= 2048 →
  bits_get SEL_FMAP_QID_BASE_SHIFT 11 (fmap_word qbase qmax) = qbase - 2048 ∧
  bits_get SEL_FMAP_QID_MAX_SHIFT 12 (fmap_word qbase qmax) = Z.lor 1 qmax.
Proof.
  intros Hb Hm. unfold fmap_word, SEL_FMAP_QID_BASE_SHIFT, SEL_FMAP_QID_MAX_SHIFT, u32.
  assert (qbase = Z.lor (qbase - 2048) (Z.shiftl 1 11)) as E.
  { pose proof (Z.add_lor_land (qbase - 2048) (2 ^ 11)) as Ha.
    rewrite land_pow2_testbit, (testbit_small 11) in Ha by lia.
    change (Z.shiftl 1 11) with (2 ^ 11). change (2 ^ 11) with 2048 in *. lia. }
  rewrite Z.shiftl_0_r.
  split; rewrite bits_get_lor, !bits_get_mod by lia.
  - rewrite (bits_get_above _ _ _ qmax) by lia. rewrite E at 1.
    rewrite bits_get_lor, (bits_get_above _ _ 11) by lia. rewrite !Z.lor_0_r.
    apply bits_get_small; lia.
  - rewrite (bits_get_field _ _ qmax) by lia. rewrite E.
    rewrite bits_get_lor, (bits_get_field _ _ 1) by lia.
    pose proof (bits_get_below 11 12 0 11 (qbase - 2048)) as Hz.
    rewrite Z.shiftl_0_r in Hz. by rewrite Hz by lia.
Qed.

Lemma bits_get_keep s w v m :
  0 <= w → bits_get s w m = Z.ones w → bits_get s w (Z.land v m) = bits_get s w v.
Proof.
  intros Hw Hm. unfold bits_get in *. rewrite Z.shiftr_land, <- Z.land_assoc, Hm.
  done.
Qed.

Lemma bits_get_drop s w v m : bits_get s w m = 0 → bits_get s w (Z.land v m) = 0.
Proof. intros Hm. unfold bits_get in *. rewrite Z.shiftr_land, <- Z.land_assoc, Hm. apply Z.land_0_r. Qed.

(** The vector field and the coalescing bit of a direction. *)
Definition qid2vec_shift (c2h : bool) : Z := if c2h then 0 else 9.
Definition qid2vec_coal (c2h : bool) : Z := if c2h then 8 else 18.

(** Programming a queue's vector replaces the 8-bit vector field of its
    direction, keeps the field of the other direction, and turns the
    direction's coalescing bit on when asked to (it never turns it off). *)
Theorem hw_prog_qid2vec_fields {D} `{!RegIo D} qid c2h intr_id coal (d : D) :
  0 <= intr_id < 256 →
  ∃ v d1 w, readl QDMA_REG_C2H_QID2VEC_MAP (writel QDMA_REG_C2H_QID2VEC_MAP_QID qid d).2 = (v, d1) ∧
    hw_prog_qid2vec qid c2h intr_id coal d = writel QDMA_REG_C2H_QID2VEC_MAP w d1 ∧
    bits_get (qid2vec_shift c2h) 8 w = intr_id ∧
    bits_get (qid2vec_shift (negb c2h)) 8 w = bits_get (qid2vec_shift (negb c2h)) 8 v ∧
    bits_get (qid2vec_coal c2h) 1 w = (if coal then 1 else bits_get (qid2vec_coal c2h) 1 v).
Proof.
  intros Hid. unfold hw_prog_qid2vec, mbind, ST_bind.
  destruct (writel QDMA_REG_C2H_QID2VEC_MAP_QID qid d) as [[] d0]; cbn [snd].
  destruct (readl QDMA_REG_C2H_QID2VEC_MAP d0) as [v d1]. exists v, d1.
  eexists. split; [done|]. split; [done|]. unfold qid2vec_word, u32.
  unfold C2H_QID2VEC_MAP_QID_C2H_VEC_SHIFT, C2H_QID2VEC_MAP_QID_H2C_VEC_SHIFT,
    C2H_QID2VEC_MAP_QID_C2H_COALEN_SHIFT, C2H_QID2VEC_MAP_QID_H2C_COALEN_SHIFT,
    qid2vec_shift, qid2vec_coal.
  assert (0 <= bits_get 8 1 v < 2 ^ 1) by (apply bits_get_range; lia).
  assert (0 <= bits_get 18 1 v < 2 ^ 1) by (apply bits_get_range; lia).
  assert (∀ x, 0 <= x < 2 ^ 1 → Z.lor x 1 = 1) as Hlor.
  { intros x Hx. assert (x = 0 ∨ x = 1) as [-> | ->] by lia; done. }
  destruct c2h, coal; cbn [negb];
    (split_and!; bits_field;
     first [ rewrite bits_get_drop by reflexivity | rewrite bits_get_keep by (lia || reflexivity) ];
     rewrite ?Z.lor_0_l; auto).
Qed.

(** Plain registers of the executable device: a block write sets the block
    and nothing else. *)
Lemma sim_write_regs l base (d : SimHw.t) :
  (base + 4 * Z.of_nat (length l) <= 0x804 ∨ 0x824 < base) →
  let d' := (write_regs base l d).2 in
  (∀ i w, l !! i = Some w → SimHw.regs d' !! (base + 4 * Z.of_nat i) = Some w) ∧
  (∀ reg, reg < base ∨ base + 4 * Z.of_nat (length l) <= reg →
    SimHw.regs d' !! reg = SimHw.regs d !! reg).
Proof.
  revert base d. induction l as [|w l IH]; intros base d Hb; cbn [write_regs length] in *.
  { split; [intros i w Hw; by rewrite lookup_nil in Hw|done]. }
  assert (writel base w d = (tt, SimHw.Sim (<[base := w]> (SimHw.regs d)) (SimHw.view d)
            (SimHw.busy d) (SimHw.latency d))) as Hw.
  { cbn. unfold SimHw.write. destruct (Z.eqb_spec base QDMA_REG_IND_CTXT_CMD) as [E|_].
    { unfold QDMA_REG_IND_CTXT_CMD in E. lia. }
    unfold QDMA_REG_IND_CTXT_DATA_BASE, QDMA_REG_IND_CTXT_MASK_BASE.
    by rewrite !SimHw.data_index_None by lia. }
  rewrite (st_bind_eq _ _ _ _ _ Hw).
  edestruct (IH (base + 4)) as [H1 H2]; [|split].
  - lia.
  - intros [|i] x Hx; cbn in Hx.
    + injection Hx as <-. rewrite Z.add_0_r, H2 by lia. cbn. by rewrite lookup_insert_eq.
    + replace (base + 4 * Z.of_nat (S i)) with (base + 4 + 4 * Z.of_nat i) by lia. by apply H1.
  - intros reg Hr. rewrite H2 by lia. cbn. by rewrite lookup_insert_ne by lia.
Qed.

(** The global settings: after [hw_set_global_csr] each of the sixteen
    ring sizes is 257 entries, each buffer size one page, each timer count and
    counter threshold 1, and writeback accumulation is on; the four register
    blocks do not overwrite one another. *)
Theorem hw_set_global_csr_values (d : SimHw.t) (i : nat) :
  (i < 16)%nat →
  let r := SimHw.regs (hw_set_global_csr d).2 in
  r !! QDMA_REG_GLBL_WB_ACC = Some 1 ∧
  r !! (QDMA_REG_GLBL_RNG_SZ_BASE + 4 * Z.of_nat i) = Some 257 ∧
  r !! (QDMA_REG_C2H_BUF_SZ_BASE + 4 * Z.of_nat i) = Some 4096 ∧
  r !! (QDMA_REG_C2H_TIMER_CNT_BASE + 4 * Z.of_nat i) = Some 1 ∧
  r !! (QDMA_REG_C2H_CNT_TH_BASE + 4 * Z.of_nat i) = Some 1.
Proof.
  intros Hi. unfold hw_set_global_csr, mbind, ST_bind.
  pose (d0 := (writel QDMA_REG_GLBL_WB_ACC 1 d).2).
  assert (writel QDMA_REG_GLBL_WB_ACC 1 d = (tt, d0)) as E0 by done. rewrite E0.
  assert (SimHw.regs d0 !! QDMA_REG_GLBL_WB_ACC = Some 1) as H0 by (cbn; apply lookup_insert_eq).
  clearbody d0.
  destruct (sim_write_regs (replicate 16 (RNG_SZ_DFLT + 1)) QDMA_REG_GLBL_RNG_SZ_BASE d0)
    as [A1 A2]; [left; by apply Z.leb_le|]. destruct (write_regs _ _ d0) as [[] d1] in *; cbn [snd] in *.
  destruct (sim_write_regs (replicate 16 C2H_BUF_SZ_DFLT) QDMA_REG_C2H_BUF_SZ_BASE d1)
    as [B1 B2]; [right; done|]. destruct (write_regs _ _ d1) as [[] d2] in *; cbn [snd] in *.
  destruct (sim_write_regs (replicate 16 C2H_TIMER_CNT_DFLT) QDMA_REG_C2H_TIMER_CNT_BASE d2)
    as [C1 C2]; [right; done|]. destruct (write_regs _ _ d2) as [[] d3] in *; cbn [snd] in *.
  destruct (sim_write_regs (replicate 16 C2H_CNT_TH_DFLT) QDMA_REG_C2H_CNT_TH_BASE d3)
    as [D1 D2]; [right; done|]. destruct (write_regs _ _ d3) as [[] d4] in *; cbn [snd] in *.
  rewrite length_replicate in *.
  unfold QDMA_REG_GLBL_WB_ACC, QDMA_REG_GLBL_RNG_SZ_BASE, QDMA_REG_C2H_BUF_SZ_BASE,
    QDMA_REG_C2H_TIMER_CNT_BASE, QDMA_REG_C2H_CNT_TH_BASE in *.
  assert (∀ x : Z, replicate 16 x !! i = Some x) as Hx by (intros; by apply lookup_replicate_2).
  split_and!.
  - by rewrite D2, C2, B2, A2 by lia.
  - rewrite D2, C2, B2 by lia. by apply A1.
  - rewrite D2, C2 by lia. by apply B1.
  - rewrite D2 by lia. by apply C1.
  - by apply D1.
Qed.

(** ** The hypotheses hold: the properties at concrete devices *)

Lemma hw_indirect_ctext_prog_einval_witness :
  hw_indirect_ctext_prog 3 QDMA_CTXT_CMD_WR QDMA_CTXT_SEL_WRB (Some [1; 2; 3; 4; 5]) 5 true
    (SimHw.init 2) = ((- EINVAL, Some [1; 2; 3; 4; 5]), SimHw.init 2).
Proof.
  apply (hw_indirect_ctext_prog_einval 3 QDMA_CTXT_CMD_WR QDMA_CTXT_SEL_WRB
           (Some [1; 2; 3; 4; 5]) 5 true (SimHw.init 2)); [by left|right; left; lia].
Defined.

Lemma hw_indirect_ctext_prog_busy_witness :
  (@hw_indirect_ctext_prog Z stuck_io 3 QDMA_CTXT_CMD_WR QDMA_CTXT_SEL_WRB (Some [1]) 1 true 0).1
  = (- EBUSY, Some [1]).
Proof.
  apply (@hw_indirect_ctext_prog_busy Z stuck_io 3 QDMA_CTXT_CMD_WR QDMA_CTXT_SEL_WRB (Some [1]) 1 true 0);
    [intros d; reflexivity|lia|by eexists].
Defined.

Lemma hw_indirect_ctext_prog_roundtrip_witness : ∃ d1 d2 : SimHw.t,
  hw_indirect_ctext_prog 7 QDMA_CTXT_CMD_WR QDMA_CTXT_SEL_SW_C2H (Some [1; 2]) 2 true (SimHw.init 9)
    = ((0, Some [1; 2]), d1) ∧
  hw_indirect_ctext_prog 7 QDMA_CTXT_CMD_RD QDMA_CTXT_SEL_SW_C2H (Some ctxt_zero) 4 false d1
    = ((0, Some [1; 2; 0; 0]), d2).
Proof.
  destruct (hw_indirect_ctext_prog_roundtrip 7 QDMA_CTXT_SEL_SW_C2H [1; 2] 2 true ctxt_zero
              (SimHw.init 9)) as (d1 & d2 & E1 & E2 & _).
  - apply SimHw.init_idle.
  - lia.
  - lia.
  - cbn. lia.
  - repeat constructor; unfold word32; lia.
  - exists d1, d2. split; [exact E1|exact E2].
Defined.

Lemma hw_indirect_ctext_prog_clear_witness : ∃ d' : SimHw.t,
  hw_indirect_ctext_prog 7 QDMA_CTXT_CMD_CLR QDMA_CTXT_SEL_WRB None 0 false (SimHw.init 5000)
    = ((0, None), d').
Proof.
  destruct (hw_indirect_ctext_prog_clear 7 QDMA_CTXT_SEL_WRB None 0 (SimHw.init 5000))
    as (d' & E & _); [apply SimHw.init_idle|lia|exists d'; exact E].
Defined.

Lemma fmap_word_fields_witness :
  bits_get SEL_FMAP_QID_BASE_SHIFT 11 (fmap_word 64 8) = 64 ∧
  bits_get SEL_FMAP_QID_MAX_SHIFT 12 (fmap_word 64 8) = 8.
Proof. apply (fmap_word_fields 64 8); lia. Defined.

Lemma hw_prog_qid2vec_fields_witness : ∃ v (d1 : SimHw.t) w,
  readl QDMA_REG_C2H_QID2VEC_MAP (writel QDMA_REG_C2H_QID2VEC_MAP_QID 5 (SimHw.init 0)).2 = (v, d1) ∧
  bits_get (qid2vec_shift true) 8 w = 3.
Proof.
  destruct (hw_prog_qid2vec_fields 5 true 3 true (SimHw.init 0)) as (v & d1 & w & E & _ & Hf & _);
    [lia|exists v, d1, w; split; [exact E|exact Hf]].
Defined.

Lemma hw_set_global_csr_values_witness :
  SimHw.regs (hw_set_global_csr (SimHw.init 0)).2 !! QDMA_REG_GLBL_WB_ACC = Some 1.
Proof. apply (hw_set_global_csr_values (SimHw.init 0) 3). lia. Defined.
