(* ===== verification/Types.v ===== *)
(** * Data of the driver (libqdma_export.h, xdev.h, qdma_device.h, qdma_descq.h)

    The records of the driver's structs, with the fields that its operations
    read or write; a flat C struct is grouped in sub-records where a component
    owns a group of fields (the descriptor ring, the writeback ring, the
    context settings).  Pointers to objects are indices: a request is the
    index of its [qdma_sg_req], a worker thread the index in [wrk_threads] or
    [wb_threads]. *)

From stdpp Require Export strings.
From S2P Require Export Prelude Regs.

(** ** Limits (libqdma_export.h, xdev.h) *)

Definition QDMA_PF_MAX : Z := 2.
Definition QDMA_VF_MAX : Z := 252.
Definition QDMA_VF_PER_PF_MAX : Z := 8.
Definition QDMA_Q_PER_PF_MAX : Z := 32.
Definition QDMA_Q_PER_VF_MAX : Z := 8.
Definition QDMA_FUNC_ID_INVALID : Z := QDMA_PF_MAX + QDMA_VF_MAX.
Definition QDMA_QUEUE_IDX_INVALID : Z := 0xFFFF.
Definition XDMA_DESC_BLEN_BITS : Z := 28.
Definition XDMA_DESC_BLEN_MAX : Z := Z.shiftl 1 XDMA_DESC_BLEN_BITS - 1.
Definition XDEV_FLAG_OFFLINE : Z := 0x1.
Definition XDEV_NUM_IRQ_MAX : Z := 8.

(** [PCI_DMA_H] and [PCI_DMA_L]: the halves of a 64-bit bus address. *)
Definition PCI_DMA_H (addr : Z) : Z := Z.shiftr (Z.shiftr addr 16) 16.
Definition PCI_DMA_L (addr : Z) : Z := Z.land addr 0xffffffff.

(** [DESC_SZ_OTHER]: a value of the C enum that is none of its enumerators. *)
Inductive ctxt_desc_sz_sel := DESC_SZ_8B | DESC_SZ_16B | DESC_SZ_32B | DESC_SZ_RSV
| DESC_SZ_OTHER (v : Z).

Definition desc_sz_z (s : ctxt_desc_sz_sel) : Z :=
  match s with DESC_SZ_8B => 0 | DESC_SZ_16B => 1 | DESC_SZ_32B => 2 | DESC_SZ_RSV => 3
  | DESC_SZ_OTHER v => v end.

(** The cast [(enum ctxt_desc_sz_sel)v]. *)
Definition desc_sz_of_z (v : Z) : ctxt_desc_sz_sel :=
  if v =? 0 then DESC_SZ_8B else if v =? 1 then DESC_SZ_16B
  else if v =? 2 then DESC_SZ_32B else if v =? 3 then DESC_SZ_RSV else DESC_SZ_OTHER v.

Inductive tigger_mode :=
  TRIG_MODE_DISABLE | TRIG_MODE_ANY | TRIG_MODE_TIMER
| TRIG_MODE_COUNTER | TRIG_MODE_COMBO | TRIG_MODE_USER.

Definition trig_z (m : tigger_mode) : Z :=
  match m with
  | TRIG_MODE_DISABLE => 0 | TRIG_MODE_ANY => 1 | TRIG_MODE_TIMER => 2
  | TRIG_MODE_COUNTER => 3 | TRIG_MODE_COMBO => 4 | TRIG_MODE_USER => 5
  end.

#[export] Instance desc_sz_eq_dec : EqDecision ctxt_desc_sz_sel.
Proof. solve_decision. Defined.
#[export] Instance trig_eq_dec : EqDecision tigger_mode.
Proof. solve_decision. Defined.

(** ** Queue configuration *)

Record qdma_queue_conf := QueueConf {
  qidx : Z;                    (* unsigned short *)
  st : bool;
  c2h : bool;
  conf_wrb_desc_size : Z;      (* st_c2h_wrb_desc_size, unsigned char *)
  name : string;
  rngsz : Z                    (* unsigned int *)
}.
#[export] Instance queue_conf_eta : Settable qdma_queue_conf := λ r,
  QueueConf (qidx r) (st r) (c2h r) (conf_wrb_desc_size r) (name r) (rngsz r).

(** ** Descriptors (qdma_regs.h) *)

Record qdma_mm_desc := MMDesc {
  mm_src_addr : Z; mm_flag_len : Z; mm_rsvd0 : Z; mm_dst_addr : Z; mm_rsvd1 : Z }.
Record qdma_h2c_desc := H2CDesc { h2c_src_addr : Z; h2c_flag_len : Z }.  (* rsvd: never written *)
Record qdma_c2h_desc := C2HDesc { c2h_dst_addr : Z }.

#[export] Instance mm_desc_eta : Settable qdma_mm_desc := λ r,
  MMDesc (mm_src_addr r) (mm_flag_len r) (mm_rsvd0 r) (mm_dst_addr r) (mm_rsvd1 r).
#[export] Instance h2c_desc_eta : Settable qdma_h2c_desc := λ r,
  H2CDesc (h2c_src_addr r) (h2c_flag_len r).

(** One entry of the descriptor ring, by the mode of its queue. *)
Inductive ring_desc :=
  | MM (d : qdma_mm_desc) | H2C (d : qdma_h2c_desc) | C2H (d : qdma_c2h_desc).

Definition S_DESC_F_DV : Z := 28.
Definition S_DESC_F_SOP : Z := 29.
Definition S_DESC_F_EOP : Z := 30.

(** ** The descriptor queue *)

(** Settings that end in the queue contexts and the doorbells. *)
Record ctxt_conf := CtxtConf {
  irq_en : Z; prefetch_en : Z; wrb_stat_desc_en : Z;
  wrb_trig_mode : tigger_mode; wrb_timer_idx : Z }.
#[export] Instance ctxt_conf_eta : Settable ctxt_conf := λ r,
  CtxtConf (irq_en r) (prefetch_en r) (wrb_stat_desc_en r) (wrb_trig_mode r) (wrb_timer_idx r).

(** The descriptor ring: [desc] is [None] for a NULL pointer; [desc_wb_cidx]
    is the consumer index the device writes back. *)
Record desc_ring := Ring {
  avail : Z; pidx : Z; cidx : Z; credit : Z;
  desc : option (list ring_desc); desc_bus : Z; desc_wb_cidx : Z }.
#[export] Instance ring_eta : Settable desc_ring := λ r,
  Ring (avail r) (pidx r) (cidx r) (credit r) (desc r) (desc_bus r) (desc_wb_cidx r).

(** The writeback ring of a streaming C2H queue: entries of
    [wrb_entry_len] bytes; [desc_wrb_cur] is the entry the pointer of that
    name points to, [wrb_wb_pidx] the producer index the device writes back. *)
Record wrb_ring := WrbRing {
  rngsz_wrb : Z; pidx_wrb : Z; cidx_wrb : Z;
  wrb_desc_size : ctxt_desc_sz_sel; wrb_udd_en : bool; wrb_entry_len : Z;
  desc_wrb : option (list (list Z)); desc_wrb_cur : Z; desc_wrb_bus : Z; wrb_wb_pidx : Z }.
#[export] Instance wrb_ring_eta : Settable wrb_ring := λ r,
  WrbRing (rngsz_wrb r) (pidx_wrb r) (cidx_wrb r) (wrb_desc_size r) (wrb_udd_en r)
    (wrb_entry_len r) (desc_wrb r) (desc_wrb_cur r) (desc_wrb_bus r) (wrb_wb_pidx r).

(** The receive side of a streaming C2H queue: the free list of pages, and the
    received pages and user-defined data not read yet (each linked list with
    its head and tail pointers is a list).  A page is a number. *)
Record fl_desc := FlDesc { fl_pg : option nat; fl_dma_addr : Z; fl_len : Z }.
Record st_c2h_wrb_udd := Udd { udd_data : list Z; udd_len : Z; udd_offset : Z }.
Record st_rx_data := RxData { rx_pg : option nat; rx_offset : Z; rx_len : Z; rx_udd_ref : bool }.
Record st_rx_queue := RxQueue { dlen : Z; udd_q : list st_c2h_wrb_udd; rx_q : list st_rx_data }.
Record rx_state := RxState { st_rx_fl : option (list fl_desc); rx_queue : st_rx_queue }.
#[export] Instance fl_desc_eta : Settable fl_desc := λ r, FlDesc (fl_pg r) (fl_dma_addr r) (fl_len r).
#[export] Instance udd_eta : Settable st_c2h_wrb_udd := λ r,
  Udd (udd_data r) (udd_len r) (udd_offset r).
#[export] Instance rx_data_eta : Settable st_rx_data := λ r,
  RxData (rx_pg r) (rx_offset r) (rx_len r) (rx_udd_ref r).
#[export] Instance rx_queue_eta : Settable st_rx_queue := λ r,
  RxQueue (dlen r) (udd_q r) (rx_q r).
#[export] Instance rx_state_eta : Settable rx_state := λ r, RxState (st_rx_fl r) (rx_queue r).

Definition rx_empty : st_rx_queue := RxQueue 0 [] [].

Record qdma_descq := Descq {
  conf : qdma_queue_conf;
  channel : Z;
  enabled : bool; inited : bool; online : bool;
  cc : ctxt_conf;
  qidx_hw : Z; intr_id : Z;
  wrkthp : option nat; wbthp : option nat;
  work_list : list nat; pend_list : list nat;
  ring : desc_ring;
  wrb : wrb_ring;
  rx : rx_state
}.
#[export] Instance descq_eta : Settable qdma_descq := λ r,
  Descq (conf r) (channel r) (enabled r) (inited r) (online r) (cc r) (qidx_hw r)
    (intr_id r) (wrkthp r) (wbthp r) (work_list r) (pend_list r) (ring r) (wrb r)
    (rx r).

(** ** The device *)

Record intr_coal_conf := IntrCoal {
  vec_id : Z; intr_ring_size : Z; intr_ring_bus : Z; coal_color : bool;
  coal_pidx : Z; coal_cidx : Z }.
#[export] Instance intr_coal_eta : Settable intr_coal_conf := λ r,
  IntrCoal (vec_id r) (intr_ring_size r) (intr_ring_bus r) (coal_color r) (coal_pidx r) (coal_cidx r).

Record qdma_dev_conf := DevConf {
  pftch_en : Z; poll_mode : bool; indirect_intr_mode : bool; qsets_max : Z;
  h2c_channel_max : Z; c2h_channel_max : Z; dev_idx : Z;
  bar_num_config : Z; bar_num_user : Z }.                  (* char *)
#[export] Instance dev_conf_eta : Settable qdma_dev_conf := λ r,
  DevConf (pftch_en r) (poll_mode r) (indirect_intr_mode r) (qsets_max r) (h2c_channel_max r)
    (c2h_channel_max r) (dev_idx r) (bar_num_config r) (bar_num_user r).

Record qdma_dev := Qdev {
  init_qrange : bool;
  qmax : Z; qbase : Z;          (* unsigned short *)
  h2c_qcnt : Z; c2h_qcnt : Z;   (* unsigned short *)
  h2c_descq : list qdma_descq; c2h_descq : list qdma_descq }.
#[export] Instance qdev_eta : Settable qdma_dev := λ r,
  Qdev (init_qrange r) (qmax r) (qbase r) (h2c_qcnt r) (c2h_qcnt r) (h2c_descq r) (c2h_descq r).

Record qdma_vf_info := VfInfo { vf_func_id : Z; vf_qbase : Z; vf_qmax : Z }.
#[export] Instance vf_info_eta : Settable qdma_vf_info := λ r,
  VfInfo (vf_func_id r) (vf_qbase r) (vf_qmax r).

Record xlnx_dma_dev := Xdev {
  dev_conf : qdma_dev_conf;
  flags : Z;
  func_id : Z; func_id_parent : Z;        (* u8 *)
  vf_info : list qdma_vf_info;            (* vf_count entries *)
  num_vecs : Z;
  intr_list_cnt : list Z;
  intr_coal_en : bool;
  intr_coal_list : list intr_coal_conf
}.
#[export] Instance xdev_eta : Settable xlnx_dma_dev := λ r,
  Xdev (dev_conf r) (flags r) (func_id r) (func_id_parent r) (vf_info r) (num_vecs r)
    (intr_list_cnt r) (intr_coal_en r) (intr_coal_list r).

(** ** The values the fields take: flags of 0 or 1 (as [qdma_descq_config] sets
    them), [u8] function numbers, 64-bit bus addresses. *)

Record descq_fields_wf (q : qdma_descq) : Prop := {
  irq_en_wf : 0 <= irq_en (cc q) < 2;
  prefetch_en_wf : 0 <= prefetch_en (cc q) < 2;
  wrb_stat_desc_en_wf : 0 <= wrb_stat_desc_en (cc q) < 2;
  desc_size_wf : 0 <= desc_sz_z (wrb_desc_size (wrb q)) < 4;
  channel_wf : 0 <= channel q < 2;
  desc_bus_wf : 0 <= desc_bus (ring q) < 2 ^ 64;
  desc_wrb_bus_wf : 0 <= desc_wrb_bus (wrb q) < 2 ^ 64
}.

(** A bus address is the concatenation of its halves. *)
Lemma PCI_DMA_HL addr :
  0 <= addr < 2 ^ 64 → PCI_DMA_H addr * 2 ^ 32 + PCI_DMA_L addr = addr ∧
  0 <= PCI_DMA_H addr < 2 ^ 32 ∧ 0 <= PCI_DMA_L addr < 2 ^ 32.
Proof.
  intros Ha. unfold PCI_DMA_H, PCI_DMA_L. rewrite Z.shiftr_shiftr by lia.
  change 0xffffffff with (Z.ones 32). rewrite Z.land_ones, Z.shiftr_div_pow2 by lia.
  change (16 + 16) with 32.
  pose proof (Z.div_mod addr (2 ^ 32)). pose proof (Z.mod_pos_bound addr (2 ^ 32)).
  split_and!; lia.
Qed.

(** ** A concrete device and queue, for the witnesses *)

Module Sample.

Definition qconf (is_st is_c2h : bool) : qdma_queue_conf :=
  QueueConf 0 is_st is_c2h 0 "qdma0-ST-0" 4.

Definition queue (is_st is_c2h : bool) : qdma_descq :=
  Descq (qconf is_st is_c2h) 0 false true true
    (CtxtConf 1 1 1 TRIG_MODE_ANY 0) 5 3 None None [] []
    (Ring 3 0 0 0 None 0x123456000 0)
    (WrbRing 256 0 0 DESC_SZ_8B false 8 None 0 0x987654000 0) (RxState None rx_empty).

Definition dev : xlnx_dma_dev :=
  Xdev (DevConf 0 false false 32 1 1 0 0 2) 0 7 0 [] 2 [0; 0] true [].

Lemma queue_wf is_st is_c2h : descq_fields_wf (queue is_st is_c2h).
Proof. split; cbn; lia. Qed.

End Sample.
