(* ===== verification/Context.v ===== *)
(** * Queue contexts (qdma_context.c)

    The context words of a queue, as [make_sw_context], [make_prefetch_context],
    [make_wrb_context] and [make_intr_context] build them, and the operations
    that clear, program and read the contexts of a queue in the device (the
    physical function's versions of [src/drv/libqdma/qdma_context.c]). *)

From S2P Require Import Prelude Regs Types.

(** ** Bit positions (qdma_regs.h) *)

Definition S_DESC_CTXT_W1_F_QEN : Z := 0.
Definition S_DESC_CTXT_W1_F_FCRD_EN : Z := 1.
Definition S_DESC_CTXT_W1_F_WBI_CHK : Z := 2.
Definition S_DESC_CTXT_W1_F_WB_ACC_EN : Z := 3.
Definition S_DESC_CTXT_W1_FUNC_ID : Z := 4.
Definition S_DESC_CTXT_W1_RNG_SZ : Z := 12.
Definition S_DESC_CTXT_W1_DSC_SZ : Z := 16.
Definition S_DESC_CTXT_W1_F_MM_CHN : Z := 19.
Definition S_DESC_CTXT_W1_F_WBK_EN : Z := 20.
Definition S_DESC_CTXT_W1_F_IRQ_EN : Z := 21.

Definition S_WRB_CTXT_W0_F_EN_STAT_DESC : Z := 0.
Definition S_WRB_CTXT_W0_F_EN_INT : Z := 1.
Definition S_WRB_CTXT_W0_TRIG_MODE : Z := 2.
Definition S_WRB_CTXT_W0_FNC_ID : Z := 5.
Definition M_WRB_CTXT_W0_FNC_ID : Z := 0xFF.
Definition S_WRB_CTXT_W0_F_COLOR : Z := 23.
Definition S_WRB_CTXT_W0_BADDR_64 : Z := 28.
Definition M_WRB_CTXT_W0_BADDR_64 : Z := 0xF.
Definition L_WRB_CTXT_W0_BADDR_64 : Z := 4.
Definition S_WRB_CTXT_W2_BADDR_64 : Z := 0.
Definition M_WRB_CTXT_W2_BADDR_64 : Z := 0x3FFFFF.
Definition S_WRB_CTXT_W2_DESC_SIZE : Z := 22.
Definition S_WRB_CTXT_W3_F_VALID : Z := 24.

Definition S_PFTCH_W0_FNC_ID : Z := 5.
Definition M_PFTCH_W0_FNC_ID : Z := 0xFF.
Definition S_PFTCH_W0_F_EN_PFTCH : Z := 27.
Definition S_PFTCH_W1_F_VALID : Z := 13.

Definition S_INT_COAL_W0_F_VALID : Z := 0.
Definition S_INT_COAL_W0_VEC_ID : Z := 1.
Definition S_INT_COAL_W0_BADDR_64 : Z := 9.
Definition M_INT_COAL_W0_BADDR_64 : Z := 0x7FFFFF.
Definition S_INT_COAL_W1_BADDR_64 : Z := 0.
Definition M_INT_COAL_W1_BADDR_64 : Z := 0x1FFFFFFF.

(** ** Building the context words *)

(** A context is an array of [cnt] words: the error [-EINVAL] of a short
    array, or the words. *)
Definition make_sw_context (xdev : xlnx_dma_dev) (q : qdma_descq) (cnt : Z)
    : Z + list Z :=
  if cnt <? 4 then inl (- EINVAL) else
  let w1 := or_bits
    [ Z.shiftl 1 S_DESC_CTXT_W1_F_QEN;
      Z.shiftl 1 S_DESC_CTXT_W1_F_WB_ACC_EN;
      Z.shiftl 1 S_DESC_CTXT_W1_F_WBI_CHK;
      Z.shiftl (func_id xdev) S_DESC_CTXT_W1_FUNC_ID;
      Z.shiftl 1 S_DESC_CTXT_W1_F_WBK_EN;
      Z.shiftl (irq_en (cc q)) S_DESC_CTXT_W1_F_IRQ_EN ] in
  let w1' :=
    if negb (st (conf q)) then   (* mm h2c/c2h *)
      or_bits [ Z.shiftl (desc_sz_z DESC_SZ_32B) S_DESC_CTXT_W1_DSC_SZ;
                Z.shiftl (channel q) S_DESC_CTXT_W1_F_MM_CHN ]
    else if c2h (conf q) then    (* st c2h *)
      or_bits [ Z.shiftl 1 S_DESC_CTXT_W1_F_FCRD_EN;
                Z.shiftl (desc_sz_z DESC_SZ_8B) S_DESC_CTXT_W1_DSC_SZ ]
    else                         (* st h2c *)
      Z.shiftl (desc_sz_z DESC_SZ_16B) S_DESC_CTXT_W1_DSC_SZ in
  inr ([ 0; u32 (Z.lor w1 w1'); u32 (PCI_DMA_L (desc_bus (ring q)));
         u32 (PCI_DMA_H (desc_bus (ring q))) ]
       ++ replicate (Z.to_nat cnt - 4) 0).

Definition make_prefetch_context (xdev : xlnx_dma_dev) (q : qdma_descq) (cnt : Z)
    : Z + list Z :=
  if cnt <? 2 then inl (- EINVAL) else
  inr ([ u32 (Z.lor (Z.shiftl (Z.land (func_id xdev) M_PFTCH_W0_FNC_ID) S_PFTCH_W0_FNC_ID)
                    (Z.shiftl (prefetch_en (cc q)) S_PFTCH_W0_F_EN_PFTCH));
         Z.shiftl 1 S_PFTCH_W1_F_VALID ]
       ++ replicate (Z.to_nat cnt - 2) 0).

(** The 58 significant bits of the writeback ring's bus address. *)
Definition wrb_bus_64 (bus : Z) : Z :=
  u64 (Z.lor (u64 (Z.shiftl (PCI_DMA_H bus) 26)) (Z.shiftr (PCI_DMA_L bus) 6)).

Definition make_wrb_context (xdev : xlnx_dma_dev) (q : qdma_descq) (cnt : Z)
    : Z + list Z :=
  if cnt <? 4 then inl (- EINVAL) else
  let bus_64 := wrb_bus_64 (desc_wrb_bus (wrb q)) in
  let v := u32 (Z.land bus_64 M_WRB_CTXT_W0_BADDR_64) in
  let w0 := u32 (or_bits
    [ Z.shiftl (wrb_stat_desc_en (cc q)) S_WRB_CTXT_W0_F_EN_STAT_DESC;
      Z.shiftl (irq_en (cc q)) S_WRB_CTXT_W0_F_EN_INT;
      Z.shiftl (trig_z (wrb_trig_mode (cc q))) S_WRB_CTXT_W0_TRIG_MODE;
      Z.shiftl (Z.land (func_id xdev) M_WRB_CTXT_W0_FNC_ID) S_WRB_CTXT_W0_FNC_ID;
      Z.shiftl 1 S_WRB_CTXT_W0_F_COLOR;
      Z.shiftl (Z.land v M_WRB_CTXT_W0_BADDR_64) S_WRB_CTXT_W0_BADDR_64 ]) in
  let w1 := Z.land (Z.shiftr bus_64 L_WRB_CTXT_W0_BADDR_64) 0xFFFFFFFF in
  let v := u32 (Z.land (Z.shiftr bus_64 (L_WRB_CTXT_W0_BADDR_64 + 32)) M_WRB_CTXT_W2_BADDR_64) in
  let w2 := u32 (Z.lor
    (Z.shiftl (Z.land v M_WRB_CTXT_W2_BADDR_64) S_WRB_CTXT_W2_BADDR_64)
    (Z.shiftl (desc_sz_z (wrb_desc_size (wrb q))) S_WRB_CTXT_W2_DESC_SIZE)) in
  inr ([ w0; w1; w2; Z.shiftl 1 S_WRB_CTXT_W3_F_VALID ]
       ++ replicate (Z.to_nat cnt - 4) 0).

(** The two words of one vector's coalescing context. *)
Definition intr_context_words (i : nat) (entry : intr_coal_conf) : list Z :=
  let bus_64 := u64 (Z.lor (u64 (Z.shiftl (PCI_DMA_H (intr_ring_bus entry)) 12))
                           (Z.shiftr (PCI_DMA_L (intr_ring_bus entry)) 9)) in
  let v := u32 (Z.land bus_64 M_INT_COAL_W0_BADDR_64) in
  let w0 := u32 (or_bits
    [ Z.shiftl 1 S_INT_COAL_W0_F_VALID; Z.shiftl (Z.of_nat i) S_INT_COAL_W0_VEC_ID;
      Z.shiftl (Z.land v M_INT_COAL_W0_BADDR_64) S_INT_COAL_W0_BADDR_64 ]) in
  let v := u32 (Z.land bus_64 M_INT_COAL_W1_BADDR_64) in
  [w0; u32 (Z.shiftl (Z.land v M_INT_COAL_W1_BADDR_64) S_INT_COAL_W1_BADDR_64)].

Definition make_intr_context (xdev : xlnx_dma_dev) (cnt : Z) : Z + list Z :=
  if intr_coal_en xdev then inr (replicate (Z.to_nat cnt) 0)
  else if cnt <? Z.shiftl (num_vecs xdev) 1 then inl (- EINVAL)
  else
    let l := concat (imap intr_context_words
                      (take (Z.to_nat (num_vecs xdev)) (intr_coal_list xdev))) in
    inr (l ++ replicate (Z.to_nat cnt - length l) 0).

(** The buffer after a [make_*] call; an error leaves it as it was. *)
Definition made (r : Z + list Z) (old : list Z) : list Z :=
  match r with inl _ => old | inr l => l end.

(** ** Context operations of the physical function *)

Record hw_descq_context := HwCtxt {
  ctxt_sw : list Z;        (* u32 sw[4] *)
  ctxt_prefetch : list Z;  (* u32 prefetch[2] *)
  ctxt_wrb : list Z;       (* u32 wrb[4] *)
  ctxt_hw : list Z;        (* u32 hw[2], read only *)
  ctxt_cr : list Z         (* u32 cr[1], read only *)
}.
#[export] Instance hw_ctxt_eta : Settable hw_descq_context := λ r,
  HwCtxt (ctxt_sw r) (ctxt_prefetch r) (ctxt_wrb r) (ctxt_hw r) (ctxt_cr r).

(** [memset(context, 0, sizeof(struct hw_descq_context))] *)
Definition hw_ctxt_zero : hw_descq_context :=
  HwCtxt (replicate 4 0) (replicate 2 0) (replicate 4 0) (replicate 2 0) (replicate 1 0).

Definition sel_sw (c2h : bool) : ind_ctxt_cmd_sel :=
  if c2h then QDMA_CTXT_SEL_SW_C2H else QDMA_CTXT_SEL_SW_H2C.
Definition sel_hw (c2h : bool) : ind_ctxt_cmd_sel :=
  if c2h then QDMA_CTXT_SEL_HW_C2H else QDMA_CTXT_SEL_HW_H2C.
Definition sel_cr (c2h : bool) : ind_ctxt_cmd_sel :=
  if c2h then QDMA_CTXT_SEL_CR_C2H else QDMA_CTXT_SEL_CR_H2C.

Section ops.
Context {D : Type} `{!RegIo D}.

(** A command whose data buffer is not read back. *)
Definition prog (qid : Z) (op : ind_ctxt_cmd_op) (sel : ind_ctxt_cmd_sel)
    (data : option (list Z)) (cnt : Z) (verify : bool) : ST D Z :=
  r ← hw_indirect_ctext_prog qid op sel data cnt verify; mret r.1.

Definition qdma_descq_context_clear (qid_hw : Z) (st c2h : bool) : ST D Z :=
  prog qid_hw QDMA_CTXT_CMD_CLR (sel_sw c2h) None 0 false ;;?
  prog qid_hw QDMA_CTXT_CMD_CLR (sel_hw c2h) None 0 false ;;?
  prog qid_hw QDMA_CTXT_CMD_CLR (sel_cr c2h) None 0 false ;;?
  if st && c2h then
    prog qid_hw QDMA_CTXT_CMD_WR QDMA_CTXT_SEL_PFTCH (Some (replicate 4 0)) 4 true ;;?
    prog qid_hw QDMA_CTXT_CMD_CLR QDMA_CTXT_SEL_WRB None 0 false ;;?
    mret 0
  else mret 0.

Definition qdma_descq_context_program (qid_hw : Z) (st c2h : bool)
    (context : hw_descq_context) : ST D Z :=
  qdma_descq_context_clear qid_hw st c2h ;;?
  prog qid_hw QDMA_CTXT_CMD_WR (sel_sw c2h) (Some (ctxt_sw context)) 4 true ;;?
  if negb st || negb c2h then mret 0 else
  prog qid_hw QDMA_CTXT_CMD_WR QDMA_CTXT_SEL_PFTCH (Some (ctxt_prefetch context)) 2 true ;;?
  prog qid_hw QDMA_CTXT_CMD_WR QDMA_CTXT_SEL_WRB (Some (ctxt_wrb context)) 4 true ;;?
  mret 0.

(** One [RD] into the field [get]/[upd] of the context being read. *)
Definition read_into (qid : Z) (sel : ind_ctxt_cmd_sel) (cnt : Z)
    (get : hw_descq_context → list Z)
    (upd : list Z → hw_descq_context → hw_descq_context)
    (k : hw_descq_context → ST D (Z * hw_descq_context)) (c : hw_descq_context)
    : ST D (Z * hw_descq_context) :=
  r ← hw_indirect_ctext_prog qid QDMA_CTXT_CMD_RD sel (Some (get c)) cnt false;
  let c := upd (default [] r.2) c in
  if r.1 <? 0 then mret (r.1, c) else k c.

Definition set_sw (l : list Z) (c : hw_descq_context) := c <| ctxt_sw := l |>.
Definition set_hw (l : list Z) (c : hw_descq_context) := c <| ctxt_hw := l |>.
Definition set_cr (l : list Z) (c : hw_descq_context) := c <| ctxt_cr := l |>.
Definition set_wrb (l : list Z) (c : hw_descq_context) := c <| ctxt_wrb := l |>.
Definition set_prefetch (l : list Z) (c : hw_descq_context) := c <| ctxt_prefetch := l |>.

Definition qdma_descq_context_read (qid_hw : Z) (st c2h : bool)
    : ST D (Z * hw_descq_context) :=
  read_into qid_hw (sel_sw c2h) 4 ctxt_sw set_sw (
  read_into qid_hw (sel_hw c2h) 2 ctxt_hw set_hw (
  read_into qid_hw (sel_cr c2h) 1 ctxt_cr set_cr (λ c,
  if st && c2h then
    read_into qid_hw QDMA_CTXT_SEL_WRB 4 ctxt_wrb set_wrb (
    read_into qid_hw QDMA_CTXT_SEL_PFTCH 2 ctxt_prefetch set_prefetch (λ c,
    mret (0, c))) c
  else mret (0, c)))) hw_ctxt_zero.

(** The contexts [qdma_descq_context_setup] programs for a queue. *)
Definition descq_contexts (xdev : xlnx_dma_dev) (q : qdma_descq) : hw_descq_context :=
  let c := hw_ctxt_zero <| ctxt_sw ::= made (make_sw_context xdev q 4) |> in
  if st (conf q) && c2h (conf q) then
    c <| ctxt_prefetch ::= made (make_prefetch_context xdev q 2) |>
      <| ctxt_wrb ::= made (make_wrb_context xdev q 4) |>
  else c.

Definition qdma_descq_context_setup (xdev : xlnx_dma_dev) (q : qdma_descq) : ST D Z :=
  _ ← (if irq_en (cc q) =? 0 then mret tt
       else hw_prog_qid2vec (qidx_hw q) (c2h (conf q)) (intr_id q) (intr_coal_en xdev));
  qdma_descq_context_clear (qidx_hw q) (st (conf q)) (c2h (conf q)) ;;?
  qdma_descq_context_program (qidx_hw q) (st (conf q)) (c2h (conf q)) (descq_contexts xdev q).

(** The loop over the vectors of [qdma_intr_context_setup], from vector [i]. *)
Fixpoint intr_context_loop (n : nat) (i : nat) (data : list Z) : ST D Z :=
  match n with
  | O => mret 0
  | S n' =>
      prog 0 QDMA_CTXT_CMD_CLR QDMA_CTXT_SEL_COAL None 4 false ;;?
      prog 0 QDMA_CTXT_CMD_WR QDMA_CTXT_SEL_COAL (Some (drop (2 * i) data)) 2 true ;;?
      intr_context_loop n' (S i) data
  end.

Definition qdma_intr_context_setup (xdev : xlnx_dma_dev) : ST D Z :=
  if negb (intr_coal_en xdev) then mret 0 else
  match make_intr_context xdev (Z.shiftl XDEV_NUM_IRQ_MAX 1) with
  | inl rv => mret rv
  | inr data => intr_context_loop (Z.to_nat (num_vecs xdev)) 0 data
  end.

End ops.

(** ** Lemmas: the commands in sequence *)

Section laws.
Context {D : Type} `{HC : CtxtHw D}.

(** The table of contexts of the device. *)
Definition ctxts (d : D) : gmap (Z * Z) (list Z) := cv_ctxt (ch_view d).

Lemma prog_ok_wr (d : D) qid sel l cnt verify :
  ctxt_idle d → 0 <= qid < 2048 → 1 <= cnt <= 4 → Z.of_nat (length l) = cnt →
  Forall word32 l →
  ∃ d', prog qid QDMA_CTXT_CMD_WR sel (Some l) cnt verify d = (0, d') ∧ ctxt_idle d' ∧
        ctxts d' = <[(qid, sel_z sel) := pad4 l]> (ctxts d).
Proof.
  intros Hi Hq Hc Hl HF.
  destruct (prog_wr d qid sel l cnt verify) as (d' & E & Hi' & Hc'); [done..|lia|done|].
  exists d'. unfold prog. rewrite (st_bind_eq _ _ _ _ _ E). split_and!; [done..|].
  unfold ctxts. rewrite Hc'. by rewrite take_ge by lia.
Qed.

Lemma prog_ok_clr (d : D) qid sel cnt :
  ctxt_idle d → 0 <= qid < 2048 →
  ∃ d', prog qid QDMA_CTXT_CMD_CLR sel None cnt false d = (0, d') ∧ ctxt_idle d' ∧
        ctxts d' = <[(qid, sel_z sel) := ctxt_zero]> (ctxts d).
Proof.
  intros Hi Hq. destruct (prog_clr d qid sel None cnt) as (d' & E & Hi' & Hc'); [done..|].
  exists d'. unfold prog. by rewrite (st_bind_eq _ _ _ _ _ E).
Qed.

(** The contexts of one queue and direction, as the operations touch them. *)
Definition cleared (qid : Z) (st c2h : bool) (m : gmap (Z * Z) (list Z)) :=
  let m := <[(qid, sel_z (sel_cr c2h)) := ctxt_zero]>
           (<[(qid, sel_z (sel_hw c2h)) := ctxt_zero]>
           (<[(qid, sel_z (sel_sw c2h)) := ctxt_zero]> m)) in
  if st && c2h then
    <[(qid, sel_z QDMA_CTXT_SEL_WRB) := ctxt_zero]>
    (<[(qid, sel_z QDMA_CTXT_SEL_PFTCH) := ctxt_zero]> m)
  else m.

Definition programmed (qid : Z) (st c2h : bool) (c : hw_descq_context)
    (m : gmap (Z * Z) (list Z)) :=
  let m := <[(qid, sel_z (sel_sw c2h)) := ctxt_sw c]> (cleared qid st c2h m) in
  if st && c2h then
    <[(qid, sel_z QDMA_CTXT_SEL_WRB) := ctxt_wrb c]>
    (<[(qid, sel_z QDMA_CTXT_SEL_PFTCH) := pad4 (ctxt_prefetch c)]> m)
  else m.

(** A context structure as the C type has it. *)
Record hw_ctxt_wf (c : hw_descq_context) : Prop := {
  sw_wf : words4 (ctxt_sw c);
  prefetch_wf : length (ctxt_prefetch c) = 2%nat ∧ Forall word32 (ctxt_prefetch c);
  wrb_wf : words4 (ctxt_wrb c)
}.

Local Ltac clr_step :=
  match goal with
  | Hi : ctxt_idle ?d, Hq : 0 <= ?qid < 2048 |-
      context [or_fail (prog ?qid QDMA_CTXT_CMD_CLR ?sel None ?cnt false) _ ?d] =>
      let d' := fresh "d" in let E := fresh "E" in let Hi' := fresh "Hi" in let Hc := fresh "Hc" in
      destruct (prog_ok_clr d qid sel cnt Hi Hq) as (d' & E & Hi' & Hc);
      rewrite (or_fail_ok _ _ _ _ _ E) by done; clear E
  end.

Local Ltac wr_step :=
  match goal with
  | Hi : ctxt_idle ?d, Hq : 0 <= ?qid < 2048 |-
      context [or_fail (prog ?qid QDMA_CTXT_CMD_WR ?sel (Some ?l) ?cnt ?vf) _ ?d] =>
      let d' := fresh "d" in let E := fresh "E" in let Hi' := fresh "Hi" in let Hc := fresh "Hc" in
      destruct (prog_ok_wr d qid sel l cnt vf Hi Hq) as (d' & E & Hi' & Hc);
        [lia| | |rewrite (or_fail_ok _ _ _ _ _ E) by done; clear E]
  end.

(** The final state of a run, its table rewritten step by step. *)
Local Ltac ctxts_done :=
  eexists; split; [reflexivity|]; split; [done|];
  repeat match goal with H : ctxts ?d = _ |- context [ctxts ?d] => rewrite H; clear H end;
  try reflexivity.

Lemma pad4_words4 l : words4 l → pad4 l = l.
Proof. intros [Hl _]. unfold pad4. by rewrite Hl, app_nil_r. Qed.

Lemma context_clear_ok (d : D) qid st c2h :
  ctxt_idle d → 0 <= qid < 2048 →
  ∃ d', qdma_descq_context_clear qid st c2h d = (0, d') ∧ ctxt_idle d' ∧
        ctxts d' = cleared qid st c2h (ctxts d).
Proof.
  intros Hi Hq. unfold qdma_descq_context_clear, cleared.
  do 3 clr_step. destruct (st && c2h).
  - wr_step; [done|repeat constructor; unfold word32; lia|]. clr_step.
    ctxts_done.
  - ctxts_done.
Qed.

Lemma context_program_ok (d : D) qid st c2h c :
  ctxt_idle d → 0 <= qid < 2048 → hw_ctxt_wf c →
  ∃ d', qdma_descq_context_program qid st c2h c d = (0, d') ∧ ctxt_idle d' ∧
        ctxts d' = programmed qid st c2h c (ctxts d).
Proof.
  intros Hi Hq [[Hs Hs'] [Hp Hp'] [Hw Hw']]. unfold qdma_descq_context_program, programmed.
  destruct (context_clear_ok d qid st c2h Hi Hq) as (d1 & E & Hi1 & Hc1).
  rewrite (or_fail_ok _ _ _ _ _ E) by done.
  wr_step; [lia|done|]. rewrite pad4_words4 in Hc by done.
  destruct st, c2h; cbn [negb orb andb]; try by ctxts_done.
  wr_step; [lia|done|]. wr_step; [lia|done|]. rewrite (pad4_words4 (ctxt_wrb c)) in Hc2 by done.
  ctxts_done.
Qed.

(** Reading one context into its field. *)
Lemma read_into_ok (d : D) qid sel cnt get upd k c :
  ctxt_idle d → 0 <= qid < 2048 → 1 <= cnt <= 4 → Z.of_nat (length (get c)) = cnt →
  ∃ d', read_into qid sel cnt get upd k c d =
          k (upd (take (Z.to_nat cnt) (cv_get (ch_view d) qid (sel_z sel))) c) d' ∧
        ctxt_idle d' ∧ ctxts d' = ctxts d.
Proof.
  intros Hi Hq Hc Hl. unfold read_into.
  destruct (prog_rd d qid sel (get c) cnt false) as (d' & E & Hi' & Hc'); [done..|].
  exists d'. rewrite (st_bind_eq _ _ _ _ _ E). cbn [fst snd default from_option Z.ltb Z.compare].
  rewrite drop_ge, app_nil_r by lia. done.
Qed.

(** The contexts of a queue as the table holds them. *)
Definition table_context (m : gmap (Z * Z) (list Z)) (qid : Z) (st c2h : bool) : hw_descq_context :=
  let get sel := default ctxt_zero (m !! (qid, sel_z sel)) in
  HwCtxt (get (sel_sw c2h))
    (if st && c2h then take 2 (get QDMA_CTXT_SEL_PFTCH) else [0; 0])
    (if st && c2h then get QDMA_CTXT_SEL_WRB else ctxt_zero)
    (take 2 (get (sel_hw c2h))) (take 1 (get (sel_cr c2h))).

Lemma context_read_ok (d : D) qid st c2h :
  ctxt_idle d → 0 <= qid < 2048 →
  ∃ d', qdma_descq_context_read qid st c2h d = ((0, table_context (ctxts d) qid st c2h), d') ∧
        ctxt_idle d' ∧ ctxts d' = ctxts d.
Proof.
  intros Hi Hq. unfold qdma_descq_context_read.
  assert (∀ d sel, ctxt_idle d → take 4 (cv_get (ch_view d) qid sel) = cv_get (ch_view d) qid sel) as H4.
  { intros d0 sel [_ Hwf]. apply take_ge. destruct (cv_get_wf _ qid sel Hwf). lia. }
  destruct (read_into_ok d qid (sel_sw c2h) 4 ctxt_sw set_sw
    (read_into qid (sel_hw c2h) 2 ctxt_hw set_hw
      (read_into qid (sel_cr c2h) 1 ctxt_cr set_cr (λ c,
        if st && c2h then
          read_into qid QDMA_CTXT_SEL_WRB 4 ctxt_wrb set_wrb (
          read_into qid QDMA_CTXT_SEL_PFTCH 2 ctxt_prefetch set_prefetch (λ c, mret (0, c))) c
        else mret (0, c)))) hw_ctxt_zero) as (d1 & -> & Hi1 & Hc1); [done..|].
  edestruct (read_into_ok d1 qid (sel_hw c2h) 2 ctxt_hw set_hw) as (d2 & E & Hi2 & Hc2);
    [done..| |rewrite E; clear E]; [done|].
  edestruct (read_into_ok d2 qid (sel_cr c2h) 1 ctxt_cr set_cr) as (d3 & E & Hi3 & Hc3);
    [done..| |rewrite E; clear E]; [done|].
  unfold table_context, cv_get, ctxts in *. change (Z.to_nat 4) with 4%nat.
  destruct (st && c2h).
  - edestruct (read_into_ok d3 qid QDMA_CTXT_SEL_WRB 4 ctxt_wrb set_wrb) as (d4 & E & Hi4 & Hc4);
      [done..| |rewrite E; clear E]; [done|].
    edestruct (read_into_ok d4 qid QDMA_CTXT_SEL_PFTCH 2 ctxt_prefetch set_prefetch)
      as (d5 & E & Hi5 & Hc5); [done..| |rewrite E; clear E]; [done|].
    unfold cv_get, ctxts in *. change (Z.to_nat 4) with 4%nat.
    pose proof (H4 d (sel_z (sel_sw c2h)) Hi) as T1.
    pose proof (H4 d3 (sel_z QDMA_CTXT_SEL_WRB) Hi3) as T2.
    exists d5. split; [|split; [done|congruence]].
    rewrite T1, T2, Hc4, Hc3, Hc2, Hc1. done.
  - pose proof (H4 d (sel_z (sel_sw c2h)) Hi) as T1.
    exists d3. split; [|split; [done|congruence]]. rewrite T1, Hc2, Hc1. done.
Qed.

End laws.

(** ** Lemmas: the words of a context *)

Lemma b2z_range b : 0 <= b2z b < 2.
Proof. destruct b; cbn; lia. Qed.

Lemma u32_range x : word32 (u32 x).
Proof. unfold word32, u32. apply Z.mod_pos_bound. lia. Qed.

Lemma land_range k x : 0 <= k → 0 <= Z.land x (Z.ones k) < 2 ^ k.
Proof. intros. rewrite Z.land_ones by lia. apply Z.mod_pos_bound. lia. Qed.

(** The writeback base is the bus address in units of 64 bytes. *)
Lemma wrb_bus_64_eq bus : 0 <= bus < 2 ^ 64 → wrb_bus_64 bus = Z.shiftr bus 6.
Proof.
  intros Hb. unfold wrb_bus_64, PCI_DMA_H, PCI_DMA_L, u64. change 0xffffffff with (Z.ones 32).
  apply Z.bits_inj'. intros n Hn.
  destruct (decide (n < 64)).
  2: { rewrite Z.mod_pow2_bits_high, Z.shiftr_spec by lia. symmetry. apply (testbit_small 64); lia. }
  rewrite Z.mod_pow2_bits_low, Z.lor_spec, Z.mod_pow2_bits_low by lia.
  rewrite Z.shiftl_spec, !(Z.shiftr_spec _ 6), Z.land_spec by lia.
  destruct (decide (n < 26)).
  - rewrite Z.testbit_neg_r, Z.ones_spec_low by lia. by rewrite andb_true_r.
  - rewrite !Z.shiftr_spec, Z.ones_spec_high by lia. rewrite andb_false_r, orb_false_r. f_equal. lia.
Qed.

Lemma split_at k x : 0 <= k → x = bits_get 0 k x + 2 ^ k * Z.shiftr x k.
Proof.
  intros Hk. unfold bits_get. rewrite Z.shiftr_0_r, Z.land_ones, Z.shiftr_div_pow2 by lia.
  pose proof (Z.div_mod x (2 ^ k)). lia.
Qed.

(** ** Properties: the contexts carry the queue's settings *)

(** The software context of a queue: with the C types' ranges, each field
    the hardware decodes is the queue's (enable, credit, writeback and
    interrupt flags, function, descriptor size by mode, MM channel) and the
    two address words are the halves of the ring's bus address. *)
Theorem make_sw_context_fields xdev q :
  descq_fields_wf q → 0 <= func_id xdev < 256 →
  ∃ w1 w2 w3, make_sw_context xdev q 4 = inr [0; w1; w2; w3] ∧
    bits_get S_DESC_CTXT_W1_F_QEN 1 w1 = 1 ∧
    bits_get S_DESC_CTXT_W1_F_FCRD_EN 1 w1 = b2z (st (conf q) && c2h (conf q)) ∧
    bits_get S_DESC_CTXT_W1_F_WBI_CHK 1 w1 = 1 ∧
    bits_get S_DESC_CTXT_W1_F_WB_ACC_EN 1 w1 = 1 ∧
    bits_get S_DESC_CTXT_W1_FUNC_ID 8 w1 = func_id xdev ∧
    bits_get S_DESC_CTXT_W1_RNG_SZ 4 w1 = 0 ∧
    bits_get S_DESC_CTXT_W1_DSC_SZ 2 w1 =
      (if st (conf q) then if c2h (conf q) then 0 else 1 else 2) ∧
    bits_get S_DESC_CTXT_W1_F_MM_CHN 1 w1 = (if st (conf q) then 0 else channel q) ∧
    bits_get S_DESC_CTXT_W1_F_WBK_EN 1 w1 = 1 ∧
    bits_get S_DESC_CTXT_W1_F_IRQ_EN 1 w1 = irq_en (cc q) ∧
    w3 * 2 ^ 32 + w2 = desc_bus (ring q).
Proof.
  intros [Hirq _ _ _ Hch Hbus _] Hf. unfold make_sw_context. cbn [Z.ltb Z.compare].
  destruct (PCI_DMA_HL _ Hbus) as (Hhl & Hh & Hl).
  assert (u32 (PCI_DMA_L (desc_bus (ring q))) = PCI_DMA_L (desc_bus (ring q))) as ->
    by (by apply Z.mod_small).
  assert (u32 (PCI_DMA_H (desc_bus (ring q))) = PCI_DMA_H (desc_bus (ring q))) as ->
    by (by apply Z.mod_small).
  do 3 eexists. split; [reflexivity|].
  unfold u32, or_bits, S_DESC_CTXT_W1_F_QEN, S_DESC_CTXT_W1_F_FCRD_EN, S_DESC_CTXT_W1_F_WBI_CHK,
    S_DESC_CTXT_W1_F_WB_ACC_EN, S_DESC_CTXT_W1_FUNC_ID, S_DESC_CTXT_W1_RNG_SZ,
    S_DESC_CTXT_W1_DSC_SZ, S_DESC_CTXT_W1_F_MM_CHN, S_DESC_CTXT_W1_F_WBK_EN,
    S_DESC_CTXT_W1_F_IRQ_EN.
  cbn [foldr desc_sz_z].
  destruct (st (conf q)), (c2h (conf q)); cbn [negb andb b2z];
    (split_and!; [bits_field; done..|done]).
Qed.

(** The writeback context of a streaming C2H queue: flags, trigger mode,
    function, initial color, entry size and valid bit are the queue's, and the
    base address split over words 0, 1 and 2 (4, 32 and 22 bits) reassembles
    to the bus address of the writeback ring in units of 64 bytes. *)
Theorem make_wrb_context_fields xdev q :
  descq_fields_wf q → 0 <= func_id xdev < 256 →
  ∃ w0 w1 w2, make_wrb_context xdev q 4 = inr [w0; w1; w2; 2 ^ 24] ∧
    bits_get S_WRB_CTXT_W0_F_EN_STAT_DESC 1 w0 = wrb_stat_desc_en (cc q) ∧
    bits_get S_WRB_CTXT_W0_F_EN_INT 1 w0 = irq_en (cc q) ∧
    bits_get S_WRB_CTXT_W0_TRIG_MODE 3 w0 = trig_z (wrb_trig_mode (cc q)) ∧
    bits_get S_WRB_CTXT_W0_FNC_ID 8 w0 = func_id xdev ∧
    bits_get S_WRB_CTXT_W0_F_COLOR 1 w0 = 1 ∧
    bits_get S_WRB_CTXT_W2_DESC_SIZE 2 w2 = desc_sz_z (wrb_desc_size (wrb q)) ∧
    bits_get S_WRB_CTXT_W0_BADDR_64 4 w0 + 2 ^ 4 * w1 + 2 ^ 36 * bits_get S_WRB_CTXT_W2_BADDR_64 22 w2
      = Z.shiftr (desc_wrb_bus (wrb q)) 6.
Proof.
  intros [Hirq _ Hsd Hsz _ _ Hbus] Hf. unfold make_wrb_context. cbn [Z.ltb Z.compare].
  rewrite wrb_bus_64_eq by done. set (b := Z.shiftr (desc_wrb_bus (wrb q)) 6).
  assert (0 <= b < 2 ^ 58) as Hb.
  { unfold b. rewrite Z.shiftr_div_pow2 by lia. split; [apply Z.div_pos; lia|].
    apply Z.div_lt_upper_bound; lia. }
  assert (0 <= trig_z (wrb_trig_mode (cc q)) < 2 ^ 3) by (destruct (wrb_trig_mode (cc q)); cbn; lia).
  unfold L_WRB_CTXT_W0_BADDR_64, M_WRB_CTXT_W0_BADDR_64, M_WRB_CTXT_W2_BADDR_64,
    M_WRB_CTXT_W0_FNC_ID.
  change 0xF with (Z.ones 4). change 0xFF with (Z.ones 8). change 0x3FFFFF with (Z.ones 22).
  change 0xFFFFFFFF with (Z.ones 32). change (4 + 32) with 36.
  pose proof (land_range 4 b). pose proof (land_range 22 (Z.shiftr b 36)).
  assert (Z.land (func_id xdev) (Z.ones 8) = func_id xdev) as ->
    by (rewrite Z.land_ones by lia; by apply Z.mod_small).
  assert (u32 (Z.land b (Z.ones 4)) = Z.land b (Z.ones 4)) as -> by (apply Z.mod_small; lia).
  assert (u32 (Z.land (Z.shiftr b 36) (Z.ones 22)) = Z.land (Z.shiftr b 36) (Z.ones 22)) as ->
    by (apply Z.mod_small; lia).
  rewrite <- !Z.land_assoc, !Z.land_diag.
  do 3 eexists. split; [reflexivity|].
  unfold u32, or_bits, S_WRB_CTXT_W0_F_EN_STAT_DESC, S_WRB_CTXT_W0_F_EN_INT, S_WRB_CTXT_W0_TRIG_MODE,
    S_WRB_CTXT_W0_FNC_ID, S_WRB_CTXT_W0_F_COLOR, S_WRB_CTXT_W0_BADDR_64, S_WRB_CTXT_W2_BADDR_64,
    S_WRB_CTXT_W2_DESC_SIZE.
  cbn [foldr]. split_and!; [bits_field; done..|].
  bits_field. change (Z.land (Z.shiftr b 4) (Z.ones 32)) with (bits_get 4 32 b).
  assert (Z.land (Z.shiftr b 36) (Z.ones 22) = Z.shiftr b 36) as ->.
  { rewrite Z.land_ones by lia. apply Z.mod_small. rewrite Z.shiftr_div_pow2 by lia.
    split; [apply Z.div_pos; lia|]. apply Z.div_lt_upper_bound; lia. }
  pose proof (split_at 4 b) as E1. pose proof (split_at 32 (Z.shiftr b 4)) as E2.
  unfold bits_get in *. rewrite Z.shiftr_0_r, ?Z.shiftr_shiftr in * by lia.
  change (4 + 32) with 36 in *. lia.
Qed.

(** The prefetch context names the function, enables prefetching as the
    queue asks and is marked valid. *)
Theorem make_prefetch_context_fields xdev q :
  descq_fields_wf q → 0 <= func_id xdev < 256 →
  ∃ w0, make_prefetch_context xdev q 2 = inr [w0; 2 ^ 13] ∧
    bits_get S_PFTCH_W0_FNC_ID 8 w0 = func_id xdev ∧
    bits_get S_PFTCH_W0_F_EN_PFTCH 1 w0 = prefetch_en (cc q).
Proof.
  intros [_ Hp _ _ _ _ _] Hf. unfold make_prefetch_context. cbn [Z.ltb Z.compare].
  eexists. split; [reflexivity|]. unfold M_PFTCH_W0_FNC_ID. change 0xFF with (Z.ones 8).
  rewrite Z.land_ones, (Z.mod_small (func_id xdev)) by lia.
  unfold u32, S_PFTCH_W0_FNC_ID, S_PFTCH_W0_F_EN_PFTCH. split; bits_field; done.
Qed.

(** With interrupt coalescing enabled, [qdma_intr_context_setup] programs
    nothing but zeros: the guard of [make_intr_context] is inverted, so no
    vector gets a ring address or a valid bit. *)
Theorem intr_context_setup_zero {D} `{HC : CtxtHw D} xdev (d : D) :
  ctxt_idle d → intr_coal_en xdev = true → 1 <= num_vecs xdev <= 8 →
  ∃ d', qdma_intr_context_setup xdev d = (0, d') ∧ ctxt_idle d' ∧
        cv_get (ch_view d') 0 (sel_z QDMA_CTXT_SEL_COAL) = ctxt_zero.
Proof.
  intros Hi Hen Hn. unfold qdma_intr_context_setup, make_intr_context. rewrite Hen. cbn [negb].
  change (Z.to_nat (Z.shiftl XDEV_NUM_IRQ_MAX 1)) with 16%nat.
  assert (∀ n i d, (1 <= n)%nat → (i + n <= 8)%nat → ctxt_idle d →
    ∃ d', intr_context_loop n i (replicate 16 0) d = (0, d') ∧ ctxt_idle d' ∧
          cv_get (ch_view d') 0 (sel_z QDMA_CTXT_SEL_COAL) = ctxt_zero) as HL.
  { clear d Hi. induction n as [|n IH]; [lia|]. intros i d Hn1 Hi8 Hi. cbn [intr_context_loop].
    destruct (prog_ok_clr d 0 QDMA_CTXT_SEL_COAL 4) as (d1 & E1 & Hi1 & Hc1); [done..|].
    rewrite (or_fail_ok _ _ _ _ _ E1) by done.
    assert (Forall word32 (drop (2 * i) (replicate 16 0))) as HF.
    { rewrite drop_replicate. apply Forall_replicate. unfold word32. lia. }
    destruct (prog_wr d1 0 QDMA_CTXT_SEL_COAL (drop (2 * i) (replicate 16 0)) 2 true)
      as (d2 & E2 & Hi2 & Hc2); [done..|rewrite length_drop, length_replicate; lia|done|].
    assert (prog 0 QDMA_CTXT_CMD_WR QDMA_CTXT_SEL_COAL (Some (drop (2 * i) (replicate 16 0))) 2 true d1
            = (0, d2)) as E3 by (unfold prog; by rewrite (st_bind_eq _ _ _ _ _ E2)).
    rewrite (or_fail_ok _ _ _ _ _ E3) by done.
    destruct n as [|n].
    - exists d2. split_and!; [done..|]. unfold cv_get. rewrite Hc2, lookup_insert_eq.
      rewrite drop_replicate, take_replicate. cbn [default from_option].
      replace (Z.to_nat 2 `min` (16 - 2 * i))%nat with 2%nat by lia. done.
    - apply IH; [lia..|done]. }
  apply HL; [lia..|done].
Qed.

(** The contexts [make_intr_context] builds when its guard lets it: for a ring
    below 4 GiB the first word has the address in units of 512 bytes, and the
    second word, which should hold the bits above those 23, repeats it. *)
Lemma intr_context_words_low i entry :
  (i < 8)%nat → 0 <= intr_ring_bus entry < 2 ^ 32 →
  ∃ w0 w1, intr_context_words i entry = [w0; w1] ∧
    bits_get S_INT_COAL_W0_F_VALID 1 w0 = 1 ∧
    bits_get S_INT_COAL_W0_VEC_ID 8 w0 = Z.of_nat i ∧
    bits_get S_INT_COAL_W0_BADDR_64 23 w0 = Z.shiftr (intr_ring_bus entry) 9 ∧
    w1 = Z.shiftr (intr_ring_bus entry) 9.
Proof.
  intros Hi Hbus. unfold intr_context_words.
  set (b := Z.shiftr (intr_ring_bus entry) 9).
  assert (0 <= b < 2 ^ 23) as Hb.
  { unfold b. rewrite Z.shiftr_div_pow2 by lia. split; [apply Z.div_pos; lia|].
    apply Z.div_lt_upper_bound; lia. }
  assert (PCI_DMA_H (intr_ring_bus entry) = 0) as ->.
  { unfold PCI_DMA_H. rewrite Z.shiftr_shiftr, Z.shiftr_div_pow2 by lia. by apply Z.div_small. }
  assert (PCI_DMA_L (intr_ring_bus entry) = intr_ring_bus entry) as ->.
  { unfold PCI_DMA_L. change 0xffffffff with (Z.ones 32). rewrite Z.land_ones by lia. by apply Z.mod_small. }
  fold b. rewrite Z.shiftl_0_l. change (u64 0) with 0. rewrite Z.lor_0_l.
  assert (u64 b = b) as -> by (apply Z.mod_small; lia).
  unfold M_INT_COAL_W0_BADDR_64, M_INT_COAL_W1_BADDR_64.
  change 0x7FFFFF with (Z.ones 23). change 0x1FFFFFFF with (Z.ones 29).
  assert (Z.land b (Z.ones 23) = b) as HL by (rewrite Z.land_ones by lia; by apply Z.mod_small).
  assert (Z.land b (Z.ones 29) = b) as HL2 by (rewrite Z.land_ones by lia; apply Z.mod_small; lia).
  rewrite HL, HL2. assert (u32 b = b) as -> by (apply Z.mod_small; lia). rewrite HL, HL2.
  do 2 eexists. split; [reflexivity|].
  unfold u32, or_bits, S_INT_COAL_W0_F_VALID, S_INT_COAL_W0_VEC_ID, S_INT_COAL_W0_BADDR_64,
    S_INT_COAL_W1_BADDR_64. cbn [foldr].
  split_and!; [bits_field; done..|]. rewrite Z.shiftl_0_r. apply Z.mod_small. lia.
Qed.

(** ** Properties: programming, reading and clearing the contexts *)

Section properties.
Context {D : Type} `{HC : CtxtHw D}.

Lemma table_programmed m qid st c2h c :
  hw_ctxt_wf c →
  table_context (programmed qid st c2h c m) qid st c2h =
  HwCtxt (ctxt_sw c) (if st && c2h then ctxt_prefetch c else [0; 0])
    (if st && c2h then ctxt_wrb c else ctxt_zero) [0; 0] [0].
Proof.
  intros [_ [Hp _] _]. unfold table_context, programmed, cleared.
  destruct c as [sw pf wb hw cr]. cbn [ctxt_prefetch ctxt_sw ctxt_wrb] in *.
  destruct pf as [|x [|y []]]; try discriminate.
  destruct st, c2h; cbn [andb sel_sw sel_hw sel_cr sel_z]; by simplify_map_eq.
Qed.

Lemma programmed_other m qid st c2h c q s :
  q ≠ qid → programmed qid st c2h c m !! (q, s) = m !! (q, s).
Proof.
  intros Hne. unfold programmed, cleared.
  destruct (st && c2h); by rewrite !lookup_insert_ne by congruence.
Qed.

(** Programming the contexts of a queue and reading them back returns
    the context programmed (its hardware and credit parts cleared, the
    prefetch and writeback parts present for streaming C2H queues only), and
    no context of another queue changes. *)
Theorem context_program_read (d : D) qid st c2h c :
  ctxt_idle d → 0 <= qid < 2048 → hw_ctxt_wf c →
  ∃ d1 d2, qdma_descq_context_program qid st c2h c d = (0, d1) ∧
    qdma_descq_context_read qid st c2h d1 =
      ((0, HwCtxt (ctxt_sw c) (if st && c2h then ctxt_prefetch c else [0; 0])
             (if st && c2h then ctxt_wrb c else ctxt_zero) [0; 0] [0]), d2) ∧
    ctxt_idle d2 ∧
    ∀ qid' sel, qid' ≠ qid → cv_get (ch_view d2) qid' sel = cv_get (ch_view d) qid' sel.
Proof.
  intros Hi Hq Hw. destruct (context_program_ok d qid st c2h c) as (d1 & E1 & Hi1 & Hc1); [done..|].
  destruct (context_read_ok d1 qid st c2h) as (d2 & E2 & Hi2 & Hc2); [done..|].
  exists d1, d2. rewrite E2, Hc1, table_programmed by done. split_and!; [done..|].
  intros qid' sel Hne. unfold cv_get. unfold ctxts in *. by rewrite Hc2, Hc1, programmed_other.
Qed.

(** After [qdma_descq_context_clear] every context of the queue's
    direction reads as zero, whatever the device held. *)
Theorem context_clear_read (d : D) qid st c2h :
  ctxt_idle d → 0 <= qid < 2048 →
  ∃ d1 d2, qdma_descq_context_clear qid st c2h d = (0, d1) ∧
    qdma_descq_context_read qid st c2h d1 = ((0, hw_ctxt_zero), d2) ∧ ctxt_idle d2.
Proof.
  intros Hi Hq. destruct (context_clear_ok d qid st c2h) as (d1 & E1 & Hi1 & Hc1); [done..|].
  destruct (context_read_ok d1 qid st c2h) as (d2 & E2 & Hi2 & Hc2); [done..|].
  exists d1, d2. split_and!; [done| |done]. rewrite E2, Hc1. do 2 f_equal.
  unfold table_context, cleared.
  destruct st, c2h; cbn [andb sel_sw sel_hw sel_cr sel_z]; by simplify_map_eq.
Qed.

Lemma hw_prog_qid2vec_view qid c2h id coal (d : D) :
  ctxt_idle d → ∃ d', hw_prog_qid2vec qid c2h id coal d = (tt, d') ∧ ctxt_idle d' ∧ ctxts d' = ctxts d.
Proof.
  intros [Hb Hwf]. unfold hw_prog_qid2vec.
  destruct (ch_write_other QDMA_REG_C2H_QID2VEC_MAP_QID qid d) as [Hv1 Hb1]; [done|].
  st_run as [[] d1] eqn:E1. cbn in Hv1, Hb1.
  destruct (ch_read_other QDMA_REG_C2H_QID2VEC_MAP d1) as [Hv2 Hb2]; [done|].
  st_run as [v d2] eqn:E2. cbn in Hv2, Hb2.
  destruct (ch_write_other QDMA_REG_C2H_QID2VEC_MAP (qid2vec_word v c2h id coal) d2) as [Hv3 Hb3]; [done|].
  destruct (writel _ _ d2) as [[] d3]. cbn in Hv3, Hb3. exists d3.
  unfold ctxt_idle, ctxts. by rewrite Hb3, Hb2, Hb1, Hv3, Hv2, Hv1.
Qed.

Lemma descq_contexts_wf xdev q :
  descq_fields_wf q → 0 <= func_id xdev < 256 → hw_ctxt_wf (descq_contexts xdev q).
Proof.
  intros Hq Hf. unfold descq_contexts, make_sw_context, make_prefetch_context, make_wrb_context.
  cbn [Z.ltb Z.compare]. unfold M_WRB_CTXT_W2_BADDR_64.
  assert (∀ b, word32 (Z.land b 0xFFFFFFFF)) as HL
    by (intros b; change 0xFFFFFFFF with (Z.ones 32); apply land_range; lia).
  assert (word32 (Z.shiftl 1 S_PFTCH_W1_F_VALID)) by done.
  assert (word32 (Z.shiftl 1 S_WRB_CTXT_W3_F_VALID)) by done.
  assert (word32 0) by done.
  destruct (st (conf q) && c2h (conf q)); cbn; (split; cbn; (split; [done|]));
    repeat (constructor; [solve [apply u32_range | apply HL | done]|]); constructor.
Qed.

(** The setup succeeds and leaves the queue's contexts programmed. *)
Lemma context_setup_run (d : D) xdev q :
  ctxt_idle d → 0 <= qidx_hw q < 2048 → descq_fields_wf q → 0 <= func_id xdev < 256 →
  ∃ d', qdma_descq_context_setup xdev q d = (0, d') ∧ ctxt_idle d' ∧
    ctxts d' = programmed (qidx_hw q) (st (conf q)) (c2h (conf q)) (descq_contexts xdev q)
                 (cleared (qidx_hw q) (st (conf q)) (c2h (conf q)) (ctxts d)).
Proof.
  intros Hi Hq Hwf Hf.
  assert (∃ d0, (if irq_en (cc q) =? 0 then mret tt
    else hw_prog_qid2vec (qidx_hw q) (c2h (conf q)) (intr_id q) (intr_coal_en xdev)) d = (tt, d0)
    ∧ ctxt_idle d0 ∧ ctxts d0 = ctxts d) as (d0 & E0 & Hi0 & Hc0).
  { destruct (irq_en (cc q) =? 0); [by exists d|]. by apply hw_prog_qid2vec_view. }
  destruct (context_clear_ok d0 (qidx_hw q) (st (conf q)) (c2h (conf q))) as (d1 & E1 & Hi1 & Hc1); [done..|].
  pose proof (descq_contexts_wf xdev q Hwf Hf) as Hcw.
  destruct (context_program_ok d1 (qidx_hw q) (st (conf q)) (c2h (conf q)) (descq_contexts xdev q))
    as (d2 & E2 & Hi2 & Hc2); [done..|].
  exists d2. split_and!; [|done|by rewrite Hc2, Hc1, Hc0].
  unfold qdma_descq_context_setup. rewrite (st_bind_eq _ _ _ _ _ E0).
  by rewrite (or_fail_ok _ _ _ _ _ E1).
Qed.

(** C24: the whole context setup of a queue: from an idle device it returns
    0, and the device then holds, for the queue's hardware number and
    direction, exactly the contexts built from the queue's settings. *)
Theorem context_setup_ok (d : D) xdev q :
  ctxt_idle d → 0 <= qidx_hw q < 2048 → descq_fields_wf q → 0 <= func_id xdev < 256 →
  let c := descq_contexts xdev q in
  let stc2h := st (conf q) && c2h (conf q) in
  ∃ d1 d2, qdma_descq_context_setup xdev q d = (0, d1) ∧
    qdma_descq_context_read (qidx_hw q) (st (conf q)) (c2h (conf q)) d1 =
      ((0, HwCtxt (ctxt_sw c) (if stc2h then ctxt_prefetch c else [0; 0])
             (if stc2h then ctxt_wrb c else ctxt_zero) [0; 0] [0]), d2) ∧ ctxt_idle d2.
Proof.
  intros Hi Hq Hwf Hf c stc2h.
  destruct (context_setup_run d xdev q) as (d1 & E1 & Hi1 & Hc1); [done..|].
  destruct (context_read_ok d1 (qidx_hw q) (st (conf q)) (c2h (conf q))) as (d2 & E2 & Hi2 & _); [done..|].
  exists d1, d2. split_and!; [done| |done].
  rewrite E2, Hc1, table_programmed by (by apply descq_contexts_wf). done.
Qed.

End properties.

(** ** The hypotheses hold: the properties at a concrete queue and device *)

Lemma make_sw_context_fields_witness : ∃ w1 w2 w3,
  make_sw_context Sample.dev (Sample.queue true true) 4 = inr [0; w1; w2; w3] ∧
  bits_get S_DESC_CTXT_W1_FUNC_ID 8 w1 = 7.
Proof.
  destruct (make_sw_context_fields Sample.dev (Sample.queue true true) (Sample.queue_wf true true))
    as (w1 & w2 & w3 & E & _ & _ & _ & _ & Hf & _); [cbn; lia|].
  exists w1, w2, w3. split; [exact E|exact Hf].
Defined.

Lemma make_wrb_context_fields_witness : ∃ w0 w1 w2,
  make_wrb_context Sample.dev (Sample.queue true true) 4 = inr [w0; w1; w2; 2 ^ 24] ∧
  bits_get S_WRB_CTXT_W0_TRIG_MODE 3 w0 = 1.
Proof.
  destruct (make_wrb_context_fields Sample.dev (Sample.queue true true) (Sample.queue_wf true true))
    as (w0 & w1 & w2 & E & _ & _ & Hf & _); [cbn; lia|].
  exists w0, w1, w2. split; [exact E|exact Hf].
Defined.

Lemma make_prefetch_context_fields_witness : ∃ w0,
  make_prefetch_context Sample.dev (Sample.queue true true) 2 = inr [w0; 2 ^ 13] ∧
  bits_get S_PFTCH_W0_F_EN_PFTCH 1 w0 = 1.
Proof.
  destruct (make_prefetch_context_fields Sample.dev (Sample.queue true true) (Sample.queue_wf true true))
    as (w0 & E & _ & Hf); [cbn; lia|].
  exists w0. split; [exact E|exact Hf].
Defined.

Lemma intr_context_setup_zero_witness : ∃ d' : SimHw.t,
  qdma_intr_context_setup Sample.dev (SimHw.init 3) = (0, d') ∧
  cv_get (ch_view d') 0 (sel_z QDMA_CTXT_SEL_COAL) = ctxt_zero.
Proof.
  destruct (intr_context_setup_zero Sample.dev (SimHw.init 3)) as (d' & E & _ & Hz);
    [apply SimHw.init_idle|reflexivity|cbn; lia|].
  exists d'. split; [exact E|exact Hz].
Defined.

Lemma context_program_read_witness : ∃ d1 d2 : SimHw.t,
  qdma_descq_context_program 9 true true (descq_contexts Sample.dev (Sample.queue true true))
    (SimHw.init 4) = (0, d1) ∧
  (qdma_descq_context_read 9 true true d1).2 = d2.
Proof.
  destruct (context_program_read (SimHw.init 4) 9 true true
              (descq_contexts Sample.dev (Sample.queue true true)))
    as (d1 & d2 & E1 & E2 & _); [apply SimHw.init_idle|lia| |].
  - apply descq_contexts_wf; [apply Sample.queue_wf|cbn; lia].
  - exists d1, d2. split; [exact E1|]. rewrite E2. reflexivity.
Defined.

Lemma context_clear_read_witness : ∃ d1 d2 : SimHw.t,
  qdma_descq_context_clear 9 true true (SimHw.init 4) = (0, d1) ∧
  qdma_descq_context_read 9 true true d1 = ((0, hw_ctxt_zero), d2).
Proof.
  destruct (context_clear_read (SimHw.init 4) 9 true true) as (d1 & d2 & E1 & E2 & _);
    [apply SimHw.init_idle|lia|].
  exists d1, d2. split; [exact E1|exact E2].
Defined.

Lemma context_setup_ok_witness : ∃ d1 : SimHw.t,
  qdma_descq_context_setup Sample.dev (Sample.queue true true) (SimHw.init 4) = (0, d1).
Proof.
  destruct (context_setup_ok (SimHw.init 4) Sample.dev (Sample.queue true true))
    as (d1 & d2 & E1 & _);
    [apply SimHw.init_idle|cbn; lia|apply Sample.queue_wf|cbn; lia|].
  exists d1. exact E1.
Defined.
