(* ===== verification/Sgl.v ===== *)
(** * Scatter-gather lists (xdev.c, qdma_descq.c)

    [sgt_find_offset] and the walk over the mapped entries of a request that
    [descq_mm_proc_request] and [descq_proc_st_h2c_request] share: the entries
    are cut into pieces of at most a descriptor's length and each piece is
    emitted, until the entries or the free descriptors run out.  The walk is
    proved equal to emitting a prefix of [pieces], the list of all pieces in
    closed form. *)

From S2P Require Import Prelude.

(** One DMA-mapped entry: [sg_dma_address], [sg_dma_len]. *)
Record sg_entry := SgEntry { sg_dma_address : Z; sg_dma_len : Z }.

(** ** [sgt_find_offset]: entry and offset of a byte position

    A pointer to an entry is the rest of the list from that entry on, and
    [sg_next] of the last one (NULL) is the empty list.  The result is the
    return code and, when it is not negative, what is stored through [sg_p]
    and [sg_offset]. *)
Fixpoint sgt_find_loop (sg : list sg_entry) (i len offset : Z) : Z * option (list sg_entry * Z) :=
  match sg with
  | [] => (- EINVAL, None)
  | e :: next =>
      let len := u32 (len + sg_dma_len e) in
      if len =? offset then (i + 1, Some (next, 0))
      else if offset <? len then (i, Some (sg, u32 (len - offset)))
      else sgt_find_loop next (i + 1) len offset
  end.

Definition sgt_find_offset (sgt : list sg_entry) (offset : Z) : Z * option (list sg_entry * Z) :=
  sgt_find_loop sgt 0 0 offset.

(** ** The walk of the submission routines *)

Section walk.
Context {S : Type}.
Variable max : Z.                 (* bytes one descriptor moves at most *)
Variable emit : Z → Z → S → S.    (* write the descriptor of [addr], [len] *)

(** [while (tlen) { .. desc_cnt++; if (desc_cnt == desc_max) break; }];
    [budget] is [desc_max - desc_cnt]. *)
Fixpoint entry_loop (budget : nat) (tlen addr : Z) (s : S) : nat * S :=
  match budget with
  | O => (O, s)
  | Datatypes.S b =>
      if tlen =? 0 then (budget, s) else
      let len := Z.min tlen max in
      entry_loop b (u32 (tlen - len)) (u64 (addr + len)) (emit addr len s)
  end.

(** [for (; i < sg_max && desc_cnt < desc_max; i++, sg = sg_next(sg))]: the
    offset into the first entry is reset before it is used. *)
Fixpoint sg_walk (budget : nat) (sg_offset : Z) (sg : list sg_entry) (s : S) : nat * S :=
  match sg, budget with
  | [], _ => (budget, s)
  | _, O => (budget, s)
  | e :: next, Datatypes.S _ =>
      let tlen := sg_dma_len e in
      let addr := sg_dma_address e in
      let '(sg_offset, tlen, addr) :=
        if sg_offset =? 0 then (sg_offset, tlen, addr)
        else let sg_offset := 0 in (sg_offset, u32 (tlen - sg_offset), u64 (addr + sg_offset)) in
      let '(budget, s) := entry_loop budget tlen addr s in
      sg_walk budget sg_offset next s
  end.

(** ** Reference: all pieces of an entry, of a list *)

(** The pieces of [len] bytes from [addr]: [max] bytes each, the last what is left. *)
Definition pieces (addr len : Z) : list (Z * Z) :=
  map (λ j, (u64 (addr + max * Z.of_nat j), Z.min max (len - max * Z.of_nat j)))
      (seq 0 (Z.to_nat ((len + max - 1) / max))).

Definition entry_pieces (e : sg_entry) : list (Z * Z) := pieces (sg_dma_address e) (sg_dma_len e).
Definition sg_pieces (sg : list sg_entry) : list (Z * Z) := concat (map entry_pieces sg).

Definition emit_all (ps : list (Z * Z)) (s : S) : S :=
  fold_left (λ s p, emit p.1 p.2 s) ps s.

End walk.

(** An entry as the C types hold it: 64-bit address, 32-bit length. *)
Definition sg_entry_wf (e : sg_entry) : Prop :=
  0 <= sg_dma_address e < 2 ^ 64 ∧ 0 <= sg_dma_len e < 2 ^ 32.

Definition sg_total (sg : list sg_entry) : Z := sumZ (map sg_dma_len sg).

Lemma sg_total_cons e sg : sg_total (e :: sg) = sg_dma_len e + sg_total sg.
Proof. done. Qed.

Lemma sg_total_nonneg sg : Forall sg_entry_wf sg → 0 <= sg_total sg.
Proof.
  induction 1 as [|e sg [_ He] _ IH]; [done|]. rewrite sg_total_cons. lia.
Qed.

(** ** Lemmas: the pieces of an entry *)

Section pieces.
Variable max : Z.
Hypothesis Hmax : 0 < max.

Lemma pieces_nil addr : pieces max addr 0 = [].
Proof. unfold pieces. by rewrite Z.div_small by lia. Qed.

Lemma pieces_cons addr len :
  0 <= addr < 2 ^ 64 → 0 < len →
  pieces max addr len =
  (addr, Z.min len max) :: pieces max (u64 (addr + Z.min len max)) (len - Z.min len max).
Proof.
  intros Ha Hl. unfold pieces.
  set (k := Z.to_nat ((len - Z.min len max + max - 1) / max)).
  assert (Z.to_nat ((len + max - 1) / max) = S k) as ->.
  { unfold k. destruct (Z.min_spec len max) as [[Hlt ->]|[Hle ->]].
    - replace (len - len + max - 1) with (max - 1) by lia.
      rewrite (Z.div_small (max - 1)) by lia.
      replace (len + max - 1) with (len - 1 + 1 * max) by lia.
      by rewrite Z.div_add, Z.div_small by lia.
    - replace (len + max - 1) with (len - max + max - 1 + 1 * max) by lia.
      rewrite Z.div_add by lia.
      assert (0 <= (len - max + max - 1) / max) by (apply Z.div_pos; lia). lia. }
  cbn [seq map]. f_equal.
  - rewrite Z.mul_0_r, Z.add_0_r, Z.sub_0_r, Z.min_comm. f_equal. by apply Z.mod_small.
  - rewrite <- seq_shift, map_map. apply map_ext_in. intros j Hj%in_seq.
    assert (len <= max ∨ max < len) as [Hle|Hgt] by lia.
    { exfalso. unfold k in Hj. rewrite Z.min_l, Z.sub_diag, Z.div_small in Hj by lia. cbn in Hj. lia. }
    rewrite (Z.min_r len max) by lia. f_equal; [|lia].
    unfold u64. rewrite Zplus_mod_idemp_l. f_equal. lia.
Qed.

(** Induction on the pieces of a length. *)
Lemma pieces_ind (P : Z → Z → Prop) :
  (∀ addr, P addr 0) →
  (∀ addr len, 0 <= addr < 2 ^ 64 → 0 < len →
     P (u64 (addr + Z.min len max)) (len - Z.min len max) → P addr len) →
  ∀ addr len, 0 <= addr < 2 ^ 64 → 0 <= len → P addr len.
Proof.
  intros H0 HS addr len Ha Hl. revert addr Ha.
  apply (Zlt_0_ind (λ len, ∀ addr, 0 <= addr < 2 ^ 64 → P addr len)); [|done].
  intros l IH Hl0 addr Ha. destruct (decide (l = 0)) as [->|]; [done|].
  apply HS; [done|lia|]. apply IH; [lia|]. unfold u64. apply Z.mod_pos_bound. lia.
Qed.

Lemma u64_range x : 0 <= u64 x < 2 ^ 64.
Proof. unfold u64. apply Z.mod_pos_bound. lia. Qed.

(** The pieces cover the entry: their lengths are positive, at most [max] and
    add up to the length. *)
Lemma pieces_sum addr len :
  0 <= addr < 2 ^ 64 → 0 <= len →
  sumZ (map snd (pieces max addr len)) = len ∧
  Forall (λ p, 0 < p.2 <= max) (pieces max addr len).
Proof.
  revert addr len. apply pieces_ind.
  { intros addr. by rewrite pieces_nil. }
  intros addr len Ha Hl [IH1 IH2]. rewrite pieces_cons by done. split.
  - cbn. unfold sumZ in IH1. rewrite IH1. lia.
  - constructor; [cbn; lia|done].
Qed.

Lemma sg_pieces_cons e sg :
  sg_pieces max (e :: sg) = pieces max (sg_dma_address e) (sg_dma_len e) ++ sg_pieces max sg.
Proof. done. Qed.

Section emitting.
Context {S : Type} (emit : Z → Z → S → S).

(** The inner loop emits the pieces of the entry as far as the budget goes,
    and never returns with budget left and pieces undone. *)
Lemma entry_loop_spec budget addr len s :
  0 <= addr < 2 ^ 64 → 0 <= len < 2 ^ 32 →
  entry_loop max emit budget len addr s =
  ((budget - length (pieces max addr len))%nat,
   emit_all emit (take budget (pieces max addr len)) s).
Proof.
  intros Ha Hl. revert budget s. revert Ha Hl. intros Ha [Hl Hl32].
  revert addr len Ha Hl Hl32.
  refine (pieces_ind (λ addr len, len < 2 ^ 32 → ∀ budget s, _) _ _).
  { intros addr _ [|b] s; cbn [entry_loop]; rewrite pieces_nil; done. }
  intros addr len Ha Hl IH H32 [|b] s; [done|].
  cbn [entry_loop]. destruct (Z.eqb_spec len 0); [lia|].
  assert (u32 (len - Z.min len max) = len - Z.min len max) as -> by (apply Z.mod_small; lia).
  rewrite IH by lia. rewrite (pieces_cons addr len) by done. done.
Qed.

Lemma emit_all_app ps qs s : emit_all emit (ps ++ qs) s = emit_all emit qs (emit_all emit ps s).
Proof. apply fold_left_app. Qed.

(** The whole walk emits a prefix of all pieces; the offset is irrelevant. *)
Lemma sg_walk_spec budget off sg s :
  Forall sg_entry_wf sg →
  sg_walk max emit budget off sg s =
  ((budget - length (sg_pieces max sg))%nat, emit_all emit (take budget (sg_pieces max sg)) s).
Proof.
  intros HF. revert budget off s.
  induction HF as [|e sg [Ha Hl] HF IH]; intros [|b] off s; try done.
  cbn [sg_walk]. set (budget := Datatypes.S b).
  assert ((if off =? 0 then (off, sg_dma_len e, sg_dma_address e)
           else (0, u32 (sg_dma_len e - 0), u64 (sg_dma_address e + 0)))
          = ((if off =? 0 then off else 0), sg_dma_len e, sg_dma_address e)) as ->.
  { destruct (off =? 0); [done|]. unfold u32, u64.
    by rewrite Z.sub_0_r, Z.add_0_r, !Z.mod_small. }
  rewrite entry_loop_spec by done. rewrite IH.
  rewrite sg_pieces_cons. set (ps := pieces max (sg_dma_address e) (sg_dma_len e)).
  f_equal.
  - rewrite length_app. lia.
  - by rewrite <- emit_all_app, <- take_app.
Qed.

End emitting.

Lemma sg_pieces_sum sg :
  Forall sg_entry_wf sg →
  sumZ (map snd (sg_pieces max sg)) = sg_total sg ∧ Forall (λ p, 0 < p.2 <= max) (sg_pieces max sg).
Proof.
  induction 1 as [|e sg [Ha Hl] HF [IH1 IH2]]; [done|].
  rewrite sg_pieces_cons.
  destruct (pieces_sum (sg_dma_address e) (sg_dma_len e)) as [H1 H2]; [lia..|].
  rewrite map_app, sumZ_app, IH1, sg_total_cons, H1.
  split; [done|]. by apply Forall_app.
Qed.

End pieces.

(** ** Properties: locating a byte position *)

Lemma sg_total_app a b : sg_total (a ++ b) = sg_total a + sg_total b.
Proof. unfold sg_total. by rewrite map_app, sumZ_app. Qed.

(** What [sgt_find_offset] promises for a position [offset] of [sgt]. *)
Definition found (sgt : list sg_entry) (offset : Z) (r : Z * option (list sg_entry * Z)) : Prop :=
  match r with
  | (rv, Some (sg, off)) =>
      ∃ k : nat, rv = Z.of_nat k ∧ sg = drop k sgt ∧ (k <= length sgt)%nat ∧
        ((off = 0 ∧ sg_total (take k sgt) = offset) ∨
         (∃ e, sgt !! k = Some e ∧ 0 < off < sg_dma_len e ∧
               sg_total (take k sgt) + (sg_dma_len e - off) = offset))
  | (rv, None) => rv = - EINVAL ∧ sg_total sgt < offset
  end.

Lemma sgt_find_loop_found done sg offset :
  Forall sg_entry_wf (done ++ sg) → sg_total (done ++ sg) < 2 ^ 32 → sg_total done < offset →
  found (done ++ sg) offset (sgt_find_loop sg (Z.of_nat (length done)) (sg_total done) offset).
Proof.
  revert done. induction sg as [|e sg IH]; intros done HF Ht Hd; cbn [sgt_find_loop].
  { rewrite app_nil_r in *. by split. }
  pose proof HF as HF'. apply Forall_app in HF' as [HFd [[_ He] HFs]%Forall_cons].
  pose proof (sg_total_nonneg _ HFd). pose proof (sg_total_nonneg _ HFs).
  rewrite sg_total_app, sg_total_cons in Ht.
  assert (u32 (sg_total done + sg_dma_len e) = sg_total done + sg_dma_len e) as ->
    by (apply Z.mod_small; lia).
  destruct (Z.eqb_spec (sg_total done + sg_dma_len e) offset) as [E|E].
  { exists (S (length done)). split_and!; [lia| | |left; split; [done|]].
    - rewrite drop_app, drop_ge by lia. by replace (S (length done) - length done)%nat with 1%nat by lia.
    - rewrite length_app. cbn. lia.
    - rewrite take_app, take_ge by lia. replace (S (length done) - length done)%nat with 1%nat by lia.
      cbn [take]. rewrite sg_total_app, sg_total_cons. change (sg_total (take 0 sg)) with 0. lia. }
  destruct (Z.ltb_spec offset (sg_total done + sg_dma_len e)).
  { exists (length done). split_and!; [done|by rewrite drop_app_length|rewrite length_app; lia|right].
    exists e. rewrite lookup_app_r, Nat.sub_diag, take_app_length by lia.
    assert (u32 (sg_total done + sg_dma_len e - offset) = sg_total done + sg_dma_len e - offset) as ->
      by (apply Z.mod_small; lia).
    split; [done|lia]. }
  specialize (IH (done ++ [e])). rewrite <- app_assoc, (sg_total_app done [e]) in IH. cbn [app] in IH.
  replace (Z.of_nat (length done) + 1) with (Z.of_nat (length (done ++ [e])))
    by (rewrite length_app; cbn; lia).
  assert (sg_total [e] = sg_dma_len e) as He1 by (cbn; lia).
  rewrite He1 in IH. apply IH; [done|rewrite sg_total_app, sg_total_cons; lia|lia].
Qed.

(** [sgt_find_offset] finds the entry of a byte position: an entry
    boundary gives the next entry with offset 0, a position inside an entry
    gives that entry and the number of bytes from the position to its end,
    and a position past the last byte gives [-EINVAL]. *)
Theorem sgt_find_offset_found sgt offset :
  Forall sg_entry_wf sgt → sg_total sgt < 2 ^ 32 → 0 < offset →
  found sgt offset (sgt_find_offset sgt offset).
Proof. intros HF Ht Ho. exact (sgt_find_loop_found [] sgt offset HF Ht Ho). Qed.

Lemma sgt_find_offset_found_witness :
  found [SgEntry 0x1000 100; SgEntry 0x9000 50] 120
    (sgt_find_offset [SgEntry 0x1000 100; SgEntry 0x9000 50] 120).
Proof.
  apply (sgt_find_offset_found [SgEntry 0x1000 100; SgEntry 0x9000 50] 120).
  - repeat constructor; cbn; lia.
  - cbn. lia.
  - lia.
Defined.
