(* ===== verification/Descq.v ===== *)
(** * The descriptor queue (qdma_descq.c): submission and completion

    The doorbell writes, the two submission routines
    ([descq_mm_proc_request], [descq_proc_st_h2c_request]), the writeback
    handling with its credit accounting ([descq_wb_credit],
    [req_update_pend], [descq_mm_n_h2c_wb]) and the completion of a request
    ([qdma_sgt_req_done]).

    State: one queue with the requests it refers to and its device, and a
    trace of the externally visible effects (register writes, thread
    wake-ups, completion callbacks) in order. *)

From S2P Require Export Types Sgl.

(** ** Requests *)

(** [struct qdma_sg_req] with the [struct qdma_sgt_req_cb] in its [opaque]
    area (the fields after [nonblock]). *)
Record qdma_sg_req := SgReq {
  req_write : bool;
  dma_mapped : bool;
  ep_addr : Z;              (* u64 *)
  sgt : list sg_entry;      (* the nents mapped entries *)
  count : Z;                (* unsigned int *)
  timeout_ms : Z;
  nonblock : bool;          (* fp_done is set *)
  desc_nr : Z; offset : Z;  (* unsigned int *)
  cb_done : bool; status : Z
}.
#[export] Instance sg_req_eta : Settable qdma_sg_req := λ r,
  SgReq (req_write r) (dma_mapped r) (ep_addr r) (sgt r) (count r) (timeout_ms r) (nonblock r)
    (desc_nr r) (offset r) (cb_done r) (status r).

Definition null_req : qdma_sg_req := SgReq false false 0 [] 0 0 false 0 0 false 0.

(** ** State *)

Inductive event :=
  | EvWrite (reg val : Z)              (* __write_reg *)
  | EvThread (thp : nat)               (* qdma_kthread_wakeup *)
  | EvOops                             (* a NULL thread pointer dereferenced *)
  | EvFpDone (cb : nat) (bytes err : Z) (* req->fp_done(req, bytes, err) *)
  | EvWaitQ (cb : nat).                (* wake_up_interruptible(&cb->wq) *)

Record qenv := QEnv {
  dq : qdma_descq;
  reqs : gmap nat qdma_sg_req;
  xd : xlnx_dma_dev;
  trace : list event
}.
#[export] Instance qenv_eta : Settable qenv := λ r, QEnv (dq r) (reqs r) (xd r) (trace r).

Definition req_of (e : qenv) (cb : nat) : qdma_sg_req := default null_req (reqs e !! cb).
Definition upd_req (cb : nat) (f : qdma_sg_req → qdma_sg_req) (e : qenv) : qenv :=
  e <| reqs ::= alter f cb |>.
Definition emit_ev (ev : event) (e : qenv) : qenv := e <| trace ::= λ t, t ++ [ev] |>.

(** [list_del] of a request: off whichever list of the queue holds it. *)
Definition list_del (cb : nat) (e : qenv) : qenv :=
  e <| dq ::= λ q, q <| work_list ::= filter (.≠ cb) |> <| pend_list ::= filter (.≠ cb) |> |>.

Definition qdma_kthread_wakeup (thp : option nat) : event :=
  match thp with Some t => EvThread t | None => EvOops end.

(** ** Doorbells *)

Definition S_WRB_PIDX_UPD_EN_INT : Z := 16.
Definition S_WRB_CIDX_UPD_SW_CIDX : Z := 0.
Definition S_WRB_CIDX_UPD_TIMER_IDX : Z := 20.
Definition S_WRB_CIDX_UPD_TRIG_MODE : Z := 24.
Definition S_WRB_CIDX_UPD_EN_STAT_DESC : Z := 27.
Definition S_WRB_CIDX_UPD_EN_INT : Z := 28.
Definition S_INTR_CIDX_UPD_SW_CIDX : Z := 0.
Definition S_INTR_CIDX_UPD_DIR_SEL : Z := 16.

Definition pidx_reg (q : qdma_descq) : Z :=
  (if c2h (conf q) then QDMA_REG_C2H_PIDX_BASE else QDMA_REG_H2C_PIDX_BASE)
  + qidx (conf q) * QDMA_REG_PIDX_STEP.

Definition descq_pidx_update (q : qdma_descq) (pidx : Z) : event :=
  EvWrite (pidx_reg q) (u32 (Z.lor pidx (Z.shiftl (irq_en (cc q)) S_WRB_PIDX_UPD_EN_INT))).

Definition descq_wrb_cidx_update (q : qdma_descq) (cidx : Z) : event :=
  EvWrite (QDMA_REG_WRB_CIDX_BASE + qidx (conf q) * QDMA_REG_PIDX_STEP)
    (u32 (or_bits
      [ cidx; Z.shiftl (irq_en (cc q)) S_WRB_CIDX_UPD_EN_INT;
        Z.shiftl (wrb_stat_desc_en (cc q)) S_WRB_CIDX_UPD_EN_STAT_DESC;
        Z.shiftl (trig_z (wrb_trig_mode (cc q))) S_WRB_CIDX_UPD_TRIG_MODE;
        Z.shiftl (wrb_timer_idx (cc q)) S_WRB_CIDX_UPD_TIMER_IDX ])).

Definition intr_cidx_update (q : qdma_descq) (sw_cidx : Z) : event :=
  let cidx := u32 (Z.shiftl sw_cidx S_INTR_CIDX_UPD_SW_CIDX) in
  let cidx := if c2h (conf q) then Z.lor cidx S_INTR_CIDX_UPD_DIR_SEL else cidx in
  EvWrite (QDMA_REG_INT_CIDX_BASE + qidx (conf q) * QDMA_REG_PIDX_STEP) cidx.

(** ** Completion of a request *)

Definition qdma_sgt_req_done (cb : nat) (error : Z) (e : qenv) : qenv :=
  let e := list_del cb e in
  let req := req_of e cb in
  if nonblock req then
    let error := if offset req =? count req then error else - EINVAL in
    emit_ev (EvFpDone cb (offset req) error)
      (upd_req cb (λ r, r <| status := error |> <| cb_done := true |>) e)
  else
    emit_ev (EvWaitQ cb)
      (upd_req cb (λ r, r <| status := error |> <| cb_done := true |>) e).

(** All data of the request is in descriptors: it waits for completion. *)
Definition req_submitted (cb : nat) (e : qenv) : qenv :=
  (list_del cb e) <| dq ::= λ q, q <| pend_list ::= λ l, l ++ [cb] |> |>.

(** ** Writing descriptors *)

(** Store a descriptor at ring index [i]. *)
Definition desc_write (i : Z) (d : ring_desc) (q : qdma_descq) : qdma_descq :=
  q <| ring ::= λ r, r <| desc ::= fmap (M := option) (<[Z.to_nat i := d]>) |> |>.

(** Change a descriptor in place. *)
Definition desc_alter (i : Z) (f : ring_desc → ring_desc) (q : qdma_descq) : qdma_descq :=
  q <| ring ::= λ r, r <| desc ::= fmap (M := option) (alter f (Z.to_nat i)) |> |>.

(** [if (++descq->pidx == descq->conf.rngsz) descq->pidx = 0]: the descriptor
    pointer of the loops moves with it. *)
Definition pidx_next (q : qdma_descq) : qdma_descq :=
  let next := u32 (pidx (ring q) + 1) in
  q <| ring ::= λ r, r <| pidx := if next =? rngsz (conf q) then 0 else next |> |>.

(** [desc->flag_len |= flags] *)
Definition or_flags (flags : Z) (d : ring_desc) : ring_desc :=
  match d with
  | MM d => MM (d <| mm_flag_len ::= Z.lor flags |>)
  | H2C d => H2C (d <| h2c_flag_len ::= Z.lor flags |>)
  | C2H d => C2H d
  end.

(** ** Memory-mapped submission *)

(** The variables of the loop of [descq_mm_proc_request]. *)
Record mm_walk := MMWalk {
  mw_q : qdma_descq; mw_ep_addr : Z; mw_data_cnt : Z; mw_desc_cnt : Z;
  mw_desc_end : option Z   (* ring index of the last descriptor written *)
}.

(** The body of the inner loop, for a piece of [len] bytes at [addr]. *)
Definition mm_emit (addr len : Z) (w : mm_walk) : mm_walk :=
  let q := mw_q w in
  let i := pidx (ring q) in
  let d :=
    if c2h (conf q)
    then MMDesc (mw_ep_addr w) (Z.lor len (2 ^ S_DESC_F_DV)) 0 addr 0
    else MMDesc addr (Z.lor len (2 ^ S_DESC_F_DV)) 0 (mw_ep_addr w) 0 in
  MMWalk (pidx_next (desc_write i (MM d) q)) (u64 (mw_ep_addr w + len))
    (u32 (mw_data_cnt w + len)) (u32 (mw_desc_cnt w + 1)) (Some i).

(** Where a submission resumes: the rest of the entries and the offset. *)
Definition sg_start (req : qdma_sg_req) : option (list sg_entry * Z) :=
  if offset req =? 0 then Some (sgt req, 0) else
  let '(rv, p) := sgt_find_offset (sgt req) (offset req) in
  if (rv <? 0) || (Z.of_nat (length (sgt req)) <=? rv) then None else p.

(** What both routines do after their loop. *)
Definition account (cb : nat) (desc_cnt data_cnt : Z) (e : qenv) : qenv :=
  let e := e <| dq ::= λ q, q <| ring ::= λ r, r <| avail ::= λ a, u32 (a - desc_cnt) |> |> |> in
  let e := upd_req cb (λ r, r <| desc_nr ::= λ n, u32 (n + desc_cnt) |>
                              <| offset ::= λ o, u32 (o + data_cnt) |>) e in
  if offset (req_of e cb) =? count (req_of e cb) then req_submitted cb e else e.

Definition wake_wb (e : qenv) : qenv :=
  match wbthp (dq e) with Some t => emit_ev (EvThread t) e | None => e end.

Definition descq_mm_proc_request (cb : nat) : ST qenv Z := λ e,
  let req := req_of e cb in
  let q := dq e in
  let desc_max := avail (ring q) in
  if desc_max =? 0 then (0, e) else
  match sg_start req with
  | None => (- EINVAL, e)
  | Some (sg, sg_offset) =>
      let desc_start := pidx (ring q) in
      let '(_, w) := sg_walk XDMA_DESC_BLEN_MAX mm_emit (Z.to_nat desc_max) sg_offset sg
                       (MMWalk q (ep_addr req) 0 0 None) in
      match mw_desc_end w with
      | None => (- EIO, e <| dq := mw_q w |>)
      | Some desc_end =>
          let q := desc_alter desc_start (or_flags (2 ^ S_DESC_F_SOP))
                     (desc_alter desc_end (or_flags (2 ^ S_DESC_F_EOP)) (mw_q w)) in
          let e := account cb (mw_desc_cnt w) (mw_data_cnt w) (e <| dq := q |>) in
          let e := emit_ev (descq_pidx_update (dq e) (pidx (ring (dq e)))) e in
          (0, wake_wb e)
      end
  end.

(** ** Streaming H2C submission *)

Record h2c_walk := H2CWalk { hw_e : qenv; hw_data_cnt : Z; hw_desc_cnt : Z }.

Definition h2c_emit (addr len : Z) (w : h2c_walk) : h2c_walk :=
  let e := hw_e w in
  let i := pidx (ring (dq e)) in
  let d := H2CDesc addr
    (Z.lor len (or_bits [2 ^ S_DESC_F_DV; 2 ^ S_DESC_F_SOP; 2 ^ S_DESC_F_EOP])) in
  let e := e <| dq ::= λ q, pidx_next (desc_write i (H2C d) q) |> in
  H2CWalk (emit_ev (descq_pidx_update (dq e) (pidx (ring (dq e)))) e)
    (u32 (hw_data_cnt w + len)) (u32 (hw_desc_cnt w + 1)).

Definition descq_proc_st_h2c_request (cb : nat) : ST qenv Z := λ e,
  let req := req_of e cb in
  let desc_max := avail (ring (dq e)) in
  if desc_max =? 0 then (0, e) else
  match sg_start req with
  | None => (- EINVAL, e)
  | Some (sg, sg_offset) =>
      let '(_, w) := sg_walk PAGE_SIZE h2c_emit (Z.to_nat desc_max) sg_offset sg (H2CWalk e 0 0) in
      (0, wake_wb (account cb (hw_desc_cnt w) (hw_data_cnt w) (hw_e w)))
  end.

Definition qdma_descq_proc_sgt_request (cb : nat) : ST qenv Z := λ e,
  if negb (st (conf (dq e))) then descq_mm_proc_request cb e
  else if negb (c2h (conf (dq e))) then descq_proc_st_h2c_request cb e
  else (-1, e).

(** ** Writeback *)

(** The loop of [req_update_pend] over the requests that were pending when
    it started; the result is the credit that is left. *)
Fixpoint update_pend_loop (cbs : list nat) (credit : Z) (e : qenv) : Z * qenv :=
  match cbs with
  | [] => (credit, e)
  | cb :: cbs =>
      let n := desc_nr (req_of e cb) in
      let '(credit, e) :=
        if n <=? credit then (credit - n, qdma_sgt_req_done cb 0 e)
        else (0, upd_req cb (λ r, r <| desc_nr ::= λ n, n - credit |>) e) in
      if credit =? 0 then (0, e) else update_pend_loop cbs credit e
  end.

Definition req_update_pend (credit_new : Z) (e : qenv) : qenv :=
  let credit_all := u32 (credit_new + credit (ring (dq e))) in
  let '(c, e) := update_pend_loop (pend_list (dq e)) credit_all e in
  e <| dq ::= λ q, q <| ring ::= λ r, r <| credit := c |> |> |>.

Definition descq_wb_credit (cidx_new : Z) (q : qdma_descq) : Z * qdma_descq :=
  let r := ring q in
  if cidx_new =? cidx r then (0, q) else
  let n := if cidx_new <? cidx r then u32 (u32 (rngsz (conf q) - cidx r) + cidx_new)
           else u32 (cidx_new - cidx r) in
  (n, q <| ring := r <| cidx := cidx_new |> <| avail := u32 (avail r + n) |> |>).

(** The entry [xdev->intr_coal_list] points to, moved on by one. *)
Definition intr_coal_advance (c : intr_coal_conf) : intr_coal_conf :=
  if intr_ring_size c <=? coal_cidx c
  then c <| coal_cidx := 0 |> <| coal_pidx := 0 |> <| coal_color := negb (coal_color c) |>
  else c <| coal_cidx ::= λ i, u32 (i + 1) |> <| coal_pidx ::= λ i, u32 (i + 1) |>.

Definition intr_coal_update (e : qenv) : qenv :=
  if intr_coal_en (xd e) then
    let e := e <| xd ::= λ x, x <| intr_coal_list ::= alter intr_coal_advance 0%nat |> |> in
    match intr_coal_list (xd e) with
    | c :: _ => emit_ev (intr_cidx_update (dq e) (coal_cidx c)) e
    | [] => emit_ev EvOops e
    end
  else e.

Definition descq_mm_n_h2c_wb : ST qenv Z := λ e,
  let r := ring (dq e) in
  if pidx r =? cidx r then (0, e) else
  let cidx_hw := desc_wb_cidx r in
  if cidx_hw =? cidx r then (0, e) else
  let '(cr, q) := descq_wb_credit cidx_hw (dq e) in
  let e := e <| dq := q |> in
  let e := if negb (bool_decide (work_list q = [])) && negb (avail (ring q) =? 0)
           then emit_ev (qdma_kthread_wakeup (wrkthp q)) e else e in
  let e := req_update_pend cr e in
  let e := emit_ev (descq_pidx_update (dq e) (pidx (ring (dq e)))) e in
  (0, intr_coal_update e).

(** ** Sizes and vectors *)

(** [sizeof] of the ring's descriptor type. *)
Definition get_desc_size (q : qdma_descq) : Z :=
  if negb (st (conf q)) then 32 else if c2h (conf q) then 8 else 16.

Definition get_desc_wb_size : Z := 8.

Definition desc_free_irq (intr_id : Z) (xdev : xlnx_dma_dev) : xlnx_dma_dev :=
  if num_vecs xdev =? 0 then xdev else
  xdev <| intr_list_cnt ::= alter (λ n, if n =? 0 then n else n - 1) (Z.to_nat intr_id) |>.

(** The scan for the vector with the fewest queues: [i] runs over
    [cnts], the counters from index [i] on; the scan stops at a zero. *)
Fixpoint irq_scan (cnts : list Z) (i idx : nat) (min : Z) : nat :=
  match cnts with
  | [] => idx
  | n :: cnts =>
      let '(min, idx) := if n <? min then (n, i) else (min, idx) in
      if min =? 0 then idx else irq_scan cnts (S i) idx min
  end.

(** The new device and [descq->intr_id]; no vectors: nothing changes. *)
Definition desc_alloc_irq (old_id : Z) (xdev : xlnx_dma_dev) : Z * xlnx_dma_dev :=
  if num_vecs xdev =? 0 then (old_id, xdev) else
  let cnts := take (Z.to_nat (num_vecs xdev)) (intr_list_cnt xdev) in
  let idx := irq_scan cnts 0 0 (array (intr_list_cnt xdev) 0) in
  (Z.of_nat idx, xdev <| intr_list_cnt ::= alter (λ n, n + 1) idx |>).

(** ** The ring as a cyclic buffer *)

(** Descriptors in flight: written and not yet consumed. *)
Definition in_flight (q : qdma_descq) : Z := (pidx (ring q) - cidx (ring q)) mod rngsz (conf q).

(** The invariant of the ring between two operations: indices in range, one
    slot kept free, the rest split between free and in-flight descriptors. *)
Record ring_wf (q : qdma_descq) : Prop := {
  rngsz_range : 2 <= rngsz (conf q) < 2 ^ 16;
  pidx_range : 0 <= pidx (ring q) < rngsz (conf q);
  cidx_range : 0 <= cidx (ring q) < rngsz (conf q);
  avail_eq : avail (ring q) = rngsz (conf q) - 1 - in_flight q;
  desc_len : length <$> desc (ring q) = Some (Z.to_nat (rngsz (conf q)))
}.

(** Descriptors [ds] stored from index [i] on, wrapping at [sz]. *)
Fixpoint ring_put (sz i : Z) (ds : list ring_desc) (l : list ring_desc) : list ring_desc :=
  match ds with
  | [] => l
  | d :: ds => ring_put sz ((i + 1) mod sz) ds (<[Z.to_nat i := d]> l)
  end.

Section cyclic.
Variable sz : Z.
Hypothesis Hsz : 0 < sz.

Lemma mod_range i : 0 <= i mod sz < sz.
Proof. apply Z.mod_pos_bound. lia. Qed.

(** Fewer than [sz] steps around the ring never come back to a slot. *)
Lemma cyclic_inj i j k : 0 <= j < sz → 0 <= k < sz → (i + j) mod sz = (i + k) mod sz → j = k.
Proof.
  intros Hj Hk E.
  assert ((j - k) mod sz = 0) as Hm.
  { replace (j - k) with ((i + j) - (i + k)) by lia. rewrite Zminus_mod, E, Z.sub_diag. done. }
  destruct (proj1 (Z.mod_divide (j - k) sz ltac:(lia)) Hm) as [c Hc].
  destruct (Z.lt_trichotomy c 0) as [H | [H | H]]; nia.
Qed.

Lemma length_ring_put i ds l : length (ring_put sz i ds l) = length l.
Proof.
  revert i l. induction ds as [|d ds IH]; intros i l; cbn [ring_put]; [done|].
  by rewrite IH, length_insert.
Qed.

(** A slot no step reaches is unchanged. *)
Lemma ring_put_other i ds l s :
  0 <= i < sz → 0 <= s →
  (∀ k, 0 <= k < Z.of_nat (length ds) → (i + k) mod sz ≠ s) →
  ring_put sz i ds l !! Z.to_nat s = l !! Z.to_nat s.
Proof.
  revert i l. induction ds as [|d ds IH]; intros i l Hi Hs Hn; cbn [ring_put]; [done|].
  cbn [length] in Hn. rewrite IH; [|apply mod_range|done|].
  - apply list_lookup_insert_ne. specialize (Hn 0 ltac:(lia)).
    rewrite Z.add_0_r, Z.mod_small in Hn by lia. intros E%(f_equal Z.of_nat). lia.
  - intros k Hk. rewrite Zplus_mod_idemp_l. specialize (Hn (k + 1) ltac:(lia)).
    by replace (i + 1 + k) with (i + (k + 1)) by lia.
Qed.

(** Slot [k] steps on has descriptor [k]. *)
Lemma ring_put_lookup i ds l k d :
  0 <= i < sz → length l = Z.to_nat sz → Z.of_nat (length ds) <= sz → ds !! k = Some d →
  ring_put sz i ds l !! Z.to_nat ((i + Z.of_nat k) mod sz) = Some d.
Proof.
  revert i l k. induction ds as [|d0 ds IH]; intros i l k Hi Hl Hn Hk; [done|].
  cbn [ring_put length] in *. destruct k as [|k]; cbn in Hk.
  - injection Hk as ->. rewrite Z.add_0_r, Z.mod_small by lia.
    rewrite ring_put_other; [apply list_lookup_insert_eq; lia|apply mod_range|lia|].
    intros k Hk E. rewrite Zplus_mod_idemp_l in E.
    rewrite <- (Z.mod_small i sz) in E at 2 by lia.
    replace (i + 1 + k) with (i + (1 + k)) in E by lia. rewrite <- (Z.add_0_r i) in E at 2.
    apply cyclic_inj in E; lia.
  - replace (i + Z.of_nat (S k)) with (i + 1 + Z.of_nat k) by lia.
    rewrite <- Zplus_mod_idemp_l. apply IH; [apply mod_range|by rewrite length_insert|lia|done].
Qed.

End cyclic.

(** ** Lemmas: the memory-mapped loop *)

Lemma pidx_next_mod q :
  0 <= pidx (ring q) < rngsz (conf q) → rngsz (conf q) < 2 ^ 16 →
  pidx_next q = q <| ring ::= λ r, r <| pidx := (pidx (ring q) + 1) mod rngsz (conf q) |> |>.
Proof.
  intros Hp Hr. unfold pidx_next.
  assert (u32 (pidx (ring q) + 1) = pidx (ring q) + 1) as -> by (apply Z.mod_small; lia).
  assert ((if pidx (ring q) + 1 =? rngsz (conf q) then 0 else pidx (ring q) + 1)
          = (pidx (ring q) + 1) mod rngsz (conf q)) as ->; [|done].
  destruct (Z.eqb_spec (pidx (ring q) + 1) (rngsz (conf q))) as [->|].
  - by rewrite Z.mod_same by lia.
  - by rewrite Z.mod_small by lia.
Qed.

(** The descriptor of a piece whose device address is [ep]. *)
Definition mm_piece (c2h : bool) (ep : Z) (p : Z * Z) : qdma_mm_desc :=
  if c2h then MMDesc ep (Z.lor p.2 (2 ^ S_DESC_F_DV)) 0 p.1 0
  else MMDesc p.1 (Z.lor p.2 (2 ^ S_DESC_F_DV)) 0 ep 0.

Fixpoint mm_descs (c2h : bool) (ep : Z) (ps : list (Z * Z)) : list ring_desc :=
  match ps with
  | [] => []
  | p :: ps => MM (mm_piece c2h ep p) :: mm_descs c2h (u64 (ep + p.2)) ps
  end.

Lemma length_mm_descs c2h ep ps : length (mm_descs c2h ep ps) = length ps.
Proof. revert ep. induction ps as [|p ps IH]; intros ep; cbn; [done|]. by rewrite IH. Qed.

Lemma mm_descs_lookup c2h ep ps k p :
  0 <= ep < 2 ^ 64 → ps !! k = Some p →
  mm_descs c2h ep ps !! k = Some (MM (mm_piece c2h (u64 (ep + sumZ (map snd (take k ps)))) p)).
Proof.
  revert ep k. induction ps as [|p0 ps IH]; intros ep [|k] He Hk; cbn in *; try done.
  - injection Hk as ->. change (sumZ []) with 0. unfold u64. by rewrite Z.add_0_r, Z.mod_small.
  - rewrite (IH _ _ (u64_range _) Hk). do 3 f_equal. unfold u64.
    rewrite Zplus_mod_idemp_l. f_equal. unfold sumZ. cbn. lia.
Qed.

(** The queue after the descriptors [ds] were stored. *)
Definition stored (q : qdma_descq) (ds : list ring_desc) : qdma_descq :=
  let sz := rngsz (conf q) in
  q <| ring ::= λ r, r <| desc ::= fmap (M := option) (ring_put sz (pidx r) ds) |>
                       <| pidx := (pidx r + Z.of_nat (length ds)) mod sz |> |>.

Lemma stored_nil q : 0 <= pidx (ring q) < rngsz (conf q) → stored q [] = q.
Proof.
  intros Hp. destruct q as [? ? ? ? ? ? ? ? ? ? ? ? [? px ? ? dd ? ?] ? ?]. unfold stored. cbn in *.
  rewrite Z.add_0_r, Z.mod_small by lia. by destruct dd.
Qed.

Lemma stored_cons q d ds :
  0 <= pidx (ring q) < rngsz (conf q) → rngsz (conf q) < 2 ^ 16 →
  stored (pidx_next (desc_write (pidx (ring q)) d q)) ds = stored q (d :: ds).
Proof.
  intros Hp Hr. rewrite pidx_next_mod by done.
  destruct q as [? ? ? ? ? ? ? ? ? ? ? ? [? px ? ? dd ? ?] ? ?]. unfold stored, desc_write. cbn in *.
  rewrite Zplus_mod_idemp_l.
  replace (px + 1 + Z.of_nat (length ds)) with (px + Z.of_nat (S (length ds))) by lia.
  by destruct dd.
Qed.

Lemma mm_emit_all ps w :
  0 <= pidx (ring (mw_q w)) < rngsz (conf (mw_q w)) → rngsz (conf (mw_q w)) < 2 ^ 16 →
  0 <= mw_ep_addr w < 2 ^ 64 → 0 <= mw_data_cnt w < 2 ^ 32 → 0 <= mw_desc_cnt w < 2 ^ 32 →
  emit_all mm_emit ps w =
  MMWalk (stored (mw_q w) (mm_descs (c2h (conf (mw_q w))) (mw_ep_addr w) ps))
    (u64 (mw_ep_addr w + sumZ (map snd ps))) (u32 (mw_data_cnt w + sumZ (map snd ps)))
    (u32 (mw_desc_cnt w + Z.of_nat (length ps)))
    (match ps with
     | [] => mw_desc_end w
     | _ => Some ((pidx (ring (mw_q w)) + Z.of_nat (length ps) - 1) mod rngsz (conf (mw_q w)))
     end).
Proof.
  revert w. induction ps as [|[a l] ps IH]; intros w Hp Hr He Hd Hc.
  { cbn. rewrite stored_nil by done. change (sumZ []) with 0. unfold u64, u32.
    rewrite !Z.add_0_r, !Z.mod_small by lia. by destruct w. }
  cbn [emit_all fold_left fst snd]. fold (emit_all mm_emit ps (mm_emit a l w)).
  assert (mw_q (mm_emit a l w) =
    pidx_next (desc_write (pidx (ring (mw_q w))) (MM (mm_piece (c2h (conf (mw_q w))) (mw_ep_addr w) (a, l))) (mw_q w)))
    as Hq by (unfold mm_emit, mm_piece; cbn; by destruct (c2h _)).
  assert (conf (mw_q (mm_emit a l w)) = conf (mw_q w)) as Hcf by (by rewrite Hq).
  assert (pidx (ring (mw_q (mm_emit a l w))) = (pidx (ring (mw_q w)) + 1) mod rngsz (conf (mw_q w))) as Hpx
    by (rewrite Hq, pidx_next_mod by done; done).
  rewrite IH; rewrite ?Hcf, ?Hpx; try done.
  - cbn [mm_descs map]. f_equal.
    + rewrite Hq, stored_cons by done. by cbn [mm_emit mw_ep_addr].
    + cbn [mm_emit mw_ep_addr]. unfold u64. rewrite Zplus_mod_idemp_l. f_equal.
      unfold sumZ. cbn. lia.
    + cbn [mm_emit mw_data_cnt]. unfold u32. rewrite Zplus_mod_idemp_l. f_equal.
      unfold sumZ. cbn. lia.
    + cbn [mm_emit mw_desc_cnt length]. unfold u32. rewrite Zplus_mod_idemp_l. f_equal. lia.
    + destruct ps as [|p ps].
      * cbn. f_equal. rewrite Z.mod_small by lia. lia.
      * f_equal. rewrite <- Z.add_sub_assoc, Zplus_mod_idemp_l. f_equal. cbn [length]. lia.
  - apply Z.mod_pos_bound. lia.
  - apply u64_range.
  - cbn. unfold u32. apply Z.mod_pos_bound. lia.
  - cbn. unfold u32. apply Z.mod_pos_bound. lia.
Qed.

(** ** Lemmas: effects that leave the rest alone *)

Lemma req_of_upd cb f e cb' :
  is_Some (reqs e !! cb) →
  req_of (upd_req cb f e) cb' = if decide (cb' = cb) then f (req_of e cb) else req_of e cb'.
Proof.
  intros [r Hr]. unfold req_of, upd_req. cbn. case_decide as Hc.
  - subst. by rewrite lookup_alter_eq, Hr.
  - by rewrite lookup_alter_ne by done.
Qed.

Lemma filter_ne_notin cb (l : list nat) : cb ∉ l → filter (.≠ cb) l = l.
Proof. intros Hn. apply filter_all. by intros x Hx ->. Qed.

Lemma list_del_head cb e pend :
  pend_list (dq e) = cb :: pend → NoDup (pend_list (dq e) ++ work_list (dq e)) →
  list_del cb e = e <| dq ::= λ q, q <| pend_list := pend |> |>.
Proof.
  intros Hp Hn. rewrite Hp in Hn. cbn in Hn. apply NoDup_cons in Hn as [Hn _].
  rewrite not_elem_of_app in Hn. destruct Hn as [H1 H2].
  destruct e as [[] ? ? ?]. unfold list_del. cbn in *. subst.
  rewrite (filter_ne_notin cb _ H2), filter_cons_False by (intros Hne; by apply Hne).
  by rewrite filter_ne_notin.
Qed.

Lemma list_del_work cb e work :
  work_list (dq e) = cb :: work → NoDup (pend_list (dq e) ++ work_list (dq e)) →
  list_del cb e = e <| dq ::= λ q, q <| work_list := work |> |>.
Proof.
  intros Hw Hn. rewrite Hw in Hn. rewrite Permutation_app_comm in Hn. cbn in Hn.
  apply NoDup_cons in Hn as [Hn _]. rewrite not_elem_of_app in Hn. destruct Hn as [H1 H2].
  destruct e as [[] ? ? ?]. unfold list_del. cbn in *. subst.
  rewrite (filter_ne_notin cb _ H2), filter_cons_False by (intros Hne; by apply Hne).
  by rewrite filter_ne_notin.
Qed.

(** ** Abstract view: the owners of the descriptors in flight, oldest first

    Each request owns as many descriptors as its [desc_nr] says; [credit]
    completions of the oldest ones are already received.  Submission appends
    to this queue, a writeback takes from its front. *)

Definition owners_of (r : gmap nat qdma_sg_req) (l : list nat) : list nat :=
  concat (map (λ cb, replicate (Z.to_nat (desc_nr (default null_req (r !! cb)))) cb) l).

Definition owners (e : qenv) : list nat := owners_of (reqs e) (pend_list (dq e) ++ work_list (dq e)).

Definition fifo (e : qenv) : list nat := drop (Z.to_nat (credit (ring (dq e)))) (owners e).

(** Descriptors of one request: each has at least one byte of it. *)
Definition desc_nr_max : Z := 2 ^ 31.

(** The invariant of the accounting. *)
Record credit_inv (e : qenv) : Prop := {
  lists_nodup : NoDup (pend_list (dq e) ++ work_list (dq e));
  lists_known : ∀ cb, cb ∈ pend_list (dq e) ++ work_list (dq e) → is_Some (reqs e !! cb);
  desc_nr_range : ∀ cb r, reqs e !! cb = Some r → 0 <= desc_nr r < desc_nr_max;
  pend_submitted : ∀ cb, cb ∈ pend_list (dq e) →
    0 < desc_nr (req_of e cb) ∧ offset (req_of e cb) = count (req_of e cb);
  work_tail : ∀ cb, cb ∈ tail (work_list (dq e)) → desc_nr (req_of e cb) = 0;
  credit_nonneg : 0 <= credit (ring (dq e));
  credit_pend : ∀ cb l, pend_list (dq e) = cb :: l → credit (ring (dq e)) < desc_nr (req_of e cb);
  fifo_in_flight : Z.of_nat (length (owners e)) - credit (ring (dq e)) = in_flight (dq e)
}.

Lemma owners_of_app r l k : owners_of r (l ++ k) = owners_of r l ++ owners_of r k.
Proof. unfold owners_of. by rewrite map_app, concat_app. Qed.

Lemma owners_of_cons r cb l :
  owners_of r (cb :: l) =
  replicate (Z.to_nat (desc_nr (default null_req (r !! cb)))) cb ++ owners_of r l.
Proof. done. Qed.

(** Only the [desc_nr] of the listed requests matter. *)
Lemma owners_of_ext r r' l :
  (∀ cb, cb ∈ l → desc_nr (default null_req (r !! cb)) = desc_nr (default null_req (r' !! cb))) →
  owners_of r l = owners_of r' l.
Proof.
  intros H. unfold owners_of. f_equal. apply map_ext_in. intros cb Hcb%list_elem_of_In.
  by rewrite H.
Qed.

Lemma owners_of_zero r l :
  (∀ cb, cb ∈ l → desc_nr (default null_req (r !! cb)) = 0) → owners_of r l = [].
Proof.
  induction l as [|cb l IH]; intros H; [done|]. rewrite owners_of_cons, H by left. cbn.
  apply IH. intros x Hx. apply H. by right.
Qed.

Lemma elem_of_owners r l cb :
  cb ∈ owners_of r l ↔ cb ∈ l ∧ 0 < desc_nr (default null_req (r !! cb)).
Proof.
  induction l as [|x l IH].
  { split; [by intros ?%elem_of_nil|by intros [?%elem_of_nil _]]. }
  rewrite owners_of_cons, elem_of_app, IH, elem_of_replicate, elem_of_cons.
  split.
  - intros [[-> Hn]|[? ?]]; [|tauto]. split; [by left|lia].
  - intros [[-> |Hin] Hp]; [|by right]. left. split; [done|lia].
Qed.

(** ** Lemmas: the completion loop *)

(** What the loop keeps: everything but the requests, the pending list and
    the trace. *)
Definition same_ring (e e' : qenv) : Prop :=
  ring (dq e') = ring (dq e) ∧ conf (dq e') = conf (dq e) ∧ cc (dq e') = cc (dq e) ∧
  work_list (dq e') = work_list (dq e) ∧ xd e' = xd e ∧
  wrkthp (dq e') = wrkthp (dq e) ∧ wbthp (dq e') = wbthp (dq e).

Lemma same_ring_refl e : same_ring e e.
Proof. done. Qed.
Lemma same_ring_trans e1 e2 e3 : same_ring e1 e2 → same_ring e2 e3 → same_ring e1 e3.
Proof. unfold same_ring. intuition congruence. Qed.

(** A request completed with status 0, everything else of it as it was. *)
Definition completed (r : qdma_sg_req) : qdma_sg_req := r <| status := 0 |> <| cb_done := true |>.

Lemma done_head cb e pend :
  pend_list (dq e) = cb :: pend → NoDup (pend_list (dq e) ++ work_list (dq e)) →
  offset (req_of e cb) = count (req_of e cb) →
  ∃ ev, qdma_sgt_req_done cb 0 e =
    QEnv ((dq e) <| pend_list := pend |>) (alter completed cb (reqs e)) (xd e) (trace e ++ [ev]) ∧
    (ev = EvFpDone cb (offset (req_of e cb)) 0 ∨ ev = EvWaitQ cb).
Proof.
  intros Hp Hn Ho. unfold qdma_sgt_req_done. rewrite (list_del_head _ _ _ Hp Hn).
  assert (∀ f, req_of (e <| dq ::= f |>) cb = req_of e cb) as -> by done.
  rewrite Ho, Z.eqb_refl. destruct (nonblock _); eexists; (split; [done|]); [by left|by right].
Qed.

(** The requests after the loop: those taken off the list are completed, one
    more may have had part of its descriptors credited. *)
Definition loop_result (cbs : list nat) (k : nat) (c c' : Z) (e e' : qenv) : Prop :=
  same_ring e e' ∧ pend_list (dq e') = drop k cbs ∧ 0 <= c' ∧ (0 < c' → drop k cbs = []) ∧
  drop (Z.to_nat c') (owners_of (reqs e') (drop k cbs)) = drop (Z.to_nat c) (owners_of (reqs e) cbs) ∧
  Z.of_nat (length (owners_of (reqs e') (drop k cbs))) - c'
    = Z.of_nat (length (owners_of (reqs e) cbs)) - c ∧
  (∀ cb, cb ∈ take k cbs → reqs e' !! cb = completed <$> reqs e !! cb) ∧
  (∀ cb, cb ∉ cbs → reqs e' !! cb = reqs e !! cb) ∧
  (∀ cb, cb ∈ drop k cbs → ∃ n, 0 < n <= desc_nr (req_of e cb) ∧
     reqs e' !! cb = (λ r, r <| desc_nr := n |>) <$> reqs e !! cb).

(** Requests that wait, each with descriptors of its own in flight. *)
Definition all_pending (e : qenv) (cbs : list nat) : Prop :=
  ∀ cb, cb ∈ cbs → is_Some (reqs e !! cb) ∧ 0 < desc_nr (req_of e cb) ∧
                   offset (req_of e cb) = count (req_of e cb).

(** A request whose descriptors are covered is completed; the rest of the loop
    runs with what is left of the credits. *)
Lemma loop_result_done cb cbs r k c c' e e1 e' :
  reqs e !! cb = Some r → desc_nr r <= c → cb ∉ cbs →
  same_ring e e1 → reqs e1 = alter completed cb (reqs e) →
  loop_result cbs k (c - desc_nr r) c' e1 e' → 0 <= desc_nr r →
  loop_result (cb :: cbs) (S k) c c' e e'.
Proof.
  intros Hcb Hle Hni Hsame Hre (H1 & H2 & H3 & H4 & H5 & H6 & H7 & H8 & H9) Hpos.
  assert (owners_of (reqs e) (cb :: cbs) = replicate (Z.to_nat (desc_nr r)) cb ++ owners_of (reqs e) cbs)
    as How by (rewrite owners_of_cons, Hcb; done).
  assert (∀ x, x ≠ cb → reqs e1 !! x = reqs e !! x) as Hoth
    by (intros x Hx; rewrite Hre; by rewrite lookup_alter_ne).
  assert (owners_of (reqs e1) cbs = owners_of (reqs e) cbs) as How1.
  { apply owners_of_ext. intros x Hx. rewrite Hoth; [done|]. by intros ->. }
  assert (reqs e1 !! cb = completed <$> reqs e !! cb) as Hcb1 by (rewrite Hre; by rewrite lookup_alter_eq).
  unfold loop_result. change (drop (S k) (cb :: cbs)) with (drop k cbs).
  change (take (S k) (cb :: cbs)) with (cb :: take k cbs).
  rewrite How, drop_app_ge, length_app, !length_replicate by (rewrite length_replicate; lia).
  rewrite How1 in H5, H6.
  replace (Z.to_nat c - Z.to_nat (desc_nr r))%nat with (Z.to_nat (c - desc_nr r)) by lia.
  split_and!; try done; [by eapply same_ring_trans|lia| | |].
  - intros x [-> |Hx]%elem_of_cons; [by rewrite H8|]. rewrite H7 by done.
    rewrite Hoth; [done|]. intros ->. by apply Hni, (elem_of_take_in _ k).
  - intros x [Hx1 Hx2]%not_elem_of_cons. rewrite H8 by done. by apply Hoth.
  - intros x Hx. destruct (H9 x Hx) as (n & Hn0 & Hn1). exists n. unfold req_of in *.
    rewrite <- (Hoth x) by (intros ->; by apply Hni, (elem_of_drop_in _ k)). done.
Qed.

(** A request that waits keeps its count when it is not touched. *)
Lemma pending_kept e e' x :
  is_Some (reqs e !! x) → 0 < desc_nr (req_of e x) → reqs e' !! x = reqs e !! x →
  ∃ n, 0 < n <= desc_nr (req_of e x) ∧ reqs e' !! x = (λ r, r <| desc_nr := n |>) <$> reqs e !! x.
Proof.
  intros [rx Hrx] Hp He. exists (desc_nr rx). unfold req_of in *. rewrite He, Hrx in *. cbn in *.
  split; [lia|]. by destruct rx.
Qed.

(** No credits left: nothing is touched. *)
Lemma loop_result_zero cbs e : all_pending e cbs → pend_list (dq e) = cbs → loop_result cbs 0 0 0 e e.
Proof.
  intros Hr Hp. unfold loop_result. rewrite !drop_0. split_and!; try done.
  - by intros x ?%elem_of_nil.
  - intros x Hx. destruct (Hr x Hx) as (Hs & Hpos & _). by apply pending_kept.
Qed.

(** Credits for a part of the first request's descriptors. *)
Lemma loop_result_part cb cbs r c e :
  pend_list (dq e) = cb :: cbs → all_pending e (cb :: cbs) → cb ∉ cbs → reqs e !! cb = Some r →
  0 < c < desc_nr r →
  loop_result (cb :: cbs) 0 c 0 e (upd_req cb (λ r, r <| desc_nr ::= λ n, n - c |>) e).
Proof.
  intros Hp Hr Hni Hcb Hc. unfold loop_result.
  change (drop 0 (cb :: cbs)) with (cb :: cbs). change (take 0 (cb :: cbs)) with (@nil nat).
  set (e1 := upd_req _ _ _).
  assert (∀ x, x ≠ cb → reqs e1 !! x = reqs e !! x) as Hoth by (intros x Hx; cbn; by rewrite lookup_alter_ne).
  assert (reqs e1 !! cb = Some (r <| desc_nr := desc_nr r - c |>)) as Hcb1
    by (cbn; rewrite lookup_alter_eq, Hcb; by destruct r).
  assert (owners_of (reqs e1) cbs = owners_of (reqs e) cbs) as How1.
  { apply owners_of_ext. intros x Hx. rewrite Hoth; [done|]. by intros ->. }
  rewrite !owners_of_cons, Hcb1, Hcb, How1.
  change (desc_nr (default null_req (Some (r <| desc_nr := desc_nr r - c |>)))) with (desc_nr r - c).
  change (desc_nr (default null_req (Some r))) with (desc_nr r).
  rewrite !length_app, !length_replicate. split_and!; try done; try lia.
  - rewrite (drop_app_le _ _ (Z.to_nat c)), drop_replicate by (rewrite length_replicate; lia).
    change (Z.to_nat 0) with 0%nat. rewrite drop_0. do 2 f_equal. lia.
  - by intros x ?%elem_of_nil.
  - intros x [Hx1 Hx2]%not_elem_of_cons. by apply Hoth.
  - intros x Hx. destruct (decide (x = cb)) as [->|Hne].
    + exists (desc_nr r - c). unfold req_of. rewrite Hcb1, Hcb. cbn. split; [lia|done].
    + destruct (Hr x Hx) as (Hs & Hpos & _). apply pending_kept; [done..|by apply Hoth].
Qed.

Lemma update_pend_loop_spec cbs c e :
  pend_list (dq e) = cbs → NoDup (cbs ++ work_list (dq e)) → all_pending e cbs → 0 < c →
  ∃ k c' e', update_pend_loop cbs c e = (c', e') ∧ loop_result cbs k c c' e e'.
Proof.
  revert c e. induction cbs as [|cb cbs IH]; intros c e Hp Hn Hr Hc; cbn [update_pend_loop].
  { exists 0%nat, c, e. split; [done|]. unfold loop_result. split_and!; try done; try lia; by intros ? ?%elem_of_nil. }
  destruct (Hr cb) as ([r Hcb] & Hpos & Hoc); [by left|].
  assert (req_of e cb = r) as Hrq by (unfold req_of; by rewrite Hcb). rewrite Hrq in *.
  pose proof Hn as Hn'. cbn in Hn'. apply NoDup_cons in Hn' as [Hni Hn'].
  apply not_elem_of_app in Hni as [Hni _].
  destruct (Z.leb_spec (desc_nr r) c) as [Hle|Hlt].
  - destruct (done_head cb e cbs Hp) as (ev & Hd & _); [by rewrite Hp|by rewrite Hrq|].
    rewrite Hd. set (e1 := QEnv _ _ _ _).
    assert (all_pending e1 cbs) as Hr1.
    { intros x Hx. unfold req_of, e1. cbn [reqs]. rewrite lookup_alter_ne by (by intros ->).
      apply Hr. by right. }
    destruct (Z.eqb_spec (c - desc_nr r) 0) as [E|E].
    + exists 1%nat, 0, e1. split; [done|].
      eapply (loop_result_done cb cbs r 0 c 0 e e1 e1); try done; [|lia].
      rewrite E. by apply loop_result_zero.
    + destruct (IH (c - desc_nr r) e1) as (k & c' & e' & E' & HL); [done..|lia|].
      exists (S k), c', e'. split; [done|]. apply (loop_result_done cb cbs r k c c' e e1 e'); try done. lia.
  - exists 0%nat, 0. eexists. rewrite Z.eqb_refl. split; [done|]. by apply (loop_result_part cb cbs r).
Qed.

(** ** Lemmas: one writeback *)

(** Descriptors the device consumed since the last look. *)
Definition consumed (q : qdma_descq) : Z :=
  (desc_wb_cidx (ring q) - cidx (ring q)) mod rngsz (conf q).

Lemma in_flight_range q : ring_wf q → 0 <= in_flight q < rngsz (conf q).
Proof. intros [Hr _ _ _ _]. apply Z.mod_pos_bound. lia. Qed.

Lemma consumed_range q : ring_wf q → 0 <= consumed q < rngsz (conf q).
Proof. intros [Hr _ _ _ _]. apply Z.mod_pos_bound. lia. Qed.

(** A difference of two ring indices, as the code computes it. *)
Lemma index_diff a b sz :
  0 <= a < sz → 0 <= b < sz → (a - b) mod sz = if a <? b then sz - b + a else a - b.
Proof.
  intros Ha Hb. destruct (Z.ltb_spec a b).
  - symmetry. apply Z.mod_unique with (-1); lia.
  - by rewrite Z.mod_small by lia.
Qed.

Lemma descq_wb_credit_spec q new :
  ring_wf q → 0 <= new < rngsz (conf q) → (new - cidx (ring q)) mod rngsz (conf q) <= in_flight q →
  let n := (new - cidx (ring q)) mod rngsz (conf q) in
  ∃ q', descq_wb_credit new q = (n, q') ∧
    q' = q <| ring ::= λ r, r <| cidx := new |> <| avail := avail r + n |> |> ∧
    ring_wf q' ∧ in_flight q' = in_flight q - n.
Proof.
  intros Hwf Hn Hle n. pose proof Hwf as [Hr Hp Hc Ha Hd].
  pose proof (in_flight_range _ Hwf) as Hi.
  assert (0 <= n < rngsz (conf q)) as Hnr by (apply Z.mod_pos_bound; lia).
  exists (q <| ring ::= λ r, r <| cidx := new |> <| avail := avail r + n |> |>).
  assert (in_flight (q <| ring ::= λ r, r <| cidx := new |> <| avail := avail r + n |> |>)
          = in_flight q - n) as Hin.
  { unfold in_flight in *. cbn. fold n in Hle.
    assert ((pidx (ring q) - new) mod rngsz (conf q)
            = ((pidx (ring q) - cidx (ring q)) mod rngsz (conf q) - n) mod rngsz (conf q)) as ->.
    { unfold n. rewrite <- Zminus_mod. f_equal. lia. }
    apply Z.mod_small. lia. }
  split_and!; [|done| |done].
  - unfold descq_wb_credit. destruct (Z.eqb_spec new (cidx (ring q))) as [E|E].
    + unfold n. rewrite E, Z.sub_diag, Z.mod_0_l by lia. f_equal.
      destruct q as [? ? ? ? ? ? ? ? ? ? ? ? [] ? ?]. cbn in *. by rewrite Z.add_0_r.
    + assert ((if new <? cidx (ring q) then u32 (u32 (rngsz (conf q) - cidx (ring q)) + new)
               else u32 (new - cidx (ring q))) = n) as ->.
      { unfold n. rewrite index_diff by lia. unfold u32.
        destruct (Z.ltb_spec new (cidx (ring q))); rewrite ?Z.mod_small; lia || (rewrite Z.mod_small; lia). }
      assert (u32 (avail (ring q) + n) = avail (ring q) + n) as -> by (apply Z.mod_small; lia).
      done.
  - split; [done|done|done| |done]. rewrite Hin. cbn. lia.
Qed.

Lemma pend_in_fifo e cb : credit_inv e → cb ∈ pend_list (dq e) → cb ∈ fifo e.
Proof.
  intros Hi Hcb. unfold fifo, owners. pose proof (credit_nonneg _ Hi) as H0.
  destruct (pend_list (dq e)) as [|h l] eqn:Hp; [by apply elem_of_nil in Hcb|].
  pose proof (credit_pend _ Hi _ _ Hp) as Hc. cbn [app]. rewrite owners_of_cons.
  fold (req_of e h). rewrite drop_app_le by (rewrite length_replicate; lia).
  rewrite drop_replicate, elem_of_app, elem_of_replicate.
  apply elem_of_cons in Hcb as [-> |Hcb]; [left; split; [done|lia]|right].
  apply elem_of_owners. split; [apply elem_of_app; by left|].
  apply (pend_submitted _ Hi). rewrite Hp. by right.
Qed.

Lemma fifo_length e : ring_wf (dq e) → credit_inv e → Z.of_nat (length (fifo e)) = in_flight (dq e).
Proof.
  intros Hwf Hi. unfold fifo. rewrite length_drop, <- (fifo_in_flight _ Hi).
  pose proof (credit_nonneg _ Hi). pose proof (fifo_in_flight _ Hi).
  pose proof (in_flight_range _ Hwf). lia.
Qed.

(** The credit of a writeback never overflows: it is bounded by the
    descriptors outstanding. *)
Lemma credit_sum e cr :
  credit_inv e → 0 <= cr <= in_flight (dq e) → in_flight (dq e) < 2 ^ 16 →
  u32 (cr + credit (ring (dq e))) = cr + credit (ring (dq e)).
Proof.
  intros Hi Hcr Hf. apply Z.mod_small.
  pose proof (credit_nonneg _ Hi) as H0. pose proof (fifo_in_flight _ Hi) as Hq.
  assert (credit (ring (dq e)) < desc_nr_max); [|unfold desc_nr_max in *; lia].
  destruct (pend_list (dq e)) as [|h l] eqn:Hp.
  2: { pose proof (credit_pend _ Hi _ _ Hp) as Hc.
       destruct (lists_known _ Hi h) as [r Hr]; [rewrite Hp; left|].
       pose proof (desc_nr_range _ Hi _ _ Hr). unfold req_of in Hc. rewrite Hr in Hc. cbn in Hc. lia. }
  assert (Z.of_nat (length (owners e)) < desc_nr_max); [|lia].
  unfold owners. rewrite Hp. cbn [app].
  destruct (work_list (dq e)) as [|cb l] eqn:Hw; [done|].
  rewrite owners_of_cons, (owners_of_zero _ l), app_nil_r, length_replicate
    by (intros x Hx; apply (work_tail _ Hi); rewrite Hw; done).
  destruct (reqs e !! cb) as [r|] eqn:Hr; [|done].
  pose proof (desc_nr_range _ Hi _ _ Hr). cbn. lia.
Qed.

(** Two states that differ in the credit, the requests, the lists and the
    trace only have the same ring invariant. *)
Lemma ring_wf_ext q q' :
  conf q' = conf q → pidx (ring q') = pidx (ring q) → cidx (ring q') = cidx (ring q) →
  avail (ring q') = avail (ring q) → length <$> desc (ring q') = length <$> desc (ring q) →
  (ring_wf q → ring_wf q') ∧ in_flight q' = in_flight q.
Proof.
  intros E1 E2 E3 E4 E5.
  assert (in_flight q' = in_flight q) as E by (unfold in_flight; congruence).
  split; [|done]. intros [? ? ? ? ?]. split; rewrite ?E1, ?E2, ?E3, ?E4, ?E5, ?E; done.
Qed.

(** Distributing [cr] completions: the oldest [cr] descriptors leave the
    queue of owners, and a prefix of the pending requests is completed. *)
(** The invariant after the first [k] waiting requests have been completed and
    the next one charged. *)
Lemma pend_update_inv e0 e k :
  credit_inv e0 → pend_list (dq e) = drop k (pend_list (dq e0)) → work_list (dq e) = work_list (dq e0) →
  (∀ cb, cb ∈ take k (pend_list (dq e0)) → reqs e !! cb = completed <$> reqs e0 !! cb) →
  (∀ cb, cb ∉ pend_list (dq e0) → reqs e !! cb = reqs e0 !! cb) →
  (∀ cb, cb ∈ drop k (pend_list (dq e0)) →
     is_Some (reqs e !! cb) ∧ 0 < desc_nr (req_of e cb) < desc_nr_max ∧
     offset (req_of e cb) = count (req_of e cb)) →
  0 <= credit (ring (dq e)) → (0 < credit (ring (dq e)) → drop k (pend_list (dq e0)) = []) →
  Z.of_nat (length (owners e)) - credit (ring (dq e)) = in_flight (dq e) →
  credit_inv e.
Proof.
  intros Hi Hp Hwk Hdone Hother Hpend Hc0 Hcp Hcnt. pose proof (lists_nodup _ Hi) as Hnd.
  assert (∀ cb, cb ∈ work_list (dq e0) → reqs e !! cb = reqs e0 !! cb) as Hw.
  { intros cb Hcb. apply Hother. intros Hin.
    apply (NoDup_app (pend_list (dq e0))) in Hnd as (_ & Hd & _). by apply (Hd cb). }
  split; rewrite ?Hp, ?Hwk; try done.
  - apply (sublist_NoDup _ (pend_list (dq e0) ++ work_list (dq e0))); [done|].
    apply sublist_app; [apply sublist_drop|done].
  - intros cb [Hcb|Hcb]%elem_of_app; [by apply Hpend|].
    rewrite Hw by done. apply (lists_known _ Hi), elem_of_app. by right.
  - intros cb r Hr. destruct (decide (cb ∈ pend_list (dq e0))) as [Hin|Hin].
    + rewrite <- (take_drop k (pend_list (dq e0))) in Hin. apply elem_of_app in Hin as [Hin|Hin].
      * rewrite Hdone in Hr by done. destruct (reqs e0 !! cb) as [r0|] eqn:Hr0; [|done].
        injection Hr as <-. apply (desc_nr_range _ Hi _ _ Hr0).
      * destruct (Hpend cb Hin) as (_ & Hd & _). unfold req_of in Hd. rewrite Hr in Hd. cbn in Hd. lia.
    + rewrite Hother in Hr by done. apply (desc_nr_range _ Hi _ _ Hr).
  - intros cb Hcb. destruct (Hpend cb Hcb) as (_ & [? _] & ?). done.
  - intros cb Hcb. unfold req_of. rewrite Hw; [by apply (work_tail _ Hi)|].
    destruct (work_list (dq e0)); [done|by right].
  - intros cb l Hl. destruct (Hpend cb) as (_ & [? _] & _); [rewrite Hl; left|].
    destruct (decide (0 < credit (ring (dq e)))) as [Hpos|]; [|lia]. by rewrite (Hcp Hpos) in Hl.
Qed.

Lemma req_update_pend_spec e0 e1 cr :
  credit_inv e0 → 0 < cr <= in_flight (dq e0) → in_flight (dq e0) < 2 ^ 16 →
  reqs e1 = reqs e0 → pend_list (dq e1) = pend_list (dq e0) → work_list (dq e1) = work_list (dq e0) →
  credit (ring (dq e1)) = credit (ring (dq e0)) → in_flight (dq e1) = in_flight (dq e0) - cr →
  ∃ k c, let e' := req_update_pend cr e1 in
    credit_inv e' ∧ fifo e' = drop (Z.to_nat cr) (fifo e0) ∧
    pend_list (dq e') = drop k (pend_list (dq e0)) ∧
    (∀ cb, cb ∈ take k (pend_list (dq e0)) → reqs e' !! cb = completed <$> reqs e0 !! cb) ∧
    ring (dq e') = (ring (dq e1)) <| credit := c |> ∧ conf (dq e') = conf (dq e1) ∧
    work_list (dq e') = work_list (dq e0).
Proof.
  intros Hi Hcr Hf Er Ep Ew Ec Ei. unfold req_update_pend.
  rewrite Ec, (credit_sum e0) by (done || lia).
  pose proof (credit_nonneg _ Hi) as H0.
  destruct (update_pend_loop_spec (pend_list (dq e1)) (cr + credit (ring (dq e0))) e1)
    as (k & c' & e' & Eq & (Hs & Hp' & Hc' & Hcp & Hdrop & Hlen & Hdone & Hother & Hrest)); [done| | |lia|].
  { rewrite Ep, Ew. apply Hi. }
  { intros cb Hcb. rewrite Ep in Hcb. unfold req_of. rewrite Er.
    split; [apply (lists_known _ Hi), elem_of_app; by left|]. by apply (pend_submitted _ Hi). }
  rewrite Eq. rewrite Ep in *. rewrite Er in *.
  destruct Hs as (Hring & Hconf & _ & Hwork & _). rewrite Ew in Hwork.
  assert (owners_of (reqs e') (work_list (dq e0)) = owners_of (reqs e0) (work_list (dq e0))) as How.
  { apply owners_of_ext. intros x Hx. rewrite Hother; [done|]. intros Hin.
    pose proof (lists_nodup _ Hi) as Hnd.
    apply (NoDup_app (pend_list (dq e0))) in Hnd as (_ & Hd & _). by apply (Hd x). }
  exists k, c'. set (e'' := e' <| dq ::= _ |>).
  assert (owners e'' = owners_of (reqs e') (drop k (pend_list (dq e0))) ++
                       owners_of (reqs e0) (work_list (dq e0))) as Hown.
  { unfold owners. change (pend_list (dq e'')) with (pend_list (dq e')).
    change (work_list (dq e'')) with (work_list (dq e')). rewrite Hp', Hwork, owners_of_app.
    change (reqs e'') with (reqs e'). by rewrite <- How. }
  assert (in_flight (dq e'') = in_flight (dq e1)) as Hif.
  { apply ring_wf_ext; cbn; by rewrite ?Hring, ?Hconf. }
  pose proof (fifo_in_flight _ Hi) as Hfl. unfold owners in Hfl. rewrite owners_of_app, length_app in Hfl.
  split_and!; [|unfold fifo|done|done|by rewrite <- Hring|done|done].
  - apply (pend_update_inv e0 e'' k); try done.
    + intros cb Hcb. destruct (Hrest cb Hcb) as (n & Hn & Hn').
      apply elem_of_drop_in in Hcb. destruct (pend_submitted _ Hi cb Hcb) as [_ Ho].
      destruct (lists_known _ Hi cb) as [r Hr]; [apply elem_of_app; by left|].
      pose proof (desc_nr_range _ Hi _ _ Hr) as Hrg.
      unfold req_of in *. change (reqs e'') with (reqs e'). rewrite Hn'. rewrite Er, Hr in *. cbn in *.
      split_and!; [by eexists|lia..|done].
    + rewrite Hown, Hif, Ei, length_app. change (credit (ring (dq e''))) with c'. lia.
  - rewrite Hown. change (credit (ring (dq e''))) with c'. rewrite drop_drop.
    unfold owners. rewrite owners_of_app, !drop_app.
    replace (Z.to_nat (credit (ring (dq e0))) + Z.to_nat cr)%nat
      with (Z.to_nat (cr + credit (ring (dq e0)))) by lia.
    rewrite Hdrop. do 2 f_equal. lia.
Qed.

Lemma intr_coal_update_same e :
  dq (intr_coal_update e) = dq e ∧ reqs (intr_coal_update e) = reqs e.
Proof. unfold intr_coal_update. destruct (intr_coal_en _); [|done]. cbn. by case_match. Qed.

(** The accounting sees the queue and the requests only. *)
Lemma credit_inv_ext e e' :
  dq e' = dq e → reqs e' = reqs e → (credit_inv e → credit_inv e') ∧ fifo e' = fifo e.
Proof.
  intros E1 E2.
  assert (owners e' = owners e) as Eo by (unfold owners; by rewrite E1, E2).
  split; [|unfold fifo; by rewrite E1, Eo].
  intros [? ? ? ? ? ? ? ?]. split; unfold req_of; rewrite ?E1, ?E2, ?Eo; done.
Qed.

(** ** Properties: writeback *)

(** The pending requests that own a descriptor in flight. *)
Definition still_pending (f : list nat) (l : list nat) : list nat := filter (λ cb, cb ∈ f) l.

Lemma still_pending_drop k e e0 :
  credit_inv e0 → credit_inv e → pend_list (dq e) = drop k (pend_list (dq e0)) →
  work_list (dq e) = work_list (dq e0) →
  pend_list (dq e) = still_pending (fifo e) (pend_list (dq e0)).
Proof.
  intros Hi0 Hi Hp Hw. unfold still_pending.
  rewrite <- (take_drop k (pend_list (dq e0))) at 1. rewrite filter_app.
  rewrite (filter_none _ (take k _)), (filter_all _ (drop k _)); [done| |].
  - intros cb Hcb. apply pend_in_fifo; [done|]. by rewrite Hp.
  - intros cb Hcb Hf. unfold fifo, owners in Hf.
    apply elem_of_drop_in, elem_of_owners in Hf as [Hin _]. rewrite Hp, Hw in Hin.
    pose proof (lists_nodup _ Hi0) as Hnd. rewrite <- (take_drop k (pend_list (dq e0))), <- app_assoc in Hnd.
    apply NoDup_app in Hnd as (_ & Hd & _). by apply (Hd cb).
Qed.

(** A writeback: what happens to the queue of owners and the lists. *)
Lemma writeback_run e :
  ring_wf (dq e) → credit_inv e →
  0 <= desc_wb_cidx (ring (dq e)) < rngsz (conf (dq e)) → consumed (dq e) <= in_flight (dq e) →
  ∃ e', descq_mm_n_h2c_wb e = (0, e') ∧ ring_wf (dq e') ∧ credit_inv e' ∧
    fifo e' = drop (Z.to_nat (consumed (dq e))) (fifo e) ∧
    pend_list (dq e') = still_pending (fifo e') (pend_list (dq e)) ∧
    work_list (dq e') = work_list (dq e) ∧
    ∀ cb, cb ∈ pend_list (dq e) → cb ∉ pend_list (dq e') →
      reqs e' !! cb = completed <$> reqs e !! cb.
Proof.
  intros Hwf Hi Hhw Hle. pose proof Hwf as [Hr Hp Hc _ _].
  pose proof (consumed_range _ Hwf) as Hcr. unfold descq_mm_n_h2c_wb.
  assert (consumed (dq e) = 0 → ∃ e', (0, e) = (0, e') ∧ ring_wf (dq e') ∧ credit_inv e' ∧
    fifo e' = drop (Z.to_nat (consumed (dq e))) (fifo e) ∧
    pend_list (dq e') = still_pending (fifo e') (pend_list (dq e)) ∧
    work_list (dq e') = work_list (dq e) ∧
    ∀ cb, cb ∈ pend_list (dq e) → cb ∉ pend_list (dq e') →
      reqs e' !! cb = completed <$> reqs e !! cb) as Hnone.
  { intros E. exists e. rewrite E, drop_0. split_and!; try done.
    unfold still_pending. symmetry. apply filter_all. intros cb. by apply pend_in_fifo. }
  destruct (Z.eqb_spec (pidx (ring (dq e))) (cidx (ring (dq e)))) as [E|_].
  { apply Hnone. unfold in_flight in Hle. rewrite E, Z.sub_diag, Z.mod_0_l in Hle by lia. lia. }
  destruct (Z.eqb_spec (desc_wb_cidx (ring (dq e))) (cidx (ring (dq e)))) as [E|En].
  { apply Hnone. unfold consumed. by rewrite E, Z.sub_diag, Z.mod_0_l by lia. }
  clear Hnone.
  assert (0 < consumed (dq e)) as Hpos.
  { unfold consumed in *. rewrite index_diff by lia. destruct (Z.ltb_spec (desc_wb_cidx (ring (dq e))) (cidx (ring (dq e)))); lia. }
  destruct (descq_wb_credit_spec (dq e) (desc_wb_cidx (ring (dq e)))) as (q' & -> & -> & Hwf' & Hif);
    [done..|]. fold (consumed (dq e)) in *. cbv zeta in *. set (q' := set ring _ _) in *.
  set (e1 := if _ && _ then _ else _).
  assert (dq e1 = q' ∧ reqs e1 = reqs e) as [E1 E2] by (unfold e1; by case_match).
  destruct (req_update_pend_spec e e1 (consumed (dq e))) as (k & c & Hi2 & Hf2 & Hp2 & Hd2 & Hr2 & Hc2 & Hwk);
    rewrite ?E1, ?E2; try done.
  { pose proof (in_flight_range _ Hwf). lia. }
  set (e2 := req_update_pend _ e1) in *. set (e3 := emit_ev _ e2).
  destruct (intr_coal_update_same e3) as [E3 E4]. exists (intr_coal_update e3).
  destruct (credit_inv_ext e2 (intr_coal_update e3)) as [Hi3 Hf3]; [by rewrite E3|by rewrite E4|].
  assert (ring_wf (dq (intr_coal_update e3))) as Hwf3.
  { rewrite E3. change (dq e3) with (dq e2).
    destruct (ring_wf_ext q' (dq e2)) as [H _]; rewrite ?Hr2, ?Hc2, ?E1; try done. by apply H. }
  assert (pend_list (dq (intr_coal_update e3)) = pend_list (dq e2)) as Hpe by (by rewrite E3).
  assert (work_list (dq (intr_coal_update e3)) = work_list (dq e)) as Hwe by (by rewrite E3).
  split_and!; [done|done|by apply Hi3|by rewrite Hf3| |done|].
  - rewrite Hf3, Hpe. by apply (still_pending_drop k).
  - intros cb Hcb Hcb'. rewrite E4. change (reqs e3) with (reqs e2). apply Hd2.
    rewrite Hpe, Hp2 in Hcb'. rewrite <- (take_drop k (pend_list (dq e))) in Hcb.
    apply elem_of_app in Hcb as [?|?]; done.
Qed.

(** C8: a writeback from the device: the oldest descriptors in flight, as many
    as the device consumed, leave the queue of owners; the pending requests
    that own no descriptor any more (and only those) are completed with
    status 0, in order; the ring and accounting invariants are preserved. *)
Theorem descq_mm_n_h2c_wb_fifo e :
  ring_wf (dq e) → credit_inv e →
  0 <= desc_wb_cidx (ring (dq e)) < rngsz (conf (dq e)) → consumed (dq e) <= in_flight (dq e) →
  ∃ e', descq_mm_n_h2c_wb e = (0, e') ∧ ring_wf (dq e') ∧ credit_inv e' ∧
    fifo e' = drop (Z.to_nat (consumed (dq e))) (fifo e) ∧
    pend_list (dq e') = still_pending (fifo e') (pend_list (dq e)) ∧
    work_list (dq e') = work_list (dq e) ∧
    ∀ cb, cb ∈ pend_list (dq e) → cb ∉ pend_list (dq e') →
      reqs e' !! cb = completed <$> reqs e !! cb.
Proof. apply writeback_run. Qed.

(** ** Lemmas: one submission *)

(** [n] descriptors were added to the ring of [q]. *)
Definition advance (n : Z) (q : qdma_descq) : qdma_descq :=
  q <| ring ::= λ r, r <| pidx := (pidx r + n) mod rngsz (conf q) |> <| avail := avail r - n |> |>.

Lemma advance_wf n q q' :
  ring_wf q → 0 <= n <= avail (ring q) → conf q' = conf q →
  pidx (ring q') = pidx (ring (advance n q)) → cidx (ring q') = cidx (ring q) →
  avail (ring q') = avail (ring (advance n q)) → length <$> desc (ring q') = length <$> desc (ring q) →
  ring_wf q' ∧ in_flight q' = in_flight q + n.
Proof.
  intros Hwf Hn E1 E2 E3 E4 E5. pose proof Hwf as [Hr Hp Hc Ha Hd].
  pose proof (in_flight_range _ Hwf) as Hi. cbn in E2, E4.
  assert (in_flight q' = in_flight q + n) as Hif.
  { unfold in_flight in *. rewrite E1, E2, E3, Zminus_mod_idemp_l.
    assert ((pidx (ring q) + n - cidx (ring q)) mod rngsz (conf q)
            = ((pidx (ring q) - cidx (ring q)) mod rngsz (conf q) + n) mod rngsz (conf q)) as ->.
    { rewrite Zplus_mod_idemp_l. f_equal. lia. }
    apply Z.mod_small. lia. }
  split; [|done]. split; rewrite ?E1, ?E2, ?E3, ?E4, ?E5, ?Hif; try done; [|lia].
  apply Z.mod_pos_bound. lia.
Qed.

(** What a call that adds the pieces [ps] to request [cb] does to the state,
    apart from the ring contents and the trace. *)
Record submitted (cb : nat) (ps : list (Z * Z)) (e e' : qenv) : Prop := {
  sub_conf : conf (dq e') = conf (dq e);
  sub_pidx : pidx (ring (dq e')) = (pidx (ring (dq e)) + Z.of_nat (length ps)) mod rngsz (conf (dq e));
  sub_avail : avail (ring (dq e')) = avail (ring (dq e)) - Z.of_nat (length ps);
  sub_cidx : cidx (ring (dq e')) = cidx (ring (dq e));
  sub_credit : credit (ring (dq e')) = credit (ring (dq e));
  sub_desc : length <$> desc (ring (dq e')) = length <$> desc (ring (dq e));
  sub_req : req_of e' cb = (req_of e cb) <| desc_nr ::= λ n, n + Z.of_nat (length ps) |>
                             <| offset ::= λ o, o + sumZ (map snd ps) |>;
  sub_known : is_Some (reqs e' !! cb);
  sub_other : ∀ x, x ≠ cb → reqs e' !! x = reqs e !! x;
  sub_lists :
    if offset (req_of e' cb) =? count (req_of e' cb)
    then work_list (dq e') = filter (.≠ cb) (work_list (dq e)) ∧
         pend_list (dq e') = filter (.≠ cb) (pend_list (dq e)) ++ [cb]
    else work_list (dq e') = work_list (dq e) ∧ pend_list (dq e') = pend_list (dq e)
}.

(** The counters of a request stay within their C type when [ps] is added. *)
Record room (cb : nat) (ps : list (Z * Z)) (e : qenv) : Prop := {
  room_req : is_Some (reqs e !! cb);
  room_desc_nr : 0 <= desc_nr (req_of e cb) ∧
    desc_nr (req_of e cb) + Z.of_nat (length ps) < desc_nr_max;
  room_offset : 0 <= offset (req_of e cb) ∧ offset (req_of e cb) + sumZ (map snd ps) < 2 ^ 32;
  room_sum : 0 <= sumZ (map snd ps);
  room_avail : Z.of_nat (length ps) <= avail (ring (dq e)) < 2 ^ 16
}.

Lemma account_submitted cb ps n b e q :
  room cb ps e → n = Z.of_nat (length ps) → b = sumZ (map snd ps) →
  conf q = conf (dq e) → pend_list q = pend_list (dq e) → work_list q = work_list (dq e) →
  pidx (ring q) = (pidx (ring (dq e)) + Z.of_nat (length ps)) mod rngsz (conf (dq e)) →
  avail (ring q) = avail (ring (dq e)) → cidx (ring q) = cidx (ring (dq e)) →
  credit (ring q) = credit (ring (dq e)) → length <$> desc (ring q) = length <$> desc (ring (dq e)) →
  submitted cb ps e (account cb n b (e <| dq := q |>)) ∧
  desc (ring (dq (account cb n b (e <| dq := q |>)))) = desc (ring q) ∧
  trace (account cb n b (e <| dq := q |>)) = trace e ∧
  wbthp (dq (account cb n b (e <| dq := q |>))) = wbthp q ∧
  cc (dq (account cb n b (e <| dq := q |>))) = cc q.
Proof.
  intros [[r Hr] Hd Ho Hs Ha] -> -> E1 E2 E3 E4 E5 E6 E7 E8. unfold req_of in *. rewrite Hr in *.
  cbn [default from_option id] in *. unfold account.
  assert (u32 (avail (ring q) - Z.of_nat (length ps)) = avail (ring (dq e)) - Z.of_nat (length ps)) as HA
    by (rewrite E5; apply Z.mod_small; cbn in *; lia).
  assert (u32 (desc_nr r + Z.of_nat (length ps)) = desc_nr r + Z.of_nat (length ps)) as HD
    by (apply Z.mod_small; unfold desc_nr_max in *; cbn in *; lia).
  assert (u32 (offset r + sumZ (map snd ps)) = offset r + sumZ (map snd ps)) as HO
    by (apply Z.mod_small; cbn in *; lia).
  set (e1 := upd_req cb _ _).
  set (r1 := r <| desc_nr ::= λ n, n + Z.of_nat (length ps) |> <| offset ::= λ o, o + sumZ (map snd ps) |>).
  assert (reqs e1 !! cb = Some r1) as Hr1.
  { unfold e1, upd_req, r1. cbn. rewrite lookup_alter_eq, Hr. cbn. by rewrite HD, HO. }
  assert (∀ x, x ≠ cb → reqs e1 !! x = reqs e !! x) as Hoth
    by (intros x Hx; unfold e1, upd_req; cbn; by rewrite lookup_alter_ne).
  assert (dq e1 = q <| ring ::= λ r, r <| avail := avail (ring (dq e)) - Z.of_nat (length ps) |> |>) as Hq1
    by (unfold e1; cbn; by rewrite HA).
  assert (trace e1 = trace e) as Ht1 by done. clearbody e1.
  assert (∀ x, req_of e1 x = default null_req (reqs e1 !! x)) as Hro by done.
  rewrite (Hro cb), Hr1. cbn [default from_option id].
  destruct (Z.eqb_spec (offset r1) (count r1)) as [E|E].
  - split; [|unfold req_submitted, list_del; cbn; rewrite Hq1, Ht1; by split_and!].
    split; unfold req_submitted, list_del; cbn; rewrite ?Hq1; cbn; try done.
    + unfold req_of. cbn. by rewrite Hr1, Hr.
    + unfold req_of. cbn. rewrite Hr1. cbn [default from_option id].
      destruct (Z.eqb_spec (offset r1) (count r1)); [|done]. by rewrite E2, E3.
  - split; [|rewrite Hq1, Ht1; by split_and!].
    split; rewrite ?Hq1; cbn; try done.
    + unfold req_of. by rewrite Hr1, Hr.
    + unfold req_of. rewrite Hr1. cbn [default from_option id].
      destruct (Z.eqb_spec (offset r1) (count r1)); [done|]. done.
Qed.

(** The pieces one call submits: as many as there are free descriptors. *)
Definition batch (max : Z) (sg : list sg_entry) (e : qenv) : list (Z * Z) :=
  take (Z.to_nat (avail (ring (dq e)))) (sg_pieces max sg).

(** A call that can submit something: the ring is sane and not full, the
    position of the request is found, its pieces fit the counters. *)
Record can_submit (max : Z) (cb : nat) (sg : list sg_entry) (off : Z) (e : qenv) : Prop := {
  cs_ring : ring_wf (dq e);
  cs_avail : 0 < avail (ring (dq e));
  cs_start : sg_start (req_of e cb) = Some (sg, off);
  cs_wf : Forall sg_entry_wf sg;
  cs_some : sg_pieces max sg ≠ [];
  cs_ep : 0 <= ep_addr (req_of e cb) < 2 ^ 64;
  cs_known : is_Some (reqs e !! cb);
  cs_desc_nr : 0 <= desc_nr (req_of e cb) ∧
    desc_nr (req_of e cb) + Z.of_nat (length (batch max sg e)) < desc_nr_max;
  cs_offset : 0 <= offset (req_of e cb) ∧
    offset (req_of e cb) + sumZ (map snd (batch max sg e)) < 2 ^ 32
}.

Lemma batch_length max sg e :
  ring_wf (dq e) → 0 < avail (ring (dq e)) →
  Z.of_nat (length (batch max sg e)) <= avail (ring (dq e)) < 2 ^ 16.
Proof.
  intros Hwf Ha. pose proof (in_flight_range _ Hwf). destruct Hwf as [? ? ? Hav ?].
  unfold batch. rewrite length_take. lia.
Qed.

Lemma can_submit_room max cb sg off e :
  0 < max → can_submit max cb sg off e → room cb (batch max sg e) e.
Proof.
  intros Hm [? ? ? Hwf ? ? ? ? ?]. split; try done; [|by apply batch_length].
  apply sumZ_nonneg, Forall_map, (Forall_impl (λ p, 0 < p.2 <= max)).
  - apply Forall_take, sg_pieces_sum; [done|]. done.
  - intros p Hp. cbn. lia.
Qed.

Lemma batch_nonnil max cb sg off e : can_submit max cb sg off e → batch max sg e ≠ [].
Proof.
  intros [? Ha ? ? Hs ? ? ? ?]. unfold batch.
  destruct (sg_pieces max sg); [done|]. destruct (Z.to_nat (avail (ring (dq e)))) eqn:E; [lia|done].
Qed.

(** The wake-up of the writeback thread, if there is one. *)
Definition wb_events (e : qenv) : list event :=
  match wbthp (dq e) with Some t => [EvThread t] | None => [] end.

(** The ring after a memory-mapped batch: the descriptors of the pieces, the
    first marked start and the last end of packet. *)
Definition mm_ring (cb : nat) (ps : list (Z * Z)) (e : qenv) (l : list ring_desc) : list ring_desc :=
  let q := dq e in
  let sz := rngsz (conf q) in
  let i := pidx (ring q) in
  alter (or_flags (2 ^ S_DESC_F_SOP)) (Z.to_nat i)
    (alter (or_flags (2 ^ S_DESC_F_EOP)) (Z.to_nat ((i + Z.of_nat (length ps) - 1) mod sz))
      (ring_put sz i (mm_descs (c2h (conf q)) (ep_addr (req_of e cb)) ps) l)).

Lemma wake_wb_same e : dq (wake_wb e) = dq e ∧ reqs (wake_wb e) = reqs e ∧
  trace (wake_wb e) = trace e ++ wb_events e.
Proof. unfold wake_wb, wb_events. destruct (wbthp (dq e)); cbn; [done|by rewrite app_nil_r]. Qed.

Lemma submitted_ext cb ps e e1 e2 :
  dq e2 = dq e1 → reqs e2 = reqs e1 → submitted cb ps e e1 → submitted cb ps e e2.
Proof.
  intros E1 E2 [? ? ? ? ? ? ? ? ? ?]. split; unfold req_of in *; rewrite ?E1, ?E2; done.
Qed.

Lemma mm_proc_request_run cb sg off e :
  can_submit XDMA_DESC_BLEN_MAX cb sg off e →
  let ps := batch XDMA_DESC_BLEN_MAX sg e in
  ∃ e', descq_mm_proc_request cb e = (0, e') ∧ submitted cb ps e e' ∧
    desc (ring (dq e')) = mm_ring cb ps e <$> desc (ring (dq e)) ∧
    trace e' = trace e ++ descq_pidx_update (dq e) (pidx (ring (dq e'))) :: wb_events e.
Proof.
  intros Hcs ps. pose proof Hcs as [Hwf Ha Hst Hsg _ Hep Hk Hd Ho].
  assert (0 < XDMA_DESC_BLEN_MAX) as Hmax by done.
  pose proof (can_submit_room _ _ _ _ _ Hmax Hcs) as Hroom.
  pose proof (batch_nonnil _ _ _ _ _ Hcs) as Hne. fold ps in Hne.
  pose proof Hwf as [Hr Hp _ _ _].
  unfold descq_mm_proc_request. destruct (Z.eqb_spec (avail (ring (dq e))) 0); [lia|].
  rewrite Hst, sg_walk_spec by done. fold (batch XDMA_DESC_BLEN_MAX sg e). fold ps.
  rewrite mm_emit_all by (cbn; lia || done). cbn [mw_q mw_ep_addr mw_data_cnt mw_desc_cnt mw_desc_end].
  destruct ps as [|p0 ps'] eqn:Eps; [done|]. rewrite <- Eps in *. clear Eps p0 ps'.
  set (q1 := desc_alter _ _ _).
  pose proof (room_sum _ _ _ Hroom) as Hs. fold ps in Hs, Hd, Ho.
  pose proof (room_avail _ _ _ Hroom) as Hav. fold ps in Hav.
  destruct (account_submitted cb ps (u32 (0 + Z.of_nat (length ps))) (u32 (0 + sumZ (map snd ps))) e q1)
    as (Hsub & Hdesc & Htr & Hwb & Hcc); try done.
  { apply Z.mod_small. lia. }
  { apply Z.mod_small. lia. }
  { unfold q1. cbn. by rewrite length_mm_descs. }
  { unfold q1. cbn. destruct (desc (ring (dq e))); [|done]. cbn.
    by rewrite !length_alter, length_ring_put. }
  set (e1 := account _ _ _ _) in *. set (e2 := emit_ev _ e1).
  destruct (wake_wb_same e2) as (E1 & E2 & E3).
  exists (wake_wb e2). split; [done|]. split; [|split].
  - by apply (submitted_ext _ _ _ e1).
  - rewrite E1. change (dq e2) with (dq e1). rewrite Hdesc. unfold q1, mm_ring. cbn.
    by destruct (desc (ring (dq e))).
  - rewrite E3, E1. change (dq e2) with (dq e1).
    unfold e2, emit_ev. cbn. rewrite Htr, <- app_assoc. cbn. f_equal.
    unfold wb_events. cbn. rewrite Hwb. f_equal.
    unfold descq_pidx_update, pidx_reg. rewrite Hcc, (sub_conf _ _ _ _ Hsub). done.
Qed.

(** ** Lemmas: the streaming loop *)

Definition h2c_piece (p : Z * Z) : ring_desc :=
  H2C (H2CDesc p.1 (Z.lor p.2 (or_bits [2 ^ S_DESC_F_DV; 2 ^ S_DESC_F_SOP; 2 ^ S_DESC_F_EOP]))).

(** One doorbell per descriptor: the producer index after each. *)
Definition h2c_doorbells (q : qdma_descq) (n : nat) : list event :=
  map (λ k, descq_pidx_update q ((pidx (ring q) + Z.of_nat k) mod rngsz (conf q))) (seq 1 n).

Lemma h2c_emit_all ps w :
  0 <= pidx (ring (dq (hw_e w))) < rngsz (conf (dq (hw_e w))) → rngsz (conf (dq (hw_e w))) < 2 ^ 16 →
  0 <= hw_data_cnt w < 2 ^ 32 → 0 <= hw_desc_cnt w < 2 ^ 32 →
  emit_all h2c_emit ps w =
  H2CWalk (QEnv (stored (dq (hw_e w)) (map h2c_piece ps)) (reqs (hw_e w)) (xd (hw_e w))
             (trace (hw_e w) ++ h2c_doorbells (dq (hw_e w)) (length ps)))
    (u32 (hw_data_cnt w + sumZ (map snd ps))) (u32 (hw_desc_cnt w + Z.of_nat (length ps))).
Proof.
  revert w. induction ps as [|[a l] ps IH]; intros w Hp Hr Hd Hc.
  { cbn. rewrite stored_nil, app_nil_r by done. change (sumZ []) with 0. unfold u32.
    rewrite !Z.add_0_r, !Z.mod_small by lia. by destruct w as [[] ? ?]. }
  cbn [emit_all fold_left fst snd]. fold (emit_all h2c_emit ps (h2c_emit a l w)).
  set (q := dq (hw_e w)) in *.
  assert (dq (hw_e (h2c_emit a l w)) = pidx_next (desc_write (pidx (ring q)) (h2c_piece (a, l)) q)) as Hq by done.
  assert (conf (dq (hw_e (h2c_emit a l w))) = conf q) as Hcf by done.
  assert (pidx (ring (dq (hw_e (h2c_emit a l w)))) = (pidx (ring q) + 1) mod rngsz (conf q)) as Hpx
    by (rewrite Hq, pidx_next_mod by done; done).
  assert (∀ k, descq_pidx_update (dq (hw_e (h2c_emit a l w))) k = descq_pidx_update q k) as Hu by done.
  assert (trace (hw_e (h2c_emit a l w)) =
    trace (hw_e w) ++ [descq_pidx_update q ((pidx (ring q) + 1) mod rngsz (conf q))]) as Ht
    by (rewrite <- Hpx, <- Hu; done).
  rewrite IH; rewrite ?Hcf, ?Hpx; try done.
  - cbn [map]. f_equal; [f_equal| |].
    + by rewrite Hq, stored_cons.
    + rewrite Ht, <- app_assoc. f_equal. unfold h2c_doorbells. cbn [length seq map app].
      f_equal. rewrite <- (seq_shift (length ps) 1), map_map. apply map_ext. intros k.
      rewrite Hcf, Hpx, Hu, Zplus_mod_idemp_l. do 2 f_equal. lia.
    + cbn [h2c_emit hw_data_cnt]. unfold u32. rewrite Zplus_mod_idemp_l. f_equal. unfold sumZ. cbn. lia.
    + cbn [h2c_emit hw_desc_cnt length]. unfold u32. rewrite Zplus_mod_idemp_l. f_equal. lia.
  - apply Z.mod_pos_bound. lia.
  - cbn. unfold u32. apply Z.mod_pos_bound. lia.
  - cbn. unfold u32. apply Z.mod_pos_bound. lia.
Qed.

Lemma st_h2c_request_run cb sg off e :
  can_submit PAGE_SIZE cb sg off e →
  let ps := batch PAGE_SIZE sg e in
  let q := dq e in
  ∃ e', descq_proc_st_h2c_request cb e = (0, e') ∧ submitted cb ps e e' ∧
    desc (ring (dq e')) = ring_put (rngsz (conf q)) (pidx (ring q)) (map h2c_piece ps) <$> desc (ring q) ∧
    trace e' = trace e ++ h2c_doorbells q (length ps) ++ wb_events e.
Proof.
  intros Hcs ps q. pose proof Hcs as [Hwf Ha Hst Hsg _ _ _ _ _].
  assert (0 < PAGE_SIZE) as Hmax by done.
  pose proof (can_submit_room _ _ _ _ _ Hmax Hcs) as Hroom. pose proof Hwf as [Hr Hp _ _ _].
  pose proof (room_sum _ _ _ Hroom) as Hs. pose proof (room_avail _ _ _ Hroom) as Hav.
  pose proof (room_desc_nr _ _ _ Hroom) as Hd. pose proof (room_offset _ _ _ Hroom) as Ho.
  fold ps in Hs, Hd, Ho, Hav.
  unfold descq_proc_st_h2c_request. destruct (Z.eqb_spec (avail (ring (dq e))) 0); [lia|].
  rewrite Hst, sg_walk_spec by done. fold (batch PAGE_SIZE sg e). fold ps.
  rewrite h2c_emit_all by (cbn; lia || done). cbn [hw_e hw_data_cnt hw_desc_cnt].
  set (e1 := QEnv _ _ _ _).
  assert (e1 = (QEnv (dq e) (reqs e) (xd e) (trace e1)) <| dq := stored q (map h2c_piece ps) |>) as -> by done.
  set (e0 := QEnv (dq e) _ _ _).
  destruct (account_submitted cb ps (u32 (0 + Z.of_nat (length ps))) (u32 (0 + sumZ (map snd ps))) e0
              (stored q (map h2c_piece ps))) as (Hsub & Hdesc & Htr & Hwb & Hcc); try done.
  { destruct Hroom. by split. }
  { apply Z.mod_small. lia. }
  { apply Z.mod_small. lia. }
  { cbn. by rewrite length_map. }
  { cbn. destruct (desc (ring q)) as [l|] eqn:El; unfold q in El; rewrite El; [|done]. cbn.
    by rewrite length_ring_put. }
  set (e2 := account _ _ _ _) in *. destruct (wake_wb_same e2) as (E1 & E2 & E3).
  exists (wake_wb e2). split; [done|]. split; [|split].
  - apply (submitted_ext _ _ _ e2); [done..|]. by destruct Hsub.
  - by rewrite E1, Hdesc.
  - rewrite E3, Htr. unfold e0, e1. cbn. rewrite <- app_assoc. unfold wb_events. by rewrite Hwb.
Qed.

(** ** Lemmas: a submission and the accounting *)

Section submission.
Context (cb : nat) (ps : list (Z * Z)) (rest : list nat) (e e' : qenv).
Hypothesis Hwf : ring_wf (dq e).
Hypothesis Hi : credit_inv e.
Hypothesis Hwork : work_list (dq e) = cb :: rest.
Hypothesis Hroom : room cb ps e.
Hypothesis Hsub : submitted cb ps e e'.

Lemma submission_notin : (cb ∉ pend_list (dq e)) ∧ (cb ∉ rest) ∧ NoDup (pend_list (dq e) ++ rest).
Proof.
  pose proof (lists_nodup _ Hi) as Hnd. rewrite Hwork in Hnd.
  rewrite <- Permutation_middle in Hnd. apply NoDup_cons in Hnd as [Hn Hnd].
  apply not_elem_of_app in Hn as [? ?]. done.
Qed.

(** The two lists afterwards, joined: [cb] stays between them. *)
Lemma submission_lists :
  pend_list (dq e') ++ work_list (dq e') = pend_list (dq e) ++ cb :: rest ∧
  ((work_list (dq e') = cb :: rest ∧ pend_list (dq e') = pend_list (dq e)) ∨
   (work_list (dq e') = rest ∧ pend_list (dq e') = pend_list (dq e) ++ [cb] ∧
    offset (req_of e' cb) = count (req_of e' cb))).
Proof.
  destruct submission_notin as (Hn1 & Hn2 & _).
  pose proof (sub_lists _ _ _ _ Hsub) as Hl. rewrite Hwork in Hl.
  destruct (Z.eqb_spec (offset (req_of e' cb)) (count (req_of e' cb))).
  - rewrite filter_cons_False, !filter_ne_notin in Hl by (done || (intros Hne; by apply Hne)).
    destruct Hl as [-> ->]. split; [by rewrite <- app_assoc|by right].
  - destruct Hl as [-> ->]. split; [done|by left].
Qed.

Lemma submission_ring : ring_wf (dq e') ∧ in_flight (dq e') = in_flight (dq e) + Z.of_nat (length ps).
Proof.
  destruct Hsub. apply advance_wf; try done.
  destruct Hroom. split; [lia|]. tauto.
Qed.

Lemma submission_owners : owners e' = owners e ++ replicate (length ps) cb.
Proof.
  destruct submission_notin as (Hn1 & Hn2 & _). destruct submission_lists as [El _].
  unfold owners. rewrite El, Hwork.
  rewrite !owners_of_app, !owners_of_cons, !(owners_of_zero _ rest).
  - rewrite !app_nil_r, <- app_assoc. fold (req_of e cb). fold (req_of e' cb).
    rewrite (sub_req _ _ _ _ Hsub). cbn [desc_nr set]. rewrite <- replicate_add.
    f_equal; [|f_equal; destruct Hroom as [_ [? ?] _ _ _]; cbn; lia].
    apply owners_of_ext. intros x Hx. rewrite (sub_other _ _ _ _ Hsub); [done|]. by intros ->.
  - intros x Hx. apply (work_tail _ Hi). by rewrite Hwork.
  - intros x Hx. rewrite (sub_other _ _ _ _ Hsub) by (by intros ->).
    apply (work_tail _ Hi). by rewrite Hwork.
Qed.

Lemma submission_fifo : fifo e' = fifo e ++ replicate (length ps) cb.
Proof.
  unfold fifo. rewrite submission_owners, (sub_credit _ _ _ _ Hsub).
  pose proof (fifo_in_flight _ Hi). pose proof (in_flight_range _ Hwf).
  pose proof (credit_nonneg _ Hi). by rewrite drop_app_le by lia.
Qed.

Lemma submission_credit_inv : ps ≠ [] → credit_inv e'.
Proof.
  intros Hne. destruct submission_notin as (Hn1 & Hn2 & Hnd).
  destruct submission_lists as [El Hcase]. destruct submission_ring as [_ Hif].
  pose proof Hroom as [_ [Hd0 Hd1] _ _ _].
  assert (∀ x, x ≠ cb → req_of e' x = req_of e x) as Hro
    by (intros x Hx; unfold req_of; by rewrite (sub_other _ _ _ _ Hsub)).
  assert (desc_nr (req_of e' cb) = desc_nr (req_of e cb) + Z.of_nat (length ps)) as Hdn
    by (by rewrite (sub_req _ _ _ _ Hsub)).
  assert (0 < Z.of_nat (length ps)) as Hpos by (destruct ps; [done|cbn; lia]).
  pose proof (credit_nonneg _ Hi) as Hc0. pose proof (fifo_in_flight _ Hi) as Hfl.
  pose proof (in_flight_range _ Hwf) as Hfr.
  split; rewrite ?El, ?(sub_credit _ _ _ _ Hsub); try done.
  - rewrite <- Permutation_middle. apply NoDup_cons. split; [|done]. by apply not_elem_of_app.
  - intros x Hx. destruct (decide (x = cb)) as [->|Hxc]; [apply (sub_known _ _ _ _ Hsub)|].
    rewrite (sub_other _ _ _ _ Hsub) by done. apply (lists_known _ Hi). by rewrite Hwork.
  - intros x r Hr. destruct (decide (x = cb)) as [->|Hxc].
    + unfold req_of in Hdn. rewrite Hr in Hdn. cbn in Hdn, Hd0, Hd1. unfold req_of in *. lia.
    + rewrite (sub_other _ _ _ _ Hsub) in Hr by done. by apply (desc_nr_range _ Hi x).
  - intros x Hx. destruct (decide (x = cb)) as [->|Hxc].
    + split; [lia|]. destruct Hcase as [[_ Hp]|(_ & _ & ?)]; [|done]. by rewrite Hp in Hx.
    + rewrite Hro by done. apply (pend_submitted _ Hi).
      destruct Hcase as [[_ Hp]|(_ & Hp & _)]; rewrite Hp in Hx; [done|].
      apply elem_of_app in Hx as [?|Hx%list_elem_of_singleton]; done.
  - intros x Hx. assert (x ∈ rest) as Hxr.
    { destruct Hcase as [[Hw _]|(Hw & _ & _)]; rewrite Hw in Hx; [done|].
      destruct rest; [done|by right]. }
    rewrite Hro by (by intros ->). apply (work_tail _ Hi). by rewrite Hwork.
  - intros x l Hl. destruct (pend_list (dq e)) as [|h l0] eqn:Hp.
    + destruct Hcase as [[_ Hp']|(_ & Hp' & _)]; rewrite Hp' in Hl; [done|]. injection Hl as <- _.
      unfold owners in Hfl. rewrite Hp, Hwork in Hfl. cbn [app] in Hfl.
      rewrite owners_of_cons, (owners_of_zero _ rest), app_nil_r, length_replicate in Hfl
        by (intros x Hx; apply (work_tail _ Hi); by rewrite Hwork).
      fold (req_of e cb) in Hfl. lia.
    + assert (x = h) as -> by (destruct Hcase as [[_ Hp']|(_ & Hp' & _)]; rewrite Hp' in Hl; by injection Hl).
      rewrite Hro; [by apply (credit_pend _ Hi _ l0)|]. intros ->. apply Hn1. by left.
  - rewrite submission_owners, length_app, length_replicate, Hif. lia.
Qed.

End submission.

(** ** Properties: submission *)

(** The largest piece a queue's descriptors carry. *)
Definition piece_max (q : qdma_descq) : Z := if st (conf q) then PAGE_SIZE else XDMA_DESC_BLEN_MAX.

Lemma piece_max_pos q : 0 < piece_max q.
Proof. unfold piece_max. by destruct (st _). Qed.

Lemma piece_max_ext q q' : conf q' = conf q → piece_max q' = piece_max q.
Proof. intros E. unfold piece_max. by rewrite E. Qed.

(** Both routines, behind the dispatch. *)
Lemma proc_sgt_request_submitted e cb sg off :
  can_submit (piece_max (dq e)) cb sg off e → st (conf (dq e)) && c2h (conf (dq e)) = false →
  ∃ e', qdma_descq_proc_sgt_request cb e = (0, e') ∧
        submitted cb (batch (piece_max (dq e)) sg e) e e'.
Proof.
  intros Hcs Hm. unfold qdma_descq_proc_sgt_request, piece_max in *.
  destruct (st (conf (dq e))); cbn [negb andb] in *.
  - rewrite Hm. cbn [negb]. destruct (st_h2c_request_run cb sg off e Hcs) as (e' & ? & ? & _). by exists e'.
  - destruct (mm_proc_request_run cb sg off e Hcs) as (e' & ? & ? & _). by exists e'.
Qed.

(** C7: submitting descriptors of the request at the head of the work list:
    the call returns 0, at least one descriptor owned by the request joins
    the back of the queue of owners, the request's counters grow by what was
    written, a completely submitted request moves to the end of the pending
    list, and the ring and accounting invariants are preserved. *)
Theorem proc_sgt_request_fifo e cb rest sg off :
  credit_inv e → work_list (dq e) = cb :: rest →
  can_submit (piece_max (dq e)) cb sg off e → st (conf (dq e)) && c2h (conf (dq e)) = false →
  let ps := batch (piece_max (dq e)) sg e in
  ∃ e', qdma_descq_proc_sgt_request cb e = (0, e') ∧ ring_wf (dq e') ∧ credit_inv e' ∧ ps ≠ [] ∧
    fifo e' = fifo e ++ replicate (length ps) cb ∧
    req_of e' cb = (req_of e cb) <| desc_nr ::= λ n, n + Z.of_nat (length ps) |>
                     <| offset ::= λ o, o + sumZ (map snd ps) |> ∧
    (if offset (req_of e' cb) =? count (req_of e' cb)
     then work_list (dq e') = rest ∧ pend_list (dq e') = pend_list (dq e) ++ [cb]
     else work_list (dq e') = cb :: rest ∧ pend_list (dq e') = pend_list (dq e)).
Proof.
  intros Hi Hw Hcs Hm ps. pose proof (cs_ring _ _ _ _ _ Hcs) as Hwf.
  pose proof (piece_max_pos (dq e)) as Hmax.
  pose proof (can_submit_room _ _ _ _ _ Hmax Hcs) as Hroom.
  pose proof (batch_nonnil _ _ _ _ _ Hcs) as Hne. fold ps in Hne.
  destruct (proc_sgt_request_submitted e cb sg off Hcs Hm) as (e' & E & Hsub). fold ps in Hsub.
  exists e'. split; [done|].
  split; [by apply (submission_ring cb ps e e')|].
  split; [by apply (submission_credit_inv cb ps rest e e')|]. split; [done|].
  split; [by apply (submission_fifo cb ps rest e e')|]. split; [by apply sub_req|].
  destruct (submission_notin cb rest e Hi Hw) as (Hn1 & Hn2 & _).
  pose proof (sub_lists _ _ _ _ Hsub) as Hl. rewrite Hw in Hl.
  rewrite filter_cons_False, !filter_ne_notin in Hl by (done || (intros Hx; by apply Hx)). done.
Qed.

(** Length and flags of a descriptor word. *)
Definition flag_len_is (fl len : Z) (sop eop : bool) : Prop :=
  bits_get 0 28 fl = len ∧ bits_get S_DESC_F_DV 1 fl = 1 ∧
  bits_get S_DESC_F_SOP 1 fl = b2z sop ∧ bits_get S_DESC_F_EOP 1 fl = b2z eop.

Lemma flag_len_word len (sop eop : bool) :
  0 <= len < 2 ^ 28 →
  flag_len_is (Z.lor (if sop then 2 ^ S_DESC_F_SOP else 0)
                (Z.lor (if eop then 2 ^ S_DESC_F_EOP else 0) (Z.lor len (2 ^ S_DESC_F_DV)))) len sop eop.
Proof.
  intros Hl. unfold flag_len_is, S_DESC_F_DV, S_DESC_F_SOP, S_DESC_F_EOP.
  assert (bits_get 0 28 len = len) as Hlen by (apply bits_get_small; lia).
  assert (∀ s, 28 <= s → bits_get s 1 len = 0) as Hs.
  { intros s Hs. rewrite <- (Z.shiftl_0_r len). apply (bits_get_below s 1 0 28); lia. }
  destruct sop, eop; rewrite !bits_get_lor, ?Hs by lia;
    (split_and!; [rewrite Hlen|done..]);
    rewrite ?(eq_refl : bits_get 0 28 (2 ^ 28) = 0), ?(eq_refl : bits_get 0 28 (2 ^ 29) = 0),
      ?(eq_refl : bits_get 0 28 (2 ^ 30) = 0), ?bits_get_0, ?Z.lor_0_l, ?Z.lor_0_r; done.
Qed.

(** Slot numbers as list positions: equal only when the slots are. *)
Lemma slot_eq sz i j k :
  0 < sz → 0 <= j < sz → 0 <= k < sz →
  Z.to_nat ((i + j) mod sz) = Z.to_nat ((i + k) mod sz) → j = k.
Proof.
  intros Hsz Hj Hk E. apply (cyclic_inj sz Hsz i j k Hj Hk).
  pose proof (mod_range sz Hsz (i + j)). pose proof (mod_range sz Hsz (i + k)). lia.
Qed.

(** The flags of a streaming descriptor: each is a packet of its own. *)
Lemma h2c_piece_flags len :
  0 <= len < 2 ^ 28 →
  flag_len_is (Z.lor len (or_bits [2 ^ S_DESC_F_DV; 2 ^ S_DESC_F_SOP; 2 ^ S_DESC_F_EOP])) len true true.
Proof.
  intros Hl. pose proof (flag_len_word len true true Hl) as Hw. unfold or_bits. cbn [foldr]. rewrite Z.lor_0_r.
  replace (Z.lor len _) with
    (Z.lor (2 ^ S_DESC_F_SOP) (Z.lor (2 ^ S_DESC_F_EOP) (Z.lor len (2 ^ S_DESC_F_DV)))); [done|].
  apply Z.bits_inj'. intros n _. rewrite !Z.lor_spec.
  by destruct (Z.testbit len n), (Z.testbit (2 ^ S_DESC_F_DV) n),
    (Z.testbit (2 ^ S_DESC_F_SOP) n), (Z.testbit (2 ^ S_DESC_F_EOP) n).
Qed.

Lemma mm_ring_lookup cb ps e l k p :
  ring_wf (dq e) → length l = Z.to_nat (rngsz (conf (dq e))) →
  Z.of_nat (length ps) < rngsz (conf (dq e)) → 0 <= ep_addr (req_of e cb) < 2 ^ 64 →
  ps !! k = Some p →
  mm_ring cb ps e l !! Z.to_nat ((pidx (ring (dq e)) + Z.of_nat k) mod rngsz (conf (dq e))) =
  Some ((if Nat.eqb k 0 then or_flags (2 ^ S_DESC_F_SOP) else id)
       ((if Nat.eqb (S k) (length ps) then or_flags (2 ^ S_DESC_F_EOP) else id)
         (MM (mm_piece (c2h (conf (dq e)))
               (u64 (ep_addr (req_of e cb) + sumZ (map snd (take k ps)))) p)))).
Proof.
  intros [Hr Hp _ _ _] Hl Hn He Hk. unfold mm_ring.
  set (i := pidx (ring (dq e))) in *. set (sz := rngsz (conf (dq e))) in *.
  pose proof (lookup_lt_Some _ _ _ Hk) as Hkn.
  set (l0 := ring_put _ _ _ _).
  assert (l0 !! Z.to_nat ((i + Z.of_nat k) mod sz) =
          Some (MM (mm_piece (c2h (conf (dq e))) (u64 (ep_addr (req_of e cb) + sumZ (map snd (take k ps)))) p)))
    as Hl0.
  { apply ring_put_lookup; [lia..|rewrite length_mm_descs; lia|]. by apply mm_descs_lookup. }
  clearbody l0.
  assert (Z.to_nat i = Z.to_nat ((i + 0) mod sz)) as -> by (by rewrite Z.add_0_r, Z.mod_small by lia).
  replace (i + Z.of_nat (length ps) - 1) with (i + (Z.of_nat (length ps) - 1)) by lia.
  set (f := or_flags (2 ^ S_DESC_F_SOP)). set (g := or_flags (2 ^ S_DESC_F_EOP)).
  assert (alter g (Z.to_nat ((i + (Z.of_nat (length ps) - 1)) mod sz)) l0
            !! Z.to_nat ((i + Z.of_nat k) mod sz) =
          (if Nat.eqb (S k) (length ps) then g else id) <$> l0 !! Z.to_nat ((i + Z.of_nat k) mod sz)) as Hg.
  { destruct (Nat.eqb_spec (S k) (length ps)) as [E|E].
    - replace (Z.of_nat (length ps) - 1) with (Z.of_nat k) by lia. by rewrite list_lookup_alter_eq.
    - rewrite list_lookup_alter_ne, option_fmap_id; [done|].
      intros Eq%slot_eq; lia. }
  destruct (Nat.eqb_spec k 0) as [->|E].
  - change (Z.of_nat 0) with 0 in *. by rewrite list_lookup_alter_eq, Hg, Hl0.
  - rewrite list_lookup_alter_ne by (intros Eq%slot_eq; lia). by rewrite Hg, Hl0.
Qed.

Lemma mm_ring_other cb ps e l s :
  ring_wf (dq e) → Z.of_nat (length ps) < rngsz (conf (dq e)) → ps ≠ [] → 0 <= s →
  (∀ k, 0 <= k < Z.of_nat (length ps) → (pidx (ring (dq e)) + k) mod rngsz (conf (dq e)) ≠ s) →
  mm_ring cb ps e l !! Z.to_nat s = l !! Z.to_nat s.
Proof.
  intros [Hr Hp _ _ _] Hn Hne Hs Hout. unfold mm_ring.
  set (i := pidx (ring (dq e))) in *. set (sz := rngsz (conf (dq e))) in *.
  assert (0 < Z.of_nat (length ps)) as Hpos by (destruct ps; [done|cbn; lia]).
  rewrite !list_lookup_alter_ne.
  - apply ring_put_other; [lia..|]. by rewrite length_mm_descs.
  - specialize (Hout (Z.of_nat (length ps) - 1) ltac:(lia)).
    replace (i + Z.of_nat (length ps) - 1) with (i + (Z.of_nat (length ps) - 1)) by lia.
    pose proof (mod_range sz ltac:(lia) (i + (Z.of_nat (length ps) - 1))). lia.
  - specialize (Hout 0 ltac:(lia)). rewrite Z.add_0_r, Z.mod_small in Hout by lia. lia.
Qed.

(** C11: the descriptors of a memory-mapped call: piece [k] of the batch is in
    the [k]-th ring slot from the producer index (wrapping), with the host
    address of the piece, the device address advanced by the bytes before
    it, its length, a valid flag, start of packet on the first only and end
    of packet on the last only; every other slot is unchanged; the doorbell
    is written once, with the new producer index, after the descriptors. *)
Theorem mm_request_descriptors e cb sg off :
  can_submit XDMA_DESC_BLEN_MAX cb sg off e →
  let q := dq e in
  let ps := batch XDMA_DESC_BLEN_MAX sg e in
  let slot k := Z.to_nat ((pidx (ring q) + k) mod rngsz (conf q)) in
  ∃ e' l l', descq_mm_proc_request cb e = (0, e') ∧
    desc (ring q) = Some l ∧ desc (ring (dq e')) = Some l' ∧
    (∀ k p, ps !! k = Some p → ∃ d, l' !! slot (Z.of_nat k) = Some (MM d) ∧
       (if c2h (conf q) then mm_dst_addr d else mm_src_addr d) = p.1 ∧
       (if c2h (conf q) then mm_src_addr d else mm_dst_addr d) =
         u64 (ep_addr (req_of e cb) + sumZ (map snd (take k ps))) ∧
       flag_len_is (mm_flag_len d) p.2 (Nat.eqb k 0) (Nat.eqb (S k) (length ps))) ∧
    (∀ s, 0 <= s → (∀ k, 0 <= k < Z.of_nat (length ps) →
       (pidx (ring q) + k) mod rngsz (conf q) ≠ s) → l' !! Z.to_nat s = l !! Z.to_nat s) ∧
    trace e' = trace e ++ descq_pidx_update q
      ((pidx (ring q) + Z.of_nat (length ps)) mod rngsz (conf q)) :: wb_events e.
Proof.
  intros Hcs q ps slot. pose proof (cs_ring _ _ _ _ _ Hcs) as Hwf.
  pose proof (batch_nonnil _ _ _ _ _ Hcs) as Hne. fold ps in Hne.
  destruct (mm_proc_request_run cb sg off e Hcs) as (e' & E & Hsub & Hd & Ht). fold ps in Hsub, Hd, Ht.
  pose proof (in_flight_range _ Hwf) as Hif.
  pose proof (batch_length XDMA_DESC_BLEN_MAX sg e Hwf (cs_avail _ _ _ _ _ Hcs)) as Hlen. fold ps in Hlen.
  assert (Z.of_nat (length ps) < rngsz (conf q)) as Hn
    by (destruct Hwf as [? ? ? Ha ?]; unfold q in *; lia).
  pose proof (desc_len _ Hwf) as Hdl. destruct (desc (ring (dq e))) as [l|] eqn:El; [|done].
  injection Hdl as Hdl. exists e', l, (mm_ring cb ps e l). split_and!; try done.
  - intros k p Hk. unfold slot, q. rewrite (mm_ring_lookup cb ps e l k p) by (done || apply (cs_ep _ _ _ _ _ Hcs)).
    assert (0 < p.2 <= XDMA_DESC_BLEN_MAX) as Hp2.
    { assert (Forall (λ p, 0 < p.2 <= XDMA_DESC_BLEN_MAX) ps) as HF
        by (apply Forall_take, sg_pieces_sum; [done|apply Hcs]).
      by apply (Forall_lookup_1 _ _ _ _ HF Hk). }
    assert (0 <= p.2 < 2 ^ 28) as Hp28
      by (change XDMA_DESC_BLEN_MAX with (2 ^ 28 - 1) in Hp2; lia).
    pose proof (flag_len_word p.2 (Nat.eqb k 0) (Nat.eqb (S k) (length ps)) Hp28) as Hw.
    revert Hw. unfold mm_piece, q.
    destruct (Nat.eqb k 0), (Nat.eqb (S k) (length ps)), (c2h (conf (dq e)));
      intros Hw; cbn in *; rewrite ?Z.lor_0_l in Hw; eexists; split; try reflexivity; done.
  - intros s Hs Hout. by apply mm_ring_other.
  - rewrite Ht. do 2 f_equal. by rewrite (sub_pidx _ _ _ _ Hsub).
Qed.

(** C34: the descriptors of a streaming H2C call: piece [k] is in the [k]-th
    slot from the producer index with its address, its length and all of
    valid, start and end of packet set; the doorbell is written after every
    descriptor, with the producer index it leads to, in order. *)
Theorem st_h2c_request_descriptors e cb sg off :
  can_submit PAGE_SIZE cb sg off e →
  let q := dq e in
  let ps := batch PAGE_SIZE sg e in
  let slot k := Z.to_nat ((pidx (ring q) + k) mod rngsz (conf q)) in
  ∃ e' l l', descq_proc_st_h2c_request cb e = (0, e') ∧
    desc (ring q) = Some l ∧ desc (ring (dq e')) = Some l' ∧
    (∀ k p, ps !! k = Some p → ∃ d, l' !! slot (Z.of_nat k) = Some (H2C d) ∧
       h2c_src_addr d = p.1 ∧ flag_len_is (h2c_flag_len d) p.2 true true) ∧
    trace e' = trace e ++ h2c_doorbells q (length ps) ++ wb_events e.
Proof.
  intros Hcs q ps slot. pose proof (cs_ring _ _ _ _ _ Hcs) as Hwf.
  destruct (st_h2c_request_run cb sg off e Hcs) as (e' & E & Hsub & Hd & Ht). fold ps q in Hsub, Hd, Ht.
  pose proof (in_flight_range _ Hwf) as Hif.
  pose proof (batch_length PAGE_SIZE sg e Hwf (cs_avail _ _ _ _ _ Hcs)) as Hlen. fold ps in Hlen.
  pose proof Hwf as [Hr Hp _ Ha Hdl]. fold q in Hr, Hp, Ha, Hdl.
  destruct (desc (ring q)) as [l|] eqn:El; [|done]. injection Hdl as Hdl.
  eexists e', l, _. split; [exact E|]. split; [done|]. split; [exact Hd|]. split; [|done].
  intros k p Hk. eexists. split.
  { apply ring_put_lookup; [lia|done|done|rewrite length_map; unfold q in *; lia|].
    change (map h2c_piece ps) with (h2c_piece <$> ps). rewrite list_lookup_fmap, Hk. reflexivity. }
  split; [done|].
  assert (0 < p.2 <= PAGE_SIZE) as Hp2.
  { assert (Forall (λ p, 0 < p.2 <= PAGE_SIZE) ps) as HF
      by (apply Forall_take, sg_pieces_sum; [done|apply Hcs]).
    by apply (Forall_lookup_1 _ _ _ _ HF Hk). }
  apply h2c_piece_flags. unfold PAGE_SIZE in Hp2. lia.
Qed.

(** A submission call that cannot proceed changes nothing: with no free
    descriptor it returns 0 (the request stays on the work list), and with
    a position past the end of the entries it returns [-EINVAL]. *)
Theorem proc_sgt_request_refused e cb :
  st (conf (dq e)) && c2h (conf (dq e)) = false →
  avail (ring (dq e)) = 0 ∨ sg_start (req_of e cb) = None →
  qdma_descq_proc_sgt_request cb e = (if avail (ring (dq e)) =? 0 then 0 else - EINVAL, e).
Proof.
  intros Hm Hbad. unfold qdma_descq_proc_sgt_request, descq_mm_proc_request, descq_proc_st_h2c_request.
  destruct (st (conf (dq e))); cbn [negb andb] in *; rewrite ?Hm; cbn [negb];
    (destruct (Z.eqb_spec (avail (ring (dq e))) 0) as [E|]; [done|]);
    (destruct Hbad as [?| ->]; [lia|done]).
Qed.

(** When the device reports that it has consumed every descriptor written,
    one call of the writeback handler leaves no request pending: each
    completely submitted request is completed with status 0. *)
Theorem drained_all_done e :
  ring_wf (dq e) → credit_inv e → desc_wb_cidx (ring (dq e)) = pidx (ring (dq e)) →
  ∃ e', descq_mm_n_h2c_wb e = (0, e') ∧ fifo e' = [] ∧ pend_list (dq e') = [] ∧
    ∀ cb, cb ∈ pend_list (dq e) → reqs e' !! cb = completed <$> reqs e !! cb.
Proof.
  intros Hwf Hi Hpc. pose proof Hwf as [Hr Hp _ _ _]. pose proof (fifo_length e Hwf Hi) as Hl.
  assert (consumed (dq e) = in_flight (dq e)) as Hc by (unfold consumed, in_flight; by rewrite Hpc).
  destruct (writeback_run e) as (e' & E & _ & _ & Hf & Hpe & _ & Hd); [done|done|by rewrite Hpc|lia|].
  rewrite drop_ge in Hf by lia. exists e'. rewrite Hf in Hpe.
  assert (pend_list (dq e') = []) as Hnil.
  { rewrite Hpe. unfold still_pending. apply filter_none. by intros cb _ ?%elem_of_nil. }
  split_and!; [done|done|done|]. intros cb Hcb. apply Hd; [done|]. rewrite Hnil. by intros ?%elem_of_nil.
Qed.

(** When a fresh request's pieces fit the free descriptors, one call
    submits all of it: the offset reaches the sum of its entries and, when
    that is its byte count, the request waits for completion. *)
Theorem proc_sgt_request_whole e cb rest sg :
  credit_inv e → work_list (dq e) = cb :: rest → sgt (req_of e cb) = sg → offset (req_of e cb) = 0 →
  can_submit (piece_max (dq e)) cb sg 0 e → st (conf (dq e)) && c2h (conf (dq e)) = false →
  Z.of_nat (length (sg_pieces (piece_max (dq e)) sg)) <= avail (ring (dq e)) →
  count (req_of e cb) = sg_total sg →
  ∃ e', qdma_descq_proc_sgt_request cb e = (0, e') ∧ offset (req_of e' cb) = sg_total sg ∧
    pend_list (dq e') = pend_list (dq e) ++ [cb] ∧ work_list (dq e') = rest.
Proof.
  intros Hi Hw Hsg Ho Hcs Hm Hfit Hcnt.
  pose proof (piece_max_pos (dq e)) as Hmax.
  destruct (sg_pieces_sum (piece_max (dq e)) Hmax sg (cs_wf _ _ _ _ _ Hcs)) as [Hsum _].
  assert (batch (piece_max (dq e)) sg e = sg_pieces (piece_max (dq e)) sg) as Hb
    by (unfold batch; rewrite take_ge by lia; done).
  pose proof (can_submit_room _ _ _ _ _ Hmax Hcs) as Hroom.
  destruct (proc_sgt_request_submitted e cb sg 0 Hcs Hm) as (e' & E & Hsub).
  exists e'. split; [done|].
  destruct (submission_lists cb _ rest e e' Hi Hw Hsub) as [_ Hcase].
  pose proof (sub_req _ _ _ _ Hsub) as Hreq.
  assert (offset (req_of e' cb) = sg_total sg) as Hoff by (rewrite Hreq, Hb; cbn; rewrite Ho, Hsum; lia).
  split; [done|].
  destruct Hcase as [[Hw' _]|(? & ? & _)]; [|done]. exfalso.
  pose proof (sub_lists _ _ _ _ Hsub) as Hl. rewrite Hoff in Hl.
  assert (count (req_of e' cb) = sg_total sg) as Hc by (by rewrite Hreq).
  rewrite Hc, Z.eqb_refl in Hl. destruct Hl as [Hl _]. rewrite Hw', Hw in Hl.
  rewrite filter_cons_False in Hl by (intros Hx; by apply Hx).
  assert (cb ∈ filter (.≠ cb) rest) as Hin by (rewrite <- Hl; left).
  by apply list_elem_of_filter in Hin as [? _].
Qed.

(** ** Properties: doorbells, resumption, vectors *)

(** The doorbell words: the producer index register gets the index in the
    low 16 bits and the interrupt enable in bit 16; the writeback consumer
    index register gets the index, timer, trigger mode, status and interrupt
    enables in their fields. *)
Theorem doorbell_fields q i :
  0 <= i < 2 ^ 16 → 0 <= irq_en (cc q) < 2 → 0 <= wrb_stat_desc_en (cc q) < 2 →
  0 <= wrb_timer_idx (cc q) < 2 ^ 4 →
  ∃ w1 w2, descq_pidx_update q i = EvWrite (pidx_reg q) w1 ∧
    descq_wrb_cidx_update q i = EvWrite (QDMA_REG_WRB_CIDX_BASE + qidx (conf q) * QDMA_REG_PIDX_STEP) w2 ∧
    bits_get 0 16 w1 = i ∧ bits_get S_WRB_PIDX_UPD_EN_INT 1 w1 = irq_en (cc q) ∧
    bits_get 0 16 w2 = i ∧ bits_get S_WRB_CIDX_UPD_TIMER_IDX 4 w2 = wrb_timer_idx (cc q) ∧
    bits_get S_WRB_CIDX_UPD_TRIG_MODE 3 w2 = trig_z (wrb_trig_mode (cc q)) ∧
    bits_get S_WRB_CIDX_UPD_EN_STAT_DESC 1 w2 = wrb_stat_desc_en (cc q) ∧
    bits_get S_WRB_CIDX_UPD_EN_INT 1 w2 = irq_en (cc q).
Proof.
  intros Hi Hirq Hsd Ht. unfold descq_pidx_update, descq_wrb_cidx_update.
  do 2 eexists. split; [done|]. split; [done|].
  assert (0 <= trig_z (wrb_trig_mode (cc q)) < 2 ^ 3) by (destruct (wrb_trig_mode (cc q)); cbn; lia).
  unfold u32, or_bits, S_WRB_PIDX_UPD_EN_INT, S_WRB_CIDX_UPD_TIMER_IDX, S_WRB_CIDX_UPD_TRIG_MODE,
    S_WRB_CIDX_UPD_EN_STAT_DESC, S_WRB_CIDX_UPD_EN_INT. cbn [foldr].
  rewrite <- (Z.shiftl_0_r i). split_and!; bits_field; done.
Qed.

(** The interrupt consumer index of a C2H queue: the direction select is
    or-ed as the number 16 and not as bit 16, so bit 16 stays clear and bit 4
    of the index is forced on. *)
Theorem intr_cidx_update_direction q i :
  c2h (conf q) = true → 0 <= i < 2 ^ 16 →
  ∃ w, intr_cidx_update q i = EvWrite (QDMA_REG_INT_CIDX_BASE + qidx (conf q) * QDMA_REG_PIDX_STEP) w ∧
    bits_get S_INTR_CIDX_UPD_DIR_SEL 1 w = 0 ∧ bits_get 0 16 w = Z.lor i (2 ^ 4).
Proof.
  intros Hc Hi. unfold intr_cidx_update. rewrite Hc. eexists. split; [done|].
  unfold S_INTR_CIDX_UPD_DIR_SEL, S_INTR_CIDX_UPD_SW_CIDX. rewrite Z.shiftl_0_r.
  assert (u32 i = i) as -> by (apply Z.mod_small; lia). rewrite !bits_get_lor.
  rewrite (bits_get_small 16 i) by lia.
  pose proof (bits_get_below 16 1 0 16 i) as Hz. rewrite Z.shiftl_0_r in Hz. by rewrite Hz by lia.
Qed.

(** A memory-mapped request resumed inside an entry starts over at the
    beginning of that entry and at the beginning of the device buffer: its
    first descriptor has the address of the entry and the request's device
    address, although [offset] bytes were already sent. *)
Theorem mm_resume_restarts e cb en sg off :
  0 < off → 0 < sg_dma_len en → can_submit XDMA_DESC_BLEN_MAX cb (en :: sg) off e →
  ∃ e' l d, descq_mm_proc_request cb e = (0, e') ∧ desc (ring (dq e')) = Some l ∧
    l !! Z.to_nat (pidx (ring (dq e))) = Some (MM d) ∧
    (if c2h (conf (dq e)) then mm_dst_addr d else mm_src_addr d) = sg_dma_address en ∧
    (if c2h (conf (dq e)) then mm_src_addr d else mm_dst_addr d) = ep_addr (req_of e cb) ∧
    offset (req_of e cb) ≠ 0.
Proof.
  intros Hoff Hlen Hcs. pose proof (cs_ring _ _ _ _ _ Hcs) as Hwf.
  destruct (mm_proc_request_run cb _ off e Hcs) as (e' & E & _ & Hd & _).
  set (ps := batch _ _ _) in *.
  pose proof (in_flight_range _ Hwf) as Hif. pose proof (cs_ep _ _ _ _ _ Hcs) as Hep.
  pose proof (batch_length XDMA_DESC_BLEN_MAX (en :: sg) e Hwf (cs_avail _ _ _ _ _ Hcs)) as Hl.
  fold ps in Hl. pose proof Hwf as [Hr Hp _ Ha Hdl].
  destruct (desc (ring (dq e))) as [l|] eqn:El; [|done]. injection Hdl as Hdl.
  assert (∃ len, ps !! 0%nat = Some (sg_dma_address en, len)) as [len Hps].
  { pose proof (cs_wf _ _ _ _ _ Hcs) as [[Hea Hel] _]%Forall_cons.
    unfold ps, batch. rewrite sg_pieces_cons, (pieces_cons XDMA_DESC_BLEN_MAX) by (done || lia).
    destruct (Z.to_nat (avail (ring (dq e)))) eqn:En; [pose proof (cs_avail _ _ _ _ _ Hcs); lia|].
    cbn. by eexists. }
  assert (Z.of_nat (length ps) < rngsz (conf (dq e))) as Hps_lt by lia.
  pose proof (mm_ring_lookup cb ps e l 0 _ Hwf Hdl Hps_lt Hep Hps) as Hk.
  change (Z.of_nat 0) with 0 in Hk. rewrite Z.add_0_r, Z.mod_small in Hk by lia.
  change (sumZ (map snd (take 0 ps))) with 0 in Hk. rewrite Z.add_0_r in Hk.
  assert (u64 (ep_addr (req_of e cb)) = ep_addr (req_of e cb)) as Hu by (apply Z.mod_small; lia).
  rewrite Hu in Hk. change (Nat.eqb 0 0) with true in Hk. unfold mm_piece in Hk.
  assert (offset (req_of e cb) ≠ 0) as Ho.
  { intros Ho. pose proof (cs_start _ _ _ _ _ Hcs) as Hst. unfold sg_start in Hst.
    rewrite Ho in Hst. injection Hst as _ Hst. lia. }
  destruct (1 =? length ps)%nat, (c2h (conf (dq e))); cbn in Hk;
    exists e', (mm_ring cb ps e l); eexists; (split; [exact E|]); (split; [exact Hd|]);
    (split; [exact Hk|]); done.
Qed.

(** The scan keeps the first index of the smallest counter seen. *)
Lemma irq_scan_min all i idx m :
  (idx < length all)%nat → all !! idx = Some m → Forall (λ n, 0 <= n) all →
  (∀ j x, (j < i)%nat → all !! j = Some x → m <= x) →
  let r := irq_scan (drop i all) i idx m in
  ∃ v, all !! r = Some v ∧ (r < length all)%nat ∧ ∀ j x, all !! j = Some x → v <= x.
Proof.
  intros Hidx Hm Hpos. remember (drop i all) as cnts eqn:Hc. revert i idx m Hidx Hm Hc.
  induction cnts as [|n cnts IH]; intros i idx m Hidx Hm Hc Hmin; cbn [irq_scan].
  { exists m. split_and!; try done. intros j x Hx. apply (Hmin j); [|done].
    assert (length all <= i)%nat by (apply (f_equal length) in Hc; rewrite length_drop in Hc; cbn in Hc; lia).
    apply lookup_lt_Some in Hx. lia. }
  assert (all !! i = Some n) as Hn by (rewrite <- (Nat.add_0_r i), <- lookup_drop, <- Hc; done).
  assert (cnts = drop (S i) all) as Hc' by (rewrite <- Nat.add_1_r, <- drop_drop, <- Hc; done).
  assert (∀ j x, all !! j = Some x → 0 <= x) as Hnn by (intros j x Hx; by apply (Forall_lookup_1 _ _ _ _ Hpos Hx)).
  pose proof (lookup_lt_Some _ _ _ Hn) as Hi.
  destruct (Z.ltb_spec n m).
  - destruct (Z.eqb_spec n 0) as [->|]; [exists 0; split_and!; [done|done|apply Hnn]|].
    apply IH; [done..|]. intros j x Hj Hx. destruct (decide (j = i)) as [->|]; [by rewrite Hn in Hx; injection Hx as ->|].
    assert (m <= x) by (apply (Hmin j); [lia|done]). lia.
  - destruct (Z.eqb_spec m 0) as [->|]; [exists 0; split_and!; [done|done|apply Hnn]|].
    apply IH; [done..|]. intros j x Hj Hx. destruct (decide (j = i)) as [->|]; [rewrite Hn in Hx; injection Hx as ->; lia|].
    apply (Hmin j); [lia|done].
Qed.

(** [desc_alloc_irq] gives a queue a vector of the device with the fewest
    queues and counts the queue on that vector only. *)
Theorem desc_alloc_irq_least old xdev :
  1 <= num_vecs xdev <= Z.of_nat (length (intr_list_cnt xdev)) →
  Forall (λ n, 0 <= n) (intr_list_cnt xdev) →
  ∃ (idx : nat) v, Z.of_nat idx < num_vecs xdev ∧ intr_list_cnt xdev !! idx = Some v ∧
    desc_alloc_irq old xdev =
      (Z.of_nat idx, xdev <| intr_list_cnt := <[idx := v + 1]> (intr_list_cnt xdev) |>) ∧
    ∀ j x, Z.of_nat j < num_vecs xdev → intr_list_cnt xdev !! j = Some x → v <= x.
Proof.
  intros Hn Hpos. unfold desc_alloc_irq. destruct (Z.eqb_spec (num_vecs xdev) 0); [lia|].
  set (cnts := take _ _).
  assert (length cnts = Z.to_nat (num_vecs xdev)) as Hl by (unfold cnts; rewrite length_take; lia).
  destruct (lookup_lt_is_Some_2 cnts 0%nat) as [m Hm]; [lia|].
  assert (intr_list_cnt xdev !! 0%nat = Some m) as Hm0.
  { unfold cnts in Hm. rewrite lookup_take in Hm. case_decide; [done|discriminate]. }
  assert (array (intr_list_cnt xdev) 0 = m) as -> by (unfold array; by apply nth_lookup_Some).
  destruct (irq_scan_min cnts 0 0 m) as (v & Hv & Hlt & Hmin);
    [lia|done|by apply Forall_take|lia|]. rewrite drop_0 in *.
  set (idx := irq_scan cnts 0 0 m) in *.
  assert (intr_list_cnt xdev !! idx = Some v) as Hvi.
  { unfold cnts in Hv. rewrite lookup_take in Hv. case_decide; [done|discriminate]. }
  exists idx, v. split; [lia|]. split; [done|]. split.
  - f_equal. cbn. f_equal. apply list_eq. intros j. destruct (decide (j = idx)) as [->|].
    + rewrite list_lookup_alter_eq, Hvi, list_lookup_insert_eq; [done|]. by apply lookup_lt_Some in Hvi.
    + by rewrite list_lookup_alter_ne, list_lookup_insert_ne.
  - intros j x Hj Hx. apply (Hmin j). unfold cnts. rewrite lookup_take. by rewrite decide_True by lia.
Qed.

(** ** A concrete queue and request, for the witnesses *)

Module SampleQ.

Definition zero_desc (is_st : bool) : ring_desc :=
  if is_st then H2C (H2CDesc 0 0) else MM (MMDesc 0 0 0 0 0).

(** An H2C queue with a four-slot ring and one request of two entries. *)
Definition req (off : Z) : qdma_sg_req :=
  SgReq true true 0x500 [SgEntry 0x1000 100; SgEntry 0x2000 50] 150 0 false 0 off false 0.

Definition env (is_st : bool) (off : Z) : qenv :=
  QEnv ((Sample.queue is_st false)
          <| ring ::= λ r, r <| desc := Some (replicate 4 (zero_desc is_st)) |> |>
          <| work_list := [1%nat] |> <| wbthp := Some 7%nat |>)
    {[ 1%nat := req off ]} Sample.dev [].

Lemma env_inv is_st off : credit_inv (env is_st off).
Proof.
  split; cbn.
  - by apply NoDup_singleton.
  - intros cb ->%list_elem_of_singleton. by exists (req off).
  - intros cb r [_ <-]%lookup_singleton_Some. done.
  - intros cb H. by apply elem_of_nil in H.
  - intros cb H. by apply elem_of_nil in H.
  - done.
  - done.
  - reflexivity.
Qed.

Lemma env_ring is_st off : ring_wf (dq (env is_st off)).
Proof. by split. Qed.

Lemma env_can_submit is_st : can_submit (piece_max (dq (env is_st 0))) 1 (sgt (req 0)) 0 (env is_st 0).
Proof.
  split.
  - apply env_ring.
  - done.
  - done.
  - repeat constructor; cbn; lia.
  - by destruct is_st.
  - done.
  - by exists (req 0).
  - by destruct is_st; vm_compute.
  - by destruct is_st; vm_compute.
Qed.

(** The queue with the request submitted and both descriptors consumed. *)
Definition pending : qenv :=
  QEnv ((Sample.queue true false)
          <| ring := Ring 1 2 0 0 (Some (replicate 4 (zero_desc true))) 0x123456000 2 |>
          <| pend_list := [1%nat] |>)
    {[ 1%nat := (req 150) <| desc_nr := 2 |> ]} Sample.dev [].

Lemma pending_inv : credit_inv pending.
Proof.
  split; cbn.
  - by apply NoDup_singleton.
  - intros cb ->%list_elem_of_singleton. by eexists.
  - intros cb r [_ <-]%lookup_singleton_Some. done.
  - intros cb ->%list_elem_of_singleton. done.
  - intros cb H. by apply elem_of_nil in H.
  - done.
  - intros cb l [= <- _]. done.
  - reflexivity.
Qed.

Lemma pending_ring : ring_wf (dq pending).
Proof. by split. Qed.

Lemma resume_can_submit :
  can_submit XDMA_DESC_BLEN_MAX 1 (SgEntry 0x1000 100 :: [SgEntry 0x2000 50]) 70 (env false 30).
Proof.
  split; try done. repeat constructor; cbn; lia.
Qed.

End SampleQ.

Lemma proc_sgt_request_fifo_witness : ∃ e',
  qdma_descq_proc_sgt_request 1 (SampleQ.env true 0) = (0, e') ∧ fifo e' = [1%nat; 1%nat].
Proof.
  destruct (proc_sgt_request_fifo (SampleQ.env true 0) 1 [] (sgt (SampleQ.req 0)) 0
              (SampleQ.env_inv true 0) eq_refl (SampleQ.env_can_submit true) eq_refl)
    as (e' & E & _ & _ & _ & Hf & _).
  exists e'. split; [exact E|exact Hf].
Defined.

Lemma mm_request_descriptors_witness : ∃ e' d,
  descq_mm_proc_request 1 (SampleQ.env false 0) = (0, e') ∧ flag_len_is (mm_flag_len d) 50 false true.
Proof.
  destruct (mm_request_descriptors (SampleQ.env false 0) 1 (sgt (SampleQ.req 0)) 0
              (SampleQ.env_can_submit false)) as (e' & l & l' & E & _ & _ & Hk & _).
  destruct (Hk 1%nat (0x2000, 50) eq_refl) as (d & _ & _ & _ & Hf).
  exists e', d. split; [exact E|exact Hf].
Defined.

Lemma st_h2c_request_descriptors_witness : ∃ e' d,
  descq_proc_st_h2c_request 1 (SampleQ.env true 0) = (0, e') ∧ flag_len_is (h2c_flag_len d) 100 true true.
Proof.
  destruct (st_h2c_request_descriptors (SampleQ.env true 0) 1 (sgt (SampleQ.req 0)) 0
              (SampleQ.env_can_submit true)) as (e' & l & l' & E & _ & _ & Hk & _).
  destruct (Hk 0%nat (0x1000, 100) eq_refl) as (d & _ & _ & Hf).
  exists e', d. split; [exact E|exact Hf].
Defined.

Lemma proc_sgt_request_refused_witness :
  (qdma_descq_proc_sgt_request 1 (SampleQ.env true 150)).1 = - EINVAL.
Proof.
  rewrite (proc_sgt_request_refused (SampleQ.env true 150) 1 eq_refl); [reflexivity|right; reflexivity].
Defined.

Lemma proc_sgt_request_whole_witness : ∃ e',
  qdma_descq_proc_sgt_request 1 (SampleQ.env false 0) = (0, e') ∧ pend_list (dq e') = [1%nat].
Proof.
  destruct (proc_sgt_request_whole (SampleQ.env false 0) 1 [] (sgt (SampleQ.req 0))
              (SampleQ.env_inv false 0) eq_refl eq_refl eq_refl (SampleQ.env_can_submit false) eq_refl)
    as (e' & E & _ & Hp & _); [by vm_compute|reflexivity|].
  exists e'. split; [exact E|exact Hp].
Defined.

Lemma drained_all_done_witness : ∃ e',
  descq_mm_n_h2c_wb SampleQ.pending = (0, e') ∧ pend_list (dq e') = [].
Proof.
  destruct (drained_all_done SampleQ.pending SampleQ.pending_ring SampleQ.pending_inv) as (e' & E & _ & Hp & _).
  - reflexivity.
  - exists e'. split; [exact E|exact Hp].
Defined.

Lemma doorbell_fields_witness : ∃ w, descq_pidx_update (Sample.queue true true) 3 = w ∧
  w = EvWrite (pidx_reg (Sample.queue true true)) 65539.
Proof.
  destruct (doorbell_fields (Sample.queue true true) 3) as (w1 & w2 & E & _); [lia|cbn; lia..|].
  exists (EvWrite (pidx_reg (Sample.queue true true)) w1). split; [exact E|]. rewrite <- E. reflexivity.
Defined.

Lemma intr_cidx_update_direction_witness : ∃ w,
  intr_cidx_update (Sample.queue true true) 3 = EvWrite (QDMA_REG_INT_CIDX_BASE) w ∧ bits_get 0 16 w = 19.
Proof.
  destruct (intr_cidx_update_direction (Sample.queue true true) 3) as (w & E & _ & Hw); [reflexivity|lia|].
  exists w. split; [exact E|exact Hw].
Defined.

Lemma desc_alloc_irq_least_witness : ∃ (idx : nat) v, Z.of_nat idx < 2 ∧ [0; 0] !! idx = Some v.
Proof.
  destruct (desc_alloc_irq_least 0 Sample.dev) as (idx & v & Hi & Hv & _); [cbn; lia|by repeat constructor|].
  exists idx, v. split; [exact Hi|exact Hv].
Defined.

Lemma descq_mm_n_h2c_wb_fifo_witness : ∃ e',
  descq_mm_n_h2c_wb SampleQ.pending = (0, e') ∧ fifo e' = [].
Proof.
  destruct (descq_mm_n_h2c_wb_fifo SampleQ.pending SampleQ.pending_ring SampleQ.pending_inv)
    as (e' & E & _ & _ & Hf & _); [cbn; lia|by vm_compute|].
  exists e'. split; [exact E|]. rewrite Hf. reflexivity.
Defined.

Lemma mm_resume_restarts_witness : ∃ e' d,
  descq_mm_proc_request 1 (SampleQ.env false 30) = (0, e') ∧ mm_dst_addr d = 0x500.
Proof.
  destruct (mm_resume_restarts (SampleQ.env false 30) 1 (SgEntry 0x1000 100) [SgEntry 0x2000 50] 70)
    as (e' & l & d & E & _ & _ & _ & Hd & _); [lia|cbn; lia|apply SampleQ.resume_can_submit|].
  exists e', d. split; [exact E|exact Hd].
Defined.
