(* ===== verification/RxQueue.v ===== *)
(** * The receive side of a streaming C2H queue (qdma_descq.c)

    The free list of pages, the queues of received pages and user-defined
    data, the writeback handler [descq_st_c2h_wb] that fills them, the read
    path [qdma_descq_rxq_read] that copies them out, and the completion of
    waiting reads.  The kernel's allocators are parameters: their answers are
    the state [memory]. *)

From S2P Require Import Prelude Regs Types Sgl Descq.

(** ** Allocator answers *)

(** [alloc_pages_node] then [dma_map_page]: no page, a page that cannot be
    mapped, or a page and its bus address. *)
Inductive page_answer := NoPage | NoMapping (pg : nat) | Page (pg : nat) (dma : Z).

(** The answers to come; no more pages when [pages] is used up, and every
    further [kmalloc] succeeds when [kmallocs] is. *)
Record memory := Memory { pages : list page_answer; kmallocs : list bool }.
#[export] Instance memory_eta : Settable memory := λ r, Memory (pages r) (kmallocs r).

Definition alloc_page : ST memory page_answer := λ m,
  match pages m with
  | [] => (NoPage, m)
  | a :: l => (a, m <| pages := l |>)
  end.

Definition kmalloc : ST memory bool := λ m,
  match kmallocs m with
  | [] => (true, m)
  | b :: l => (b, m <| kmallocs := l |>)
  end.

(** ** The free list *)

(** A page still in the entry is unmapped and dropped first. *)
Definition fl_refill_entry (fl : fl_desc) : ST memory (Z * fl_desc) :=
  let fl := match fl_pg fl with
            | Some _ => fl <| fl_pg := None |> <| fl_dma_addr := 0 |>
            | None => fl
            end in
  a ← alloc_page;
  match a with
  | Page pg dma => mret (0, fl <| fl_pg := Some pg |> <| fl_dma_addr := dma |>)
  | _ => mret (- ENOMEM, fl)
  end.

(** [n] more entries of [fl_fill]; an error drops the whole list ([fl_free]).
    [old] is [descq->st_rx_fl] before, kept when there is no memory for the
    list itself. *)
Fixpoint fl_fill_loop (n : nat) (acc : list fl_desc) : ST memory (Z * option (list fl_desc)) :=
  match n with
  | O => mret (0, Some acc)
  | S n =>
      r ← fl_refill_entry (FlDesc None 0 0);
      if r.1 <? 0 then mret (- ENOMEM, None) else fl_fill_loop n (acc ++ [r.2])
  end.

Definition fl_fill (rngsz : Z) (old : option (list fl_desc)) : ST memory (Z * option (list fl_desc)) :=
  ok ← kmalloc;
  if negb ok then mret (- ENOMEM, old) else fl_fill_loop (Z.to_nat rngsz) [].

(** ** Queues of received data *)

Definition rxq_dequeue_head (q : st_rx_queue) : option st_rx_data * st_rx_queue :=
  match rx_q q with
  | [] => (None, q)
  | r :: l => (Some r, q <| rx_q := l |> <| dlen ::= λ d, u32 (d - (rx_len r - rx_offset r)) |>)
  end.

Definition rxq_enqueue_head (r : st_rx_data) (q : st_rx_queue) : st_rx_queue :=
  q <| rx_q ::= cons r |> <| dlen ::= λ d, u32 (d + (rx_len r - rx_offset r)) |>.

Definition rxq_enqueue_tail (r : st_rx_data) (q : st_rx_queue) : st_rx_queue :=
  q <| rx_q ::= λ l, l ++ [r] |> <| dlen ::= λ d, u32 (d + (rx_len r - rx_offset r)) |>.

Definition udd_dequeue_head (q : st_rx_queue) : option st_c2h_wrb_udd * st_rx_queue :=
  match udd_q q with
  | [] => (None, q)
  | u :: l => (Some u, q <| udd_q := l |> <| dlen ::= λ d, u32 (d - (udd_len u - udd_offset u)) |>)
  end.

Definition udd_enqueue_head (u : st_c2h_wrb_udd) (q : st_rx_queue) : st_rx_queue :=
  q <| udd_q ::= cons u |> <| dlen ::= λ d, u32 (d + (udd_len u - udd_offset u)) |>.

Definition udd_enqueue_tail (u : st_c2h_wrb_udd) (q : st_rx_queue) : st_rx_queue :=
  q <| udd_q ::= λ l, l ++ [u] |> <| dlen ::= λ d, u32 (d + (udd_len u - udd_offset u)) |>.

(** Pages are dequeued one by one until none is left; the user-defined data
    stay. *)
Fixpoint rxq_free_loop (n : nat) (q : st_rx_queue) : st_rx_queue :=
  match n with
  | O => q
  | S n => match rxq_dequeue_head q with (None, q) => q | (Some _, q) => rxq_free_loop n q end
  end.

Definition rxq_free_resource (q : st_rx_queue) : st_rx_queue := rxq_free_loop (S (length (rx_q q))) q.

(** [descq_st_c2h_rx_data] for the one page it is called with. *)
Definition descq_st_c2h_rx_data (fl : fl_desc) (udd : bool) (q : st_rx_queue)
    : ST memory (Z * st_rx_queue) :=
  ok ← kmalloc;
  if negb ok then mret (- ENOMEM, q)
  else mret (0, rxq_enqueue_tail (RxData (fl_pg fl) 0 (fl_len fl) udd) q).

(** ** Writeback of a streaming C2H queue *)

Definition S_C2H_WB_ENTRY_F_DESC_ERR : Z := 2.
Definition S_C2H_WB_ENTRY_LENGTH : Z := 4.
Definition M_C2H_WB_ENTRY_LENGTH : Z := 0xFFFF.
Definition L_C2H_WB_ENTRY_DMA_INFO : Z := 3.

Record rxenv := RxEnv { re : qenv; mem : memory }.
#[export] Instance rxenv_eta : Settable rxenv := λ r, RxEnv (re r) (mem r).

Definition upd_dq (f : qdma_descq → qdma_descq) (s : rxenv) : rxenv :=
  s <| re ::= λ e, e <| dq ::= f |> |>.

(** Run an allocator action inside the handler's state. *)
Definition with_mem {A} (m : ST memory A) : ST rxenv A := λ s,
  let '(a, m') := m (mem s) in (a, s <| mem := m' |>).

Definition rxq_of (s : rxenv) : st_rx_queue := rx_queue (rx (dq (re s))).
Definition set_rxq (q : st_rx_queue) (s : rxenv) : rxenv :=
  upd_dq (λ d, d <| rx ::= λ r, r <| rx_queue := q |> |>) s.

Definition wrb_next (q : qdma_descq) : qdma_descq :=
  let next := u32 (cidx_wrb (wrb q) + 1) in
  if next =? rngsz_wrb (wrb q)
  then q <| wrb ::= λ w, w <| cidx_wrb := 0 |> <| desc_wrb_cur := 0 |> |>
  else q <| wrb ::= λ w, w <| cidx_wrb := next |> <| desc_wrb_cur ::= λ c, c + 1 |> |>.

(** The completion loop over the reads waiting when it starts. *)
Fixpoint rx_completed_loop (cbs : list nat) (dlen : Z) (e : qenv) : qenv :=
  match cbs with
  | [] => e
  | cb :: cbs =>
      let o := offset (req_of e cb) in
      if dlen <? o then e
      else rx_completed_loop cbs (dlen - o) (qdma_sgt_req_done cb 0 e)
  end.

Definition check_rx_request_completed (e : qenv) : qenv :=
  rx_completed_loop (pend_list (dq e)) (dlen (rx_queue (rx (dq e)))) e.

(** The user-defined data of one entry, enqueued: [Some err] is an error
    return, [None] success. *)
Definition wrb_udd (entry : list Z) : ST rxenv (option Z) := λ s,
  let elen := wrb_entry_len (wrb (dq (re s))) in
  let '(ok1, s) := with_mem kmalloc s in
  if negb ok1 then (Some (- ENOMEM), s) else
  let ulen := u8 (elen - L_C2H_WB_ENTRY_DMA_INFO + 1) in
  let '(ok2, s) := with_mem kmalloc s in
  if negb ok2 then (Some (- ENOMEM), s) else
  let b0 := Z.land (nth (Z.to_nat (L_C2H_WB_ENTRY_DMA_INFO - 1)) entry 0) 0xF0 in
  let rest := take (Z.to_nat (ulen - 1)) (drop (Z.to_nat L_C2H_WB_ENTRY_DMA_INFO) entry) in
  (None, set_rxq (udd_enqueue_tail (Udd (b0 :: rest) ulen 0) (rxq_of s)) s).

(** The pages of one packet: [n] of them, [len] bytes left, ring index [i],
    [udd] set for the first. *)
Fixpoint wrb_pages (n : nat) (len i : Z) (udd : bool) (s : rxenv) : Z * rxenv :=
  match n with
  | O => (i, s)
  | S n =>
      let q := dq (re s) in
      let fl := nth (Z.to_nat i) (default [] (st_rx_fl (rx q))) (FlDesc None 0 0) in
      let fl := fl <| fl_len := Z.min len PAGE_SIZE |> in
      let '((_, rxq), s) := with_mem (descq_st_c2h_rx_data fl udd (rxq_of s)) s in
      let s := set_rxq rxq s in
      let '((_, fl), s) := with_mem (fl_refill_entry fl) s in
      let s := upd_dq (λ d,
        desc_write i (C2H (C2HDesc (fl_dma_addr fl)))
          (d <| rx ::= λ r, r <| st_rx_fl ::= fmap (M := option) (<[Z.to_nat i := fl]>) |> |>)) s in
      let next := u32 (i + 1) in
      let i := if rngsz (conf q) <=? next then 0 else next in
      wrb_pages n (u32 (len - fl_len fl)) i false s
  end.

(** [while (budget)]: the entries of the writeback ring; the result is an
    early error return or the ring index reached. *)
Fixpoint wrb_entries (budget : nat) (i : Z) (s : rxenv) : (Z + Z) * rxenv :=
  match budget with
  | O => (inr i, s)
  | S budget =>
      let w := wrb (dq (re s)) in
      let entry := nth (Z.to_nat (desc_wrb_cur w)) (default [] (desc_wrb w)) [] in
      let '(err, s) := if wrb_udd_en w then wrb_udd entry s else (None, s) in
      match err with
      | Some rv => (inl rv, s)
      | None =>
          let word := le_get (take 8 entry) in
          let len := Z.land (Z.shiftr word S_C2H_WB_ENTRY_LENGTH) M_C2H_WB_ENTRY_LENGTH in
          let derr := Z.land (Z.shiftr word S_C2H_WB_ENTRY_F_DESC_ERR) 0x1 in
          if negb (derr =? 0) then (inl (- EIO), s) else
          let fl_nr := Z.shiftr (len + PAGE_SIZE - 1) 12 in
          let '(i, s) := wrb_pages (Z.to_nat fl_nr) len i (wrb_udd_en w) s in
          wrb_entries budget i (upd_dq wrb_next s)
      end
  end.

(** How many entries are new, an [int]; the wrapped case uses the size of the
    descriptor ring.  [while (budget)] counts a negative value down through
    the wrap-around, so it runs [u32 budget] times. *)
Definition wrb_budget (q : qdma_descq) : Z :=
  let w := wrb q in
  if cidx_wrb w <? pidx_wrb w then s32 (pidx_wrb w - cidx_wrb w)
  else if pidx_wrb w <? cidx_wrb w then s32 (pidx_wrb w + (rngsz (conf q) - cidx_wrb w))
  else 0.

Definition descq_st_c2h_wb : ST rxenv Z := λ s,
  let s := upd_dq (λ q, q <| wrb ::= λ w, w <| pidx_wrb := wrb_wb_pidx w |> |>) s in
  let budget := wrb_budget (dq (re s)) in
  match wrb_entries (Z.to_nat (u32 budget)) (pidx (ring (dq (re s)))) s with
  | (inl rv, s) => (rv, s)
  | (inr i, s) =>
      if budget =? 0 then (0, s) else
      let s := upd_dq (λ q, q <| ring ::= λ r, r <| pidx := i |> |>) s in
      let e := re s in
      let q := dq e in
      let e := emit_ev (descq_pidx_update q (if pidx (ring q) =? 0 then rngsz (conf q) - 1
                                             else pidx (ring q) - 1)) e in
      let e := emit_ev (descq_wrb_cidx_update q (cidx_wrb (wrb q))) e in
      let e := intr_coal_update e in
      (0, s <| re := check_rx_request_completed e |>)
  end.

Definition qdma_descq_service_wb : ST rxenv unit := λ s,
  if st (conf (dq (re s))) && c2h (conf (dq (re s)))
  then (tt, (descq_st_c2h_wb s).2)
  else (tt, s <| re := (descq_mm_n_h2c_wb (re s)).2 |>).

(** ** Reading received data *)

Section read.
Variable page_data : nat → list Z.   (* the bytes the device put in a page *)

Definition slice (l : list Z) (off n : Z) : list Z := take (Z.to_nat n) (drop (Z.to_nat off) l).

Definition rx_bytes (r : st_rx_data) (off n : Z) : list Z :=
  match rx_pg r with Some pg => slice (page_data pg) off n | None => [] end.

(** The variables of [qdma_descq_rxq_read]: bytes copied, what the current
    entry received so far, the page and user data in hand, the queue. *)
Record reader := Reader {
  rd_copied : Z; rd_out : list Z;
  rd_rx : option st_rx_data; rd_udd : option st_c2h_wrb_udd; rd_q : st_rx_queue
}.
#[global] Instance reader_eta : Settable reader := λ r,
  Reader (rd_copied r) (rd_out r) (rd_rx r) (rd_udd r) (rd_q r).

(** The user-data part of the inner loop: at the first byte of a packet that
    has some, or when only user data is left.  The copy starts at
    [udd->data + rx->offset]; [None] is the NULL dereference when there is no
    page. *)
Definition read_udd (len : Z) (r : reader) : option (Z * reader) :=
  let sop := match rd_rx r with Some x => rx_udd_ref x && (rx_offset x =? 0) | None => false end in
  if negb (sop || bool_decide (is_Some (rd_udd r))) then Some (len, r) else
  let '(udd, q) := match rd_rx r with
                   | Some _ => udd_dequeue_head (rd_q r)
                   | None => (rd_udd r, rd_q r)
                   end in
  match udd with
  | None => Some (len, r <| rd_udd := None |> <| rd_q := q |>)
  | Some u =>
      match rd_rx r with
      | None => None
      | Some x =>
          let n := Z.min len (udd_len u - udd_offset u) in
          let u := u <| udd_offset := u8 (udd_offset u + n) |> in
          let r := r <| rd_copied := u32 (rd_copied r + n) |>
                     <| rd_out := rd_out r ++ slice (udd_data u) (rx_offset x) n |> in
          if udd_offset u =? udd_len u
          then Some (len - n, r <| rd_udd := None |> <| rd_q := q |>)
          else Some (len - n, r <| rd_udd := Some u |> <| rd_q := udd_enqueue_head u q |>)
      end
  end.

(** One pass of [while (len && (rx || udd))]; without a page the code goes on
    to dereference it. *)
Definition read_step (len : Z) (r : reader) : option (Z * reader) :=
  '(len, r) ← read_udd len r;
  match rd_rx r with
  | None => None
  | Some x =>
      let copy := Z.min len (rx_len x - rx_offset x) in
      let r := r <| rd_copied := u32 (rd_copied r + copy) |>
                 <| rd_out := rd_out r ++ rx_bytes x (rx_offset x) copy |> in
      let x := x <| rx_offset := u32 (rx_offset x + copy) |> in
      if rx_offset x =? rx_len x
      then let '(x', q) := rxq_dequeue_head (rd_q r) in Some (len - copy, r <| rd_rx := x' |> <| rd_q := q |>)
      else Some (len - copy, r <| rd_rx := Some x |>)
  end.

Fixpoint read_entry (fuel : nat) (len : Z) (r : reader) : option reader :=
  if (len =? 0) || negb (bool_decide (is_Some (rd_rx r)) || bool_decide (is_Some (rd_udd r)))
  then Some r else
  match fuel with
  | O => None
  | S fuel => '(len, r) ← read_step len r; read_entry fuel len r
  end.

(** Every pass fills the entry or finishes a page. *)
Definition read_fuel (len : Z) (r : reader) : nat := Z.to_nat len + S (length (rx_q (rd_q r))).

(** [for_each_sg]: the entries' lengths, the bytes each receives. *)
Fixpoint read_sgs (lens : list Z) (outs : list (list Z)) (r : reader) : option (list (list Z) * reader) :=
  match lens with
  | [] => Some (outs, r)
  | len :: lens =>
      r ← read_entry (read_fuel len r) len (r <| rd_out := [] |>);
      let outs := outs ++ [rd_out r] in
      match rd_rx r, rd_udd r with
      | None, None => Some (outs, r)
      | _, _ => read_sgs lens outs r
      end
  end.

(** The bytes copied, what each entry received, and the queue afterwards;
    [None] when the code dereferences a NULL page. *)
Definition qdma_descq_rxq_read (q : qdma_descq) (lens : list Z)
    : option (Z * list (list Z) * st_rx_queue) :=
  let '(x, rq) := rxq_dequeue_head (rx_queue (rx q)) in
  let '(u, rq) := match x with
                  | None => if wrb_udd_en (wrb q) then udd_dequeue_head rq else (None, rq)
                  | Some _ => (None, rq)
                  end in
  match x, u, wrb_udd_en (wrb q) with
  | None, None, true => Some (0, [], rq)      (* returns with the lock held *)
  | _, _, _ =>
      '(outs, r) ← read_sgs lens [] (Reader 0 [] x u rq);
      let rq := match rd_rx r with
                | Some x => if rx_offset x <? rx_len x then rxq_enqueue_head x (rd_q r) else rd_q r
                | None => rd_q r
                end in
      Some (rd_copied r, outs, rq)
  end.

(** ** What a read returns, without user-defined data

    The received data are one byte stream: the unread rests of the queued
    pages, in order. *)

Definition rx_rest (r : st_rx_data) : list Z := rx_bytes r (rx_offset r) (rx_len r - rx_offset r).
Definition rx_left (r : st_rx_data) : Z := rx_len r - rx_offset r.
Definition stream (q : st_rx_queue) : list Z := concat (map rx_rest (rx_q q)).

(** A queued page: there is one, some of it is unread, no user data. *)
Definition page_ok (r : st_rx_data) : Prop :=
  0 <= rx_offset r < rx_len r ∧ rx_len r <= PAGE_SIZE ∧ rx_udd_ref r = false ∧
  ∃ pg, rx_pg r = Some pg ∧ Z.of_nat (length (page_data pg)) = PAGE_SIZE.

Record rxq_ok (q : st_rx_queue) : Prop := {
  rxq_pages : Forall page_ok (rx_q q);
  rxq_no_udd : udd_q q = [];
  rxq_dlen : dlen q = sumZ (map rx_left (rx_q q));
  rxq_fits : dlen q < 2 ^ 32
}.

(** What the entries of a scatterlist receive of a stream: the copy stops
    after the entry that finds the stream empty. *)
Fixpoint chunks (lens : list Z) (l : list Z) : list (list Z) :=
  match lens with
  | [] => []
  | n :: lens =>
      take (Z.to_nat n) l ::
      match drop (Z.to_nat n) l with [] => [] | l' => chunks lens l' end
  end.

Lemma rx_left_pos r : page_ok r → 0 < rx_left r <= PAGE_SIZE.
Proof. intros (?&?&_). unfold rx_left. lia. Qed.

Lemma length_rx_rest r : page_ok r → Z.of_nat (length (rx_rest r)) = rx_left r.
Proof.
  intros (Ho&Hl&_&pg&Hp&Hd). unfold rx_rest, rx_bytes, slice, rx_left. rewrite Hp.
  rewrite length_take, length_drop. lia.
Qed.

(** Copying [c] bytes of a page leaves the rest of it. *)
Lemma rx_rest_copy r c :
  page_ok r → 0 <= c <= rx_left r →
  rx_bytes r (rx_offset r) c = take (Z.to_nat c) (rx_rest r) ∧
  rx_rest (r <| rx_offset := rx_offset r + c |>) = drop (Z.to_nat c) (rx_rest r).
Proof.
  intros (Ho&Hl&_&pg&Hp&Hd) Hc. unfold rx_left, rx_rest, rx_bytes, slice in *. cbn. rewrite Hp. split.
  - rewrite take_take. f_equal. lia.
  - rewrite skipn_firstn_comm, drop_drop. f_equal; [lia|]. f_equal. lia.
Qed.

Lemma stream_length q : Forall page_ok (rx_q q) →
  Z.of_nat (length (stream q)) = sumZ (map rx_left (rx_q q)).
Proof.
  unfold stream. induction 1 as [|r l Hr _ IH]; [done|]. cbn [map concat sumZ foldr].
  rewrite length_app, Nat2Z.inj_add, IH, (length_rx_rest r Hr). done.
Qed.

Lemma rxq_ok_length q : rxq_ok q → Z.of_nat (length (stream q)) = dlen q.
Proof. intros [H _ E _]. by rewrite (stream_length q H), E. Qed.

Lemma lefts_nonneg l : Forall page_ok l → 0 <= sumZ (map rx_left l).
Proof.
  intros H. apply sumZ_nonneg, Forall_map. eapply Forall_impl; [exact H|].
  intros r Hr. cbn. pose proof (rx_left_pos r Hr). lia.
Qed.

(** Taking the head page off, and putting a page back. *)
Lemma dequeue_ok q :
  rxq_ok q →
  match rxq_dequeue_head q with
  | (None, q') => q' = q ∧ stream q = []
  | (Some x, q') => page_ok x ∧ rxq_ok q' ∧ stream q = rx_rest x ++ stream q' ∧
                    dlen q = rx_left x + dlen q'
  end.
Proof.
  intros [Hp Hu Hd Hf]. unfold rxq_dequeue_head, stream in *.
  destruct q as [dl us [|x l]]; cbn in *; [done|].
  apply Forall_cons in Hp as [Hx Hl].
  pose proof (rx_left_pos x Hx). pose proof (lefts_nonneg l Hl).
  assert (u32 (dl - (rx_len x - rx_offset x)) = sumZ (map rx_left l)) as E.
  { unfold rx_left in Hd, H at 1. unfold u32, sumZ, rx_left in *. rewrite Z.mod_small; lia. }
  split_and!; [done| |done|cbn; rewrite E; unfold sumZ; lia].
  split; cbn; [done|done|by rewrite E|rewrite E; unfold sumZ in *; lia].
Qed.

Lemma enqueue_head_ok q x :
  rxq_ok q → page_ok x → dlen q + rx_left x < 2 ^ 32 →
  let q' := rxq_enqueue_head x q in
  rxq_ok q' ∧ stream q' = rx_rest x ++ stream q ∧ dlen q' = rx_left x + dlen q.
Proof.
  intros [Hp Hu Hd Hf] Hx Hs. pose proof (rx_left_pos x Hx). pose proof (lefts_nonneg _ Hp).
  unfold rxq_enqueue_head, stream. destruct q as [dl us l]; cbn in *.
  assert (u32 (dl + (rx_len x - rx_offset x)) = rx_left x + dl) as E
    by (unfold u32, rx_left in *; rewrite Z.mod_small; lia).
  split_and!; [|done|done]. split; cbn; [by constructor|done|rewrite E, Hd; done|lia].
Qed.

(** The bytes a reader has still to deliver: the page in hand, then the
    queue. *)
Definition in_hand (r : reader) : list Z := match rd_rx r with Some x => rx_rest x | None => [] end.
Definition ahead (r : reader) : list Z := in_hand r ++ stream (rd_q r).

Record reader_ok (r : reader) : Prop := {
  rd_no_udd : rd_udd r = None;
  rd_page : ∀ x, rd_rx r = Some x → page_ok x;
  rd_end : rd_rx r = None → stream (rd_q r) = [];
  rd_queue : rxq_ok (rd_q r);
  rd_fits : Z.of_nat (length (ahead r)) < 2 ^ 32;
  rd_count : 0 <= rd_copied r ∧ rd_copied r + Z.of_nat (length (ahead r)) < 2 ^ 32
}.

(** What [n] bytes of copying do. *)
Definition copied_to (n : nat) (r r' : reader) : Prop :=
  rd_out r' = rd_out r ++ take n (ahead r) ∧ ahead r' = drop n (ahead r) ∧
  rd_copied r' = rd_copied r + Z.of_nat (length (take n (ahead r))) ∧ reader_ok r'.

Lemma page_step_ok x c :
  page_ok x → 0 <= c <= rx_left x →
  let x' := x <| rx_offset := rx_offset x + c |> in
  (c < rx_left x → page_ok x') ∧ rx_left x' = rx_left x - c.
Proof.
  intros (Ho&Hl&Hu&pg&Hp&Hd) Hc. unfold rx_left, page_ok in *. cbn. split; [|lia].
  intros. split_and!; [lia|lia|lia|done|by exists pg].
Qed.

(** The bytes of the page in hand come first. *)
Lemma ahead_cut r x c :
  reader_ok r → rd_rx r = Some x → 0 <= c <= rx_left x →
  u32 (rd_copied r + c) = rd_copied r + c ∧ u32 (rx_offset x + c) = rx_offset x + c ∧
  take (Z.to_nat c) (ahead r) = take (Z.to_nat c) (rx_rest x) ∧
  drop (Z.to_nat c) (ahead r) = drop (Z.to_nat c) (rx_rest x) ++ stream (rd_q r) ∧
  Z.of_nat (length (take (Z.to_nat c) (rx_rest x))) = c ∧
  rd_copied r + rx_left x + Z.of_nat (length (stream (rd_q r))) < 2 ^ 32.
Proof.
  intros [_ Hx _ _ _ [Hc0 Hc]] Erx Hr. specialize (Hx x Erx).
  pose proof (length_rx_rest x Hx) as Hrest. pose proof Hx as (Ho&Hl&_&_).
  assert (ahead r = rx_rest x ++ stream (rd_q r)) as Ea by (unfold ahead, in_hand; by rewrite Erx).
  rewrite Ea, length_app in Hc. rewrite Ea, take_app_le, drop_app_le, length_take by lia.
  split_and!; [apply Z.mod_small; lia|apply Z.mod_small; unfold PAGE_SIZE, rx_left in *; lia|done|done|lia|lia].
Qed.

(** One pass of the copy loop takes what fits, at least a byte. *)
Lemma read_step_ok len r x :
  reader_ok r → rd_rx r = Some x → 0 < len →
  let c := Z.min len (rx_left x) in
  ∃ r', read_step len r = Some (len - c, r') ∧ 0 < c ∧ copied_to (Z.to_nat c) r r'.
Proof.
  intros Hok Erx Hlen. pose proof Hok as [Hu Hx He Hq Hf [Hc0 Hc]]. specialize (Hx x Erx).
  pose proof (rx_left_pos x Hx) as Hleft. pose proof (length_rx_rest x Hx) as Hrest.
  set (c := Z.min len (rx_left x)). cbv zeta.
  assert (0 < c <= rx_left x ∧ c <= len) as Hcr by (subst c; lia).
  destruct (ahead_cut r x c) as (E1 & E2 & Et & Ed & Elen & Hsum); [exact Hok|done|lia|].
  destruct (rx_rest_copy x c Hx ltac:(lia)) as [Eb Er].
  destruct (page_step_ok x c Hx ltac:(lia)) as [Hx' Hl'].
  pose proof Hx as (Ho&Hl&Hudd&_).
  unfold copied_to, read_step, read_udd. rewrite Erx, Hudd, Hu, Et, Ed, Elen. cbn [andb orb negb bool_decide].
  change (bool_decide (is_Some None)) with false. cbn [negb mbind option_bind rd_rx].
  rewrite Erx. fold (rx_left x). fold c. cbn [rx_offset rx_len set eta rx_data_eta rd_copied rd_out rd_q].
  rewrite E2, Eb.
  destruct (Z.eqb_spec (rx_offset x + c) (rx_len x)) as [E|E].
  - (* the page is used up *)
    assert (drop (Z.to_nat c) (rx_rest x) = []) as -> by (apply drop_ge; unfold rx_left in *; lia).
    pose proof (dequeue_ok (rd_q r) Hq) as Hdq.
    destruct (rxq_dequeue_head (rd_q r)) as [[y|] q'].
    + destruct Hdq as (Hy & Hq' & Es & Edl). eexists. split_and!; [done|lia|done| | |].
      * unfold ahead, in_hand. cbn. by rewrite Es.
      * cbn. by rewrite E1.
      * rewrite Es, length_app in Hsum.
        split; cbn; [done|by intros ? [= <-]|done|done| |]; unfold ahead, in_hand; cbn;
          rewrite length_app; [lia|]. rewrite E1. lia.
    + destruct Hdq as (-> & Es). eexists. split_and!; [done|lia|done| | |].
      * unfold ahead, in_hand. cbn. done.
      * cbn. by rewrite E1.
      * split; cbn; [done|done|done|done| |]; unfold ahead, in_hand; cbn; rewrite Es; [cbn; lia|].
        rewrite E1. cbn. lia.
  - eexists. split_and!; [done|lia|done| | |].
    + unfold ahead, in_hand. cbn. by rewrite <- Er.
    + cbn. by rewrite E1.
    + assert (c < rx_left x) as Hlt by (unfold rx_left in *; lia). specialize (Hx' Hlt).
      pose proof (length_rx_rest _ Hx') as Hr'. rewrite Hl' in Hr'.
      split; cbn; [done|by intros ? [= <-]|done|done| |]; unfold ahead, in_hand; cbn;
        rewrite length_app, Nat2Z.inj_add; cbn in Hr'; rewrite Hr', ?E1; clear Hl' Hr' Er; lia.
Qed.

Lemma copied_to_0 r : reader_ok r → copied_to 0 r r.
Proof.
  intros H. unfold copied_to. rewrite take_0, drop_0, app_nil_r. cbn. split_and!; [done|done|lia|done].
Qed.

Lemma copied_to_add n m r r' r'' :
  copied_to n r r' → copied_to m r' r'' → copied_to (n + m) r r''.
Proof.
  intros (Eo & Ea & Ec & _) (Eo' & Ea' & Ec' & Hok). unfold copied_to.
  rewrite Eo', Eo, Ea', Ec', Ec, Ea, drop_drop, <- app_assoc, take_take_drop.
  split_and!; [done|done| |done].
  rewrite <- (take_take_drop (ahead r) n m), length_app. lia.
Qed.

(** Taking more than there is takes all. *)
Lemma copied_to_more n m r r' :
  (length (ahead r) <= n)%nat → (length (ahead r) <= m)%nat → copied_to n r r' → copied_to m r r'.
Proof.
  intros Hn Hm (Eo & Ea & Ec & Hok). unfold copied_to.
  rewrite (take_ge _ _ Hn) in Eo, Ec. rewrite (drop_ge _ _ Hn) in Ea.
  by rewrite (take_ge _ _ Hm), (drop_ge _ _ Hm).
Qed.

(** An entry of the scatterlist takes [len] bytes, or all there is. *)
Lemma read_entry_ok fuel len r :
  reader_ok r → 0 <= len → (Z.to_nat len <= fuel)%nat →
  ∃ r', read_entry fuel len r = Some r' ∧ copied_to (Z.to_nat len) r r'.
Proof.
  revert len r. induction fuel as [|fuel IH]; intros len r Hr Hlen Hfuel.
  { assert (len = 0) as -> by lia. exists r. split; [done|by apply copied_to_0]. }
  cbn [read_entry]. destruct (Z.eqb_spec len 0) as [->|Hne].
  { exists r. split; [done|by apply copied_to_0]. }
  rewrite (rd_no_udd r Hr). destruct (rd_rx r) as [x|] eqn:Ex; cbn [orb negb bool_decide].
  - change (bool_decide (is_Some (Some x))) with true. cbn [orb negb].
    destruct (read_step_ok len r x Hr Ex ltac:(lia)) as (r1 & E1 & Hc & H1).
    rewrite E1. cbn [mbind option_bind].
    destruct (IH (len - Z.min len (rx_left x)) r1) as (r2 & E2 & H2); [apply H1|lia|lia|].
    exists r2. split; [done|].
    replace (Z.to_nat len) with
      (Z.to_nat (Z.min len (rx_left x)) + Z.to_nat (len - Z.min len (rx_left x)))%nat by lia.
    by eapply copied_to_add.
  - change (bool_decide (is_Some None)) with false. cbn [orb negb]. exists r. split; [done|].
    assert (ahead r = []) as E by (unfold ahead, in_hand; rewrite Ex; by apply rd_end).
    eapply (copied_to_more 0); [by rewrite E|rewrite E; cbn; lia|by apply copied_to_0].
Qed.

Lemma ahead_nil_iff r : reader_ok r → ahead r = [] ↔ rd_rx r = None.
Proof.
  intros Hr. unfold ahead, in_hand. destruct (rd_rx r) as [x|] eqn:Ex.
  - split; [|done]. intros E%(f_equal length). pose proof (rd_page r Hr x Ex) as Hx.
    pose proof (length_rx_rest x Hx). pose proof (rx_left_pos x Hx).
    rewrite length_app in E. cbn in E. lia.
  - split; [done|]. intros _. by apply rd_end.
Qed.

(** The whole scatterlist: the entries receive the chunks of the stream. *)
Lemma read_sgs_ok lens outs r :
  reader_ok r → Forall (λ n, 0 <= n) lens →
  ∃ r' n, read_sgs lens outs r = Some (outs ++ chunks lens (ahead r), r') ∧
    n = length (concat (chunks lens (ahead r))) ∧
    concat (chunks lens (ahead r)) = take n (ahead r) ∧
    ahead r' = drop n (ahead r) ∧ rd_copied r' = rd_copied r + Z.of_nat n ∧ reader_ok r'.
Proof.
  revert outs r. induction lens as [|len lens IH]; intros outs r Hr Hl; cbn [read_sgs chunks].
  { exists r, 0%nat. rewrite app_nil_r. split_and!; try done. cbn. lia. }
  apply Forall_cons in Hl as [Hlen Hl].
  assert (reader_ok (r <| rd_out := [] |>)) as Hr0 by (by destruct r, Hr).
  destruct (read_entry_ok (read_fuel len r) len _ Hr0 Hlen) as (r1 & E1 & Eo & Ea & Ec & Hr1);
    [unfold read_fuel; lia|].
  change (ahead (r <| rd_out := [] |>)) with (ahead r) in *.
  change (rd_copied (r <| rd_out := [] |>)) with (rd_copied r) in *.
  rewrite E1. cbn [mbind option_bind]. rewrite Eo. cbn [rd_out set eta reader_eta app].
  pose proof (ahead_nil_iff r1 Hr1) as Hend. rewrite <- Ea. rewrite (rd_no_udd r1 Hr1).
  assert (take (Z.to_nat len) (ahead r) ++ ahead r1 = ahead r) as Esplit
    by (rewrite Ea; apply take_drop).
  destruct (rd_rx r1) as [x|] eqn:Ex.
  - destruct (ahead r1) as [|b bs] eqn:Eah; [by specialize (proj1 Hend eq_refl)|].
    rewrite <- Eah in *.
    destruct (IH (outs ++ [take (Z.to_nat len) (ahead r)]) r1 Hr1 Hl)
      as (r2 & n & E2 & -> & Eco & Ea2 & Ec2 & Hr2).
    exists r2, (length (take (Z.to_nat len) (ahead r) ++ concat (chunks lens (ahead r1)))).
    rewrite E2, <- app_assoc. cbn [concat app].
    rewrite length_app. set (m := length (concat _)) in *. set (k := take _ _) in *.
    assert (take (length k + m) (ahead r) = k ++ take m (ahead r1)) as ->
      by (rewrite <- Esplit; apply take_app_add).
    assert (drop (length k + m) (ahead r) = drop m (ahead r1)) as ->
      by (rewrite <- Esplit; apply drop_app_add).
    rewrite <- Eco, <- Ea2, Ec2, Ec. split_and!; [done|done|done|done|lia|done].
  - rewrite (proj2 Hend eq_refl) in *. exists r1, (length (take (Z.to_nat len) (ahead r))).
    rewrite app_nil_r in Esplit. cbn [concat]. rewrite app_nil_r, Esplit, take_ge, drop_ge by lia.
    split_and!; [done|done|done|by apply Hend|by rewrite Esplit in Ec|done].
Qed.

Lemma chunks_total lens l :
  Forall (λ n, 0 <= n) lens →
  Z.of_nat (length (concat (chunks lens l))) = Z.min (sumZ lens) (Z.of_nat (length l)).
Proof.
  intros H. revert l. induction H as [|n lens Hn Hl IH]; intros l; cbn [chunks concat sumZ foldr].
  { change (sumZ []) with 0. cbn. lia. }
  pose proof (sumZ_nonneg lens Hl). change (foldr Z.add 0 lens) with (sumZ lens).
  pose proof (length_drop l (Z.to_nat n)) as Hd.
  destruct (drop (Z.to_nat n) l) as [|b bs] eqn:E.
  - cbn [concat]. rewrite app_nil_r, length_take. cbn in Hd. lia.
  - rewrite <- E in Hd |- *. rewrite length_app, Nat2Z.inj_add, IH, length_take, Hd.
    assert (Z.to_nat n < length l)%nat; [|lia].
    apply Nat.nle_gt. intros Hle. by rewrite (drop_ge _ _ Hle) in E.
Qed.

(** C10: reading a streaming C2H queue that has no user-defined data
    ([qdma_descq_rxq_read]) treats the received pages as one byte stream: it
    copies exactly as many bytes as the scatterlist holds or the queue has,
    in order and cut at the entries' lengths; the queue keeps exactly the
    bytes not copied and its byte count says so; the copy loop always ends. *)
Theorem rxq_read_stream q lens :
  let rq := rx_queue (rx q) in
  rxq_ok rq → wrb_udd_en (wrb q) = false → Forall (λ n, 0 <= n) lens →
  ∃ n rq', qdma_descq_rxq_read q lens = Some (Z.of_nat n, chunks lens (stream rq), rq') ∧
    Z.of_nat n = Z.min (sumZ lens) (dlen rq) ∧
    concat (chunks lens (stream rq)) = take n (stream rq) ∧
    stream rq' = drop n (stream rq) ∧ dlen rq' = dlen rq - Z.of_nat n ∧ rxq_ok rq'.
Proof.
  cbv zeta. intros Hq Hu Hl. unfold qdma_descq_rxq_read. rewrite Hu.
  pose proof (rxq_ok_length _ Hq) as Hlen. pose proof (rxq_fits _ Hq) as Hfit.
  pose proof (dequeue_ok _ Hq) as Hd. destruct (rxq_dequeue_head (rx_queue (rx q))) as [x rq] eqn:Edq.
  set (r0 := Reader 0 [] x None rq).
  assert (ahead r0 = stream (rx_queue (rx q)) ∧ reader_ok r0) as [Ea Hr].
  { unfold r0, ahead, in_hand. destruct x as [x|]; cbn.
    - destruct Hd as (Hx & Hrq & Es & _). rewrite <- Es. split; [done|].
      split; cbn; [done|by intros ? [= <-]|done|done| |]; unfold ahead, in_hand; cbn;
        rewrite <- Es; lia.
    - destruct Hd as [-> Es]. split; [done|]. rewrite Es in Hlen.
      split; cbn; [done|done|done|done| |]; unfold ahead, in_hand; cbn; rewrite Es; cbn in *; lia. }
  destruct (read_sgs_ok lens [] r0 Hr Hl) as (r1 & n & E1 & En & Eco & Ea1 & Ec & Hr1).
  rewrite Ea in *. pose proof (chunks_total lens (stream (rx_queue (rx q))) Hl) as Htot.
  rewrite <- En, Hlen in Htot. exists n.
  assert (∃ rq', match rd_rx r1 with
                 | Some x => if rx_offset x <? rx_len x then rxq_enqueue_head x (rd_q r1) else rd_q r1
                 | None => rd_q r1 end = rq' ∧ stream rq' = ahead r1 ∧ rxq_ok rq') as (rq' & Eq & Es & Hok).
  { unfold ahead, in_hand. destruct (rd_rx r1) as [y|] eqn:Ey.
    - pose proof (rd_page _ Hr1 y Ey) as Hy. pose proof Hy as ((_&Hlt)&_).
      rewrite (proj2 (Z.ltb_lt _ _) Hlt). eexists. split; [done|].
      pose proof (rd_fits _ Hr1) as Hf. unfold ahead, in_hand in Hf.
      rewrite Ey, length_app, Nat2Z.inj_add, (length_rx_rest y Hy), (rxq_ok_length _ (rd_queue _ Hr1)) in Hf.
      destruct (enqueue_head_ok (rd_q r1) y (rd_queue _ Hr1) Hy ltac:(lia)) as (?&?&_). done.
    - by exists (rd_q r1); split_and!; [done|done|apply Hr1]. }
  exists rq'. unfold r0 in E1.
  destruct x; rewrite E1; cbn [mbind option_bind app]; rewrite Eq, Ec;
    (split_and!; [done|done|done|by rewrite Es| |done]);
    rewrite <- (rxq_ok_length _ Hok), Es, Ea1, length_drop; lia.
Qed.

(** The resumption of user-defined data: when part of a packet's user data
    has been copied before, the next copy of [qdma_descq_rxq_read] starts
    again at its first byte, because the source is [udd->data + rx->offset]
    and the page is still at offset 0. *)
Theorem rxq_read_udd_restarts len r x u q' :
  rd_rx r = Some x → rx_udd_ref x = true → rx_offset x = 0 →
  udd_dequeue_head (rd_q r) = (Some u, q') → 0 < udd_offset u → 0 <= len →
  ∃ len' r', read_udd len r = Some (len', r') ∧
    rd_out r' = rd_out r ++ take (Z.to_nat (Z.min len (udd_len u - udd_offset u))) (udd_data u).
Proof.
  intros Ex Hu Ho Ed Hpos Hlen. unfold read_udd. rewrite Ex, Hu, Ho, Ed. cbn [andb orb negb Z.eqb].
  unfold slice. cbn [Z.to_nat]. change (drop 0 (udd_data u)) with (udd_data u).
  case_match; (eexists _, _; split; [done|]); done.
Qed.

End read.

(** ** What a writeback enqueues *)

(** The pages of a packet of [len] bytes: full ones, then the rest. *)
Fixpoint cut (n : nat) (len : Z) : list Z :=
  match n with
  | O => []
  | S n => Z.min len PAGE_SIZE :: cut n (len - Z.min len PAGE_SIZE)
  end.

Definition page_nr (len : Z) : nat := Z.to_nat ((len + PAGE_SIZE - 1) / PAGE_SIZE).

Lemma page_nr_0 : page_nr 0 = 0%nat.
Proof. reflexivity. Qed.

Lemma page_nr_next len : 0 < len → page_nr len = S (page_nr (len - Z.min len PAGE_SIZE)).
Proof.
  intros Hl. unfold page_nr, PAGE_SIZE in *.
  destruct (Z.min_spec len 4096) as [[Hlt ->]|[Hge ->]].
  - rewrite Z.sub_diag. replace (len + 4096 - 1) with (1 * 4096 + (len - 1)) by lia.
    rewrite Z.div_add_l, Z.div_small by lia. done.
  - replace (len + 4096 - 1) with (1 * 4096 + (len - 4096 + 4096 - 1)) by lia.
    rewrite Z.div_add_l by lia.
    rewrite Z2Nat.inj_add by (try apply Z.div_pos; lia). done.
Qed.

Lemma length_cut n len : length (cut n len) = n.
Proof. revert len. induction n as [|n IH]; intros len; cbn [cut length]; [done|]. by rewrite IH. Qed.

Lemma cut_sum n len : 0 <= len → page_nr len = n → sumZ (cut n len) = len.
Proof.
  revert len. induction n as [|n IH]; intros len Hl Hn; cbn [cut sumZ foldr].
  - destruct (Z.eqb_spec len 0) as [->|]; [done|]. rewrite page_nr_next in Hn by lia. done.
  - destruct (Z.eqb_spec len 0) as [->|]; [by rewrite page_nr_0 in Hn|].
    rewrite page_nr_next in Hn by lia. injection Hn as Hn.
    unfold sumZ in IH. rewrite IH; [lia| |done]. lia.
Qed.

Definition fl_at (s : rxenv) (j : Z) : fl_desc :=
  nth (Z.to_nat j) (default [] (st_rx_fl (rx (dq (re s))))) (FlDesc None 0 0).

(** What the handler leaves alone while it takes pages. *)
Record same_frame (s s' : rxenv) : Prop := {
  fr_conf : conf (dq (re s')) = conf (dq (re s));
  fr_pend : pend_list (dq (re s')) = pend_list (dq (re s));
  fr_pidx : pidx (ring (dq (re s'))) = pidx (ring (dq (re s)));
  fr_reqs : reqs (re s') = reqs (re s);
  fr_xd : xd (re s') = xd (re s);
  fr_trace : trace (re s') = trace (re s);
  fr_kmallocs : kmallocs (mem s) = [] → kmallocs (mem s') = [];
  fr_fl : length (default [] (st_rx_fl (rx (dq (re s'))))) =
          length (default [] (st_rx_fl (rx (dq (re s)))))
}.

Lemma same_frame_refl s : same_frame s s.
Proof. by split. Qed.

Lemma same_frame_trans s1 s2 s3 : same_frame s1 s2 → same_frame s2 s3 → same_frame s1 s3.
Proof. intros [] []. split; try congruence. auto. Qed.

(** [news]: the pages from free-list slot [i] on, moved to the receive queue. *)
Record pages_taken (sz i : Z) (news : list st_rx_data) (s s' : rxenv) : Prop := {
  pt_frame : same_frame s s';
  pt_rx : rx_q (rxq_of s') = rx_q (rxq_of s) ++ news;
  pt_udd : udd_q (rxq_of s') = udd_q (rxq_of s);
  pt_dlen : dlen (rxq_of s') = u32 (dlen (rxq_of s) + sumZ (map rx_len news));
  pt_pages : Z.of_nat (length news) <= sz →
    ∀ k r, news !! k = Some r →
      rx_pg r = fl_pg (fl_at s ((i + Z.of_nat k) mod sz)) ∧ rx_offset r = 0 ∧ rx_udd_ref r = false;
  pt_other : ∀ j, 0 <= j < sz →
    (∀ k, 0 <= k < Z.of_nat (length news) → (i + k) mod sz ≠ j) → fl_at s' j = fl_at s j
}.

Lemma pages_taken_nil sz i s : 0 <= dlen (rxq_of s) < 2 ^ 32 → pages_taken sz i [] s s.
Proof.
  intros Hd. split; try done; [by rewrite app_nil_r|].
  cbn. change (sumZ []) with 0. unfold u32. rewrite Z.add_0_r, Z.mod_small; lia.
Qed.

Lemma pages_taken_app sz i n1 n2 s s1 s2 :
  0 < sz →
  pages_taken sz i n1 s s1 → pages_taken sz ((i + Z.of_nat (length n1)) mod sz) n2 s1 s2 →
  pages_taken sz i (n1 ++ n2) s s2.
Proof.
  intros Hsz [F1 R1 U1 D1 P1 O1] [F2 R2 U2 D2 P2 O2]. split.
  - by eapply same_frame_trans.
  - by rewrite R2, R1, app_assoc.
  - by rewrite U2.
  - rewrite D2, D1, map_app, sumZ_app. unfold u32. rewrite Zplus_mod_idemp_l. f_equal. lia.
  - rewrite length_app, Nat2Z.inj_add. intros Hle k r Hk.
    destruct (decide (k < length n1)%nat) as [Hlt|Hge].
    + rewrite lookup_app_l in Hk by done. apply P1; [lia|done].
    + rewrite lookup_app_r in Hk by lia. apply lookup_lt_Some in Hk as Hk2.
      destruct (P2 ltac:(lia) _ _ Hk) as (E & Eo & Eu). split_and!; [|done|done].
      rewrite E, O1.
      * rewrite Zplus_mod_idemp_l. replace (i + Z.of_nat k)
          with (i + Z.of_nat (length n1) + Z.of_nat (k - length n1)) by lia. done.
      * apply Z.mod_pos_bound. lia.
      * intros j Hj Ej. rewrite Zplus_mod_idemp_l, <- Z.add_assoc in Ej.
        apply cyclic_inj in Ej; lia.
  - intros j Hj Hn. rewrite length_app, Nat2Z.inj_add in Hn. rewrite O2, O1; [done|done| |done|].
    + intros k Hk. apply Hn. lia.
    + intros k Hk. rewrite Zplus_mod_idemp_l, <- Z.add_assoc. apply Hn. lia.
Qed.

Lemma with_mem_eq {A} (m : ST memory A) s a m' :
  m (mem s) = (a, m') → with_mem m s = (a, s <| mem := m' |>).
Proof. intros E. unfold with_mem. by rewrite E. Qed.

Lemma rx_data_ok fl udd q m :
  kmallocs m = [] →
  descq_st_c2h_rx_data fl udd q m =
    ((0, rxq_enqueue_tail (RxData (fl_pg fl) 0 (fl_len fl) udd) q), m).
Proof.
  intros Hk. unfold descq_st_c2h_rx_data.
  rewrite (st_bind_eq kmalloc _ _ true m); [done|]. unfold kmalloc. by rewrite Hk.
Qed.

Lemma fl_refill_same fl m :
  kmallocs (fl_refill_entry fl m).2 = kmallocs m ∧ fl_len (fl_refill_entry fl m).1.2 = fl_len fl.
Proof.
  unfold fl_refill_entry, mbind, ST_bind, alloc_page.
  destruct (pages m) as [|[] l], (fl_pg fl); split; reflexivity.
Qed.

Lemma slot_next sz i :
  0 <= i < sz → sz < 2 ^ 16 → (if sz <=? u32 (i + 1) then 0 else u32 (i + 1)) = (i + 1) mod sz.
Proof.
  intros Hi Hs. unfold u32. rewrite (Z.mod_small (i + 1)) by lia.
  destruct (Z.leb_spec sz (i + 1)).
  - replace (i + 1) with sz by lia. by rewrite Z.mod_same by lia.
  - by rewrite Z.mod_small by lia.
Qed.

(** One page: the allocator's answer only matters for the slot's refill. *)
Lemma wrb_pages_step len i s n :
  let sz := rngsz (conf (dq (re s))) in
  0 <= i < sz → sz < 2 ^ 16 →
  Z.of_nat (length (default [] (st_rx_fl (rx (dq (re s)))))) = sz →
  kmallocs (mem s) = [] → 0 < len < 2 ^ 16 →
  ∃ s1, wrb_pages (S n) len i false s =
          wrb_pages n (len - Z.min len PAGE_SIZE) ((i + 1) mod sz) false s1 ∧
    pages_taken sz i [RxData (fl_pg (fl_at s i)) 0 (Z.min len PAGE_SIZE) false] s s1 ∧
    wrb (dq (re s1)) = wrb (dq (re s)).
Proof.
  intros sz Hi Hsz Hfl Hk Hlen. cbn [wrb_pages].
  fold (fl_at s i). set (fl := (fl_at s i) <| fl_len := _ |>).
  rewrite (with_mem_eq _ _ _ _ (rx_data_ok fl false (rxq_of s) (mem s) Hk)).
  unfold with_mem. cbn [mem set eta rxenv_eta set_rxq upd_dq].
  destruct (fl_refill_same fl (mem s)) as [Hk' Hl'].
  destruct (fl_refill_entry fl (mem s)) as [[rv fl'] m'] eqn:Er. cbn [fst snd] in Hk', Hl'.
  assert (fl_len fl' = Z.min len PAGE_SIZE) as El by done.
  assert (u32 (len - fl_len fl') = len - Z.min len PAGE_SIZE) as ->
    by (rewrite El; apply Z.mod_small; unfold PAGE_SIZE; lia).
  fold sz. rewrite (slot_next sz i) by lia.
  eexists. split; [done|]. split; [|done].
  assert (∀ j, 0 <= j < sz → j ≠ i →
    nth (Z.to_nat j) (<[Z.to_nat i:=fl']> (default [] (st_rx_fl (rx (dq (re s)))))) (FlDesc None 0 0)
    = fl_at s j) as Hoth.
  { intros j Hj Hne. rewrite !nth_lookup, list_lookup_insert_ne by lia. by rewrite <- nth_lookup. }
  split; cbn.
  - split; try done; cbn; [congruence|]. destruct (st_rx_fl _); cbn; [by rewrite length_insert|done].
  - done.
  - done.
  - unfold rxq_of. f_equal.
  - intros _ [|k] r; [|by destruct k]. intros [= <-]. cbn.
    by rewrite Z.add_0_r, Z.mod_small by lia.
  - intros j Hj Hn.
    specialize (Hn 0 ltac:(lia)). rewrite Z.add_0_r, Z.mod_small in Hn by lia.
    rewrite <- (Hoth j Hj ltac:(lia)). by destruct (st_rx_fl (rx (dq (re s)))).
Qed.

Lemma wrb_pages_spec n len i s :
  let sz := rngsz (conf (dq (re s))) in
  0 <= i < sz → sz < 2 ^ 16 →
  Z.of_nat (length (default [] (st_rx_fl (rx (dq (re s)))))) = sz →
  0 <= dlen (rxq_of s) < 2 ^ 32 →
  kmallocs (mem s) = [] → 0 <= len < 2 ^ 16 → page_nr len = n →
  ∃ news s', wrb_pages n len i false s = ((i + Z.of_nat n) mod sz, s') ∧
    pages_taken sz i news s s' ∧ map rx_len news = cut n len ∧ wrb (dq (re s')) = wrb (dq (re s)).
Proof.
  revert len i s. induction n as [|n IH]; intros len i s sz Hi Hsz Hfl Hd Hk Hlen Hn.
  { exists [], s. cbn [wrb_pages cut]. rewrite Z.add_0_r, Z.mod_small by lia.
    split_and!; [done|by apply pages_taken_nil|done|done]. }
  destruct (Z.eqb_spec len 0) as [->|]; [by rewrite page_nr_0 in Hn|].
  rewrite page_nr_next in Hn by lia. injection Hn as Hn.
  destruct (wrb_pages_step len i s n Hi Hsz Hfl Hk ltac:(lia)) as (s1 & E1 & P1 & W1).
  fold sz in E1, P1.
  pose proof (pt_frame _ _ _ _ _ P1) as [Fc Fp _ _ _ _ Fk Ffl].
  assert (rngsz (conf (dq (re s1))) = sz) as Esz by (unfold sz; congruence).
  destruct (IH (len - Z.min len PAGE_SIZE) ((i + 1) mod sz) s1) as (news & s' & E & P & L & W);
    rewrite ?Esz; [apply Z.mod_pos_bound; lia|done|lia| |by apply Fk|unfold PAGE_SIZE; lia|done|].
  { rewrite (pt_dlen _ _ _ _ _ P1). apply Z.mod_pos_bound. lia. }
  rewrite Esz in *. exists (RxData (fl_pg (fl_at s i)) 0 (Z.min len PAGE_SIZE) false :: news), s'.
  rewrite E1, E, Zplus_mod_idemp_l.
  split_and!; [do 2 f_equal; lia| |cbn [map cut rx_len]; by rewrite L|congruence].
  eapply (pages_taken_app sz i [_]); [lia|exact P1|exact P].
Qed.

(** The fields of a writeback entry, and entry [k] after the consumer index. *)
Definition entry_len (e : list Z) : Z :=
  Z.land (Z.shiftr (le_get (take 8 e)) S_C2H_WB_ENTRY_LENGTH) M_C2H_WB_ENTRY_LENGTH.
Definition entry_err (e : list Z) : Z :=
  Z.land (Z.shiftr (le_get (take 8 e)) S_C2H_WB_ENTRY_F_DESC_ERR) 0x1.
Definition entry_at (w : wrb_ring) (k : nat) : list Z :=
  nth (Z.to_nat ((cidx_wrb w + Z.of_nat k) mod rngsz_wrb w)) (default [] (desc_wrb w)) [].

Definition packet_pages (e : list Z) : list Z := cut (page_nr (entry_len e)) (entry_len e).

Definition wrb_at (c : Z) (w : wrb_ring) : wrb_ring :=
  w <| cidx_wrb := c |> <| desc_wrb_cur := c |>.

(** A queue the handler can serve: no user data, both rings of one size, the
    entry pointer at the consumer index, a full free list. *)
Record wb_ready (sz : Z) (s : rxenv) : Prop := {
  wbr_kmallocs : kmallocs (mem s) = [];
  wbr_udd : wrb_udd_en (wrb (dq (re s))) = false;
  wbr_sz : 0 < sz < 2 ^ 16 ∧ rngsz (conf (dq (re s))) = sz ∧ rngsz_wrb (wrb (dq (re s))) = sz;
  wbr_cidx : 0 <= cidx_wrb (wrb (dq (re s))) < sz;
  wbr_cur : desc_wrb_cur (wrb (dq (re s))) = cidx_wrb (wrb (dq (re s)));
  wbr_fl : Z.of_nat (length (default [] (st_rx_fl (rx (dq (re s)))))) = sz;
  wbr_dlen : 0 <= dlen (rxq_of s) < 2 ^ 32
}.

Lemma wrb_next_at sz q :
  0 < sz < 2 ^ 16 → rngsz_wrb (wrb q) = sz → 0 <= cidx_wrb (wrb q) < sz →
  desc_wrb_cur (wrb q) = cidx_wrb (wrb q) →
  wrb_next q = q <| wrb ::= wrb_at ((cidx_wrb (wrb q) + 1) mod sz) |>.
Proof.
  intros Hsz Hr Hc Hcur. unfold wrb_next, wrb_at, u32. rewrite (Z.mod_small (_ + 1)) by lia. rewrite Hr.
  destruct (Z.eqb_spec (cidx_wrb (wrb q) + 1) sz) as [->|].
  - by rewrite Z.mod_same by lia.
  - rewrite (Z.mod_small _ sz) by lia. destruct q as [????????????? [????????]]; cbn in *. by rewrite Hcur.
Qed.

Lemma upd_dq_ext f g s : f (dq (re s)) = g (dq (re s)) → upd_dq f s = upd_dq g s.
Proof. intros E. unfold upd_dq. cbn. by rewrite E. Qed.

Lemma pages_taken_wrb sz i news s s1 c :
  pages_taken sz i news s s1 → pages_taken sz i news s (upd_dq (λ q, q <| wrb ::= wrb_at c |>) s1).
Proof. intros [F R U D P O]. split; try done. by destruct F. Qed.

Lemma entry_at_0 w sz : rngsz_wrb w = sz → 0 <= cidx_wrb w < sz → desc_wrb_cur w = cidx_wrb w →
  entry_at w 0 = nth (Z.to_nat (desc_wrb_cur w)) (default [] (desc_wrb w)) [].
Proof. intros Hr Hc ->. unfold entry_at. by rewrite Hr, Z.add_0_r, Z.mod_small by lia. Qed.

Lemma entry_at_S w sz k : rngsz_wrb w = sz → 
  entry_at (wrb_at ((cidx_wrb w + 1) mod sz) w) k = entry_at w (S k).
Proof.
  intros Hr. unfold entry_at. cbn. rewrite Hr, Zplus_mod_idemp_l. do 3 f_equal. lia.
Qed.

Lemma wrb_entries_step budget sz i s :
  wb_ready sz s → 0 <= i < sz → entry_err (entry_at (wrb (dq (re s))) 0) = 0 →
  ∃ news s1, wrb_entries (S budget) i s = wrb_entries budget ((i + Z.of_nat (length news)) mod sz) s1 ∧
    pages_taken sz i news s s1 ∧ map rx_len news = packet_pages (entry_at (wrb (dq (re s))) 0) ∧
    wrb (dq (re s1)) = wrb_at ((cidx_wrb (wrb (dq (re s))) + 1) mod sz) (wrb (dq (re s))) ∧
    wb_ready sz s1.
Proof.
  intros [Hk Hu (Hsz & Hr & Hrw) Hc Hcur Hfl Hd] Hi Herr. cbn [wrb_entries]. rewrite Hu.
  rewrite <- (entry_at_0 _ sz Hrw Hc Hcur). set (e := entry_at _ 0) in *.
  unfold entry_err in Herr. rewrite Herr. cbn [Z.eqb negb].
  change (Z.land (Z.shiftr _ S_C2H_WB_ENTRY_LENGTH) _) with (entry_len e).
  assert (0 <= entry_len e < 2 ^ 16) as Hlen.
  { unfold entry_len, M_C2H_WB_ENTRY_LENGTH. change 0xFFFF with (Z.ones 16).
    rewrite Z.land_ones by lia. apply Z.mod_pos_bound. lia. }
  assert (Z.to_nat (Z.shiftr (entry_len e + PAGE_SIZE - 1) 12) = page_nr (entry_len e)) as ->
    by (unfold page_nr; by rewrite Z.shiftr_div_pow2).
  destruct (wrb_pages_spec (page_nr (entry_len e)) (entry_len e) i s) as (news & s1 & E & P & L & W);
    rewrite ?Hr; [done|lia|done|done|done|done|done|]. rewrite Hr in E, P. rewrite E.
  pose proof (pt_frame _ _ _ _ _ P) as [Fc Fp _ _ _ _ Fk Ffl].
  rewrite <- W in *.
  exists news, (upd_dq (λ q, q <| wrb ::= wrb_at ((cidx_wrb (wrb (dq (re s1))) + 1) mod sz) |>) s1).
  split_and!; [|by apply pages_taken_wrb|done|done|].
  - assert (length news = page_nr (entry_len e)) as ->.
    { by rewrite <- (length_map rx_len news), L, length_cut. }
    f_equal. apply upd_dq_ext. by apply wrb_next_at.
  - pose proof (pt_dlen _ _ _ _ _ P) as Ed.
    split; cbn; [by apply Fk|congruence|split_and!; congruence || lia|apply Z.mod_pos_bound; lia|done|lia|].
    change (0 <= dlen (rxq_of s1) < 2 ^ 32). rewrite Ed. apply Z.mod_pos_bound. lia.
Qed.

Lemma wrb_entries_spec budget sz i s :
  wb_ready sz s → 0 <= i < sz →
  (∀ k, (k < budget)%nat → entry_err (entry_at (wrb (dq (re s))) k) = 0) →
  ∃ news s', wrb_entries budget i s = (inr ((i + Z.of_nat (length news)) mod sz), s') ∧
    pages_taken sz i news s s' ∧
    map rx_len news = concat (map (λ k, packet_pages (entry_at (wrb (dq (re s))) k)) (seq 0 budget)) ∧
    wrb (dq (re s')) =
      wrb_at ((cidx_wrb (wrb (dq (re s))) + Z.of_nat budget) mod sz) (wrb (dq (re s))) ∧
    wb_ready sz s'.
Proof.
  revert i s. induction budget as [|budget IH]; intros i s Hs Hi Herr.
  { exists [], s. cbn [wrb_entries]. destruct Hs as [Hk Hu (Hsz & Hr & Hrw) Hc Hcur Hfl Hd].
    rewrite !Z.add_0_r, !Z.mod_small by lia.
    split_and!; [done|by apply pages_taken_nil|done| |by split].
    destruct (wrb (dq (re s))); cbn in *. by subst. }
  destruct (wrb_entries_step budget sz i s Hs Hi) as (n1 & s1 & E1 & P1 & L1 & W1 & Hs1);
    [apply Herr; lia|].
  destruct (wbr_sz _ _ Hs) as (Hsz & _ & Hrw).
  destruct (IH ((i + Z.of_nat (length n1)) mod sz) s1 Hs1) as (n2 & s2 & E2 & P2 & L2 & W2 & Hs2);
    [apply Z.mod_pos_bound; lia| |].
  { intros k Hk. rewrite W1, (entry_at_S _ sz) by done. apply Herr. lia. }
  exists (n1 ++ n2), s2. rewrite E1, E2, length_app, Nat2Z.inj_add, Zplus_mod_idemp_l.
  split_and!; [do 2 f_equal; f_equal; lia| | | |done].
  - eapply pages_taken_app; [lia|exact P1|exact P2].
  - rewrite map_app, L1, L2. cbn [seq map concat]. rewrite <- seq_shift, !map_map. do 2 f_equal.
    apply map_ext. intros k. by rewrite W1, (entry_at_S _ sz).
  - rewrite W2, W1. unfold wrb_at at 1. cbn. rewrite Zplus_mod_idemp_l.
    unfold wrb_at. cbn. replace (_ + 1 + Z.of_nat budget)
      with (cidx_wrb (wrb (dq (re s))) + Z.of_nat (S budget)) by lia. done.
Qed.

Lemma wrb_entries_total budget w :
  sumZ (concat (map (λ k, packet_pages (entry_at w k)) (seq 0 budget))) =
  sumZ (map (λ k, entry_len (entry_at w k)) (seq 0 budget)).
Proof.
  generalize (seq 0 budget) as l. induction l as [|k l IH]; [done|]. cbn [map concat].
  rewrite sumZ_app, IH. unfold packet_pages at 1. rewrite cut_sum; [done| |done].
  unfold entry_len, M_C2H_WB_ENTRY_LENGTH. apply Z.land_nonneg. lia.
Qed.

(** Completing requests does not touch the receive side. *)
Lemma rx_completed_same cbs d e :
  let e' := rx_completed_loop cbs d e in
  rx (dq e') = rx (dq e) ∧ ring (dq e') = ring (dq e) ∧ wrb (dq e') = wrb (dq e) ∧
  conf (dq e') = conf (dq e).
Proof.
  revert d e. induction cbs as [|cb cbs IH]; intros d e; cbn [rx_completed_loop]; [done|].
  destruct (d <? _); [done|]. destruct (IH (d - offset (req_of e cb)) (qdma_sgt_req_done cb 0 e))
    as (E1 & E2 & E3 & E4). cbv zeta in *. rewrite E1, E2, E3, E4. unfold qdma_sgt_req_done.
  by destruct (nonblock _).
Qed.

(** The end of the handler: doorbells, then completions. *)
Definition wb_finish (e : qenv) : qenv :=
  let q := dq e in
  let e := emit_ev (descq_pidx_update q (if pidx (ring q) =? 0 then rngsz (conf q) - 1
                                         else pidx (ring q) - 1)) e in
  let e := emit_ev (descq_wrb_cidx_update q (cidx_wrb (wrb q))) e in
  check_rx_request_completed (intr_coal_update e).

Lemma wb_finish_same e :
  rx (dq (wb_finish e)) = rx (dq e) ∧ ring (dq (wb_finish e)) = ring (dq e) ∧
  wrb (dq (wb_finish e)) = wrb (dq e) ∧ conf (dq (wb_finish e)) = conf (dq e).
Proof.
  unfold wb_finish, check_rx_request_completed. set (e' := emit_ev _ (emit_ev _ e)).
  destruct (rx_completed_same (pend_list (dq (intr_coal_update e')))
    (dlen (rx_queue (rx (dq (intr_coal_update e'))))) (intr_coal_update e')) as (-> & -> & -> & ->).
  by destruct (intr_coal_update_same e') as [-> _].
Qed.

(** The number of new entries is the cyclic distance of the indices. *)
Lemma wrb_budget_eq sz q :
  0 < sz < 2 ^ 16 → rngsz (conf q) = sz → 0 <= cidx_wrb (wrb q) < sz → 0 <= pidx_wrb (wrb q) < sz →
  wrb_budget q = (pidx_wrb (wrb q) - cidx_wrb (wrb q)) mod sz.
Proof.
  intros Hsz Hr Hc Hp. unfold wrb_budget, s32. rewrite Hr.
  destruct (Z.ltb_spec (cidx_wrb (wrb q)) (pidx_wrb (wrb q))).
  { rewrite !Z.mod_small by lia. lia. }
  destruct (Z.ltb_spec (pidx_wrb (wrb q)) (cidx_wrb (wrb q))).
  - rewrite Z.mod_small by lia. apply Z.mod_unique_pos with (-1); lia.
  - replace (pidx_wrb (wrb q)) with (cidx_wrb (wrb q)) by lia. by rewrite Z.sub_diag.
Qed.

(** The entries before the first one with an error. *)
Definition sound_entries (w : wrb_ring) (n : nat) : nat :=
  default n (fst <$> list_find (λ k, entry_err (entry_at w k) ≠ 0) (seq 0 n)).

Lemma sound_entries_spec w n :
  let g := sound_entries w n in
  (g <= n)%nat ∧ (∀ k, (k < g)%nat → entry_err (entry_at w k) = 0) ∧
  (g ≠ n → (g < n)%nat ∧ entry_err (entry_at w g) ≠ 0).
Proof.
  unfold sound_entries. destruct (list_find _ _) as [[g x]|] eqn:E; cbn.
  - apply list_find_Some in E as (Hx & He & Hb). apply lookup_seq in Hx as [-> Hlt]. cbn in *.
    split; [lia|]. split; [|done]. intros k Hk. apply dec_stable. intros Hk'. apply (Hb k k); [|done|done].
    apply lookup_seq. lia.
  - apply list_find_None in E. split; [done|]. split; [|done]. intros k Hk. apply dec_stable.
    rewrite Forall_forall in E. apply E. apply elem_of_seq. lia.
Qed.

Lemma wrb_entries_app g m i s i1 s1 :
  wrb_entries g i s = (inr i1, s1) → wrb_entries (g + m) i s = wrb_entries m i1 s1.
Proof.
  revert i s. induction g as [|g IH]; intros i s; [by intros [= -> ->]|]. cbn [Nat.add wrb_entries].
  destruct (if wrb_udd_en _ then _ else _) as [[rv|] s2]; [done|]. destruct (negb _); [done|].
  destruct (wrb_pages _ _ _ _ _) as [i2 s3]. apply IH.
Qed.

Lemma entry_at_from w sz c k : rngsz_wrb w = sz → 
  entry_at (wrb_at ((cidx_wrb w + c) mod sz) w) k =
  nth (Z.to_nat ((cidx_wrb w + c + Z.of_nat k) mod sz)) (default [] (desc_wrb w)) [].
Proof. intros Hr. unfold entry_at. cbn. by rewrite Hr, Zplus_mod_idemp_l. Qed.

(** The loop over [n] new entries, up to the first error. *)
Lemma wrb_entries_run sz i s n :
  wb_ready sz s → 0 <= i < sz →
  let w := wrb (dq (re s)) in let g := sound_entries w n in
  ∃ news s', wrb_entries n i s = ((if decide (g = n) then inr ((i + Z.of_nat (length news)) mod sz) else inl (- EIO)), s') ∧
    pages_taken sz i news s s' ∧
    map rx_len news = concat (map (λ k, packet_pages (entry_at w k)) (seq 0 g)) ∧
    wrb (dq (re s')) = wrb_at ((cidx_wrb w + Z.of_nat g) mod sz) w.
Proof.
  intros Hs Hi w g. destruct (sound_entries_spec w n) as (Hle & Hok & Herr). fold g in Hle, Hok, Herr.
  destruct (wrb_entries_spec g sz i s Hs Hi Hok) as (news & s1 & E & P & L & W & Hs1).
  exists news, s1. split; [|by split_and!]. clearbody g. destruct (decide (g = n)) as [<-|Hne]; [exact E|].
  destruct (Herr Hne) as [Hlt He]. replace n with (g + S (n - S g))%nat by lia. rewrite (wrb_entries_app _ _ _ _ _ _ E).
  cbn [wrb_entries]. destruct Hs1 as [_ Hu (Hsz & _ & Hrw) Hc Hcur _ _]. rewrite Hu.
  rewrite <- (entry_at_0 _ sz Hrw Hc Hcur). unfold entry_err in He.
  assert (entry_at (wrb (dq (re s1))) 0 = entry_at w g) as ->.
  { destruct (wbr_sz _ _ Hs) as (_ & _ & Hr). rewrite W, entry_at_from by done. unfold entry_at.
    fold w in Hr. by rewrite Hr, Z.add_0_r. }
  by rewrite (proj2 (Z.eqb_neq _ 0)).
Qed.

(** C13: the writeback handler of a streaming C2H queue ([descq_st_c2h_wb]), on
    a queue without user-defined data, whose two rings have one size, when the
    kernel's small allocations succeed (whatever the page allocator answers):
    it takes the entries up to the device's producer index, or up to the first
    one that reports an error, appends each packet as full pages and a rest
    taken from the free list in ring order, and raises the byte count by
    exactly the packets' lengths.  Without an error it returns 0, advances
    the index of the free list by what it took, and leaves the consumer index
    at the producer index.  With an error it returns -EIO: the packets before
    it have been delivered and the consumer index stands at it, but the index
    of the free list has not moved, no doorbell is rung and no read is
    completed. *)
Theorem st_c2h_wb_receives sz s :
  wb_ready sz s → 0 <= wrb_wb_pidx (wrb (dq (re s))) < sz → 0 <= pidx (ring (dq (re s))) < sz →
  let w := wrb (dq (re s)) in
  let n := Z.to_nat ((wrb_wb_pidx w - cidx_wrb w) mod sz) in
  let g := sound_entries w n in
  let lens := map (λ k, entry_len (entry_at w k)) (seq 0 g) in
  ∃ news rv s', descq_st_c2h_wb s = (rv, s') ∧
    rx_q (rxq_of s') = rx_q (rxq_of s) ++ news ∧
    map rx_len news = concat (map (λ k, packet_pages (entry_at w k)) (seq 0 g)) ∧
    sumZ (map rx_len news) = sumZ lens ∧
    dlen (rxq_of s') = u32 (dlen (rxq_of s) + sumZ lens) ∧
    (Z.of_nat (length news) <= sz → ∀ k r, news !! k = Some r →
       rx_pg r = fl_pg (fl_at s ((pidx (ring (dq (re s))) + Z.of_nat k) mod sz)) ∧ rx_offset r = 0) ∧
    pidx_wrb (wrb (dq (re s'))) = wrb_wb_pidx w ∧ cidx_wrb (wrb (dq (re s'))) = (cidx_wrb w + Z.of_nat g) mod sz ∧
    if decide (g = n) then
      rv = 0 ∧ cidx_wrb (wrb (dq (re s'))) = wrb_wb_pidx w ∧
      pidx (ring (dq (re s'))) = (pidx (ring (dq (re s))) + Z.of_nat (length news)) mod sz
    else
      rv = - EIO ∧ entry_err (entry_at w g) ≠ 0 ∧ pidx (ring (dq (re s'))) = pidx (ring (dq (re s))) ∧
      trace (re s') = trace (re s) ∧ pend_list (dq (re s')) = pend_list (dq (re s)) ∧ reqs (re s') = reqs (re s).
Proof.
  intros Hs Hp Hi w n g lens. unfold descq_st_c2h_wb.
  set (s0 := upd_dq _ s). pose proof (wbr_sz _ _ Hs) as (Hsz & Hr & Hrw). pose proof (wbr_cidx _ _ Hs) as Hc.
  assert (wb_ready sz s0) as Hs0 by (by destruct Hs).
  rewrite (wrb_budget_eq sz) by done. change (pidx_wrb (wrb (dq (re s0)))) with (wrb_wb_pidx w).
  change (cidx_wrb (wrb (dq (re s0)))) with (cidx_wrb w).
  pose proof (Z.mod_pos_bound (wrb_wb_pidx w - cidx_wrb w) sz ltac:(lia)) as Hb.
  unfold u32 at 1. rewrite (Z.mod_small _ (2 ^ 32)) by lia. fold n.
  destruct (wrb_entries_run sz (pidx (ring (dq (re s)))) s0 n Hs0 Hi)
    as (news & s1 & E & [F Rx Ru Rd Rp Ro] & L & W). 
  change (sound_entries (wrb (dq (re s0))) n) with g in *. change (pidx (ring (dq (re s0)))) with (pidx (ring (dq (re s)))).
  rewrite E. change (rxq_of s0) with (rxq_of s) in *.
  assert (sumZ (map rx_len news) = sumZ lens) as Esum by (rewrite L; apply wrb_entries_total).
  assert (cidx_wrb (wrb (dq (re s1))) = (cidx_wrb w + Z.of_nat g) mod sz ∧ pidx_wrb (wrb (dq (re s1))) = wrb_wb_pidx w)
    as [Ec Ep] by (by rewrite W).
  exists news. rewrite <- Esum. destruct (sound_entries_spec w n) as (_ & _ & Herr). fold g in Herr.
  destruct (decide (g = n)) as [Eg|Hne]; cycle 1.
  { exists (- EIO), s1. split_and!; try done; try apply F; [|by apply Herr].
    intros Hle k r Hk. destruct (Rp Hle k r Hk) as (?&?&_). done. }
  assert ((cidx_wrb w + Z.of_nat g) mod sz = wrb_wb_pidx w) as Eend.
  { rewrite Eg. unfold n. rewrite Z2Nat.id, Zplus_mod_idemp_r by lia. rewrite Zplus_minus. by apply Z.mod_small. }
  exists 0. destruct (Z.eqb_spec ((wrb_wb_pidx w - cidx_wrb w) mod sz) 0) as [E0|E0].
  - assert (news = []) as ->.
    { apply (fmap_nil_inv rx_len). rewrite Eg in L. unfold n in L. rewrite E0 in L. done. }
    exists s1. split_and!; try done; [congruence|].
    cbn [length]. rewrite Z.add_0_r, Z.mod_small by done. apply (fr_pidx _ _ F).
  - set (e := re (upd_dq _ s1)).
    destruct (wb_finish_same e) as (Ex & Er & Ew & _).
    change (check_rx_request_completed _) with (wb_finish e).
    eexists. split; [reflexivity|]. unfold rxq_of. cbn [re set eta rxenv_eta]. rewrite Ex, Er, Ew.
    split_and!; try done; [|rewrite <- Eend; exact Ec].
    intros Hle k r Hk. destruct (Rp Hle k r Hk) as (?&?&_). done.
Qed.

(** ** Completion of waiting reads *)

Lemma req_done_effect cb e pend :
  pend_list (dq e) = cb :: pend → NoDup (cb :: pend) →
  let e' := qdma_sgt_req_done cb 0 e in
  pend_list (dq e') = pend ∧ (is_Some (reqs e !! cb) → cb_done (req_of e' cb) = true) ∧
  (∀ cb', cb' ≠ cb → reqs e' !! cb' = reqs e !! cb').
Proof.
  intros Hp [Hn _]%NoDup_cons. cbv zeta. unfold qdma_sgt_req_done.
  assert (pend_list (dq (list_del cb e)) = pend) as Hd.
  { cbn. rewrite Hp, filter_cons_False by (intros Hne; by apply Hne). by apply filter_ne_notin. }
  destruct (nonblock _); (split_and!; [exact Hd| |]);
    try (intros cb' Hne; cbn; by rewrite lookup_alter_ne by done);
    intros [r Hr]; unfold req_of; cbn; by rewrite lookup_alter_eq, Hr.
Qed.

Lemma rx_completed_loop_other cbs d e cb :
  cb ∉ cbs → reqs (rx_completed_loop cbs d e) !! cb = reqs e !! cb.
Proof.
  revert d e. induction cbs as [|c cbs IH]; intros d e Hn; cbn [rx_completed_loop]; [done|].
  apply not_elem_of_cons in Hn as [Hne Hn]. destruct (d <? _); [done|]. rewrite IH by done.
  unfold qdma_sgt_req_done. destruct (nonblock _); cbn; by rewrite lookup_alter_ne by done.
Qed.

(** The waiting reads a writeback completes
    ([check_rx_request_completed]) are the longest prefix of the pending list
    whose byte counts the received data cover, in order; the others stay
    pending and untouched. *)
Theorem rx_completes_prefix e :
  let pend := pend_list (dq e) in
  let left := map (λ cb, offset (req_of e cb)) pend in
  let avail := dlen (rx_queue (rx (dq e))) in
  let e' := check_rx_request_completed e in
  NoDup pend → (∀ cb, cb ∈ pend → is_Some (reqs e !! cb)) →
  ∃ k, (k <= length pend)%nat ∧ pend_list (dq e') = drop k pend ∧
    (∀ j, (j < k)%nat → sumZ (take (S j) left) <= avail) ∧
    ((k < length pend)%nat → avail < sumZ (take (S k) left)) ∧
    (∀ cb, cb ∈ take k pend → cb_done (req_of e' cb) = true) ∧
    (∀ cb, cb ∈ drop k pend → req_of e' cb = req_of e cb).
Proof.
  cbv zeta. unfold check_rx_request_completed. generalize (dlen (rx_queue (rx (dq e)))) as d.
  remember (pend_list (dq e)) as pend eqn:Hp. symmetry in Hp. revert e Hp.
  induction pend as [|cb pend IH]; intros e Hp d Hnd Hreq; cbn [rx_completed_loop map].
  { exists 0%nat. cbn. split_and!; [lia|done|lia|lia|by intros cb ?%elem_of_nil|done]. }
  destruct (Z.ltb_spec d (offset (req_of e cb))) as [Hlt|Hle].
  { exists 0%nat. unfold sumZ. cbn. rewrite Hp.
    split_and!; [lia|done|lia|rewrite take_0; cbn; lia|by intros ? ?%elem_of_nil|done]. }
  destruct (req_done_effect cb e pend Hp Hnd) as (Hp' & Hdone & Hoth).
  apply NoDup_cons in Hnd as [Hcb Hnd]. set (e1 := qdma_sgt_req_done cb 0 e) in *.
  assert (∀ c, c ∈ pend → req_of e1 c = req_of e c) as Hreq1.
  { intros c Hc. unfold req_of. rewrite Hoth; [done|]. by intros ->. }
  destruct (IH e1 Hp' (d - offset (req_of e cb)) Hnd) as (k & Hk & Hpd & Hpre & Hnext & Hd & Hrest).
  { intros c Hc. rewrite Hoth by (by intros ->). apply Hreq. by right. }
  rewrite (map_ext_in _ (λ c, offset (req_of e c)) pend) in Hpre, Hnext
    by (intros c Hc; rewrite Hreq1; [done|by apply list_elem_of_In]).
  exists (S k). cbn [length drop take]. split_and!; [lia|done| | | |].
  - intros [|j] Hj; unfold sumZ; cbn; [rewrite take_0; cbn; lia|]. specialize (Hpre j ltac:(lia)). unfold sumZ in Hpre. cbn in Hpre. lia.
  - intros Hkl. specialize (Hnext ltac:(lia)). cbn. unfold sumZ in Hnext. cbn in Hnext. lia.
  - intros c [->|Hc]%elem_of_cons; [|by apply Hd].
    unfold req_of. rewrite rx_completed_loop_other by done. apply Hdone, Hreq. by left.
  - intros c Hc. rewrite Hrest by done. apply Hreq1. by eapply elem_of_drop_in.
Qed.

(** ** Concrete inputs *)

Module SampleRx.

Definition bytes (_ : nat) : list Z := replicate 4096 7.
Definition page : st_rx_data := RxData (Some 3%nat) 2 12 false.
Definition udd_page : st_rx_data := RxData (Some 3%nat) 0 12 true.
Definition udd : st_c2h_wrb_udd := Udd [16; 32; 48; 64; 80; 96] 6 2.

Definition queue (rxq : st_rx_queue) : qdma_descq :=
  (Sample.queue true true)
    <| wrb := WrbRing 4 0 3 DESC_SZ_8B false 8
                (Some [[0x80; 0x38; 1; 0; 0; 0; 0; 0]; []; []; [0x40; 6; 0; 0; 0; 0; 0; 0]])
                3 0x987654000 1 |>
    <| rx := RxState (Some [FlDesc (Some 0%nat) 0x1000 0; FlDesc (Some 1%nat) 0x2000 0;
                            FlDesc (Some 2%nat) 0x3000 0; FlDesc (Some 3%nat) 0x4000 0]) rxq |>.

(** Two new entries: packets of 100 and 5000 bytes. *)
Definition env : rxenv :=
  RxEnv (QEnv (queue rx_empty) ∅ Sample.dev []) (Memory [Page 9 0x9000] []).

Lemma rx_ready : wb_ready 4 env.
Proof. by split. Qed.

Lemma page_is_ok : page_ok bytes page.
Proof. split_and!; cbn; [lia|lia|unfold PAGE_SIZE; lia|done|by exists 3%nat]. Qed.

Definition waiting : qenv :=
  QEnv ((queue (RxQueue 100 [] [])) <| pend_list := [1%nat; 2%nat] |>)
    {[ 1%nat := SampleQ.req 60; 2%nat := SampleQ.req 50 ]} Sample.dev [].

End SampleRx.

Lemma rxq_read_stream_witness : ∃ n rq',
  qdma_descq_rxq_read SampleRx.bytes (SampleRx.queue (RxQueue 10 [] [SampleRx.page])) [4; 3] =
    Some (Z.of_nat n, [[7; 7; 7; 7]; [7; 7; 7]], rq') ∧ dlen rq' = 10 - Z.of_nat n.
Proof.
  destruct (rxq_read_stream SampleRx.bytes (SampleRx.queue (RxQueue 10 [] [SampleRx.page])) [4; 3])
    as (n & rq' & E & _ & _ & _ & Ed & _).
  - split; cbn; [by constructor; [apply SampleRx.page_is_ok|]|done|reflexivity|lia].
  - done.
  - by repeat constructor.
  - exists n, rq'. split; [|exact Ed]. rewrite E. vm_compute. reflexivity.
Defined.

Lemma rxq_read_udd_restarts_witness : ∃ len' r',
  read_udd 3 (Reader 0 [] (Some SampleRx.udd_page) None (RxQueue 16 [SampleRx.udd] [])) =
    Some (len', r') ∧ rd_out r' = [16; 32; 48].
Proof.
  apply (rxq_read_udd_restarts 3
    (Reader 0 [] (Some SampleRx.udd_page) None (RxQueue 16 [SampleRx.udd] []))
    SampleRx.udd_page SampleRx.udd (RxQueue 12 [] [])); done.
Defined.

Lemma st_c2h_wb_receives_witness : ∃ news s',
  descq_st_c2h_wb SampleRx.env = (0, s') ∧ map rx_len news = [100; 4096; 904] ∧
  dlen (rxq_of s') = 5100.
Proof.
  destruct (st_c2h_wb_receives 4 SampleRx.env) as (news & rv & s' & E & _ & L & _ & D & _ & _ & _ & H).
  - apply SampleRx.rx_ready.
  - cbn. lia.
  - cbn. lia.
  - rewrite decide_True in H by (by vm_compute). destruct H as [-> _].
    exists news, s'. split; [exact E|]. rewrite L, D. split; vm_compute; reflexivity.
Defined.

Lemma rx_completes_prefix_witness : ∃ k,
  pend_list (dq (check_rx_request_completed SampleRx.waiting)) = drop k [1%nat; 2%nat].
Proof.
  destruct (rx_completes_prefix SampleRx.waiting) as (k & _ & E & _).
  - apply (bool_decide_unpack _). vm_compute. exact I.
  - cbn. intros cb Hcb. rewrite !elem_of_cons, elem_of_nil in Hcb.
    destruct Hcb as [-> | [-> | []]]; by eexists.
  - by exists k.
Defined.
