(* ===== verification/Thread.v ===== *)
(** * Worker threads (thread.c, qdma_thread.c)

    The table of submission and writeback threads, the choice of a thread for
    a queue ([qdma_thread_add_work]), its release ([qdma_thread_remove_work]),
    the threads' life cycle, and what one pass of a thread does:
    [qdma_thread_wrk_proc] and [qdma_thread_wb_proc] on a queue, and the
    generic loop of [xthread_main].

    A queue is named by its direction and index; the intrusive list nodes of
    a queue ([wrkthp_list], [wbthp_list], [intr_list]) are its name in the
    list it is linked into. *)

From stdpp Require Import pretty.
From S2P Require Import Prelude Regs Types Sgl Descq RxQueue.

(** ** Data *)

Definition descq_id : Type := bool * nat.   (* C2H?, index *)

Record qdma_kthread := KThread {
  th_name : string; cpu : Z; th_id : Z; timeout : Z; task : bool;
  work_cnt : Z; th_work : list descq_id }.
#[export] Instance kthread_eta : Settable qdma_kthread := λ r,
  KThread (th_name r) (cpu r) (th_id r) (timeout r) (task r) (work_cnt r) (th_work r).

(** The globals of qdma_thread.c and the vectors' lists of the device; a node
    that [list_del] took off a list holds poison pointers. *)
Record thread_sys := ThreadSys {
  thread_cnt : Z;
  wrk_threads : list qdma_kthread; wb_threads : list qdma_kthread;
  intr_list : list (list descq_id); poisoned : gset descq_id }.
#[export] Instance thread_sys_eta : Settable thread_sys := λ r,
  ThreadSys (thread_cnt r) (wrk_threads r) (wb_threads r) (intr_list r) (poisoned r).

(** ** Choice of a thread *)

(** The scan of [qdma_thread_add_work] from thread [i] on; [cnt] is
    [thread_cnt], [idx] and [v] the variables of the code. *)
Fixpoint pick_thread (l : list qdma_kthread) (cnt i idx : nat) (v : Z) : nat :=
  match l with
  | [] => idx
  | t :: l =>
      if (idx =? cnt)%nat then pick_thread l cnt (S i) i (work_cnt t)
      else if work_cnt t =? 0 then i
      else pick_thread l cnt (S i) (if work_cnt t <? v then i else idx) v
  end.

(** [list_add_tail] on the list of thread [i], counted; [None] when the
    pointer is outside the table or the node is linked already. *)
Definition attach (i : nat) (d : descq_id) (l : list qdma_kthread) : option (list qdma_kthread) :=
  if bool_decide (i < length l)%nat && negb (existsb (λ t, bool_decide (d ∈ th_work t)) l)
  then Some (alter (λ t, t <| th_work ::= λ w, w ++ [d] |> <| work_cnt ::= λ n, u32 (n + 1) |>) i l)
  else None.

(** [list_del] and the count; [None] when the node is not in that list. *)
Definition detach (i : nat) (d : descq_id) (l : list qdma_kthread) : option (list qdma_kthread) :=
  match l !! i with
  | Some t =>
      if bool_decide (d ∈ th_work t)
      then Some (alter (λ t, t <| th_work ::= filter (.≠ d) |> <| work_cnt ::= λ n, u32 (n - 1) |>) i l)
      else None
  | None => None
  end.

(** [list_add_tail(&descq->intr_list, &xdev->intr_list[v])] *)
Definition intr_attach (v : Z) (d : descq_id) (s : thread_sys) : option thread_sys :=
  if bool_decide (0 <= v < Z.of_nat (length (intr_list s)))
     && negb (existsb (λ l, bool_decide (d ∈ l)) (intr_list s))
  then Some (s <| intr_list ::= alter (λ l, l ++ [d]) (Z.to_nat v) |>
               <| poisoned ::= λ p, p ∖ {[d]} |>)
  else None.

(** [list_del(&descq->intr_list)]: a node never linked points to itself, a
    poisoned one faults. *)
Definition intr_detach (d : descq_id) (s : thread_sys) : option thread_sys :=
  if bool_decide (d ∈ poisoned s) then None
  else Some (s <| intr_list ::= map (filter (.≠ d)) |> <| poisoned ::= λ p, p ∪ {[d]} |>).

(** [None]: a NULL, poisoned or linked node is used. *)
Definition qdma_thread_add_work (d : descq_id) (num_vecs : Z) (q : qdma_descq) (s : thread_sys)
    : option (qdma_descq * thread_sys) :=
  let cnt := Z.to_nat (thread_cnt s) in
  let idx := pick_thread (take cnt (wrk_threads s)) cnt 0 cnt 0 in
  wrk ← attach idx d (wrk_threads s);
  let s := s <| wrk_threads := wrk |> in
  if negb (num_vecs =? 0) then
    s ← intr_attach (intr_id q) d s;
    Some (q <| wrkthp := Some idx |> <| wbthp := None |>, s)
  else
    let wb_idx := (cnt - idx - 1)%nat in
    wb ← attach wb_idx d (wb_threads s);
    Some (q <| wrkthp := Some idx |> <| wbthp := Some wb_idx |>, s <| wb_threads := wb |>).

Definition qdma_thread_remove_work (d : descq_id) (q : qdma_descq) (s : thread_sys)
    : option (qdma_descq * thread_sys) :=
  let thp := wrkthp q in
  let thp_wb := wbthp q in
  let q := q <| wbthp := None |> <| wrkthp := None |> in
  s ← match thp with
      | Some i => wrk ← detach i d (wrk_threads s); Some (s <| wrk_threads := wrk |>)
      | None => Some s
      end;
  match thp_wb with
  | Some i => wb ← detach i d (wb_threads s); Some (q, s <| wb_threads := wb |>)
  | None => s ← intr_detach d s; Some (q, s)
  end.

(** ** Life cycle of the threads *)

(** [created]: the answer of [kthread_create_on_node]. *)
Definition qdma_kthread_start (nm : string) (i : Z) (created : bool) (thp : qdma_kthread)
    : Z * qdma_kthread :=
  if task thp then (- EINVAL, thp) else
  let thp := thp <| th_name := nm +:+ pretty i |> <| th_id := i |> <| th_work := [] |> in
  if created then (0, thp <| task := true |>) else (- EFAULT, thp <| task := false |>).

(** [rv]: the answer of [kthread_stop]. *)
Definition qdma_kthread_stop (rv : Z) (thp : qdma_kthread) : Z * qdma_kthread :=
  if negb (task thp) then (0, thp)
  else if rv <? 0 then (rv, thp)
  else (0, thp <| task := false |>).

Definition zero_thread : qdma_kthread := KThread "" 0 0 0 false 0 [].

(** The submission threads: a failure to start one is not looked at. *)
Fixpoint create_wrk (n : nat) (i : Z) (created : list bool) : list qdma_kthread * list bool :=
  match n with
  | O => ([], created)
  | S n =>
      let '(_, t) := qdma_kthread_start "qdma_wrk_th" i (hd true created)
                       (zero_thread <| cpu := i |> <| timeout := 0 |>) in
      let '(l, rest) := create_wrk n (i + 1) (tail created) in
      (t :: l, rest)
  end.

(** The writeback threads: the first failure ends the loop. *)
Fixpoint create_wb (n : nat) (i : Z) (created : list bool) : Z + list qdma_kthread :=
  match n with
  | O => inr []
  | S n =>
      let '(rv, t) := qdma_kthread_start "qdma_wb_th" i (hd true created)
                        (zero_thread <| cpu := i |> <| timeout := 5 |>) in
      if rv <? 0 then inl rv
      else match create_wb n (i + 1) (tail created) with
           | inl rv => inl rv
           | inr l => inr (t :: l)
           end
  end.

(** [cpus]: [num_online_cpus()]; [alloc]: the answer of [kzalloc]; [created]:
    the answers of the thread creations in order. *)
Definition qdma_threads_create (cpus : Z) (alloc : bool) (created : list bool) (s : thread_sys)
    : Z * thread_sys :=
  if negb (thread_cnt s =? 0) then (0, s) else
  let s := s <| thread_cnt := cpus |> in
  if negb alloc then (- ENOMEM, s) else
  let '(wrk, created) := create_wrk (Z.to_nat cpus) 0 created in
  match create_wb (Z.to_nat cpus) 0 created with
  | inr wb => (0, s <| wrk_threads := wrk |> <| wb_threads := wb |>)
  | inl rv => (rv, s <| wrk_threads := [] |> <| wb_threads := [] |> <| thread_cnt := 0 |>)
  end.

Definition qdma_threads_destroy (s : thread_sys) : thread_sys :=
  if thread_cnt s =? 0 then s
  else s <| wrk_threads := [] |> <| wb_threads := [] |> <| thread_cnt := 0 |>.

(** ** One pass of a thread *)

Section xthread.
Context {S : Type} (fpending : option (descq_id → S → bool)) (fproc : descq_id → S → S).

(** Whether a thread has anything to do. *)
Definition xthread_work_pending (thp : qdma_kthread) (s : S) : bool :=
  match th_work thp, fpending with
  | [], _ | _, None => false
  | l, Some f => existsb (λ d, f d s) l
  end.

(** The work of one turn of the loop of [xthread_main], after the wait. *)
Definition xthread_pass (thp : qdma_kthread) (s : S) : S :=
  fold_left (λ s d, fproc d s) (th_work thp) s.

End xthread.

(** [qdma_thread_wrk_pend]: how many requests could be submitted now. *)
Definition qdma_thread_wrk_pend (e : qenv) : Z :=
  Z.of_nat (length (filter
    (λ cb, offset (req_of e cb) < count (req_of e cb) ∧ avail (ring (dq e)) ≠ 0)
    (work_list (dq e)))).

(** The loop of [qdma_thread_wrk_proc] over the work list at its start. *)
Fixpoint wrk_proc_loop (cbs : list nat) (e : qenv) : qenv :=
  match cbs with
  | [] => e
  | cb :: cbs =>
      let '(rv, e) := qdma_descq_proc_sgt_request cb e in
      let e := if rv <? 0 then qdma_sgt_req_done cb rv e else e in
      if avail (ring (dq e)) =? 0 then e else wrk_proc_loop cbs e
  end.

Definition qdma_thread_wrk_proc (e : qenv) : qenv := wrk_proc_loop (work_list (dq e)) e.

Definition qdma_thread_wb_pend (e : qenv) : bool := negb (bool_decide (pend_list (dq e) = [])).

Definition qdma_thread_wb_proc (s : rxenv) : rxenv := (qdma_descq_service_wb s).2.

(** ** Which thread is picked *)

Definition counts (l : list qdma_kthread) : list Z := map work_cnt l.

(** The scan past the first thread, whose count [v] stays the reference. *)
Lemma pick_from_spec l cnt i idx v :
  (idx < i)%nat → (i + length l = cnt)%nat →
  let r := pick_thread l cnt i idx v in
  (∃ k, r = (i + k)%nat ∧ counts l !! k = Some 0 ∧
        ∀ j c, (j < k)%nat → counts l !! j = Some c → c ≠ 0) ∨
  ((∀ c, c ∈ counts l → c ≠ 0) ∧
   ((r = idx ∧ ∀ c, c ∈ counts l → v <= c) ∨
    (∃ k c, r = (i + k)%nat ∧ counts l !! k = Some c ∧ c < v ∧
       ∀ j c', (k < j)%nat → counts l !! j = Some c' → v <= c'))).
Proof.
  revert i idx. induction l as [|t l IH]; intros i idx Hi Hl; cbn [pick_thread].
  { right. split; [by intros ? ?%elem_of_nil|]. left. split; [done|by intros ? ?%elem_of_nil]. }
  cbn [length] in Hl. destruct (Nat.eqb_spec idx cnt); [lia|].
  destruct (Z.eqb_spec (work_cnt t) 0) as [E0|E0].
  { left. exists 0%nat. split_and!; [lia|cbn; by rewrite E0|intros; lia]. }
  destruct (IH (S i) (if work_cnt t <? v then i else idx)) as [(k & Er & Ek & Hk)|[Hnz Hcase]];
    [case_match; lia|lia| |].
  - left. exists (S k). split_and!; [cbv zeta in *; lia|done|].
    intros [|j] c Hj Hc; [by injection Hc as <-|]. apply (Hk j c); [lia|done].
  - right. split; [by intros c [->|Hc]%elem_of_cons; [|apply Hnz]|].
    destruct Hcase as [[Er Hge]|(k & c & Er & Ek & Hlt & Hafter)].
    + cbv zeta in Er. rewrite Er. destruct (Z.ltb_spec (work_cnt t) v).
      * right. exists 0%nat, (work_cnt t). split_and!; [lia|done|done|].
        intros [|j] c' Hj Hc'; [lia|]. apply Hge. exact (list_elem_of_lookup_2 _ j _ Hc').
      * left. split; [done|]. intros c [->|Hc]%elem_of_cons; [done|by apply Hge].
    + right. exists (S k), c. split_and!; [cbv zeta in Er; lia|done|done|].
      intros [|j] c' Hj Hc'; [lia|]. apply (Hafter j c'); [lia|done].
Qed.

(** The thread [qdma_thread_add_work] picks: the first idle one after
    thread 0, whether or not thread 0 is idle; otherwise the last one with
    less work than thread 0; otherwise thread 0.  Threads are compared with
    thread 0 only, so the pick need not be the least loaded one. *)
Theorem add_work_choice l v0 :
  let cnt := length l in
  let r := pick_thread l cnt 0 cnt 0 in
  counts l !! 0%nat = Some v0 → 
  (r < cnt)%nat ∧
  ((∃ k, (1 <= k)%nat ∧ r = k ∧ counts l !! k = Some 0 ∧
      ∀ j c, (1 <= j < k)%nat → counts l !! j = Some c → c ≠ 0) ∨
   ((∀ j c, (1 <= j)%nat → counts l !! j = Some c → c ≠ 0) ∧
    ((r = 0%nat ∧ ∀ c, c ∈ counts l → v0 <= c) ∨
     (∃ c, (1 <= r)%nat ∧ counts l !! r = Some c ∧ c < v0 ∧
        ∀ j c', (r < j)%nat → counts l !! j = Some c' → v0 <= c')))).
Proof.
  cbv zeta. destruct l as [|t l]; [done|]. intros [= <-]. cbn [pick_thread length].
  rewrite Nat.eqb_refl.
  destruct (pick_from_spec l (S (length l)) 1 0 (work_cnt t)) as [(k & Er & Ek & Hk)|[Hnz Hcase]]; [lia..| |].
  - cbv zeta in Er. rewrite Er. apply lookup_lt_Some in Ek as Hlt. unfold counts in Hlt.
    rewrite length_map in Hlt. split; [lia|]. left. exists (S k). split_and!; [lia|done|done|].
    intros [|j] c Hj Hc; [lia|]. apply (Hk j c); [lia|done].
  - split.
    { destruct Hcase as [[Er _]|(k & c & Er & Ek & _)]; cbv zeta in Er; rewrite Er; [lia|].
      apply lookup_lt_Some in Ek. unfold counts in Ek. rewrite length_map in Ek. lia. }
    right. split.
    { intros [|j] c Hj Hc; [lia|]. apply Hnz. exact (list_elem_of_lookup_2 _ j _ Hc). }
    destruct Hcase as [[Er Hge]|(k & c & Er & Ek & Hlt & Hafter)]; cbv zeta in Er; rewrite Er.
    + left. split; [done|]. intros c [->|Hc]%elem_of_cons; [lia|by apply Hge].
    + right. exists c. split_and!; [lia|done|done|].
      intros [|j] c' Hj Hc'; [lia|]. apply (Hafter j c'); [lia|done].
Qed.

(** ** Adding and removing a queue *)

Definition counts_wf (l : list qdma_kthread) : Prop := Forall (λ t, 0 <= work_cnt t < 2 ^ 32) l.

Lemma filter_app_new {A} `{EqDecision A} (d : A) l : d ∉ l → filter (.≠ d) (l ++ [d]) = l.
Proof.
  intros Hd. rewrite filter_app, filter_cons_False by (intros H; by apply H). cbn.
  rewrite app_nil_r. apply filter_all. by intros x Hx ->.
Qed.

Lemma existsb_notin {A} (d : A) `{EqDecision A} (ls : list (list A)) :
  existsb (λ l, bool_decide (d ∈ l)) ls = false → ∀ l, l ∈ ls → d ∉ l.
Proof.
  intros H l Hl Hd. apply not_true_iff_false in H. apply H. apply existsb_exists.
  exists l. split; [by apply list_elem_of_In|by apply bool_decide_eq_true].
Qed.

Lemma attach_detach i d l l' :
  counts_wf l → attach i d l = Some l' → detach i d l' = Some l.
Proof.
  intros Hwf. unfold attach. destruct (bool_decide_reflect (i < length l)%nat) as [Hi|]; [|done].
  destruct (existsb _ l) eqn:Hx; [done|]. intros [= <-]. cbn [andb negb] in *.
  destruct (lookup_lt_is_Some_2 l i Hi) as [t Ht].
  assert (d ∉ th_work t) as Hd.
  { intros Hd. apply not_true_iff_false in Hx. apply Hx, existsb_exists. exists t.
    split; [|by apply bool_decide_eq_true]. apply list_elem_of_In. by eapply list_elem_of_lookup_2. }
  unfold detach. rewrite list_lookup_alter_eq, Ht. cbn [fmap option_fmap option_map].
  rewrite bool_decide_eq_true_2 by (cbn; apply elem_of_app; right; by left).
  f_equal. apply list_eq. intros j. destruct (decide (j = i)) as [->|Hne].
  - rewrite !list_lookup_alter_eq, Ht. cbn. f_equal.
    unfold counts_wf in Hwf. rewrite Forall_lookup in Hwf. specialize (Hwf i t Ht).
    destruct t as [? ? ? ? ? n w]; cbn in *.
    rewrite filter_app_new by done. f_equal. unfold u32. rewrite Zminus_mod_idemp_l, Z.add_simpl_r.
    by apply Z.mod_small.
  - by rewrite !list_lookup_alter_ne by done.
Qed.

Lemma intr_attach_detach v d s s' :
  intr_attach v d s = Some s' →
  ∃ s'', intr_detach d s' = Some s'' ∧ intr_list s'' = intr_list s ∧
    wrk_threads s'' = wrk_threads s ∧ wb_threads s'' = wb_threads s ∧ d ∈ poisoned s''.
Proof.
  unfold intr_attach. destruct (bool_decide _); [|done]. destruct (existsb _ _) eqn:Hx; [done|].
  intros [= <-]. unfold intr_detach. cbn. rewrite bool_decide_eq_false_2
    by (rewrite elem_of_difference, elem_of_singleton; tauto).
  eexists. split; [done|]. cbn. split_and!; [|done|done|].
  2: { apply elem_of_union_r, elem_of_singleton. done. }
  pose proof (existsb_notin d _ Hx) as Hd. apply list_eq. intros j.
  rewrite list_lookup_fmap. destruct (decide (j = Z.to_nat v)) as [->|Hne].
  - rewrite list_lookup_alter_eq. destruct (intr_list s !! Z.to_nat v) as [l|] eqn:E; [|done].
    cbn. rewrite filter_app_new; [done|]. apply Hd. by eapply list_elem_of_lookup_2.
  - rewrite list_lookup_alter_ne by done. destruct (intr_list s !! j) as [l|] eqn:E; [|done].
    cbn. f_equal. apply filter_all. intros x Hx' ->. apply (Hd l); [|done].
    by eapply list_elem_of_lookup_2.
Qed.

(** Releasing a queue undoes its assignment: [qdma_thread_remove_work]
    after [qdma_thread_add_work] gives back every thread's list and count and
    every vector's list, and leaves the queue without threads.  In interrupt
    mode the list node is then poisoned, so removing the queue once more
    (a second stop) dereferences a poisoned pointer. *)
Theorem add_remove_work d num_vecs q s q' s' :
  counts_wf (wrk_threads s) → counts_wf (wb_threads s) →
  qdma_thread_add_work d num_vecs q s = Some (q', s') →
  ∃ s'', qdma_thread_remove_work d q' s' = Some (q <| wbthp := None |> <| wrkthp := None |>, s'') ∧
    wrk_threads s'' = wrk_threads s ∧ wb_threads s'' = wb_threads s ∧ intr_list s'' = intr_list s ∧
    (num_vecs ≠ 0 → qdma_thread_remove_work d (q <| wbthp := None |> <| wrkthp := None |>) s'' = None).
Proof.
  intros Hw Hwb. unfold qdma_thread_add_work. set (idx := pick_thread _ _ _ _ _).
  destruct (attach idx d (wrk_threads s)) as [wrk|] eqn:Ea; [|done]. cbn [mbind option_bind].
  pose proof (attach_detach _ _ _ _ Hw Ea) as Ed.
  destruct (Z.eqb_spec num_vecs 0) as [->|Hnv]; cbn [negb].
  - destruct (attach _ d (wb_threads _)) as [wb|] eqn:Eb; [|done]. cbn [mbind option_bind] in *.
    intros [= <- <-]. pose proof (attach_detach _ _ _ _ Hwb Eb) as Edb.
    unfold qdma_thread_remove_work. cbn. rewrite Ed. cbn. rewrite Edb. cbn.
    eexists. split; [done|]. by split_and!.
  - destruct (intr_attach _ d _) as [s1|] eqn:Ei; [|done]. cbn [mbind option_bind].
    intros [= <- <-]. unfold qdma_thread_remove_work. cbn.
    destruct (intr_attach_detach _ _ _ _ Ei) as (s2 & E2 & El & Ewrk & Ewb & Hp).
    assert (wrk_threads s1 = wrk) as Es1.
    { unfold intr_attach in Ei. destruct (_ && _); [|done]. by injection Ei as <-. }
    rewrite Es1, Ed. cbn.
    unfold intr_detach in *. cbn in E2 |- *. destruct (bool_decide (d ∈ poisoned s1)); [done|].
    injection E2 as <-. cbn in *. eexists. split; [done|]. cbn. split_and!; [done|by rewrite Ewb|by rewrite El|].
    intros _. by rewrite bool_decide_eq_true_2.
Qed.

(** A thread can always be found for a queue that is linked nowhere. *)
Record threads_ready (d : descq_id) (num_vecs : Z) (s : thread_sys) : Prop := {
  tr_cnt : 0 < thread_cnt s;
  tr_wrk : Z.of_nat (length (wrk_threads s)) = thread_cnt s;
  tr_wb : Z.of_nat (length (wb_threads s)) = thread_cnt s;
  tr_intr : Z.of_nat (length (intr_list s)) = num_vecs;
  tr_new : existsb (λ t, bool_decide (d ∈ th_work t)) (wrk_threads s) = false ∧
           existsb (λ t, bool_decide (d ∈ th_work t)) (wb_threads s) = false ∧
           existsb (λ l, bool_decide (d ∈ l)) (intr_list s) = false
}.

Lemma pick_lt l v0 : counts l !! 0%nat = Some v0 → (pick_thread l (length l) 0 (length l) 0 < length l)%nat.
Proof.
  destruct l as [|t l]; [done|]. intros _. cbn [pick_thread length]. rewrite Nat.eqb_refl.
  destruct (pick_from_spec l (S (length l)) 1 0 (work_cnt t)) as [(k & Er & Ek & _)|[_ [[Er _]|(k & c & Er & Ek & _)]]];
    [lia..| | |]; cbv zeta in Er; rewrite Er; try lia;
    apply lookup_lt_Some in Ek; unfold counts in Ek; rewrite length_map in Ek; lia.
Qed.

Lemma add_work_succeeds d num_vecs q s :
  threads_ready d num_vecs s → num_vecs = 0 ∨ 0 <= intr_id q < num_vecs →
  ∃ q' s' i w, qdma_thread_add_work d num_vecs q s = Some (q', s') ∧
    q' = q <| wrkthp := Some i |> <| wbthp := w |>.
Proof.
  intros [Hc Hw Hwb Hil (Hn1 & Hn2 & Hn3)] Hid. unfold qdma_thread_add_work.
  assert (Z.to_nat (thread_cnt s) = length (wrk_threads s)) as El by lia.
  rewrite El, firstn_all.
  destruct (lookup_lt_is_Some_2 (counts (wrk_threads s)) 0%nat) as [v0 Hv0];
    [unfold counts; rewrite length_map; lia|].
  pose proof (pick_lt _ _ Hv0) as Hlt. set (i := pick_thread _ _ _ _ _) in *.
  assert (∃ wrk, attach i d (wrk_threads s) = Some wrk) as [wrk ->].
  { unfold attach. rewrite bool_decide_eq_true_2, Hn1 by done. cbn. by eexists. }
  cbn [mbind option_bind].
  destruct (Z.eqb_spec num_vecs 0) as [->|Hnz]; cbn [negb].
  - assert (∃ wb, attach (length (wrk_threads s) - i - 1) d (wb_threads s) = Some wb) as [wb Ewb].
    { unfold attach. rewrite bool_decide_eq_true_2, Hn2 by lia. cbn. by eexists. }
    cbn [wb_threads set eta thread_sys_eta]. rewrite Ewb. cbn. by do 4 eexists.
  - unfold intr_attach. cbn [intr_list set eta thread_sys_eta].
    rewrite bool_decide_eq_true_2, Hn3 by lia. cbn. by do 4 eexists.
Qed.

(** Of the queue they change the threads only. *)
Lemma add_work_keeps d nv q (t : thread_sys) q' t' :
  qdma_thread_add_work d nv q t = Some (q', t') → ∃ i w, q' = q <| wrkthp := Some i |> <| wbthp := w |>.
Proof.
  unfold qdma_thread_add_work. destruct (attach _ _ _); [|done]. cbn [mbind option_bind].
  destruct (negb _).
  - destruct (intr_attach _ _ _); [|done]. intros [= <- _]. by eexists _, _.
  - destruct (attach _ _ _); [|done]. intros [= <- _]. by eexists _, _.
Qed.

Lemma remove_work_keeps d q (t : thread_sys) q' t' :
  qdma_thread_remove_work d q t = Some (q', t') → q' = q <| wbthp := None |> <| wrkthp := None |>.
Proof.
  unfold qdma_thread_remove_work. destruct (match wrkthp q with Some _ => _ | None => _ end) as [t1|]; [|done].
  cbn [mbind option_bind]. destruct (wbthp q).
  - destruct (detach _ _ _); [|done]. by intros [= <- _].
  - destruct (intr_detach _ _); [|done]. by intros [= <- _].
Qed.

(** A queue is on the lists its pointers name, or, without a writeback thread,
    has not been taken off its vector's list before. *)
Definition linked (d : descq_id) (q : qdma_descq) (t : thread_sys) : Prop :=
  (∀ i, wrkthp q = Some i → ∃ th, wrk_threads t !! i = Some th ∧ d ∈ th_work th) ∧
  match wbthp q with
  | Some i => ∃ th, wb_threads t !! i = Some th ∧ d ∈ th_work th
  | None => d ∉ poisoned t
  end.

(** A thread's list and count without the queue. *)
Definition leave (d : descq_id) (t : qdma_kthread) : qdma_kthread :=
  t <| th_work ::= filter (.≠ d) |> <| work_cnt ::= λ n, u32 (n - 1) |>.

(** The threads and vectors without the queue; its other neighbours stay. *)
Definition unlinked (d : descq_id) (q : qdma_descq) (t : thread_sys) : thread_sys :=
  ThreadSys (thread_cnt t)
    (match wrkthp q with Some i => alter (leave d) i (wrk_threads t) | None => wrk_threads t end)
    (match wbthp q with Some i => alter (leave d) i (wb_threads t) | None => wb_threads t end)
    (match wbthp q with Some _ => intr_list t | None => map (filter (.≠ d)) (intr_list t) end)
    (match wbthp q with Some _ => poisoned t | None => poisoned t ∪ {[d]} end).

Lemma detach_cases i d l :
  match detach i d l with
  | Some l' => (∃ th, l !! i = Some th ∧ d ∈ th_work th) ∧ l' = alter (leave d) i l
  | None => ¬ ∃ th, l !! i = Some th ∧ d ∈ th_work th
  end.
Proof.
  unfold detach. destruct (l !! i) as [th|] eqn:E; [|by intros (? & ? & _)].
  destruct (bool_decide_reflect (d ∈ th_work th)).
  - split; [by exists th|done].
  - intros (th' & [= <-] & ?). done.
Qed.

(** [qdma_thread_remove_work] takes the queue off its lists or faults. *)
Lemma remove_work_cases d q t :
  match qdma_thread_remove_work d q t with
  | Some (q', t') => linked d q t ∧ q' = q <| wbthp := None |> <| wrkthp := None |> ∧ t' = unlinked d q t
  | None => ¬ linked d q t
  end.
Proof.
  unfold qdma_thread_remove_work, linked, unlinked.
  assert (∀ o, match (match o with Some i => wrk ← detach i d (wrk_threads t); Some (t <| wrk_threads := wrk |>)
      | None => Some t end) with
    | Some t1 => (∀ i, o = Some i → ∃ th, wrk_threads t !! i = Some th ∧ d ∈ th_work th) ∧
        t1 = t <| wrk_threads := match o with Some i => alter (leave d) i (wrk_threads t) | None => wrk_threads t end |>
    | None => ¬ ∀ i, o = Some i → ∃ th, wrk_threads t !! i = Some th ∧ d ∈ th_work th
    end) as Hw.
  { intros [i|]; [|split; [done|by destruct t]]. pose proof (detach_cases i d (wrk_threads t)) as H.
    destruct (detach _ _ _); cbn [mbind option_bind]; [|intros Hn; apply H; by apply Hn].
    destruct H as [H ->]. split; [by intros ? [= <-]|done]. }
  specialize (Hw (wrkthp q)). destruct (match wrkthp q with Some _ => _ | None => _ end) as [t1|]; [|by intros [? _]].
  destruct Hw as [Hw ->]. cbn [mbind option_bind]. destruct (wbthp q) as [i|].
  - pose proof (detach_cases i d (wb_threads t)) as H. cbn. destruct (detach _ _ _); cbn; [|by intros [_ ?]].
    destruct H as [H ->]. by split_and!.
  - unfold intr_detach. cbn. destruct (bool_decide_reflect (d ∈ poisoned t)); cbn; [by intros [_ ?]|]. by split_and!.
Qed.

(** ** One pass over a queue's requests *)

(** A request nothing of which has been submitted, with a sane
    scatter-gather list whose entries add up to its byte count. *)
Record fresh_req (max : Z) (r : qdma_sg_req) : Prop := {
  fresh_start : offset r = 0 ∧ desc_nr r = 0;
  fresh_wf : Forall sg_entry_wf (sgt r);
  fresh_some : sg_pieces max (sgt r) ≠ [];
  fresh_ep : 0 <= ep_addr r < 2 ^ 64;
  fresh_count : count r = sg_total (sgt r) ∧ count r < 2 ^ 32;
  fresh_nr : Z.of_nat (length (sg_pieces max (sgt r))) < desc_nr_max
}.

Lemma batch_sum max sg e :
  0 < max → Forall sg_entry_wf sg → 0 <= sumZ (map snd (batch max sg e)) <= sg_total sg.
Proof.
  intros Hm Hwf. destruct (sg_pieces_sum max Hm sg Hwf) as [Hs Hp].
  unfold batch. set (n := Z.to_nat _). rewrite <- Hs.
  rewrite <- (take_drop n (sg_pieces max sg)) at 3. rewrite map_app, sumZ_app.
  assert (∀ l, Forall (λ p : Z * Z, 0 < p.2 <= max) l → 0 <= sumZ (map snd l)) as Hnn.
  { intros l Hl. apply sumZ_nonneg, Forall_map. eapply Forall_impl; [exact Hl|]. intros p Hp'. cbn in *. lia. }
  pose proof (Hnn (take n (sg_pieces max sg)) (Forall_take _ _ _ Hp)).
  pose proof (Hnn (drop n (sg_pieces max sg)) (Forall_drop _ _ _ Hp)). lia.
Qed.

Lemma fresh_can_submit e cb :
  ring_wf (dq e) → 0 < avail (ring (dq e)) → is_Some (reqs e !! cb) →
  fresh_req (piece_max (dq e)) (req_of e cb) →
  can_submit (piece_max (dq e)) cb (sgt (req_of e cb)) 0 e.
Proof.
  intros Hwf Ha Hk [[Ho Hd] Hsg Hs Hep [Hc Hc32] Hn]. pose proof (piece_max_pos (dq e)) as Hm.
  pose proof (batch_sum (piece_max (dq e)) (sgt (req_of e cb)) e Hm Hsg).
  split; try done.
  - unfold sg_start. by rewrite Ho.
  - rewrite Hd. split; [lia|]. unfold batch. rewrite length_take. lia.
  - lia.
Qed.

(** One request: all of it is submitted, or the ring is full and it stays where
    it is. *)
Lemma wrk_proc_step e cb rest :
  ring_wf (dq e) → credit_inv e → st (conf (dq e)) && c2h (conf (dq e)) = false →
  0 < avail (ring (dq e)) → work_list (dq e) = cb :: rest →
  fresh_req (piece_max (dq e)) (req_of e cb) →
  ∃ e', qdma_descq_proc_sgt_request cb e = (0, e') ∧ ring_wf (dq e') ∧ credit_inv e' ∧
    conf (dq e') = conf (dq e) ∧ (∀ x, x ≠ cb → req_of e' x = req_of e x) ∧
    ((avail (ring (dq e')) = 0 ∧ work_list (dq e') = cb :: rest ∧ pend_list (dq e') = pend_list (dq e)) ∨
     (0 <= avail (ring (dq e')) ∧ work_list (dq e') = rest ∧ pend_list (dq e') = pend_list (dq e) ++ [cb])).
Proof.
  intros Hwf Hi Hm Ha Hw Hf. pose proof (piece_max_pos (dq e)) as Hmax.
  assert (is_Some (reqs e !! cb)) as Hk
    by (apply (lists_known _ Hi), elem_of_app; right; rewrite Hw; by left).
  pose proof (fresh_can_submit e cb Hwf Ha Hk Hf) as Hcs.
  pose proof (can_submit_room _ _ _ _ _ Hmax Hcs) as Hroom.
  pose proof (batch_nonnil _ _ _ _ _ Hcs) as Hne.
  destruct (proc_sgt_request_submitted e cb _ 0 Hcs Hm) as (e' & E & Hsub).
  exists e'. split; [done|].
  split; [by apply (submission_ring cb (batch (piece_max (dq e)) (sgt (req_of e cb)) e) e e')|].
  split; [by apply (submission_credit_inv cb (batch (piece_max (dq e)) (sgt (req_of e cb)) e) rest e e')|].
  split; [apply (sub_conf _ _ _ _ Hsub)|].
  split; [intros x Hx; unfold req_of; by rewrite (sub_other _ _ _ _ Hsub)|].
  rewrite (sub_avail _ _ _ _ Hsub).
  destruct Hf as [[Ho Hd] Hsg _ _ [Hc Hc32] _]. set (sg := sgt (req_of e cb)) in *.
  destruct (sg_pieces_sum (piece_max (dq e)) Hmax sg Hsg) as [Hsum _].
  pose proof (room_avail _ _ _ Hroom) as Hle.
  pose proof (sub_lists _ _ _ _ Hsub) as Hl.
  destruct (submission_notin cb rest e Hi Hw) as (Hn1 & Hn2 & _).
  destruct (Z.eqb_spec (offset (req_of e' cb)) (count (req_of e' cb))) as [_|Hpart].
  - right. split; [lia|]. rewrite Hw in Hl.
    by rewrite filter_cons_False, !filter_ne_notin in Hl by (done || (intros Hne'; by apply Hne')).
  - left. rewrite Hw in Hl. split; [|exact Hl].
    destruct (Z.eqb_spec (avail (ring (dq e)) - Z.of_nat (length (batch (piece_max (dq e)) sg e))) 0)
      as [|Hfull]; [done|]. exfalso. apply Hpart. rewrite (sub_req _ _ _ _ Hsub).
    assert (batch (piece_max (dq e)) sg e = sg_pieces (piece_max (dq e)) sg) as ->.
    { unfold batch in *. rewrite length_take in Hfull. apply take_ge. lia. }
    cbn. by rewrite Ho, Hsum, Hc.
Qed.

(** C20: one pass of a submission thread over a queue of fresh requests
    ([qdma_thread_wrk_proc]) takes requests from the front of the work list, in
    order, to the end of the pending list, each written completely, until none
    is left or no descriptor is free; those left stay on the work list in
    their order, all but the first of them untouched, and the ring and the
    accounting stay consistent. *)
Theorem wrk_proc_drains e :
  ring_wf (dq e) → credit_inv e → st (conf (dq e)) && c2h (conf (dq e)) = false →
  (∀ cb, cb ∈ work_list (dq e) → fresh_req (piece_max (dq e)) (req_of e cb)) →
  let e' := qdma_thread_wrk_proc e in
  ring_wf (dq e') ∧ credit_inv e' ∧
  ∃ taken left, work_list (dq e) = taken ++ left ∧
    work_list (dq e') = left ∧ pend_list (dq e') = pend_list (dq e) ++ taken ∧
    (left = [] ∨ avail (ring (dq e')) = 0) ∧
    (∀ cb, cb ∈ taken → offset (req_of e' cb) = count (req_of e' cb) ∧ 0 < desc_nr (req_of e' cb)) ∧
    (∀ cb, cb ∉ taken → head left ≠ Some cb → req_of e' cb = req_of e cb).
Proof.
  intros Hwf Hi Hm Hf e'.
  cut (ring_wf (dq e') ∧ credit_inv e' ∧ ∃ taken left, work_list (dq e) = taken ++ left ∧
    work_list (dq e') = left ∧ pend_list (dq e') = pend_list (dq e) ++ taken ∧
    (left = [] ∨ avail (ring (dq e')) = 0) ∧
    (∀ cb, cb ∉ taken → head left ≠ Some cb → req_of e' cb = req_of e cb)).
  { intros (H1 & H2 & taken & left & H3 & H4 & H5 & H6 & H7). split_and!; [done..|].
    exists taken, left. split_and!; [done..| |done]. intros cb Hcb.
    destruct (pend_submitted _ H2 cb); [rewrite H5; apply elem_of_app; by right|done]. }
  subst e'. unfold qdma_thread_wrk_proc. remember (work_list (dq e)) as work eqn:Hw. symmetry in Hw.
  revert e Hw Hwf Hi Hm Hf. induction work as [|cb rest IH]; intros e Hw Hwf Hi Hm Hf; cbn [wrk_proc_loop].
  { split_and!; [done..|]. exists [], []. rewrite !app_nil_r.
    split_and!; [done|done|done|by left|done]. }
  destruct (Z.eqb_spec (avail (ring (dq e))) 0) as [Ez|Ez].
  { assert (qdma_descq_proc_sgt_request cb e = (0, e)) as ->.
    { unfold qdma_descq_proc_sgt_request, descq_mm_proc_request, descq_proc_st_h2c_request.
      rewrite Ez. destruct (st _), (c2h _); done. }
    cbn [Z.ltb Z.compare]. rewrite Ez. cbn. split_and!; [done..|].
    exists [], (cb :: rest). rewrite !app_nil_r. split_and!; [done|done|done|by right|done]. }
  pose proof (in_flight_range _ Hwf) as Hfl. pose proof (avail_eq _ Hwf) as Hav.
  destruct (wrk_proc_step e cb rest Hwf Hi Hm ltac:(lia) Hw (Hf cb ltac:(by left)))
    as (e' & E & Hwf' & Hi' & Hc & Hoth & Hcase).
  rewrite E. cbn [Z.ltb Z.compare]. destruct Hcase as [(Hz & Hw' & Hp')|(Hpos & Hw' & Hp')].
  { rewrite Hz. cbn. split_and!; [done..|]. exists [], (cb :: rest). rewrite !app_nil_r.
    split_and!; [done|done|done|by right|]. intros x _ Hx. apply Hoth. intros ->. by apply Hx. }
  destruct (Z.eqb_spec (avail (ring (dq e'))) 0) as [Hz|_].
  { split_and!; [done..|]. exists [cb], rest.
    split_and!; [done|done|done|by right|]. intros x Hx _. apply Hoth. intros ->. apply Hx. by left. }
  destruct (submission_notin cb rest e Hi Hw) as (_ & Hn2 & _).
  destruct (IH e' Hw' Hwf' Hi') as (H1 & H2 & taken & left & H3 & H4 & H5 & H6 & H7); [by rewrite Hc| |].
  { intros x Hx. rewrite Hoth by (by intros ->). rewrite (piece_max_ext (dq e) (dq e') Hc).
    apply Hf. by right. }
  split_and!; [done|done|]. exists (cb :: taken), left. split_and!; [by rewrite H3|done| |done|].
  - by rewrite H5, Hp', <- app_assoc.
  - intros x [Hne Hx]%not_elem_of_cons Hh. rewrite H7 by done. by apply Hoth.
Qed.

Lemma add_work_choice_witness :
  let t n := KThread "" 0 0 0 true n [] in
  counts [t 3; t 1; t 2] !! 0%nat = Some 3 ∧ pick_thread [t 3; t 1; t 2] 3 0 3 0 = 2%nat ∧
  Nat.lt (pick_thread [t 3; t 1; t 2] 3 0 3 0) 3.
Proof.
  cbv zeta. split; [reflexivity|]. split; [reflexivity|].
  destruct (add_work_choice [KThread "" 0 0 0 true 3 []; KThread "" 0 0 0 true 1 [];
                             KThread "" 0 0 0 true 2 []] 3) as [H _]; [reflexivity|exact H].
Defined.

Module SampleThread.

Definition th (n : Z) (w : list descq_id) : qdma_kthread := KThread "" 0 0 0 true n w.
Definition sys : thread_sys :=
  ThreadSys 2 [th 1 [(true, 0%nat)]; th 0 []] [th 0 []; th 1 [(true, 0%nat)]] [[]; []] ∅.

End SampleThread.

Lemma add_remove_work_witness : ∃ q' s' s'',
  qdma_thread_add_work (false, 3%nat) 2 ((Sample.queue false false) <| intr_id := 1 |>) SampleThread.sys
    = Some (q', s') ∧
  qdma_thread_remove_work (false, 3%nat) q'  s' =
    Some (((Sample.queue false false) <| intr_id := 1 |>) <| wbthp := None |> <| wrkthp := None |>, s'').
Proof.
  destruct (qdma_thread_add_work (false, 3%nat) 2 ((Sample.queue false false) <| intr_id := 1 |>)
              SampleThread.sys) as [[q' s']|] eqn:E; [|vm_compute in E; discriminate].
  assert (counts_wf (wrk_threads SampleThread.sys) ∧ counts_wf (wb_threads SampleThread.sys)) as [H1 H2]
    by (split; repeat constructor; cbn; lia).
  destruct (add_remove_work _ _ _ _ _ _ H1 H2 E) as (s'' & E' & _).
  exists q', s', s''. split; [reflexivity|exact E'].
Defined.

Lemma wrk_proc_drains_witness :
  ring_wf (dq (qdma_thread_wrk_proc (SampleQ.env true 0))).
Proof.
  destruct (wrk_proc_drains (SampleQ.env true 0)) as [H _].
  - apply SampleQ.env_ring.
  - apply SampleQ.env_inv.
  - reflexivity.
  - intros cb Hcb. apply list_elem_of_singleton in Hcb as ->.
    assert (req_of (SampleQ.env true 0) 1 = SampleQ.req 0) as -> by reflexivity.
    split; [done|repeat constructor; cbn; lia|by vm_compute|cbn; lia|split; [reflexivity|cbn; lia]|by vm_compute].
  - exact H.
Defined.
