(* ===== verification/Resource.v ===== *)
(** * Configuration and resources of a queue (qdma_descq.c)

    [qdma_descq_init], [qdma_descq_config], the rings and pages a started
    queue owns ([qdma_descq_alloc_resource], [qdma_descq_free_resource]), the
    programming of the hardware ([qdma_descq_prog_hw]) and
    [qdma_descq_cleanup].  The kernel's allocators are parameters: their
    answers are part of the state. *)

From stdpp Require Import pretty.
From S2P Require Import Prelude Regs Types Context Sgl Descq RxQueue.

(** ** Fresh queues and configuration *)

(** A queue whose memory is all zeros ([kzalloc], [memset]). *)
Definition zero_descq : qdma_descq :=
  Descq (QueueConf 0 false false 0 "" 0) 0 false false false
    (CtxtConf 0 0 0 TRIG_MODE_DISABLE 0) 0 0 None None [] []
    (Ring 0 0 0 0 None 0 0)
    (WrbRing 0 0 0 DESC_SZ_8B false 0 None 0 0 0) (RxState None rx_empty).

Definition qdma_descq_init (qbase idx_hw idx_sw : Z) : qdma_descq :=
  zero_descq <| channel := 0 |> <| qidx_hw := u32 (qbase + idx_hw) |>
    <| conf ::= λ c, c <| qidx := idx_sw |> |>.

Definition wrb_entry_len_of (s : ctxt_desc_sz_sel) : Z :=
  match s with
  | DESC_SZ_8B => 8 | DESC_SZ_16B => 16 | DESC_SZ_32B => 32
  | DESC_SZ_RSV | DESC_SZ_OTHER _ => 8
  end.

(** The fall-through cases of the switch turn the user data off. *)
Definition wrb_udd_kept (s : ctxt_desc_sz_sel) : bool :=
  match s with DESC_SZ_RSV | DESC_SZ_OTHER _ => false | _ => true end.

Definition descq_name (xdev : xlnx_dma_dev) (st c2h : bool) (qidx : Z) : string :=
  "qdma" +:+ pretty (dev_idx (dev_conf xdev)) +:+ "-" +:+ (if st then "ST" else "MM")
    +:+ "-" +:+ (if c2h then "C2H" else "H2C") +:+ "-" +:+ pretty qidx.

Definition qdma_descq_config (xdev : xlnx_dma_dev) (qconf : qdma_queue_conf) (reconfig : bool)
    (q : qdma_descq) : qdma_descq :=
  let sel := if c2h qconf && st qconf then desc_sz_of_z (conf_wrb_desc_size qconf) else DESC_SZ_RSV in
  let q :=
    q <| conf ::= λ c, c <| rngsz := RNG_SZ_DFLT |> |>
      <| ring ::= λ r, r <| avail := RNG_SZ_DFLT - 1 |> <| pidx := 0 |> <| cidx := 0 |>
                         <| credit := 0 |> |>
      <| wrb ::= λ w, w <| rngsz_wrb := WRB_RNG_SZ_DFLT |> <| cidx_wrb := 0 |> <| pidx_wrb := 0 |>
                        <| wrb_desc_size := sel |>
                        <| wrb_udd_en := c2h qconf && st qconf && wrb_udd_kept sel |>
                        <| wrb_entry_len := wrb_entry_len_of sel |> |>
      <| cc := CtxtConf (if num_vecs xdev =? 0 then 0 else 1) (pftch_en (dev_conf xdev)) 1
                 TRIG_MODE_ANY 0 |> in
  if reconfig then q else
  q <| conf ::= λ c, c <| st := st qconf |> <| c2h := c2h qconf |>
                       <| name := descq_name xdev (st qconf) (c2h qconf) (qidx c) |> |>.

(** ** Resources *)

(** A queue, its device, and the allocators' answers: bus addresses (or
    NULL) of coherent memory, pages. *)
Record res := Res {
  r_q : qdma_descq; r_xd : xlnx_dma_dev; r_coh : list (option Z); r_mem : memory }.
#[export] Instance res_eta : Settable res := λ r, Res (r_q r) (r_xd r) (r_coh r) (r_mem r).

(** [dma_alloc_coherent]: the bus address, [None] for NULL; the size and the
    zeroing are in the caller's view of the ring. *)
Definition desc_ring_alloc : ST res (option Z) := λ s,
  match r_coh s with
  | [] => (None, s)
  | a :: l => (a, s <| r_coh := l |>)
  end.

Definition zero_ring_desc (q : qdma_descq) : ring_desc :=
  if negb (st (conf q)) then MM (MMDesc 0 0 0 0 0)
  else if c2h (conf q) then C2H (C2HDesc 0) else H2C (H2CDesc 0 0).

Definition qdma_descq_free_resource (q : qdma_descq) : qdma_descq :=
  let q := match desc (ring q) with
           | Some _ => q <| ring ::= λ r, r <| desc := None |> <| desc_bus := 0 |> |>
           | None => q
           end in
  let q := q <| rx ::= λ r, r <| st_rx_fl := None |> |> in
  let q := match desc_wrb (wrb q) with
           | Some _ => q <| wrb ::= λ w, w <| desc_wrb := None |> <| desc_wrb_bus := 0 |> |>
           | None => q
           end in
  if dlen (rx_queue (rx q)) =? 0 then q
  else q <| rx ::= λ r, r <| rx_queue ::= rxq_free_resource |> |>.

Definition set_q (f : qdma_descq → qdma_descq) : res → res := λ s, s <| r_q ::= f |>.

(** The label [err_out] of [qdma_descq_alloc_resource]. *)
Definition alloc_err_out : ST res Z := λ s, (- ENOMEM, set_q qdma_descq_free_resource s).

(** The vectors: the last step. *)
Definition alloc_irq : ST res Z := λ s,
  let '(i, x) := desc_alloc_irq (intr_id (r_q s)) (r_xd s) in
  (0, (set_q (λ q, q <| intr_id := i |>) s) <| r_xd := x |>).

(** The free list, the addresses in the descriptors and the writeback ring of
    a streaming C2H queue. *)
Definition alloc_c2h (k : ST res Z) : ST res Z := λ s,
  let '((rv, fl), m) := fl_fill (rngsz (conf (r_q s))) (st_rx_fl (rx (r_q s))) (r_mem s) in
  let s := (set_q (λ q, q <| rx ::= λ r, r <| st_rx_fl := fl |> |>) s) <| r_mem := m |> in
  if rv <? 0 then alloc_err_out s else
  let addrs := map (λ f, C2H (C2HDesc (fl_dma_addr f))) (default [] fl) in
  let s := set_q (λ q, q <| ring ::= λ r, r <| desc := Some addrs |> |>) s in
  match desc_ring_alloc s with
  | (None, s) => alloc_err_out (set_q (λ q, q <| wrb ::= λ w, w <| desc_wrb := None |> |>) s)
  | (Some bus, s) =>
      k (set_q (λ q,
        q <| wrb ::= λ w, w <| desc_wrb := Some (replicate (Z.to_nat (rngsz_wrb w))
                                                  (replicate (Z.to_nat (wrb_entry_len w)) 0)) |>
                            <| desc_wrb_bus := bus |> <| wrb_wb_pidx := 0 |> <| desc_wrb_cur := 0 |> |>
          <| rx ::= λ r, r <| rx_queue ::= λ x, x <| dlen := 0 |> |> |>) s)
  end.

Definition qdma_descq_alloc_resource : ST res Z := λ s,
  match desc_ring_alloc s with
  | (None, s) => alloc_err_out (set_q (λ q, q <| ring ::= λ r, r <| desc := None |> |>) s)
  | (Some bus, s) =>
      let s := set_q (λ q,
        q <| ring ::= λ r,
          r <| desc := Some (replicate (Z.to_nat (rngsz (conf q))) (zero_ring_desc q)) |>
            <| desc_bus := bus |> <| desc_wb_cidx := 0 |> |>) s in
      if st (conf (r_q s)) && c2h (conf (r_q s)) then alloc_c2h alloc_irq s else alloc_irq s
  end.

(** ** Hardware *)

Section hw.
Context {D : Type} `{!RegIo D}.

(** A doorbell, performed. *)
Definition do_event (ev : event) : ST D unit :=
  match ev with EvWrite reg v => writel reg v | _ => mret tt end.

Definition qdma_descq_prog_hw (xdev : xlnx_dma_dev) (q : qdma_descq) : ST D Z :=
  rv ← qdma_descq_context_setup xdev q;
  if rv <? 0 then mret rv else
  _ ← (if st (conf q) && c2h (conf q)
       then _ ← do_event (descq_wrb_cidx_update q 0);
            do_event (descq_pidx_update q (rngsz (conf q) - 1))
       else mret tt);
  _ ← do_event (intr_cidx_update q 0);
  mret rv.

Definition qdma_descq_cleanup (q : qdma_descq) (xdev : xlnx_dma_dev) : ST D (qdma_descq * xlnx_dma_dev) :=
  let was_inited := inited q in
  let q := if was_inited then q <| inited := false |> <| online := false |> else q in
  _ ← (if was_inited then qdma_descq_context_clear (qidx_hw q) (st (conf q)) (c2h (conf q))
       else mret 0);
  mret (qdma_descq_free_resource q, desc_free_irq (intr_id q) xdev).

End hw.

(** ** Lemmas *)

(** What a queue owns while it is started. *)
Definition has_resources (q : qdma_descq) : Prop :=
  length <$> desc (ring q) = Some (Z.to_nat (rngsz (conf q))) ∧
  (st (conf q) && c2h (conf q) = true →
     length <$> desc_wrb (wrb q) = Some (Z.to_nat (rngsz_wrb (wrb q))) ∧
     length <$> st_rx_fl (rx q) = Some (Z.to_nat (rngsz (conf q)))).

Definition no_resources (q : qdma_descq) : Prop :=
  desc (ring q) = None ∧ desc_wrb (wrb q) = None ∧ st_rx_fl (rx q) = None.

Lemma free_resource_none q : no_resources (qdma_descq_free_resource q).
Proof.
  unfold qdma_descq_free_resource, no_resources.
  destruct (desc (ring q)) eqn:E1; cbn; destruct (desc_wrb (wrb q)) eqn:E2; cbn;
    destruct (dlen (rx_queue (rx q)) =? 0); cbn; rewrite ?E1, ?E2; done.
Qed.

Lemma fl_fill_loop_spec n acc m :
  let '((rv, fl), _) := fl_fill_loop n acc m in
  (rv = 0 ∧ ∃ l, fl = Some (acc ++ l) ∧ length l = n ∧ Forall (λ f, is_Some (fl_pg f)) l) ∨
  (rv = - ENOMEM ∧ fl = None).
Proof.
  revert acc m. induction n as [|n IH]; intros acc m; cbn [fl_fill_loop].
  { left. split; [done|]. exists []. by rewrite app_nil_r. }
  unfold fl_refill_entry. cbn [fl_pg]. unfold mbind, ST_bind, alloc_page.
  destruct (pages m) as [|[|pg|pg dma] l]; cbn; try (by right).
  specialize (IH (acc ++ [FlDesc (Some pg) dma 0]) (Memory l (kmallocs m))).
  destruct (fl_fill_loop _ _ _) as [[rv fl] m']. destruct IH as [(-> & k & -> & Hl & HF)|H]; [left|by right].
  split; [done|]. exists (FlDesc (Some pg) dma 0 :: k). rewrite <- app_assoc.
  split_and!; [done|cbn; by rewrite Hl|]. by constructor.
Qed.

(** Allocation fills every resource of the queue, or gives up with -ENOMEM
    and nothing left behind. *)
Lemma alloc_resource_spec s :
  0 <= rngsz (conf (r_q s)) →
  let '(rv, s') := qdma_descq_alloc_resource s in
  (rv = 0 ∧ has_resources (r_q s')) ∨ (rv = - ENOMEM ∧ no_resources (r_q s') ∧ r_xd s' = r_xd s).
Proof.
  intros Hr. unfold qdma_descq_alloc_resource, desc_ring_alloc at 1.
  destruct (r_coh s) as [|[bus|] coh]; try (right; split_and!; [done|apply free_resource_none|done]).
  cbn [r_q set eta res_eta set_q conf descq_eta].
  destruct (st (conf (r_q s)) && c2h (conf (r_q s))) eqn:Em.
  - unfold alloc_c2h. cbn [r_q r_mem conf rx].
    assert (∀ fl rv m', fl_fill (rngsz (conf (r_q s))) (st_rx_fl (rx (r_q s))) (r_mem s) = ((rv, fl), m') →
      (rv = 0 ∧ length <$> fl = Some (Z.to_nat (rngsz (conf (r_q s))))) ∨ rv = - ENOMEM) as Hfill.
    { intros fl rv m'. unfold fl_fill, mbind, ST_bind.
      destruct (kmalloc (r_mem s)) as [[|] m1]; cbn [negb]; [|intros [= <- _ _]; by right].
      intros E. pose proof (fl_fill_loop_spec (Z.to_nat (rngsz (conf (r_q s)))) [] m1) as H.
      rewrite E in H. destruct H as [(-> & l & -> & Hl & _)|[-> _]]; [left|by right].
      split; [done|]. cbn. by rewrite Hl. }
    destruct (fl_fill _ _ _) as [[rv fl] m'] eqn:Ef.
    destruct (Hfill fl rv m' eq_refl) as [[-> Hl]| ->].
    + cbn [Z.ltb Z.compare]. unfold desc_ring_alloc. cbn [r_coh set eta res_eta set_q].
      destruct coh as [|[bus2|] coh]; try (right; split_and!; [done|apply free_resource_none|done]).
      unfold alloc_irq. destruct (desc_alloc_irq _ _) as [i x]. left. split; [done|].
      unfold has_resources. cbn. rewrite Em. destruct fl as [fl|]; [|done]. cbn in *. injection Hl as Hl.
      rewrite !length_map, length_replicate, Hl. done.
    + change (- ENOMEM <? 0) with true. right. split_and!; [done|apply free_resource_none|done].
  - unfold alloc_irq. destruct (desc_alloc_irq _ _) as [i x]. left. split; [done|].
    unfold has_resources. cbn. rewrite Em, length_replicate. done.
Qed.

(** What allocation and release never change. *)
Definition same_config (q q' : qdma_descq) : Prop :=
  conf q' = conf q ∧ cc q' = cc q ∧ channel q' = channel q ∧ qidx_hw q' = qidx_hw q ∧
  enabled q' = enabled q ∧ inited q' = inited q ∧ online q' = online q ∧
  wrb_desc_size (wrb q') = wrb_desc_size (wrb q) ∧ rngsz_wrb (wrb q') = rngsz_wrb (wrb q) ∧
  pidx (ring q') = pidx (ring q) ∧ cidx (ring q') = cidx (ring q) ∧ avail (ring q') = avail (ring q) ∧
  credit (ring q') = credit (ring q) ∧ work_list q' = work_list q ∧ pend_list q' = pend_list q.

Ltac same_cfg := intros; unfold same_config; cbn; split_and!; reflexivity.

Lemma same_config_trans q1 q2 q3 : same_config q1 q2 → same_config q2 q3 → same_config q1 q3.
Proof. unfold same_config. intuition congruence. Qed.

Lemma free_resource_config q : same_config q (qdma_descq_free_resource q).
Proof.
  unfold qdma_descq_free_resource, same_config.
  destruct (desc (ring q)); cbn; destruct (desc_wrb (wrb q)); cbn;
    destruct (dlen (rx_queue (rx q)) =? 0); cbn; by split_and!.
Qed.

Definition buses_ok (q : qdma_descq) : Prop :=
  0 <= desc_bus (ring q) < 2 ^ 64 ∧ 0 <= desc_wrb_bus (wrb q) < 2 ^ 64.

Definition coh_ok (l : list (option Z)) : Prop := Forall (λ a, ∀ b, a = Some b → 0 <= b < 2 ^ 64) l.

Lemma free_resource_buses q : buses_ok q → buses_ok (qdma_descq_free_resource q).
Proof.
  unfold qdma_descq_free_resource, buses_ok. intros [H1 H2].
  destruct (desc (ring q)); cbn; destruct (desc_wrb (wrb q)); cbn;
    destruct (dlen (rx_queue (rx q)) =? 0); cbn; lia.
Qed.

(** The frame of [qdma_descq_alloc_resource]: the queue's settings, the device
    apart from its vector counts, and sane bus addresses. *)
Definition alloc_frame (s s' : res) : Prop :=
  same_config (r_q s) (r_q s') ∧
  (∃ cnts, r_xd s' = (r_xd s) <| intr_list_cnt := cnts |>) ∧
  (coh_ok (r_coh s) → buses_ok (r_q s) → coh_ok (r_coh s') ∧ buses_ok (r_q s')).

Lemma xd_cnts_refl x : ∃ cnts, x = x <| intr_list_cnt := cnts |>.
Proof. exists (intr_list_cnt x). by destruct x. Qed.

Lemma alloc_err_out_frame s : alloc_frame s (alloc_err_out s).2.
Proof.
  unfold alloc_err_out, alloc_frame. cbn. split_and!.
  - apply free_resource_config.
  - apply xd_cnts_refl.
  - intros H Hb. split; [done|]. by apply free_resource_buses.
Qed.

Lemma alloc_irq_frame s : alloc_frame s (alloc_irq s).2.
Proof.
  unfold alloc_irq, alloc_frame, desc_alloc_irq. destruct (num_vecs (r_xd s) =? 0); cbn.
  - split_and!; [same_cfg|apply xd_cnts_refl|done].
  - split_and!; [same_cfg|eexists; reflexivity|done].
Qed.

Lemma alloc_frame_trans s1 s2 s3 : alloc_frame s1 s2 → alloc_frame s2 s3 → alloc_frame s1 s3.
Proof.
  intros (A1 & (c1 & B1) & C1) (A2 & (c2 & B2) & C2). split_and!.
  - by eapply same_config_trans.
  - exists c2. rewrite B2, B1. done.
  - intros H Hb. destruct (C1 H Hb) as [H1 H2]. by apply C2.
Qed.

Lemma set_q_frame f s :
  same_config (r_q s) (f (r_q s)) → (buses_ok (r_q s) → buses_ok (f (r_q s))) →
  alloc_frame s (set_q f s).
Proof. intros H1 H2. split_and!; cbn; [done|apply xd_cnts_refl|by split; auto]. Qed.

Lemma ring_alloc_frame s : alloc_frame s (desc_ring_alloc s).2.
Proof.
  unfold desc_ring_alloc. destruct (r_coh s) as [|a l] eqn:E; (split_and!; cbn;
    [same_cfg|apply xd_cnts_refl|]).
  - done.
  - rewrite E. intros [_ H]%Forall_cons Hb. done.
Qed.

Lemma ring_alloc_bus s bus s' :
  desc_ring_alloc s = (Some bus, s') → coh_ok (r_coh s) → 0 <= bus < 2 ^ 64.
Proof.
  unfold desc_ring_alloc. destruct (r_coh s) as [|a l]; [done|]. intros [= -> _] [H _]%Forall_cons. auto.
Qed.

(** A ring is allocated and recorded in the queue. *)
Lemma ring_set_frame s bus s' f :
  desc_ring_alloc s = (Some bus, s') → (∀ q, same_config q (f q)) →
  (∀ q, 0 <= bus < 2 ^ 64 → buses_ok q → buses_ok (f q)) → alloc_frame s (set_q f s').
Proof.
  intros E Hc Hb. pose proof (ring_alloc_frame s) as (A & B & C). rewrite E in A, B, C. cbn in A, B, C.
  split_and!; cbn.
  - by eapply same_config_trans.
  - done.
  - intros H1 H2. destruct (C H1 H2) as [H3 H4]. split; [done|]. apply Hb; [|done]. by eapply ring_alloc_bus.
Qed.

Lemma alloc_c2h_frame k s : (∀ s, alloc_frame s (k s).2) → alloc_frame s (alloc_c2h k s).2.
Proof.
  intros Hk. unfold alloc_c2h. destruct (fl_fill _ _ _) as [[rv fl] m].
  set (s1 := (set_q _ s) <| r_mem := m |>).
  assert (alloc_frame s s1) as F1 by (split_and!; cbn; [same_cfg|apply xd_cnts_refl|by split]).
  destruct (rv <? 0); [eapply alloc_frame_trans; [exact F1|apply alloc_err_out_frame]|].
  set (s2 := set_q _ s1).
  assert (alloc_frame s s2) as F2
    by (eapply alloc_frame_trans; [exact F1|]; apply set_q_frame; [same_cfg|done]).
  pose proof (ring_alloc_frame s2) as F3. destruct (desc_ring_alloc s2) as [[bus|] s3] eqn:E3.
  - eapply alloc_frame_trans; [exact F2|]. eapply alloc_frame_trans; [|apply Hk].
    eapply ring_set_frame; [exact E3|same_cfg|]. intros q Hb [H1 H2]. by split.
  - eapply alloc_frame_trans; [exact F2|]. eapply alloc_frame_trans; [exact F3|].
    eapply alloc_frame_trans; [|apply alloc_err_out_frame]. apply set_q_frame; [same_cfg|done].
Qed.

Lemma alloc_resource_frame s : alloc_frame s (qdma_descq_alloc_resource s).2.
Proof.
  unfold qdma_descq_alloc_resource.
  pose proof (ring_alloc_frame s) as F1. destruct (desc_ring_alloc s) as [[bus|] s1] eqn:E1.
  - set (s2 := set_q _ s1). assert (alloc_frame s s2) as F2.
    { eapply ring_set_frame; [exact E1|same_cfg|]. intros q Hb [H1 H2]. by split. }
    destruct (st _ && c2h _); (eapply alloc_frame_trans; [exact F2|]);
      [apply alloc_c2h_frame|]; intros; apply alloc_irq_frame.
  - eapply alloc_frame_trans; [exact F1|]. eapply alloc_frame_trans; [|apply alloc_err_out_frame].
    apply set_q_frame; [same_cfg|done].
Qed.

(** With sane bus addresses the queue's fields stay sane. *)
Lemma fields_wf_config q q' :
  descq_fields_wf q → same_config q q' → buses_ok q' → descq_fields_wf q'.
Proof.
  intros [? ? ? ? ? ? ?] (Ec & Ecc & Ech & _ & _ & _ & _ & Es & _) [? ?].
  split; rewrite ?Ecc, ?Ech, ?Es; done.
Qed.

(** A doorbell does not touch the contexts. *)
Lemma do_event_idle {D} `{HC : CtxtHw D} reg v (d : D) :
  is_ctxt_reg reg = false → ctxt_idle d →
  ∃ d', do_event (EvWrite reg v) d = (tt, d') ∧ ctxt_idle d' ∧ ctxts d' = ctxts d.
Proof.
  intros Hr [Hb Hw]. cbn. destruct (ch_write_other reg v d Hr) as [Hv Hb'].
  destruct (writel reg v d) as [[] d']. exists d'. cbn in *. unfold ctxt_idle, ctxts. by rewrite Hv, Hb'.
Qed.

Lemma doorbell_not_ctxt base n :
  QDMA_REG_IND_CTXT_CMD < base → 0 <= n → is_ctxt_reg (base + n * QDMA_REG_PIDX_STEP) = false.
Proof.
  intros Hb Hn. unfold is_ctxt_reg, QDMA_REG_PIDX_STEP, QDMA_REG_IND_CTXT_CMD in *.
  rewrite andb_false_iff. right. apply Z.leb_gt. lia.
Qed.

(** Programming the hardware of a queue succeeds on an idle device and leaves
    exactly its contexts programmed. *)
Lemma prog_hw_run {D} `{HC : CtxtHw D} xdev q (d : D) :
  ctxt_idle d → 0 <= qidx_hw q < 2048 → 0 <= qidx (conf q) → descq_fields_wf q →
  0 <= func_id xdev < 256 →
  ∃ d', qdma_descq_prog_hw xdev q d = (0, d') ∧ ctxt_idle d' ∧
    ctxts d' = programmed (qidx_hw q) (st (conf q)) (c2h (conf q)) (descq_contexts xdev q)
                 (cleared (qidx_hw q) (st (conf q)) (c2h (conf q)) (ctxts d)).
Proof.
  intros Hi Hq Hn Hwf Hf. destruct (context_setup_run d xdev q) as (d1 & E1 & Hi1 & Hc1); [done..|].
  unfold qdma_descq_prog_hw. rewrite (st_bind_eq _ _ _ _ _ E1). cbn [Z.ltb Z.compare].
  assert (∃ d2, (if st (conf q) && c2h (conf q)
       then _ ← do_event (descq_wrb_cidx_update q 0);
            do_event (descq_pidx_update q (rngsz (conf q) - 1))
       else mret tt) d1 = (tt, d2) ∧ ctxt_idle d2 ∧ ctxts d2 = ctxts d1) as (d2 & E2 & Hi2 & Hc2).
  { destruct (st (conf q) && c2h (conf q)); [|by exists d1].
    destruct (do_event_idle (QDMA_REG_WRB_CIDX_BASE + qidx (conf q) * QDMA_REG_PIDX_STEP)
      (match descq_wrb_cidx_update q 0 with EvWrite _ v => v | _ => 0 end) d1) as (d2 & E2 & Hi2 & Hc2);
      [by apply doorbell_not_ctxt|done|].
    change (EvWrite _ _) with (descq_wrb_cidx_update q 0) in E2. rewrite (st_bind_eq _ _ _ _ _ E2).
    destruct (do_event_idle (pidx_reg q)
      (match descq_pidx_update q (rngsz (conf q) - 1) with EvWrite _ v => v | _ => 0 end) d2)
      as (d3 & E3 & Hi3 & Hc3); [unfold pidx_reg; destruct (c2h (conf q)); by apply doorbell_not_ctxt|done|].
    exists d3. split_and!; [exact E3|done|congruence]. }
  rewrite (st_bind_eq _ _ _ _ _ E2).
  destruct (do_event_idle (QDMA_REG_INT_CIDX_BASE + qidx (conf q) * QDMA_REG_PIDX_STEP)
    (match intr_cidx_update q 0 with EvWrite _ v => v | _ => 0 end) d2) as (d3 & E3 & Hi3 & Hc3);
    [by apply doorbell_not_ctxt|done|].
  change (EvWrite _ _) with (intr_cidx_update q 0) in E3. rewrite (st_bind_eq _ _ _ _ _ E3).
  exists d3. split_and!; [done|done|congruence].
Qed.

(** ** The vector of a started queue *)

Lemma irq_scan_range cnts i idx m :
  let r := irq_scan cnts i idx m in r = idx ∨ (i <= r < i + length cnts)%nat.
Proof.
  revert i idx m. induction cnts as [|n cnts IH]; intros i idx m; cbn [irq_scan length]; [by left|].
  destruct (n <? m).
  - destruct (n =? 0); [right; cbn; lia|]. destruct (IH (S i) i n) as [->|H]; right; cbn in *; lia.
  - destruct (m =? 0); [by left|]. destruct (IH (S i) idx m) as [H|H]; [by left|right; cbn in *; lia].
Qed.

(** The vector is one of the device's. *)
Definition intr_ok (r : res) : Prop :=
  num_vecs (r_xd r) = 0 ∨ 0 <= intr_id (r_q r) < num_vecs (r_xd r).

Lemma alloc_irq_intr s :
  0 <= num_vecs (r_xd s) → intr_ok (alloc_irq s).2.
Proof.
  intros Hn. unfold alloc_irq, intr_ok, desc_alloc_irq.
  destruct (Z.eqb_spec (num_vecs (r_xd s)) 0) as [E|E]; cbn; [by left|right].
  set (cnts := take _ _). pose proof (irq_scan_range cnts 0 0 (array (intr_list_cnt (r_xd s)) 0)) as H.
  assert (length cnts <= Z.to_nat (num_vecs (r_xd s)))%nat by (unfold cnts; rewrite length_take; lia).
  cbv zeta in H. lia.
Qed.

Lemma alloc_c2h_intr k s :
  (∀ s', num_vecs (r_xd s') = num_vecs (r_xd s) → intr_ok (k s').2) →
  (alloc_c2h k s).1 = 0 → intr_ok (alloc_c2h k s).2.
Proof.
  intros Hk. unfold alloc_c2h. destruct (fl_fill _ _ _) as [[rv fl] m].
  destruct (rv <? 0); [done|]. unfold desc_ring_alloc. cbn.
  destruct (r_coh s) as [|[bus|] l]; [done| |done]. intros _. by apply Hk.
Qed.

Lemma alloc_resource_intr s :
  0 <= num_vecs (r_xd s) → (qdma_descq_alloc_resource s).1 = 0 →
  intr_ok (qdma_descq_alloc_resource s).2.
Proof.
  intros Hn. unfold qdma_descq_alloc_resource, desc_ring_alloc.
  destruct (r_coh s) as [|[bus|] l]; [done| |done].
  destruct (st _ && c2h _).
  - apply alloc_c2h_intr. intros s' Hs'. apply alloc_irq_intr. rewrite Hs'. done.
  - intros _. by apply alloc_irq_intr.
Qed.

(** ** The writeback index of a started queue *)

Lemma alloc_c2h_wb s :
  (alloc_c2h alloc_irq s).1 = 0 →
  desc_wb_cidx (ring (r_q (alloc_c2h alloc_irq s).2)) = desc_wb_cidx (ring (r_q s)).
Proof.
  unfold alloc_c2h. destruct (fl_fill _ _ _) as [[rv fl] m].
  destruct (rv <? 0); [done|]. unfold desc_ring_alloc, alloc_irq. cbn.
  destruct (r_coh s) as [|[bus|] l]; [done| |done]. by destruct (desc_alloc_irq _ _).
Qed.

(** A ring that has been allocated says that the device has consumed nothing. *)
Lemma alloc_resource_wb s :
  (qdma_descq_alloc_resource s).1 = 0 →
  desc_wb_cidx (ring (r_q (qdma_descq_alloc_resource s).2)) = 0.
Proof.
  unfold qdma_descq_alloc_resource, desc_ring_alloc.
  destruct (r_coh s) as [|[bus|] l]; [done| |done].
  destruct (st _ && c2h _).
  - intros H. by rewrite alloc_c2h_wb.
  - unfold alloc_irq. by destruct (desc_alloc_irq _ _).
Qed.
