(* ===== verification/Intr.v ===== *)
(** * Interrupts (qdma_intr.c) and the lookup of a queue (qdma_device.c)

    The set-up of the vectors ([intr_setup]) and of the aggregation rings
    ([intr_ring_setup], [intr_ring_teardown]), the handler [irq_top] with the
    work it schedules, and [qdma_device_get_descq_by_id], which it and every
    call of the API use. *)

From S2P Require Import Prelude Regs Types Context Sgl Descq RxQueue Thread Resource.

(** ** Looking a queue up *)

Definition get_descq (qd : qdma_dev) (d : descq_id) : option qdma_descq :=
  (if d.1 then c2h_descq qd else h2c_descq qd) !! d.2.

Definition set_descq (d : descq_id) (q : qdma_descq) (qd : qdma_dev) : qdma_dev :=
  if d.1 then qd <| c2h_descq ::= <[d.2 := q]> |> else qd <| h2c_descq ::= <[d.2 := q]> |>.

(** [idx] is an [unsigned long]: the indices from [qmax] on are the C2H
    queues.  [init]: the queue must have been added. *)
Definition qdma_device_get_descq_by_id (qd : qdma_dev) (idx : Z) (init : bool) : option descq_id :=
  d ← (if qmax qd <=? idx then
         let idx := idx - qmax qd in
         if qmax qd <=? idx then None else Some (true, Z.to_nat idx)
       else Some (false, Z.to_nat idx));
  if init && negb (default false (enabled <$> get_descq qd d)) then None else Some d.

(** ** Interrupt state of the device *)

(** An entry of an aggregation ring, as the device writes it. *)
Record qdma_intr_ring := IntrRing { ring_qid : Z; ring_coal_color : bool }.

(** The device with its vectors ([msix[i].vector]), the rings the entries of
    [intr_coal_list] point to, and the answers of the allocators. *)
Record intr_sys := IntrSys {
  i_xd : xlnx_dma_dev; msix : list Z; intr_rings : list (list qdma_intr_ring);
  i_coh : list (option Z); i_kzalloc : list bool }.
#[export] Instance intr_sys_eta : Settable intr_sys := λ r,
  IntrSys (i_xd r) (msix r) (intr_rings r) (i_coh r) (i_kzalloc r).

Definition XDEV_FLAG_IRQ : Z := 0x2.

(** ** Set-up *)

(** [vec_count]: [pci_msix_vec_count]; [enable]: the answer of
    [pci_enable_msix]; [request]: those of [request_irq] in order. *)
Fixpoint request_irqs (n : nat) (request : list Z) : Z :=
  match n with
  | O => 0
  | S n => let rv := hd 0 request in if negb (rv =? 0) then rv else request_irqs n (tail request)
  end.

Definition intr_setup (vec_count enable : Z) (request : list Z) : ST xlnx_dma_dev Z := λ x,
  if poll_mode (dev_conf x) then (0, x) else
  let x := x <| num_vecs := vec_count |> in
  if num_vecs x =? 0 then (0, x) else
  let x := if XDEV_NUM_IRQ_MAX <? num_vecs x then x <| num_vecs := XDEV_NUM_IRQ_MAX |> else x in
  if enable <? 0 then (enable, x) else
  let rv := request_irqs (Z.to_nat (num_vecs x)) request in
  if negb (rv =? 0) then (rv, x) else (0, x <| flags ::= Z.lor XDEV_FLAG_IRQ |>).

Inductive intr_ring_size_sel :=
  INTR_RING_SZ_4KB | INTR_RING_SZ_8KB | INTR_RING_SZ_12KB | INTR_RING_SZ_16KB
| INTR_RING_SZ_20KB | INTR_RING_SZ_24KB | INTR_RING_SZ_28KB | INTR_RING_SZ_32KB.

Definition ring_entries (sz : intr_ring_size_sel) : Z :=
  match sz with
  | INTR_RING_SZ_4KB => 512 | INTR_RING_SZ_8KB => 1024 | INTR_RING_SZ_12KB => 1536
  | INTR_RING_SZ_16KB => 2048 | INTR_RING_SZ_20KB => 2560 | INTR_RING_SZ_24KB => 3072
  | INTR_RING_SZ_28KB => 3584 | INTR_RING_SZ_32KB => 4096
  end.

Definition intr_ring_alloc : ST intr_sys (option Z) := λ s,
  match i_coh s with [] => (None, s) | a :: l => (a, s <| i_coh := l |>) end.

(** The loop over the vectors; [None]: a ring could not be allocated. *)
Fixpoint ring_setup_loop (n counter : nat) (num_entries : Z) (acc : list intr_coal_conf)
    : ST intr_sys (option (list intr_coal_conf)) :=
  match n with
  | O => mret (Some acc)
  | S n => λ s,
      match intr_ring_alloc s with
      | (None, s) => (None, s)
      | (Some bus, s) =>
          ring_setup_loop n (S counter) num_entries
            (acc ++ [IntrCoal (u16 (array (msix s) counter)) num_entries bus true 0 0]) s
      end
  end.

Definition intr_ring_setup (ring_size : intr_ring_size_sel) : ST intr_sys Z := λ s,
  let x := i_xd s in
  let off s := s <| i_xd ::= λ x, x <| intr_coal_en := false |> <| intr_coal_list := [] |> |> in
  if poll_mode (dev_conf x) || negb (indirect_intr_mode (dev_conf x)) then (0, off s) else
  if negb (num_vecs x =? 0) && (num_vecs x <? qsets_max (dev_conf x)) then
    let s := s <| i_xd ::= λ x, x <| intr_coal_en := true |> |> in
    let num_entries := ring_entries ring_size in
    let ok := hd true (i_kzalloc s) in
    let s := s <| i_kzalloc ::= @tail bool |> in
    if negb ok then (- ENOMEM, s) else
    let n := Z.to_nat (num_vecs x) in
    match ring_setup_loop n 0 num_entries [] s with
    | (None, s) => (- ENOMEM, s)
    | (Some l, s) =>
        (0, s <| i_xd ::= λ x, x <| intr_coal_list := l |> |>
              <| intr_rings := replicate n (replicate (Z.to_nat num_entries) (IntrRing 0 false)) |>)
    end
  else (0, off s).

(** The rings and the list are freed; [intr_coal_list] keeps its value. *)
Definition intr_ring_teardown (s : intr_sys) : intr_sys := s <| intr_rings := [] |>.

(** ** The handler *)

(** [IRQ_FAULT]: a NULL list is dereferenced, or an entry past the ring read. *)
Inductive irqreturn := IRQ_NONE | IRQ_HANDLED | IRQ_ERROR (rv : Z) | IRQ_FAULT.

(** How the loop over the ring's entries ends: at [counter]; at an entry that
    names no queue; past the end of the ring. *)
Inductive irq_stop := StoppedAt (counter : Z) | BadQid | PastRing.

(** [for (..; counter < bound; counter++)]: the queues whose work is
    scheduled, and how the loop ended. *)
Fixpoint irq_loop (n : nat) (counter bound : Z) (color : bool) (ring : list qdma_intr_ring)
    (qd : qdma_dev) (acc : list descq_id) : list descq_id * irq_stop :=
  match n with
  | O => (acc, StoppedAt counter)
  | S n =>
      if bound <=? counter then (acc, StoppedAt counter) else
      match ring !! Z.to_nat counter with
      | None => (acc, PastRing)
      | Some e =>
          if negb (Bool.eqb (ring_coal_color e) color) then (acc, StoppedAt counter) else
          match qdma_device_get_descq_by_id qd (ring_qid e) false with
          | None => (acc, BadQid)
          | Some d => irq_loop n (counter + 1) bound color ring qd (acc ++ [d])
          end
      end
  end.

(** What the handler does: its return, the queues scheduled, the device, and
    whether the device's lock is still held. *)
Definition irq_top (irq : Z) (qd : qdma_dev) (lists : list (list descq_id)) (s : intr_sys)
    : irqreturn * list descq_id * intr_sys * bool :=
  let x := i_xd s in
  match list_find (λ v, v = irq) (take (Z.to_nat (num_vecs x)) (msix s)) with
  | None => (IRQ_NONE, [], s, false)
  | Some (i, v) =>
      if intr_coal_en x then
        match intr_coal_list x !! i with
        | None => (IRQ_FAULT, [], s, true)
        | Some c =>
            if v =? vec_id c then
              let bound := u32 (intr_ring_size c - coal_pidx c) in
              match irq_loop (Z.to_nat (bound - coal_pidx c)) (coal_pidx c) bound (coal_color c)
                      (nth i (intr_rings s) []) qd [] with
              | (sched, BadQid) => (IRQ_ERROR (- EINVAL), sched, s, true)
              | (sched, PastRing) => (IRQ_FAULT, sched, s, true)
              | (sched, StoppedAt counter) =>
                  (IRQ_HANDLED, sched,
                   s <| i_xd ::= λ x, x <| intr_coal_list ::= alter (λ c, c <| coal_pidx := counter |>) i |> |>,
                   false)
              end
            else (IRQ_HANDLED, [], s, false)
        end
      else (IRQ_HANDLED, nth i lists [], s, false)
  end.

(** [intr_work]: the work of a scheduled queue. *)
Definition intr_work : ST rxenv unit := qdma_descq_service_wb.

(** ** Lemmas and properties *)

(** Every handle names one queue: those below [qmax] the H2C queues, the next
    [qmax] the C2H queues, and nothing beyond. *)
Lemma get_descq_by_id_cases qd idx :
  0 <= idx →
  qdma_device_get_descq_by_id qd idx false =
    if idx <? qmax qd then Some (false, Z.to_nat idx)
    else if idx <? 2 * qmax qd then Some (true, Z.to_nat (idx - qmax qd)) else None.
Proof.
  intros Hi. unfold qdma_device_get_descq_by_id. cbn [andb].
  destruct (Z.leb_spec (qmax qd) idx), (Z.ltb_spec idx (qmax qd)); try lia; cbn [mbind option_bind]; [|done].
  destruct (Z.leb_spec (qmax qd) (idx - qmax qd)), (Z.ltb_spec idx (2 * qmax qd)); try lia; done.
Qed.

Lemma irq_loop_spec n counter bound color ring qd acc ids :
  0 <= counter → (Z.to_nat (bound - counter) <= n)%nat → 
  counter + Z.of_nat (length ids) <= bound →
  (∀ k, (k < length ids)%nat → ∃ e, ring !! (Z.to_nat counter + k)%nat = Some e ∧ 
     ring_coal_color e = color ∧ qdma_device_get_descq_by_id qd (ring_qid e) false = ids !! k) →
  (counter + Z.of_nat (length ids) < bound →
     ∃ e, ring !! (Z.to_nat counter + length ids)%nat = Some e ∧ ring_coal_color e = negb color) →
  irq_loop n counter bound color ring qd acc =
    (acc ++ ids, StoppedAt (counter + Z.of_nat (length ids))).
Proof.
  revert counter acc ids. induction n as [|n IH]; intros counter acc ids Hc Hn Hb Hin Hstop.
  { destruct ids; cbn in *; [|lia]. by rewrite app_nil_r, Z.add_0_r. }
  cbn [irq_loop]. destruct ids as [|d ids].
  - cbn [length] in *. rewrite Z.add_0_r, app_nil_r in *.
    destruct (Z.leb_spec bound counter); [done|].
    destruct (Hstop ltac:(lia)) as (e & He & Hcol). rewrite Nat.add_0_r in He. rewrite He, Hcol.
    by destruct color.
  - cbn [length] in *. destruct (Z.leb_spec bound counter); [lia|].
    destruct (Hin 0%nat ltac:(lia)) as (e & He & Hcol & Hid). rewrite Nat.add_0_r in He.
    rewrite He, Hcol, Hid. rewrite (eqb_reflx color). cbn.
    rewrite (IH (counter + 1) (acc ++ [d]) ids); [|lia|lia|lia| |].
    + rewrite <- app_assoc. cbn. f_equal. f_equal. lia.
    + intros k Hk. destruct (Hin (S k) ltac:(lia)) as (e' & He' & ?). exists e'.
      split; [|done]. rewrite <- He'. f_equal. lia.
    + intros Hlt. destruct (Hstop ltac:(lia)) as (e' & He' & ?). exists e'.
      split; [|done]. rewrite <- He'. f_equal. lia.
Qed.

(** C39: an interrupt in aggregation mode ([irq_top]): from the software
    producer index on, exactly the queues named by the entries that carry the
    expected colour are scheduled, in ring order, up to the first entry of
    the other colour or to [ring size - producer index]; the index moves to
    where the loop stopped and the lock is released.  In particular, once the
    index has reached half the ring, no entry is looked at any more. *)
Theorem irq_top_aggregated irq qd lists s i c ids :
  let x := i_xd s in
  let bound := intr_ring_size c - coal_pidx c in
  let ring := nth i (intr_rings s) [] in
  list_find (λ v, v = irq) (take (Z.to_nat (num_vecs x)) (msix s)) = Some (i, irq) →
  intr_coal_en x = true → intr_coal_list x !! i = Some c → vec_id c = irq →
  0 <= coal_pidx c <= intr_ring_size c → intr_ring_size c < 2 ^ 16 →
  (∀ k, (k < length ids)%nat → ∃ e, ring !! (Z.to_nat (coal_pidx c) + k)%nat = Some e ∧
     ring_coal_color e = coal_color c ∧ qdma_device_get_descq_by_id qd (ring_qid e) false = ids !! k) →
  (if bound <=? coal_pidx c then ids = []
   else coal_pidx c + Z.of_nat (length ids) <= bound ∧
     (coal_pidx c + Z.of_nat (length ids) < bound →
        ∃ e, ring !! (Z.to_nat (coal_pidx c) + length ids)%nat = Some e ∧
             ring_coal_color e = negb (coal_color c))) →
  ∃ s', irq_top irq qd lists s = (IRQ_HANDLED, ids, s', false) ∧
    intr_coal_list (i_xd s') !! i = Some (c <| coal_pidx := coal_pidx c + Z.of_nat (length ids) |>).
Proof.
  cbv zeta. intros Hf Hen Hc Hv Hp Hs Hin Hb. unfold irq_top. rewrite Hf, Hen, Hc, Hv, Z.eqb_refl.
  unfold u32. rewrite Z.mod_small by lia.
  assert (irq_loop (Z.to_nat (intr_ring_size c - coal_pidx c - coal_pidx c)) (coal_pidx c)
            (intr_ring_size c - coal_pidx c) (coal_color c) (nth i (intr_rings s) []) qd []
          = (ids, StoppedAt (coal_pidx c + Z.of_nat (length ids)))) as ->.
  { destruct (Z.leb_spec (intr_ring_size c - coal_pidx c) (coal_pidx c)).
    - subst ids. replace (Z.to_nat _) with 0%nat by lia. cbn. by rewrite Z.add_0_r.
    - destruct Hb as [Hb1 Hb2]. rewrite (irq_loop_spec _ _ _ _ _ _ _ ids); [done|lia|lia|lia|done|done]. }
  eexists. split; [reflexivity|]. cbn. by rewrite list_lookup_alter_eq, Hc.
Qed.

Module SampleIntr.

Definition qd : qdma_dev := Qdev true 4 0 0 0 [] [].
Definition coal : intr_coal_conf := IntrCoal 41 4 0x5000 true 0 0.
Definition sys : intr_sys :=
  IntrSys (Sample.dev <| intr_coal_list := [IntrCoal 40 4 0x4000 true 0 0; coal] |>) [40; 41]
    [[]; [IntrRing 1 true; IntrRing 6 true; IntrRing 0 false; IntrRing 0 false]] [] [].

End SampleIntr.

Lemma irq_top_aggregated_witness : ∃ s',
  irq_top 41 SampleIntr.qd [] SampleIntr.sys =
    (IRQ_HANDLED, [(false, 1%nat); (true, 2%nat)], s', false).
Proof.
  destruct (irq_top_aggregated 41 SampleIntr.qd [] SampleIntr.sys 1 SampleIntr.coal
              [(false, 1%nat); (true, 2%nat)]) as (s' & E & _); try reflexivity.
  - cbn. lia.
  - intros [|[|k]] Hk; [eexists; split_and!; reflexivity..|cbn in Hk; lia].
  - cbn. split; [lia|]. intros _. eexists. split; reflexivity.
  - exists s'. exact E.
Defined.
