(* ===== verification/Queue.v ===== *)
(** * The device and its queues (qdma_device.c, libqdma_export.c)

    The life of a queue through the exported API: a queue is added
    ([qdma_queue_add], [qdma_queue_config]), started, stopped and removed;
    the device is initialised and cleaned up around it; a request is
    submitted to a started queue ([qdma_sg_req_submit]).  Messages printed
    into the caller's buffer are not modelled. *)

From S2P Require Import Prelude Regs Types Context Sgl Descq RxQueue Thread Resource Intr.

(** ** State *)

(** The device structure, its queues, the threads, the interrupt state, the
    allocators' answers, and the hardware [D].  [qlock_bad]: [qdev->lock] has
    been released without being held. *)
Record sys (D : Type) := Sys {
  s_is : intr_sys; s_qd : qdma_dev; s_thr : thread_sys;
  s_mem : memory; s_hw : D; qlock_bad : bool }.
Arguments Sys {D}.
Arguments s_is {D}.
Arguments s_qd {D}.
Arguments s_thr {D}.
Arguments s_mem {D}.
Arguments s_hw {D}.
Arguments qlock_bad {D}.
#[export] Instance sys_eta {D} : Settable (sys D) := λ r,
  Sys (s_is r) (s_qd r) (s_thr r) (s_mem r) (s_hw r) (qlock_bad r).

Definition s_xd {D} (s : sys D) : xlnx_dma_dev := i_xd (s_is s).

Section queue.
Context {D : Type} `{!RegIo D}.
Implicit Types s : sys D.

(** Run an action of a component in the whole state. *)
Definition on_hw {A} (m : ST D A) : ST (sys D) A := λ s,
  let '(a, d) := m (s_hw s) in (a, s <| s_hw := d |>).
Definition on_intr {A} (m : ST intr_sys A) : ST (sys D) A := λ s,
  let '(a, i) := m (s_is s) in (a, s <| s_is := i |>).
Definition on_qd (f : qdma_dev → qdma_dev) : ST (sys D) unit := λ s, (tt, s <| s_qd ::= f |>).

(** An action on queue [d] and the allocators. *)
Definition on_res (d : descq_id) (q : qdma_descq) (m : ST res Z) : ST (sys D) Z := λ s,
  let '(rv, r) := m (Res q (s_xd s) (i_coh (s_is s)) (s_mem s)) in
  (rv, s <| s_is ::= λ i, i <| i_xd := r_xd r |> <| i_coh := r_coh r |> |>
         <| s_qd ::= set_descq d (r_q r) |> <| s_mem := r_mem r |>).

Definition upd_queue (d : descq_id) (f : qdma_descq → qdma_descq) : ST (sys D) unit := λ s,
  (tt, match get_descq (s_qd s) d with
       | Some q => s <| s_qd ::= set_descq d (f q) |>
       | None => s
       end).

Definition queue_of (s : sys D) (d : descq_id) : qdma_descq := default zero_descq (get_descq (s_qd s) d).

(** ** The queue range and the interrupts of the device *)

Definition device_set_qrange : ST (sys D) Z := λ s,
  let qd := s_qd s in
  (_ ← on_hw (hw_set_fmap (func_id (s_xd s)) (qbase qd) (qmax qd));
   _ ← on_qd (λ qd, qd <| init_qrange := true |>);
   mret 0) s.

(** The contexts of the vectors, when interrupts are aggregated. *)
Definition prep_intr_context : ST (sys D) Z := λ s,
  if intr_coal_en (s_xd s) then on_hw (qdma_intr_context_setup (s_xd s)) s else (0, s).

Definition prep_intr : ST (sys D) Z :=
  rv ← on_intr (intr_ring_setup INTR_RING_SZ_4KB);
  if negb (rv =? 0) then mret rv else prep_intr_context.

Definition qdma_device_prep_q_resource : ST (sys D) Z := λ s,
  if init_qrange (s_qd s) then (0, s) else (device_set_qrange ;;? prep_intr) s.

(** ** Adding and removing a queue *)

Definition cnt_of (c2h : bool) (qd : qdma_dev) : Z := if c2h then c2h_qcnt qd else h2c_qcnt qd.
Definition set_cnt (c2h : bool) (f : Z → Z) (qd : qdma_dev) : qdma_dev :=
  if c2h then qd <| c2h_qcnt ::= f |> else qd <| h2c_qcnt ::= f |>.

(** The search for a queue that is not in use. *)
Fixpoint first_free (l : list qdma_descq) (i : nat) : option nat :=
  match l with
  | [] => None
  | q :: l => if enabled q then first_free l (S i) else Some i
  end.

(** What [qdma_queue_add] returns: its code, and what is stored through
    [qhndl] and [qconf] when they are. *)
Record add_result := AddResult { add_rv : Z; add_hndl : option Z; add_conf : option qdma_queue_conf }.

Definition qcnt_drop (c2h : bool) : ST (sys D) unit := on_qd (set_cnt c2h (λ n, u16 (n - 1))).

(** The part after the checks: the queue is taken and configured. *)
Definition add_take (qconf : qdma_queue_conf) : ST (sys D) add_result := λ s,
  let l := if c2h qconf then c2h_descq (s_qd s) else h2c_descq (s_qd s) in
  let inval := Some QDMA_QUEUE_IDX_INVALID in
  let fail rv s := (AddResult rv inval None, (qcnt_drop (c2h qconf) s).2) in
  let take i s :=
    let d := (c2h qconf, i) in
    let s := (upd_queue d (λ q, q <| enabled := true |>) s).2 in
    let s := (upd_queue d (qdma_descq_config (s_xd s) qconf false) s).2 in
    let c := conf (queue_of s d) in
    (AddResult 0 (Some (qidx c + (if c2h qconf then qmax (s_qd s) else 0))) (Some c), s) in
  if qidx qconf =? QDMA_QUEUE_IDX_INVALID then
    match first_free (firstn (Z.to_nat (qmax (s_qd s))) l) 0 with
    | None => fail (- EAGAIN) s
    | Some i => take i s
    end
  else
    let i := Z.to_nat (qidx qconf) in
    if enabled (queue_of s (c2h qconf, i)) then fail (- EINVAL) s else take i s.

Definition qdma_queue_add (qconf : qdma_queue_conf) (qhndl_null : bool) : ST (sys D) add_result := λ s,
  let '(rv, s) := qdma_device_prep_q_resource s in
  if rv <? 0 then (AddResult rv None None, s) else
  if qhndl_null then (AddResult (- EINVAL) None None, s <| qlock_bad := true |>) else
  let inval := Some QDMA_QUEUE_IDX_INVALID in
  let qd := s_qd s in
  if qmax qd <=? cnt_of (c2h qconf) qd then (AddResult (- EAGAIN) inval None, s) else
  if negb (qidx qconf =? QDMA_QUEUE_IDX_INVALID) && (qmax qd <=? qidx qconf)
  then (AddResult (- EINVAL) inval None, s) else
  add_take qconf (on_qd (set_cnt (c2h qconf) (λ n, u16 (n + 1))) s).2.

(** Configuring a queue by its handle: the count of the direction in the
    configuration is raised, whichever queue the handle names. *)
Definition qdma_queue_config (qid : Z) (qconf : qdma_queue_conf) : ST (sys D) Z := λ s,
  match qdma_device_get_descq_by_id (s_qd s) qid false with
  | None => (- EINVAL, s)
  | Some d =>
      if enabled (queue_of s d) then (- EINVAL, s) else
      (_ ← upd_queue d (λ q, q <| enabled := true |>);
       _ ← on_qd (set_cnt (c2h qconf) (λ n, u16 (n + 1)));
       _ ← upd_queue d (qdma_descq_config (s_xd s) qconf false);
       mret 0) s
  end.

(** [qdma_descq_cleanup] of queue [d]. *)
Definition cleanup_queue (d : descq_id) : ST (sys D) unit := λ s,
  let '((q, x), h) := qdma_descq_cleanup (queue_of s d) (s_xd s) (s_hw s) in
  (tt, s <| s_hw := h |> <| s_is ::= λ i, i <| i_xd := x |> |> <| s_qd ::= set_descq d q |>).

Definition qdma_queue_remove (id : Z) : ST (sys D) Z := λ s,
  match qdma_device_get_descq_by_id (s_qd s) id true with
  | None => (- EINVAL, s)
  | Some d =>
      (_ ← upd_queue d (λ q, q <| inited := false |> <| online := false |>);
       _ ← cleanup_queue d;
       _ ← upd_queue d (λ q, q <| enabled := false |>);
       _ ← on_qd (set_cnt (c2h (conf (queue_of s d))) (λ n, u16 (n - 1)));
       mret 0) s
  end.

(** ** Starting and stopping a queue *)

Definition start_err_out (d : descq_id) (rv : Z) : ST (sys D) Z := λ s,
  let q := queue_of s d in
  (_ ← on_hw (qdma_descq_context_clear (qidx_hw q) (st (conf q)) (c2h (conf q)));
   _ ← upd_queue d (λ q, (qdma_descq_free_resource q) <| inited := false |>);
   mret rv) s.

(** The rest of [qdma_queue_start] once the queue has its resources: program
    the hardware, go online, join the threads. *)
Definition start_program (d : descq_id) (s : sys D) : option (Z * sys D) :=
  let s := (upd_queue d (λ q, q <| inited := true |>) s).2 in
  let '(rv, s) := on_hw (qdma_descq_prog_hw (s_xd s) (queue_of s d)) s in
  if rv <? 0 then Some (start_err_out d rv s) else
  let s := (upd_queue d (λ q, q <| online := true |>) s).2 in
  '(q, thr) ← qdma_thread_add_work d (num_vecs (s_xd s)) (queue_of s d) (s_thr s);
  Some (0, s <| s_thr := thr |> <| s_qd ::= set_descq d q |>).

(** The result is [None] when a thread's or a vector's list is corrupted or
    a NULL or poisoned pointer is used. *)
Definition qdma_queue_start (id : Z) (s : sys D) : option (Z * sys D) :=
  match qdma_device_get_descq_by_id (s_qd s) id true with
  | None => Some (- EINVAL, s)
  | Some d =>
      let q := queue_of s d in
      if negb (enabled q) || inited q || online q then Some (- EINVAL, s) else
      let '(rv, s) := on_res d q qdma_descq_alloc_resource s in
      if rv <? 0 then Some (start_err_out d rv s) else
      start_program d s
  end.

Definition qdma_queue_stop (id : Z) (s : sys D) : option (Z * sys D) :=
  match qdma_device_get_descq_by_id (s_qd s) id true with
  | None => Some (- EINVAL, s)
  | Some d =>
      '(q, thr) ← qdma_thread_remove_work d (queue_of s d) (s_thr s);
      let s := s <| s_thr := thr |> <| s_qd ::= set_descq d q |> in
      let s := (on_hw (qdma_descq_context_clear (qidx_hw q) (st (conf q)) (c2h (conf q))) s).2 in
      let s := (upd_queue d (λ q, (qdma_descq_free_resource q) <| online := false |>
                                    <| inited := false |>) s).2 in
      Some (0, s)
  end.

(** ** The device *)

Fixpoint init_queues (n : nat) (qbase i : Z) : list qdma_descq :=
  match n with
  | O => []
  | S n => qdma_descq_init qbase i i :: init_queues n qbase (i + 1)
  end.

Fixpoint enable_channels (n : nat) (i : Z) (c2h : bool) : ST D unit :=
  match n with
  | O => mret tt
  | S n => _ ← hw_mm_channel_enable i c2h; enable_channels n (i + 1) c2h
  end.

Fixpoint disable_channels (n : nat) (i : Z) (c2h : bool) : ST D unit :=
  match n with
  | O => mret tt
  | S n => _ ← hw_mm_channel_disable i c2h; disable_channels n (i + 1) c2h
  end.

(** The part of [qdma_device_init] after the interrupts. *)
Definition init_qdev (alloc : bool) : ST (sys D) Z := λ s,
  let x := s_xd s in
  let qmax := qsets_max (dev_conf x) in
  if qmax =? 0 then (- EINVAL, s) else
  if negb alloc then (- ENOMEM, s) else
  let qbase := u16 (func_id x * qmax) in
  let qs := init_queues (Z.to_nat (u16 qmax)) qbase 0 in
  let s := s <| s_qd := Qdev false (u16 qmax) qbase 0 0 qs qs |> in
  if func_id x =? 0 then
    (_ ← on_hw hw_set_global_csr;
     _ ← on_hw (enable_channels (Z.to_nat (h2c_channel_max (dev_conf x))) 0 true);
     _ ← on_hw (enable_channels (Z.to_nat (c2h_channel_max (dev_conf x))) 0 false);
     mret 0) s
  else (0, s).

(** The user BAR: the last of the six bits of the function in register 0x10C
    that is set; unchanged when none is. *)
Definition find_user_bar (v func_id : Z) (conf : qdma_dev_conf) : qdma_dev_conf :=
  let v := Z.land (Z.shiftr v (6 * func_id)) 0x3F in
  foldl (λ c i, if Z.testbit v i then c <| bar_num_user := i |> else c) conf (seqZ 0 6).

(** [intr_setup]'s answers and the allocation of the queues are parameters. *)
Definition qdma_device_init (vec_count enable : Z) (request : list Z) (alloc : bool) : ST (sys D) Z :=
  f ← on_hw (readl QDMA_REG_FUNC_ID);
  _ ← on_intr (λ i, (tt, i <| i_xd ::= λ x, x <| func_id := u8 f |> <| func_id_parent := u8 f |> |>));
  v ← on_hw (readl 0x10C);
  _ ← on_intr (λ i, (tt, i <| i_xd ::= λ x, x <| dev_conf ::= find_user_bar v (func_id x) |> |>));
  rv ← on_intr (λ i, let '(rv, x) := intr_setup vec_count enable request (i_xd i) in
                     (rv, i <| i_xd := x |>));
  if negb (rv =? 0) then mret (- EINVAL) else init_qdev alloc.

(** [if (descq->enabled) qdma_queue_stop(..)] for the queues of a direction. *)
Fixpoint stop_queues (n i : nat) (c2h : bool) (s : sys D) : option (sys D) :=
  match n with
  | O => Some s
  | S n =>
      let id := Z.of_nat i + (if c2h then qmax (s_qd s) else 0) in
      s ← (if enabled (queue_of s (c2h, i)) then snd <$> qdma_queue_stop id s else Some s);
      stop_queues n (S i) c2h s
  end.

Fixpoint cleanup_queues (n i : nat) (c2h : bool) : ST (sys D) unit :=
  match n with
  | O => mret tt
  | S n => _ ← cleanup_queue (c2h, i); cleanup_queues n (S i) c2h
  end.

(** A device without queues has no [struct qdma_dev].  The vectors' part is in
    [PciDev].  Both directions of [disable] pass a true second argument
    ([DMA_TO_DEVICE], [DMA_FROM_DEVICE] are 1 and 2). *)
Definition qdma_device_cleanup (s : sys D) : option (sys D) :=
  if qmax (s_qd s) =? 0 then Some s else
  let n := Z.to_nat (qmax (s_qd s)) in
  s ← stop_queues n 0 false s;
  s ← stop_queues n 0 true s;
  let s := if intr_coal_en (s_xd s) then s <| s_is ::= intr_ring_teardown |> else s in
  let x := s_xd s in
  let s := if func_id x =? 0 then
             ((_ ← on_hw (disable_channels (Z.to_nat (h2c_channel_max (dev_conf x))) 0 true);
               on_hw (disable_channels (Z.to_nat (c2h_channel_max (dev_conf x))) 0 true)) s).2
           else s in
  let s := (cleanup_queues n 0 false s).2 in
  let s := (cleanup_queues n 0 true s).2 in
  Some (s <| s_qd := Qdev false 0 0 0 0 [] [] |>).

End queue.

(** ** Submitting a request *)

(** What the caller sees of [qdma_sg_req_submit] before it blocks: a return
    value, a wait for completion, or the copy of received data. *)
Inductive submit_result := Returned (rv : Z) | Waiting | CopyData.

(** [mapped]: the entries [pci_map_sg] made, none on failure. *)
Definition sg_map (cb : nat) (mapped : list sg_entry) : ST qenv Z := λ e,
  let req := req_of e cb in
  if dma_mapped req then (0, e)
  else match mapped with
       | [] => (- EIO, e)
       | _ => (0, upd_req cb (λ r, r <| sgt := mapped |>) e)
       end.

(** [memset(cb, 0, QDMA_REQ_OPAQUE_SIZE)] *)
Definition cb_zero (cb : nat) : qenv → qenv :=
  upd_req cb (λ r, r <| desc_nr := 0 |> <| offset := 0 |> <| cb_done := false |> <| status := 0 |>).

Definition qdma_sg_req_submit_st_c2h (cb : nat) : ST qenv submit_result := λ e,
  let req := req_of e cb in
  let avail := dlen (rx_queue (rx (dq e))) in
  if count req <=? avail
  then (CopyData, upd_req cb (λ r, r <| offset := count r |>) e)
  else
    let e := upd_req cb (λ r, r <| offset := u32 (count r - avail) |>) e in
    if negb (online (dq e)) then (Returned (- EINVAL), e) else
    let e := e <| dq ::= λ q, q <| pend_list ::= λ l, l ++ [cb] |> |> in
    let e := wake_wb e in
    (if nonblock req then Returned 0 else Waiting, e).

Definition qdma_sg_req_submit (cb : nat) (mapped : list sg_entry) : ST qenv submit_result := λ e,
  if negb (enabled (dq e)) then (Returned (- EINVAL), e) else
  let req := req_of e cb in
  let q := dq e in
  if Bool.eqb (req_write req) (c2h (conf q)) then (Returned (- EINVAL), e) else
  let e := cb_zero cb e in
  if st (conf q) && c2h (conf q) then qdma_sg_req_submit_st_c2h cb e else
  let '(rv, e) := sg_map cb mapped e in
  if rv <? 0 then (Returned rv, e) else
  if negb (online q) then (Returned (- EINVAL), e) else
  let e := e <| dq ::= λ q, q <| work_list ::= λ l, l ++ [cb] |> |> in
  let e := emit_ev (qdma_kthread_wakeup (wrkthp (dq e))) e in
  (if nonblock req then Returned 0 else Waiting, e).

(** After the wait of a memory-mapped or H2C request: a request not done has
    timed out and is taken off its list. *)
Definition sg_req_submit_finish (cb : nat) : ST qenv Z := λ e,
  let e := if cb_done (req_of e cb) then e else list_del cb e in
  let r := req_of e cb in
  if negb (cb_done r) || negb (status r =? 0) || (offset r =? 0) then (- EIO, e)
  else (offset r, e).

(** After the wait of a streaming C2H request, or when the data was there:
    what is received is copied out, done or not. *)
Definition st_c2h_finish (page_data : nat → list Z) (cb : nat) (waited : bool) (lens : list Z)
    (e : qenv) : option (Z * list (list Z) * qenv) :=
  let e := if waited && negb (cb_done (req_of e cb)) then list_del cb e else e in
  '(n, outs, rq) ← qdma_descq_rxq_read page_data (dq e) lens;
  Some (n, outs, e <| dq ::= λ q, q <| rx ::= λ r, r <| rx_queue := rq |> |> |>).

#[local] Arguments get_descq : simpl never.
#[local] Arguments set_descq : simpl never.
#[local] Arguments set_cnt : simpl never.

(** ** The invariant of the device's queues *)

Definition count_enabled (l : list qdma_descq) : Z := Z.of_nat (length (filter (λ q, enabled q = true) l)).

(** A queue in its place: its index, its direction when it is in use, and the
    order of its states. *)
Record queue_ok (d : descq_id) (q : qdma_descq) : Prop := {
  qo_idx : qidx (conf q) = Z.of_nat d.2;
  qo_dir : enabled q = true → c2h (conf q) = d.1;
  qo_online : online q = true → inited q = true;
  qo_inited : inited q = true → enabled q = true
}.

Definition dir_list (b : bool) (qd : qdma_dev) : list qdma_descq := if b then c2h_descq qd else h2c_descq qd.

Record qdev_inv (qd : qdma_dev) : Prop := {
  qi_qmax : 0 < qmax qd < 2 ^ 15;
  qi_len : ∀ b, length (dir_list b qd) = Z.to_nat (qmax qd);
  qi_ok : ∀ d q, get_descq qd d = Some q → queue_ok d q;
  qi_cnt : ∀ b, cnt_of b qd = count_enabled (dir_list b qd)
}.

Lemma count_enabled_set l i q q' :
  l !! i = Some q →
  count_enabled (<[i := q']> l) = count_enabled l - b2z (enabled q) + b2z (enabled q').
Proof.
  intros Hi. apply lookup_lt_Some in Hi as Hlt.
  rewrite <- (take_drop_middle _ _ _ Hi) at 2. rewrite (insert_take_drop _ _ _ Hlt).
  unfold count_enabled. rewrite !filter_app, !filter_cons.
  destruct (enabled q), (enabled q'); repeat case_decide; try done; cbn;
    rewrite ?length_app; cbn; rewrite ?Nat2Z.inj_add; lia.
Qed.

Lemma dir_list_set d q qd b :
  dir_list b (set_descq d q qd) = if Bool.eqb b d.1 then <[d.2 := q]> (dir_list b qd) else dir_list b qd.
Proof. unfold dir_list, set_descq. destruct d as [[|] i], b; reflexivity. Qed.

Lemma get_descq_dir qd d : get_descq qd d = dir_list d.1 qd !! d.2.
Proof. done. Qed.

Lemma get_set_same qd d q : is_Some (get_descq qd d) → get_descq (set_descq d q qd) d = Some q.
Proof.
  rewrite !get_descq_dir, dir_list_set, eqb_reflx. intros Hs%lookup_lt_is_Some.
  by apply list_lookup_insert_eq.
Qed.

Lemma get_set_other qd d d' q : d' ≠ d → get_descq (set_descq d q qd) d' = get_descq qd d'.
Proof.
  intros Hne. rewrite !get_descq_dir, dir_list_set. destruct (Bool.eqb_spec d'.1 d.1) as [E|]; [|done].
  apply list_lookup_insert_ne. intros E2. apply Hne. destruct d, d'; cbn in *; congruence.
Qed.

Lemma set_descq_qmax d q qd : qmax (set_descq d q qd) = qmax qd.
Proof. unfold set_descq. by destruct (d.1). Qed.

Lemma set_descq_cnt_of d q qd b : cnt_of b (set_descq d q qd) = cnt_of b qd.
Proof. unfold set_descq, cnt_of. by destruct (d.1), b. Qed.

(** Replacing a queue keeps the invariant up to the counter. *)
Lemma set_descq_inv d q q' qd (f : Z → Z) :
  qdev_inv qd → get_descq qd d = Some q → queue_ok d q' →
  f (cnt_of d.1 qd) = cnt_of d.1 qd - b2z (enabled q) + b2z (enabled q') →
  qdev_inv (set_cnt d.1 f (set_descq d q' qd)).
Proof.
  intros [Hm Hl Hok Hc] Hq Hq' Hf.
  assert (∀ g b x, dir_list b (set_cnt d.1 g x) = dir_list b x) as Hdl
    by (intros; unfold dir_list, set_cnt; by destruct (d.1), b).
  assert (∀ g d0 x, get_descq (set_cnt d.1 g x) d0 = get_descq x d0) as Hgd
    by (intros; unfold get_descq, set_cnt; by destruct (d.1), (d0.1)).
  split.
  - unfold set_cnt, set_descq. by destruct (d.1).
  - intros b. rewrite Hdl, dir_list_set.
    assert (qmax (set_cnt d.1 f (set_descq d q' qd)) = qmax qd) as ->
      by (unfold set_cnt, set_descq; by destruct (d.1)).
    destruct (Bool.eqb _ _); [by rewrite length_insert|done].
  - intros d0 q0. rewrite Hgd. destruct (decide (d0 = d)) as [->|Hne].
    + rewrite get_set_same by (by rewrite Hq). by intros [= <-].
    + rewrite get_set_other by done. apply Hok.
  - intros b. rewrite Hdl, dir_list_set. destruct (Bool.eqb_spec b d.1) as [->|Hne].
    + rewrite get_descq_dir in Hq. rewrite (count_enabled_set _ _ _ _ Hq), <- Hc, <- Hf.
      unfold cnt_of, set_cnt, set_descq. by destruct (d.1).
    + rewrite <- Hc. unfold cnt_of, set_cnt, set_descq. by destruct b, (d.1).
Qed.

(** A queue that keeps its place, direction and use keeps the invariant. *)
Lemma update_inv d q q' qd :
  qdev_inv qd → get_descq qd d = Some q → queue_ok d q' → enabled q' = enabled q →
  qdev_inv (set_descq d q' qd).
Proof.
  intros Hi Hq Hq' He.
  assert (set_descq d q' qd = set_cnt d.1 (λ n, n) (set_descq d q' qd)) as ->
    by (unfold set_cnt, set_descq; destruct qd, d as [[|] i]; reflexivity).
  apply (set_descq_inv _ q); [done..|]. rewrite He. lia.
Qed.

Lemma set_set_descq d q q' qd : set_descq d q' (set_descq d q qd) = set_descq d q' qd.
Proof.
  unfold set_descq. destruct d as [[|] i]; cbn; by rewrite list_insert_insert_eq.
Qed.

Lemma set_cnt_descq b f d q qd : set_descq d q (set_cnt b f qd) = set_cnt b f (set_descq d q qd).
Proof. unfold set_descq, set_cnt. by destruct (d.1), b. Qed.

Lemma get_descq_cnt b f d qd : get_descq (set_cnt b f qd) d = get_descq qd d.
Proof. unfold get_descq, set_cnt. by destruct b, (d.1). Qed.

Section updates.
Context {D : Type}.

Lemma upd_queue_eq d f q (s : sys D) :
  get_descq (s_qd s) d = Some q →
  (upd_queue d f s).2 = s <| s_qd := set_descq d (f q) (s_qd s) |>.
Proof. intros E. unfold upd_queue. by rewrite E. Qed.

Lemma upd_queue_xd d f (s : sys D) : s_xd (upd_queue d f s).2 = s_xd s.
Proof. unfold upd_queue. by destruct (get_descq _ _). Qed.

Lemma queue_of_eq (s : sys D) d q : get_descq (s_qd s) d = Some q → queue_of s d = q.
Proof. intros E. unfold queue_of. by rewrite E. Qed.

(** The queues in range are there. *)
Lemma get_descq_lt qd (b : bool) i : qdev_inv qd → (i < Z.to_nat (qmax qd))%nat → is_Some (get_descq qd (b, i)).
Proof. intros Hi Hlt. rewrite get_descq_dir. apply lookup_lt_is_Some. by rewrite (qi_len _ Hi). Qed.

End updates.

(** The search finds the lowest queue not in use; there is one when the
    count is below the number of queues. *)
Lemma first_free_spec l k :
  match first_free l k with
  | Some i => ∃ j q, i = (k + j)%nat ∧ l !! j = Some q ∧ enabled q = false ∧
                ∀ j' q', (j' < j)%nat → l !! j' = Some q' → enabled q' = true
  | None => count_enabled l = Z.of_nat (length l)
  end.
Proof.
  revert k. induction l as [|q l IH]; intros k; cbn [first_free]; [done|].
  destruct (enabled q) eqn:Eq.
  - specialize (IH (S k)). destruct (first_free l (S k)) as [i|].
    + destruct IH as (j & q' & -> & Hj & He & Hlt). exists (S j), q'. split_and!; [lia|done|done|].
      intros [|j'] q'' Hj' Hq''; [by injection Hq'' as <-|]. apply (Hlt j'); [lia|done].
    + unfold count_enabled in *. rewrite filter_cons_True by done. cbn. lia.
  - exists 0%nat, q. split_and!; [lia|done|done|]. intros; lia.
Qed.

(** The configuration keeps a queue's place and makes it usable. *)
Lemma config_ok x qconf d q :
  queue_ok d q → c2h qconf = d.1 →
  queue_ok d (qdma_descq_config x qconf false (q <| enabled := true |>)).
Proof. intros [Hi Hd Ho Hn] Hc. split; done. Qed.

Lemma u16_small n : 0 <= n < 2 ^ 16 → u16 n = n.
Proof. intros. by apply Z.mod_small. Qed.

Lemma count_enabled_range l : 0 <= count_enabled l <= Z.of_nat (length l).
Proof. unfold count_enabled. pose proof (length_filter (λ q, enabled q = true) l). lia. Qed.

Section add.
Context {D : Type} `{!RegIo D}.
Implicit Types s : sys D.

(** Taking queue [i] and counting it, in one update. *)
Lemma take_run s qconf i q :
  get_descq (s_qd s) (c2h qconf, i) = Some q →
  let d := (c2h qconf, i) in
  let q' := qdma_descq_config (s_xd s) qconf false (q <| enabled := true |>) in
  let s1 := (on_qd (set_cnt (c2h qconf) (λ n, u16 (n + 1))) s).2 in
  let s2 := (upd_queue d (λ q, q <| enabled := true |>) s1).2 in
  let s3 := (upd_queue d (qdma_descq_config (s_xd s) qconf false) s2).2 in
  s3 = s <| s_qd := set_cnt (c2h qconf) (λ n, u16 (n + 1)) (set_descq d q' (s_qd s)) |> ∧ queue_of s3 d = q'.
Proof.
  intros Hq. cbv zeta. set (d := (c2h qconf, i)) in *.
  set (q' := qdma_descq_config (s_xd s) qconf false (q <| enabled := true |>)).
  set (s1 := (on_qd _ s).2).
  assert (get_descq (s_qd s1) d = Some q) as H1 by (cbn; by rewrite get_descq_cnt).
  rewrite (upd_queue_eq d _ q s1 H1). set (s2 := s1 <| s_qd := _ |>).
  assert (get_descq (s_qd s2) d = Some (q <| enabled := true |>)) as H2
    by (unfold s2; cbn; apply get_set_same; by rewrite get_descq_cnt, Hq).
  rewrite (upd_queue_eq d _ _ s2 H2). unfold s2. cbn. rewrite set_set_descq, set_cnt_descq.
  fold q'. split; [done|].
  unfold queue_of. cbn. rewrite get_descq_cnt, get_set_same by (by rewrite Hq). done.
Qed.

(** Taking queue [i], which is free. *)
Lemma take_queue s qconf i q :
  qdev_inv (s_qd s) → get_descq (s_qd s) (c2h qconf, i) = Some q → enabled q = false →
  let d := (c2h qconf, i) in
  let q' := qdma_descq_config (s_xd s) qconf false (q <| enabled := true |>) in
  let s1 := (on_qd (set_cnt (c2h qconf) (λ n, u16 (n + 1))) s).2 in
  let s2 := (upd_queue d (λ q, q <| enabled := true |>) s1).2 in
  let s3 := (upd_queue d (qdma_descq_config (s_xd s) qconf false) s2).2 in
  s3 = s <| s_qd := set_cnt (c2h qconf) (λ n, u16 (n + 1)) (set_descq d q' (s_qd s)) |> ∧
  queue_of s3 d = q' ∧ qdev_inv (s_qd s3).
Proof.
  intros Hi Hq He. cbv zeta. destruct (take_run s qconf i q Hq) as [E3 Eq]. cbv zeta in E3, Eq.
  rewrite E3 in Eq |- *. split; [done|]. split; [done|].
  set (d := (c2h qconf, i)) in *. set (q' := qdma_descq_config _ _ _ _) in *.
  pose proof (qi_ok _ Hi d q Hq) as Hok. pose proof (qi_cnt _ Hi (c2h qconf)) as Hc.
  apply (set_descq_inv d q q'); [done|done| |].
  - by apply config_ok.
  - pose proof (count_enabled_range (dir_list (c2h qconf) (s_qd s))) as Hr.
    rewrite (qi_len _ Hi) in Hr. pose proof (qi_qmax _ Hi). rewrite u16_small by (cbn; lia).
    rewrite He. cbn. lia.
Qed.

(** What is stored as the handle leads back to the queue taken. *)
Lemma take_queue_handle s qconf i q :
  qdev_inv (s_qd s) → get_descq (s_qd s) (c2h qconf, i) = Some q → enabled q = false →
  let d := (c2h qconf, i) in
  let q' := qdma_descq_config (s_xd s) qconf false (q <| enabled := true |>) in
  let qd := set_cnt (c2h qconf) (λ n, u16 (n + 1)) (set_descq d q' (s_qd s)) in
  get_descq qd d = Some q' ∧ qmax qd = qmax (s_qd s) ∧
  qdma_device_get_descq_by_id qd (qidx (conf q') + (if c2h qconf then qmax qd else 0)) true = Some d.
Proof.
  intros Hi Hq He. cbv zeta. set (d := (c2h qconf, i)) in *.
  set (q' := qdma_descq_config _ _ _ _). set (qd := set_cnt _ _ _).
  assert (get_descq qd d = Some q') as Hg by (unfold qd; by rewrite get_descq_cnt, get_set_same by (by exists q)).
  assert (qmax qd = qmax (s_qd s)) as Em
    by (unfold qd, set_cnt; destruct (c2h qconf); cbn; apply set_descq_qmax).
  split; [done|]. split; [done|].
  assert (qidx (conf q') = Z.of_nat i) as -> by (exact (qo_idx _ _ (qi_ok _ Hi _ _ Hq))).
  pose proof Hq as Hlt. rewrite get_descq_dir in Hlt. apply lookup_lt_Some in Hlt.
  rewrite (qi_len _ Hi) in Hlt. pose proof (qi_qmax _ Hi). unfold d in *. cbn [snd] in Hlt.
  unfold qdma_device_get_descq_by_id. rewrite Em.
  destruct (c2h qconf) eqn:Ec; [destruct (Z.leb_spec (qmax (s_qd s)) (Z.of_nat i + qmax (s_qd s))); [|lia]
    |destruct (Z.leb_spec (qmax (s_qd s)) (Z.of_nat i + 0)); [lia|]]; cbn [mbind option_bind].
  - rewrite Z.add_simpl_r. destruct (Z.leb_spec (qmax (s_qd s)) (Z.of_nat i)); [lia|].
    cbn [mbind option_bind]. by rewrite Nat2Z.id, Hg.
  - by rewrite Z.add_0_r, Nat2Z.id, Hg.
Qed.

(** Giving the count back leaves the state as it was. *)
Lemma count_up_down s (b : bool) :
  qdev_inv (s_qd s) → (qcnt_drop b (on_qd (set_cnt b (λ n, u16 (n + 1))) s).2).2 = s.
Proof.
  intros Hi. unfold qcnt_drop, on_qd. cbn.
  assert (set_cnt b (λ n, u16 (n - 1)) (set_cnt b (λ n, u16 (n + 1)) (s_qd s)) = s_qd s) as E.
  { pose proof (count_enabled_range (dir_list b (s_qd s))) as Hr. rewrite <- (qi_cnt _ Hi) in Hr.
    rewrite (qi_len _ Hi) in Hr. pose proof (qi_qmax _ Hi).
    unfold set_cnt, cnt_of in *. destruct (s_qd s); destruct b; cbn in *;
      rewrite !u16_small by (rewrite ?u16_small by lia; lia); f_equal; lia. }
  destruct s; cbn in *. by rewrite E.
Qed.

(** The set-up of the range and the vectors before the first addition does not
    touch the queues. *)
Lemma prep_queues s :
  let '(rv, s0) := qdma_device_prep_q_resource s in
  (∃ b, s_qd s0 = (s_qd s) <| init_qrange := b |>) ∧ (init_qrange (s_qd s) = true → rv = 0 ∧ s0 = s).
Proof.
  unfold qdma_device_prep_q_resource. destruct (init_qrange (s_qd s)) eqn:Ei.
  { split; [exists true; destruct (s_qd s); cbn in *; by rewrite Ei|done]. }
  unfold or_fail, device_set_qrange, prep_intr, prep_intr_context, on_hw, on_qd, on_intr.
  unfold mbind, ST_bind, mret, ST_ret. cbn.
  destruct (hw_set_fmap _ _ _ _) as [u h]. cbn.
  destruct (intr_ring_setup _ _) as [rv i]. destruct (negb _); cbn; [by split; [eexists|]|].
  destruct (intr_coal_en _); cbn; [|by split; [eexists|]].
  destruct (qdma_intr_context_setup _ _) as [rv' h']. cbn. by split; [eexists|].
Qed.

Lemma init_qrange_inv s : qdev_inv (s_qd s) → qdev_inv (s_qd (qdma_device_prep_q_resource s).2).
Proof.
  intros [A B C E]. pose proof (prep_queues s) as H.
  destruct (qdma_device_prep_q_resource s) as [rv s0]. destruct H as [[b H] _]. cbn. rewrite H. by split.
Qed.

(** The lowest free queue is taken. *)
Lemma add_take_lowest s qconf :
  qdev_inv (s_qd s) → qidx qconf = QDMA_QUEUE_IDX_INVALID → cnt_of (c2h qconf) (s_qd s) < qmax (s_qd s) →
  ∃ i q q' hndl s', add_take qconf (on_qd (set_cnt (c2h qconf) (λ n, u16 (n + 1))) s).2 =
      (AddResult 0 (Some hndl) (Some (conf q')), s') ∧
    get_descq (s_qd s) (c2h qconf, i) = Some q ∧ enabled q = false ∧
    (∀ j r, (j < i)%nat → get_descq (s_qd s) (c2h qconf, j) = Some r → enabled r = true) ∧
    q' = qdma_descq_config (s_xd s) qconf false (q <| enabled := true |>) ∧
    get_descq (s_qd s') (c2h qconf, i) = Some q' ∧
    (∀ d, d ≠ (c2h qconf, i) → get_descq (s_qd s') d = get_descq (s_qd s) d) ∧
    qdma_device_get_descq_by_id (s_qd s') hndl true = Some (c2h qconf, i) ∧
    cnt_of (c2h qconf) (s_qd s') = cnt_of (c2h qconf) (s_qd s) + 1 ∧ qdev_inv (s_qd s').
Proof.
  intros Hi Hidx Hcnt.
  unfold add_take. rewrite Hidx, Z.eqb_refl.
  set (s1 := (on_qd _ s).2).
  assert ((if c2h qconf then c2h_descq (s_qd s1) else h2c_descq (s_qd s1)) = dir_list (c2h qconf) (s_qd s)) as El
    by (unfold s1, dir_list, set_cnt; cbn; by destruct (c2h qconf)).
  assert (qmax (s_qd s1) = qmax (s_qd s)) as Eq1 by (unfold s1, set_cnt; cbn; by destruct (c2h qconf)).
  rewrite El, Eq1, firstn_all2 by (rewrite (qi_len _ Hi); lia).
  pose proof (first_free_spec (dir_list (c2h qconf) (s_qd s)) 0) as Hff.
  destruct (first_free _ 0) as [i|].
  2: { rewrite <- (qi_cnt _ Hi), (qi_len _ Hi) in Hff. pose proof (qi_qmax _ Hi). lia. }
  destruct Hff as (j & q & -> & Hq & He & Hlt). cbn [Nat.add].
  destruct (take_queue s qconf j q Hi Hq He) as (E3 & Eq & Hi3). cbv zeta in E3, Eq, Hi3.
  fold s1 in E3, Eq, Hi3. rewrite upd_queue_xd. change (s_xd s1) with (s_xd s).
  set (s3 := (upd_queue _ _ (upd_queue _ _ s1).2).2) in *.
  set (q' := qdma_descq_config _ _ _ _) in *.
  destruct (take_queue_handle s qconf j q Hi Hq He) as (Hg & Em & Hid). fold q' in Hg, Em, Hid.
  exists j, q, q', (qidx (conf q') + (if c2h qconf then qmax (s_qd s3) else 0)), s3.
  rewrite Eq. split_and!; try done; try (rewrite E3; done).
  - intros d Hd. rewrite E3. cbn. by rewrite get_descq_cnt, get_set_other.
  - rewrite E3. cbn. pose proof (count_enabled_range (dir_list (c2h qconf) (s_qd s))) as Hr.
    rewrite <- (qi_cnt _ Hi) in Hr. pose proof (qi_qmax _ Hi). unfold cnt_of, set_cnt, set_descq in *.
    destruct (c2h qconf); cbn in *; rewrite u16_small by lia; done.
Qed.

(** C19: adding a queue with a free index of the driver's choice
    ([qdma_queue_add]) while the direction's count is below the maximum.  The
    first addition sets up the device's queue range and vectors; when that
    fails the addition returns its error and no queue has changed.  Otherwise
    it succeeds: it takes the lowest queue not in use, configures exactly that
    one, counts it, and the handle it returns leads back to it.  Later
    additions skip the set-up and so always succeed. *)
Theorem queue_add_lowest s qconf :
  qdev_inv (s_qd s) → qidx qconf = QDMA_QUEUE_IDX_INVALID →
  cnt_of (c2h qconf) (s_qd s) < qmax (s_qd s) →
  let '(rv, s0) := qdma_device_prep_q_resource s in
  (init_qrange (s_qd s) = true → rv = 0 ∧ s0 = s) ∧
  (∀ d, get_descq (s_qd s0) d = get_descq (s_qd s) d) ∧
  if rv <? 0
  then qdma_queue_add qconf false s = (AddResult rv None None, s0) ∧ qdev_inv (s_qd s0)
  else ∃ i q q' hndl s', qdma_queue_add qconf false s = (AddResult 0 (Some hndl) (Some (conf q')), s') ∧
    get_descq (s_qd s) (c2h qconf, i) = Some q ∧ enabled q = false ∧
    (∀ j r, (j < i)%nat → get_descq (s_qd s) (c2h qconf, j) = Some r → enabled r = true) ∧
    q' = qdma_descq_config (s_xd s0) qconf false (q <| enabled := true |>) ∧
    get_descq (s_qd s') (c2h qconf, i) = Some q' ∧
    (∀ d, d ≠ (c2h qconf, i) → get_descq (s_qd s') d = get_descq (s_qd s) d) ∧
    qdma_device_get_descq_by_id (s_qd s') hndl true = Some (c2h qconf, i) ∧
    cnt_of (c2h qconf) (s_qd s') = cnt_of (c2h qconf) (s_qd s) + 1 ∧ qdev_inv (s_qd s').
Proof.
  intros Hi Hidx Hcnt. pose proof (prep_queues s) as Hp. pose proof (init_qrange_inv s Hi) as Hi0.
  unfold qdma_queue_add. destruct (qdma_device_prep_q_resource s) as [rv s0]. cbn [snd] in Hi0.
  destruct Hp as [[b Eqd] Hskip].
  assert (∀ d, get_descq (s_qd s0) d = get_descq (s_qd s) d) as Eg by (intros d; by rewrite Eqd).
  assert (cnt_of (c2h qconf) (s_qd s0) = cnt_of (c2h qconf) (s_qd s)) as Ec by (by rewrite Eqd).
  assert (qmax (s_qd s0) = qmax (s_qd s)) as Em by (by rewrite Eqd).
  split; [done|]. split; [done|]. destruct (rv <? 0); [done|].
  destruct (Z.leb_spec (qmax (s_qd s0)) (cnt_of (c2h qconf) (s_qd s0))); [lia|].
  rewrite Hidx, Z.eqb_refl. cbn [negb andb].
  destruct (add_take_lowest s0 qconf) as (i & q & q' & h & s' & H1 & H2 & H3 & H4 & H5 & H6 & H7 & H8 & H9 & H10);
    [done|done|lia|].
  exists i, q, q', h, s'. rewrite <- Ec, <- Eg. split_and!; try done.
  - intros j r Hj Hr. rewrite <- Eg in Hr. by apply (H4 j).
  - intros d Hd. rewrite <- Eg. by apply H7.
Qed.

(** The refusals of [qdma_queue_add] change nothing: a full direction
    gives -EAGAIN, an index out of range or already in use -EINVAL, and the
    handle is set to the invalid index. *)
Theorem queue_add_refused s qconf :
  qdev_inv (s_qd s) → init_qrange (s_qd s) = true → 0 <= qidx qconf →
  let full := qmax (s_qd s) <=? cnt_of (c2h qconf) (s_qd s) in
  let taken := enabled (queue_of s (c2h qconf, Z.to_nat (qidx qconf))) in
  full = true ∨ (qidx qconf ≠ QDMA_QUEUE_IDX_INVALID ∧ (qmax (s_qd s) <= qidx qconf ∨ taken = true)) →
  qdma_queue_add qconf false s =
    (AddResult (if full then - EAGAIN else - EINVAL) (Some QDMA_QUEUE_IDX_INVALID) None, s).
Proof.
  intros Hi Hinit Hpos. cbv zeta. intros Hbad. unfold qdma_queue_add, qdma_device_prep_q_resource.
  rewrite Hinit. cbn [Z.ltb Z.compare].
  destruct (Z.leb_spec (qmax (s_qd s)) (cnt_of (c2h qconf) (s_qd s))); [done|].
  destruct Hbad as [|[Hne Hbad]]; [done|].
  destruct (Z.eqb_spec (qidx qconf) QDMA_QUEUE_IDX_INVALID); [done|]. cbn [negb andb].
  destruct (Z.leb_spec (qmax (s_qd s)) (qidx qconf)); [done|]. destruct Hbad as [|Ht]; [lia|].
  unfold add_take. destruct (Z.eqb_spec (qidx qconf) QDMA_QUEUE_IDX_INVALID); [done|].
  assert (queue_of (on_qd (set_cnt (c2h qconf) (λ n, u16 (n + 1))) s).2 (c2h qconf, Z.to_nat (qidx qconf))
          = queue_of s (c2h qconf, Z.to_nat (qidx qconf))) as ->
    by (unfold queue_of; cbn; by rewrite get_descq_cnt).
  by rewrite Ht, count_up_down.
Qed.

End add.

(** ** Starting and stopping *)

Lemma queue_ok_same d q q' :
  queue_ok d q → conf q' = conf q → enabled q' = enabled q →
  (online q' = true → inited q' = true) → (inited q' = true → enabled q' = true) → queue_ok d q'.
Proof. intros [Hi Hd _ _] Ec Ee Ho Hn. split; rewrite ?Ec, ?Ee in *; auto. Qed.

Lemma by_id_enabled qd id d q :
  qdma_device_get_descq_by_id qd id true = Some d → get_descq qd d = Some q → enabled q = true.
Proof.
  unfold qdma_device_get_descq_by_id. intros H Hq.
  destruct (if qmax qd <=? id then _ else _) as [d'|]; [|done]. cbn [mbind option_bind andb] in H.
  destruct (negb _) eqn:E; [done|]. injection H as ->. rewrite Hq in E. cbn in E.
  by destruct (enabled q).
Qed.

Section start.
Context {D : Type}.

(** What the allocation of a queue's resources leaves of the system. *)
Record allocated (d : descq_id) (q qa : qdma_descq) (s s1 : sys D) : Prop := {
  al_qd : s_qd s1 = set_descq d qa (s_qd s);
  al_hw : s_hw s1 = s_hw s;
  al_thr : s_thr s1 = s_thr s;
  al_vecs : num_vecs (s_xd s1) = num_vecs (s_xd s);
  al_func : func_id (s_xd s1) = func_id (s_xd s);
  al_conf : same_config q qa;
  al_wf : descq_fields_wf q → coh_ok (i_coh (s_is s)) → descq_fields_wf qa
}.

Lemma start_alloc_run (s : sys D) d q :
  0 <= rngsz (conf q) → 0 <= num_vecs (s_xd s) →
  ∃ rv qa s1, on_res d q qdma_descq_alloc_resource s = (rv, s1) ∧ allocated d q qa s s1 ∧
    ((rv = 0 ∧ has_resources qa ∧ desc_wb_cidx (ring qa) = 0 ∧
      (num_vecs (s_xd s) = 0 ∨ 0 <= intr_id qa < num_vecs (s_xd s))) ∨
     (rv = - ENOMEM ∧ no_resources qa)).
Proof.
  intros Hr Hnv. unfold on_res. set (r0 := Res q _ _ _).
  pose proof (alloc_resource_frame r0) as (Fc & (cnts & Fx) & Fb).
  pose proof (alloc_resource_spec r0 Hr) as Hspec. pose proof (alloc_resource_intr r0 Hnv) as Hintr.
  pose proof (alloc_resource_wb r0) as Hwb.
  destruct (qdma_descq_alloc_resource r0) as [rv r] eqn:Ea. cbn [fst snd] in *.
  change (r_q r0) with q in *. change (r_xd r0) with (s_xd s) in *.
  exists rv, (r_q r). eexists. split; [reflexivity|]. split.
  - split; try done.
    + cbn. by rewrite Fx.
    + cbn. by rewrite Fx.
    + intros Hwf Hcoh. assert (buses_ok q) as Hb0 by (destruct Hwf; by split).
      destruct (Fb Hcoh Hb0) as [_ Hb]. by apply (fields_wf_config q).
  - destruct Hspec as [[-> Hres]|(-> & Hnone & _)]; [left|by right].
    split_and!; [done|done|by apply Hwb|]. specialize (Hintr eq_refl). unfold intr_ok in Hintr. by rewrite Fx in Hintr.
Qed.

(** A change of queue [d] that keeps its settings keeps the invariant. *)
Lemma update_keeps (s : sys D) d q p :
  qdev_inv (s_qd s) → get_descq (s_qd s) d = Some q → enabled q = true → conf p = conf q →
  enabled p = true → (online p = true → inited p = true) → qdev_inv (set_descq d p (s_qd s)).
Proof.
  intros Hinv Hq Hen Hc He Ho. apply (update_inv d q p); [done..| |by rewrite He, Hen].
  by apply (queue_ok_same d q p); [apply (qi_ok _ Hinv)|done|rewrite He, Hen|..].
Qed.

(** *** On any device *)

Section any.
Context `{!RegIo D}.
Implicit Types s : sys D.

(** The error exit, whatever the device answers. *)
Lemma start_err_out_any d rv s q :
  get_descq (s_qd s) d = Some q →
  ∃ h, start_err_out d rv s =
    (rv, s <| s_hw := h |> <| s_qd := set_descq d ((qdma_descq_free_resource q) <| inited := false |>) (s_qd s) |>).
Proof.
  intros Hq. unfold start_err_out. rewrite (queue_of_eq s d q Hq). unfold mbind, ST_bind, on_hw.
  destruct (qdma_descq_context_clear _ _ _ (s_hw s)) as [rv' h]. exists h.
  unfold upd_queue. cbn. by rewrite Hq.
Qed.

(** The queue once it is up. *)
Definition up (i : nat) (w : option nat) (q : qdma_descq) : qdma_descq :=
  q <| inited := true |> <| online := true |> <| wrkthp := Some i |> <| wbthp := w |>.

(** Once allocated: the queue goes up; or the device refuses its contexts and
    everything is released; or the threads' lists are corrupted. *)
Lemma start_program_any s1 d qa :
  get_descq (s_qd s1) d = Some qa →
  match start_program d s1 with
  | None => qdma_thread_add_work d (num_vecs (s_xd s1)) (qa <| inited := true |> <| online := true |>) (s_thr s1) = None
  | Some (rv, s') =>
      (rv = 0 ∧ ∃ i w, s_qd s' = set_descq d (up i w qa) (s_qd s1)) ∨
      (rv < 0 ∧ s_thr s' = s_thr s1 ∧
       s_qd s' = set_descq d ((qdma_descq_free_resource (qa <| inited := true |>)) <| inited := false |>) (s_qd s1))
  end.
Proof.
  intros Hq. unfold start_program. rewrite (upd_queue_eq d _ qa s1 Hq).
  set (q2 := qa <| inited := true |>). set (s2 := s1 <| s_qd := _ |>).
  assert (get_descq (s_qd s2) d = Some q2) as Hq2 by (apply get_set_same; by eexists).
  unfold on_hw. destruct (qdma_descq_prog_hw _ _ _) as [rv h]. set (s3 := s2 <| s_hw := h |>).
  destruct (Z.ltb_spec rv 0) as [Hlt|_].
  - destruct (start_err_out_any d rv s3 q2 Hq2) as [h' E]. rewrite E. right.
    split; [done|]. split; [done|]. cbn. by rewrite set_set_descq.
  - rewrite (upd_queue_eq d _ q2 s3 Hq2). set (q3 := q2 <| online := true |>). set (s4 := s3 <| s_qd := _ |>).
    assert (get_descq (s_qd s4) d = Some q3) as Hq4 by (apply get_set_same; by eexists).
    rewrite (queue_of_eq s4 d q3 Hq4). change (s_xd s4) with (s_xd s1). change (s_thr s4) with (s_thr s1).
    destruct (qdma_thread_add_work _ _ _ _) as [[q4 thr]|] eqn:E; [|done]. cbn [mbind option_bind].
    left. split; [done|]. destruct (add_work_keeps _ _ _ _ _ _ E) as (i & w & ->).
    exists i, w. cbn. by rewrite !set_set_descq.
Qed.

(** A queue that is down and released. *)
Definition is_down (q : qdma_descq) : Prop := online q = false ∧ inited q = false ∧ no_resources q.

Lemma released_same q qa b :
  same_config q qa → online q = false →
  let q' := (qdma_descq_free_resource (qa <| inited := b |>)) <| inited := false |> in
  is_down q' ∧ same_config (q <| inited := inited q' |> <| online := online q' |>) q'.
Proof.
  intros Fc Ho. cbv zeta. pose proof (free_resource_config (qa <| inited := b |>)) as Gc.
  pose proof (free_resource_none (qa <| inited := b |>)) as Gn.
  set (p := qdma_descq_free_resource _) in *. clearbody p.
  unfold is_down, no_resources, same_config in *. cbn in *. intuition congruence.
Qed.

(** Starting a queue that is not up: it returns 0 and the queue is up, or an
    error and the queue is down, or it faults as the threads or the vectors
    have no room for the queue. *)
Lemma start_cases s id d q :
  qdma_device_get_descq_by_id (s_qd s) id true = Some d → get_descq (s_qd s) d = Some q →
  inited q = false → online q = false → 0 <= rngsz (conf q) → 0 <= num_vecs (s_xd s) →
  match qdma_queue_start id s with
  | None => ¬ threads_ready d (num_vecs (s_xd s)) (s_thr s)
  | Some (rv, s') => ∃ q', s_qd s' = set_descq d q' (s_qd s) ∧ same_config (q <| inited := inited q' |> <| online := online q' |>) q' ∧
      ((rv = 0 ∧ online q' = true ∧ inited q' = true ∧ has_resources q' ∧ desc_wb_cidx (ring q') = 0 ∧ is_Some (wrkthp q')) ∨
       (rv < 0 ∧ is_down q' ∧ s_thr s' = s_thr s))
  end.
Proof.
  intros Hid Hq Hin Hon Hr Hnv. pose proof (by_id_enabled _ _ _ _ Hid Hq) as Hen.
  unfold qdma_queue_start. rewrite Hid, (queue_of_eq s d q Hq), Hen, Hin, Hon. cbn [negb orb].
  destruct (start_alloc_run s d q Hr Hnv) as (rv & qa & s1 & -> & [Eq _ Ethr Ev _ Fc _] & Hres).
  assert (get_descq (s_qd s1) d = Some qa) as Hq1 by (rewrite Eq; apply get_set_same; by eexists).
  assert (∀ p, set_descq d p (s_qd s1) = set_descq d p (s_qd s)) as Eset by (intros p; by rewrite Eq, set_set_descq).
  pose proof Fc as (_ & _ & _ & _ & _ & Ei & Eo & _). rewrite Hin in Ei. rewrite Hon in Eo.
  destruct Hres as [(-> & Hres & Hwb & Hi)|(-> & Hnone)].
  - cbn [Z.ltb Z.compare]. pose proof (start_program_any s1 d qa Hq1) as Hs.
    destruct (start_program d s1) as [[rv s']|].
    + destruct Hs as [(-> & i & w & E)|(Hlt & Et & E)]; rewrite Eset in E.
      * exists (up i w qa). split; [done|]. split; [|left; split_and!; try done; by eexists].
        unfold same_config in *. cbn in *. intuition congruence.
      * eexists. split; [exact E|]. destruct (released_same q qa true Fc Hon) as [Hd Hs].
        split; [exact Hs|]. right. by rewrite Et.
    + intros Hready. rewrite Ev, Ethr in Hs.
      match type of Hs with qdma_thread_add_work _ _ ?p _ = _ =>
        destruct (add_work_succeeds d _ p _ Hready Hi) as (? & ? & ? & ? & H & _) end. congruence.
  - change (- ENOMEM <? 0) with true. destruct (start_err_out_any d (- ENOMEM) s1 qa Hq1) as [h ->].
    assert (qa <| inited := inited qa |> = qa) as Eqa by (by destruct qa).
    destruct (released_same q qa (inited qa) Fc Hon) as [Hd Hs]. rewrite Eqa in Hd, Hs.
    eexists. cbn [s_qd s_thr set eta sys_eta]. rewrite Eset. split; [reflexivity|].
    split; [exact Hs|]. right. unfold ENOMEM. split; [lia|]. by split.
Qed.

End any.

(** *** On a device that obeys the laws *)

Section laws.
Context `{HC : CtxtHw D}.
Implicit Types s : sys D.

(** The error exit: contexts cleared, resources released. *)
Lemma start_err_out_run d rv s q :
  get_descq (s_qd s) d = Some q → ctxt_idle (s_hw s) → 0 <= qidx_hw q < 2048 →
  ∃ h, start_err_out d rv s =
      (rv, s <| s_hw := h |> <| s_qd := set_descq d ((qdma_descq_free_resource q) <| inited := false |>) (s_qd s) |>) ∧
    ctxt_idle h ∧ ctxts h = cleared (qidx_hw q) (st (conf q)) (c2h (conf q)) (ctxts (s_hw s)).
Proof.
  intros Hq Hi Hn. destruct (context_clear_ok (s_hw s) (qidx_hw q) (st (conf q)) (c2h (conf q)))
    as (h & E & Hi' & Hc); [done..|].
  exists h. split; [|done]. unfold start_err_out. rewrite (queue_of_eq s d q Hq).
  unfold mbind, ST_bind, on_hw. rewrite E. unfold upd_queue. cbn. by rewrite Hq.
Qed.

(** Once allocated, the start cannot fail: the device is programmed and the
    threads have room. *)
Lemma start_program_run s s1 d q qa :
  queue_ok d q → get_descq (s_qd s) d = Some q →
  ctxt_idle (s_hw s) → 0 <= qidx_hw q < 2048 → 0 <= func_id (s_xd s) < 256 →
  threads_ready d (num_vecs (s_xd s)) (s_thr s) → allocated d q qa s s1 → descq_fields_wf qa →
  num_vecs (s_xd s) = 0 ∨ 0 <= intr_id qa < num_vecs (s_xd s) →
  ∃ s' q', start_program d s1 = Some (0, s') ∧ get_descq (s_qd s') d = Some q' ∧ ctxt_idle (s_hw s') ∧
    ctxts (s_hw s') = programmed (qidx_hw q) (st (conf q)) (c2h (conf q)) (descq_contexts (s_xd s') q')
      (cleared (qidx_hw q) (st (conf q)) (c2h (conf q)) (ctxts (s_hw s))).
Proof.
  intros Hok Hq Hidle Hn Hf Hthr [Eq Ehw Ethr Ev Ef Fc _] Hwf' Hintr.
  pose proof (qo_idx _ _ Hok) as Hidx. pose proof Fc as (Ec & _ & _ & Eh & _).
  assert (get_descq (s_qd s1) d = Some qa) as Hq1 by (rewrite Eq; apply get_set_same; eexists; exact Hq).
  unfold start_program. rewrite (upd_queue_eq d _ qa s1 Hq1).
  set (q2 := qa <| inited := true |>). set (s2 := s1 <| s_qd := _ |>).
  assert (get_descq (s_qd s2) d = Some q2) as Hq2 by (apply get_set_same; eexists; exact Hq1).
  rewrite (queue_of_eq s2 d q2 Hq2).
  destruct (prog_hw_run (s_xd s2) q2 (s_hw s2)) as (h & E & Hi' & Hc').
  { cbn. by rewrite Ehw. } { cbn. by rewrite Eh. } { cbn. rewrite Ec, Hidx. lia. }
  { by destruct Hwf'. } { cbn. change (s_xd s2) with (s_xd s1). by rewrite Ef. }
  unfold on_hw. rewrite E. cbn [Z.ltb Z.compare].
  set (s3 := s2 <| s_hw := h |>). rewrite (upd_queue_eq d _ q2 s3 Hq2).
  set (q3 := q2 <| online := true |>). set (s4 := s3 <| s_qd := _ |>).
  assert (get_descq (s_qd s4) d = Some q3) as Hq4 by (apply get_set_same; eexists; exact Hq2).
  rewrite (queue_of_eq s4 d q3 Hq4).
  destruct (add_work_succeeds d (num_vecs (s_xd s4)) q3 (s_thr s4)) as (q4 & thr & i & w & E4 & Eq4).
  { change (s_xd s4) with (s_xd s1). change (s_thr s4) with (s_thr s1). by rewrite Ev, Ethr. }
  { change (s_xd s4) with (s_xd s1). by rewrite Ev. }
  rewrite E4. cbn [mbind option_bind]. eexists _, q4. split; [reflexivity|]. rewrite Eq4 in *.
  split; [cbn; apply get_set_same; by eexists|]. split; [exact Hi'|].
  change (conf q2) with (conf qa) in Hc'. change (qidx_hw q2) with (qidx_hw qa) in Hc'.
  change (s_hw s2) with (s_hw s1) in Hc'. rewrite Ec, Eh, Ehw in Hc'. exact Hc'.
Qed.

(** What the device holds after a start. *)
Lemma queue_start_contexts s id d q :
  queue_ok d q → qdma_device_get_descq_by_id (s_qd s) id true = Some d →
  get_descq (s_qd s) d = Some q → inited q = false → online q = false →
  0 <= rngsz (conf q) → 0 <= num_vecs (s_xd s) →
  ctxt_idle (s_hw s) → 0 <= qidx_hw q < 2048 → descq_fields_wf q →
  0 <= func_id (s_xd s) < 256 → coh_ok (i_coh (s_is s)) → threads_ready d (num_vecs (s_xd s)) (s_thr s) →
  let clear := cleared (qidx_hw q) (st (conf q)) (c2h (conf q)) (ctxts (s_hw s)) in
  ∃ rv s' q', qdma_queue_start id s = Some (rv, s') ∧ get_descq (s_qd s') d = Some q' ∧ ctxt_idle (s_hw s') ∧
    ((rv = 0 ∧ ctxts (s_hw s') =
       programmed (qidx_hw q) (st (conf q)) (c2h (conf q)) (descq_contexts (s_xd s') q') clear) ∨
     (rv = - ENOMEM ∧ ctxts (s_hw s') = clear)).
Proof.
  intros Hok Hid Hq Hin Hon Hr Hnv Hidle Hn Hwf Hf Hcoh Hthr. cbv zeta.
  pose proof (by_id_enabled _ _ _ _ Hid Hq) as Hen.
  unfold qdma_queue_start. rewrite Hid, (queue_of_eq s d q Hq), Hen, Hin, Hon. cbn [negb orb].
  destruct (start_alloc_run s d q Hr Hnv) as (rv & qa & s1 & -> & Hal & Hres).
  destruct Hres as [(-> & Hres & _ & Hi)|(-> & Hnone)].
  - cbn [Z.ltb Z.compare].
    destruct (start_program_run s s1 d q qa) as (s' & q' & E & H1 & H2 & H3); try done; [by apply (al_wf _ _ _ _ _ Hal)|].
    exists 0, s', q'. split_and!; [done..|]. by left.
  - change (- ENOMEM <? 0) with true. destruct Hal as [Eq Ehw _ _ _ (Ec & _ & _ & Eh & _) _].
    assert (get_descq (s_qd s1) d = Some qa) as Hq1 by (rewrite Eq; apply get_set_same; eexists; exact Hq).
    destruct (start_err_out_run d (- ENOMEM) s1 qa Hq1) as (h & E & Hi' & Hc'); [by rewrite Ehw|by rewrite Eh|].
    rewrite E. eexists (- ENOMEM), _, _. split; [reflexivity|].
    split; [cbn; apply get_set_same; by eexists|]. split; [exact Hi'|]. right. split; [done|].
    cbn. by rewrite Hc', Eh, Ec, Ehw.
Qed.

(** C9: what starting a queue that has been added and is not up
    ([qdma_queue_start]) can come to, whatever the device and the allocators
    answer.  It returns 0: the queue is online, owns all its rings and pages
    and is served by a thread.  Or it returns an error: the queue is down
    again, owns nothing, and the threads are as they were.  Or it faults, which
    it does not when the threads and the vectors have room for the queue.  No
    other queue changes, and the invariant of the queues is kept.  On a device
    that is not busy and obeys the context protocol, with field values in
    range, the only error is -ENOMEM, and the device then holds
    exactly the queue's contexts after a 0, and after the error the queue's
    contexts cleared. *)
Theorem queue_start_outcome s id d q :
  qdev_inv (s_qd s) → qdma_device_get_descq_by_id (s_qd s) id true = Some d →
  get_descq (s_qd s) d = Some q → inited q = false → 0 <= rngsz (conf q) → 0 <= num_vecs (s_xd s) →
  match qdma_queue_start id s with
  | None => ¬ threads_ready d (num_vecs (s_xd s)) (s_thr s)
  | Some (rv, s') => ∃ q', get_descq (s_qd s') d = Some q' ∧
      (∀ d', d' ≠ d → get_descq (s_qd s') d' = get_descq (s_qd s) d') ∧ qdev_inv (s_qd s') ∧
      conf q' = conf q ∧ enabled q' = true ∧
      ((rv = 0 ∧ online q' = true ∧ inited q' = true ∧ has_resources q' ∧ is_Some (wrkthp q')) ∨
       (rv < 0 ∧ is_down q' ∧ s_thr s' = s_thr s)) ∧
      (ctxt_idle (s_hw s) → 0 <= qidx_hw q < 2048 → descq_fields_wf q → 0 <= func_id (s_xd s) < 256 →
       coh_ok (i_coh (s_is s)) → threads_ready d (num_vecs (s_xd s)) (s_thr s) →
       ctxt_idle (s_hw s') ∧
       let clear := cleared (qidx_hw q) (st (conf q)) (c2h (conf q)) (ctxts (s_hw s)) in
       ((rv = 0 ∧ ctxts (s_hw s') =
          programmed (qidx_hw q) (st (conf q)) (c2h (conf q)) (descq_contexts (s_xd s') q') clear) ∨
        (rv = - ENOMEM ∧ ctxts (s_hw s') = clear)))
  end.
Proof.
  intros Hinv Hid Hq Hin Hr Hnv. pose proof (by_id_enabled _ _ _ _ Hid Hq) as Hen.
  pose proof (qi_ok _ Hinv d q Hq) as Hok.
  assert (online q = false) as Hon
    by (destruct (online q) eqn:E; [|done]; rewrite (qo_online _ _ Hok E) in Hin; done).
  pose proof (start_cases s id d q Hid Hq Hin Hon Hr Hnv) as Hc.
  pose proof (queue_start_contexts s id d q Hok Hid Hq Hin Hon Hr Hnv) as Hx.
  destruct (qdma_queue_start id s) as [[rv s']|]; [|done]. destruct Hc as (q' & Eqd & Hsame & Hc).
  assert (get_descq (s_qd s') d = Some q') as Hq' by (rewrite Eqd; apply get_set_same; by eexists).
  assert (conf q' = conf q ∧ enabled q' = true) as [Ec Ee].
  { unfold same_config in Hsame. cbn in Hsame. intuition congruence. }
  exists q'. split; [done|]. split; [intros d' Hd'; rewrite Eqd; by apply get_set_other|]. split_and!; try done.
  - rewrite Eqd. apply (update_keeps s d q q'); try done. intros Ho.
    destruct Hc as [(_ & _ & H & _)|(_ & (H & _) & _)]; congruence.
  - destruct Hc as [(-> & H1 & H2 & H3 & _ & H4)|H]; [left|by right]. by split_and!.
  - intros H1 H2 H3 H4 H5 H6. destruct (Hx H1 H2 H3 H4 H5 H6) as (rv2 & s2 & q2 & E & Hq2 & Hi & Hcx).
    injection E as <- <-. split; [done|]. rewrite Hq' in Hq2. injection Hq2 as <-. done.
Qed.

End laws.
End start.

Section stop.
Context {D : Type} `{HC : CtxtHw D}.
Implicit Types s : sys D.

(** The state after a stop, whatever the device answers. *)
Lemma queue_stop_any s id d q :
  qdma_device_get_descq_by_id (s_qd s) id true = Some d → get_descq (s_qd s) d = Some q →
  let p := q <| wbthp := None |> <| wrkthp := None |> in
  let q' := (qdma_descq_free_resource p) <| online := false |> <| inited := false |> in
  match qdma_queue_stop id s with
  | None => ¬ linked d q (s_thr s)
  | Some (rv, s') => rv = 0 ∧ linked d q (s_thr s) ∧ s_thr s' = unlinked d q (s_thr s) ∧
      s_qd s' = set_descq d q' (s_qd s) ∧
      s_hw s' = (qdma_descq_context_clear (qidx_hw q) (st (conf q)) (c2h (conf q)) (s_hw s)).2
  end.
Proof.
  intros Hid Hq p q'. unfold qdma_queue_stop. rewrite Hid, (queue_of_eq s d q Hq).
  pose proof (remove_work_cases d q (s_thr s)) as Hrm.
  destruct (qdma_thread_remove_work _ _ _) as [[q1 thr]|]; [|done]. destruct Hrm as (Hl & -> & ->).
  cbn [mbind option_bind]. fold p. unfold on_hw. cbn [s_hw set eta sys_eta].
  change (qidx_hw p) with (qidx_hw q). change (conf p) with (conf q).
  destruct (qdma_descq_context_clear _ _ _ (s_hw s)) as [rv h]. cbn [snd].
  match goal with |- context [upd_queue d _ ?x] => set (s2 := x) end.
  assert (get_descq (s_qd s2) d = Some p) as Hq2 by (apply get_set_same; eexists; exact Hq).
  rewrite (upd_queue_eq d _ p s2 Hq2). split_and!; try done. cbn. by rewrite set_set_descq.
Qed.


(** The state [qdma_queue_remove] leaves, in one record update. *)
Lemma queue_remove_run s id d q :
  qdma_device_get_descq_by_id (s_qd s) id true = Some d →
  get_descq (s_qd s) d = Some q →
  let q' := (qdma_descq_free_resource (q <| inited := false |> <| online := false |>)) <| enabled := false |> in
  ∃ s', qdma_queue_remove id s = (0, s') ∧
    s_qd s' = set_cnt (c2h (conf q)) (λ n, u16 (n - 1)) (set_descq d q' (s_qd s)) ∧
    s_hw s' = s_hw s ∧ s_thr s' = s_thr s.
Proof.
  intros Hid Hq q'. pose proof (by_id_enabled _ _ _ _ Hid Hq) as Hen.
  unfold qdma_queue_remove. rewrite Hid, (queue_of_eq s d q Hq).
  set (f1 := λ q : qdma_descq, q <| inited := false |> <| online := false |>).
  set (s1 := s <| s_qd := set_descq d (f1 q) (s_qd s) |>).
  assert (upd_queue d f1 s = (tt, s1)) as E1 by (unfold upd_queue; by rewrite Hq).
  rewrite (st_bind_eq _ _ _ _ _ E1).
  assert (get_descq (s_qd s1) d = Some (f1 q)) as Hq1 by (apply get_set_same; eexists; exact Hq).
  set (q2 := qdma_descq_free_resource (f1 q)).
  set (s2 := s1 <| s_is ::= λ i, i <| i_xd := desc_free_irq (intr_id q) (s_xd s) |> |>
                <| s_qd := set_descq d q2 (s_qd s1) |>).
  assert (cleanup_queue d s1 = (tt, s2)) as E2
    by (unfold cleanup_queue; rewrite (queue_of_eq s1 d _ Hq1); by destruct s).
  rewrite (st_bind_eq _ _ _ _ _ E2).
  assert (get_descq (s_qd s2) d = Some q2) as Hq2 by (apply get_set_same; eexists; exact Hq1).
  set (s3 := s2 <| s_qd := set_descq d q' (s_qd s2) |>).
  assert (upd_queue d (λ q, q <| enabled := false |>) s2 = (tt, s3)) as E3
    by (unfold upd_queue; by rewrite Hq2).
  rewrite (st_bind_eq _ _ _ _ _ E3).
  eexists. split; [reflexivity|]. split; [|done].
  cbn. by rewrite !set_set_descq.
Qed.

Lemma enabled_counted qd d q :
  qdev_inv qd → get_descq qd d = Some q → enabled q = true →
  1 <= cnt_of d.1 qd ∧ u16 (cnt_of d.1 qd - 1) = cnt_of d.1 qd - 1.
Proof.
  intros Hinv Hq Hen. pose proof (qi_cnt _ Hinv d.1) as Hcnt. pose proof (qi_qmax _ Hinv) as Hm.
  pose proof (count_enabled_range (dir_list d.1 qd)) as Hr. rewrite (qi_len _ Hinv) in Hr.
  assert (1 <= cnt_of d.1 qd); [|split; [done|apply u16_small; lia]].
  rewrite Hcnt. unfold count_enabled.
  assert (q ∈ filter (λ q, enabled q = true) (dir_list d.1 qd)) as Hin.
  { apply list_elem_of_filter. split; [done|]. rewrite get_descq_dir in Hq. by eapply list_elem_of_lookup_2. }
  destruct (filter _ _); [by apply elem_of_nil in Hin|]. cbn. lia.
Qed.


End stop.

(** ** Submitting a request *)

(** The state after the request's counters are zeroed, its entries mapped and
    the request put at the end of the work list. *)
Definition queued (cb : nat) (r : qdma_sg_req) (t : nat) (e : qenv) : qenv :=
  QEnv ((dq e) <| work_list ::= λ l, l ++ [cb] |>) (<[cb := r]> (reqs e)) (xd e) (trace e ++ [EvThread t]).

Lemma queued_inv cb r t e :
  credit_inv e → cb ∉ pend_list (dq e) ++ work_list (dq e) → desc_nr r = 0 →
  credit_inv (queued cb r t e) ∧ fifo (queued cb r t e) = fifo e.
Proof.
  intros Hi Hn Hd.
  assert (∀ x, x ≠ cb → reqs (queued cb r t e) !! x = reqs e !! x) as Hoth
    by (intros; cbn; by rewrite lookup_insert_ne).
  assert (∀ x, x ∈ pend_list (dq e) ++ work_list (dq e) → req_of (queued cb r t e) x = req_of e x) as Hro
    by (intros x Hx; unfold req_of; rewrite Hoth; [done|by intros ->]).
  assert (req_of (queued cb r t e) cb = r) as Hcb by (unfold req_of; cbn; by rewrite lookup_insert_eq).
  assert (owners (queued cb r t e) = owners e) as Ho.
  { unfold owners. cbn [queued dq pend_list work_list set eta descq_eta reqs].
    rewrite app_assoc, owners_of_app.
    rewrite (owners_of_zero _ [cb]), app_nil_r.
    - apply owners_of_ext. intros x Hx. apply (f_equal desc_nr), Hro, Hx.
    - intros x ->%list_elem_of_singleton. by rewrite lookup_insert_eq. }
  split; [|unfold fifo; by rewrite Ho].
  destruct Hi as [Hnd Hk Hr Hp Hw Hc Hcp Hf]. split; cbn [queued dq work_list pend_list ring credit set eta descq_eta].
  - rewrite app_assoc. apply NoDup_app. split_and!; [done| |by apply NoDup_singleton].
    by intros x Hx ->%list_elem_of_singleton.
  - intros x Hx. destruct (decide (x = cb)) as [->|]; [cbn; rewrite lookup_insert_eq; by eexists|].
    rewrite Hoth by done. apply Hk. rewrite app_assoc in Hx.
    by apply elem_of_app in Hx as [?|?%list_elem_of_singleton].
  - intros x r' Hx. destruct (decide (x = cb)) as [->|].
    + cbn in Hx. rewrite lookup_insert_eq in Hx. injection Hx as <-. rewrite Hd. done.
    + rewrite Hoth in Hx by done. by apply (Hr x).
  - intros x Hx. rewrite Hro by (apply elem_of_app; by left). by apply Hp.
  - intros x Hx. destruct (decide (x = cb)) as [->|Hne]; [by rewrite Hcb|].
    destruct (work_list (dq e)) as [|w l] eqn:Ew; cbn in Hx; [by apply elem_of_nil in Hx|].
    apply elem_of_app in Hx as [Hx|?%list_elem_of_singleton]; [|done].
    rewrite Hro by (apply elem_of_app; right; by right). by apply Hw.
  - done.
  - intros x l Hx. rewrite Hro by (apply elem_of_app; left; rewrite Hx; by left). by apply (Hcp x l).
  - rewrite Ho. exact Hf.
Qed.

(** The request as it is queued: its counters cleared, its entries mapped. *)
Definition mapped_req (r : qdma_sg_req) (mapped : list sg_entry) : qdma_sg_req :=
  r <| desc_nr := 0 |> <| offset := 0 |> <| cb_done := false |> <| status := 0 |>
    <| sgt := if dma_mapped r then sgt r else mapped |>.

Lemma sg_req_submit_run e cb r mapped t :
  enabled (dq e) = true → online (dq e) = true → st (conf (dq e)) && c2h (conf (dq e)) = false →
  wrkthp (dq e) = Some t → reqs e !! cb = Some r → req_write r = negb (c2h (conf (dq e))) →
  dma_mapped r = true ∨ mapped ≠ [] →
  qdma_sg_req_submit cb mapped e =
    (if nonblock r then Returned 0 else Waiting, queued cb (mapped_req r mapped) t e).
Proof.
  intros Hen Hon Hm Ht Hr Hdir Hmap.
  unfold qdma_sg_req_submit. rewrite Hen. cbn [negb]. unfold req_of at 1. rewrite Hr.
  cbn [default from_option id]. rewrite Hdir.
  assert (Bool.eqb (negb (c2h (conf (dq e)))) (c2h (conf (dq e))) = false) as ->
    by (by destruct (c2h (conf (dq e)))).
  rewrite Hm. unfold mapped_req, sg_map, req_of, cb_zero, upd_req. cbn. rewrite lookup_alter_eq, Hr. cbn.
  destruct (dma_mapped r) eqn:Ed; [|destruct mapped as [|m l]; [by destruct Hmap|]]; cbn; rewrite Hon, Ht; cbn;
    unfold queued, emit_ev; cbn; f_equal; f_equal; try by rewrite Hon, Ht.
  - apply map_eq. intros x. destruct (decide (x = cb)) as [->|].
    + rewrite lookup_alter_eq, lookup_insert_eq, Hr. cbn. by rewrite Ed.
    + by rewrite lookup_alter_ne, lookup_insert_ne.
  - apply map_eq. intros x. destruct (decide (x = cb)) as [->|].
    + rewrite !lookup_alter_eq, lookup_insert_eq, Hr. cbn. by rewrite Ed.
    + by rewrite !lookup_alter_ne, lookup_insert_ne.
Qed.

(** Submitting a request to an online memory-mapped or H2C queue
    ([qdma_sg_req_submit]): it joins the end of the work list with fresh
    counters and its mapped entries, the submission thread is woken, the
    caller of a blocking request waits, and the accounting of the
    descriptors in flight is untouched. *)
Theorem sg_req_submit_queued e cb r mapped t :
  credit_inv e → enabled (dq e) = true → online (dq e) = true →
  st (conf (dq e)) && c2h (conf (dq e)) = false → wrkthp (dq e) = Some t →
  reqs e !! cb = Some r → cb ∉ pend_list (dq e) ++ work_list (dq e) →
  req_write r = negb (c2h (conf (dq e))) → dma_mapped r = true ∨ mapped ≠ [] →
  ∃ e', qdma_sg_req_submit cb mapped e = (if nonblock r then Returned 0 else Waiting, e') ∧
    work_list (dq e') = work_list (dq e) ++ [cb] ∧ pend_list (dq e') = pend_list (dq e) ∧
    ring (dq e') = ring (dq e) ∧ credit_inv e' ∧ fifo e' = fifo e ∧
    req_of e' cb = mapped_req r mapped ∧
    (∀ x, x ≠ cb → req_of e' x = req_of e x) ∧ trace e' = trace e ++ [EvThread t].
Proof.
  intros Hi Hen Hon Hm Ht Hr Hn Hdir Hmap.
  destruct (queued_inv cb (mapped_req r mapped) t e Hi Hn eq_refl) as [Hi' Hf'].
  exists (queued cb (mapped_req r mapped) t e). split; [by apply sg_req_submit_run|]. split_and!; try done.
  - unfold req_of. cbn. by rewrite lookup_insert_eq.
  - intros x Hx. unfold req_of. cbn. by rewrite lookup_insert_ne.
Qed.

(** ** A concrete device *)

Module SampleSys.

Definition conf_new (is_st is_c2h : bool) : qdma_queue_conf :=
  QueueConf QDMA_QUEUE_IDX_INVALID is_st is_c2h 0 "" 0.

(** Two queues in each direction; the first H2C queue has been added. *)
Definition added : qdma_descq :=
  qdma_descq_config Sample.dev (conf_new false false) false ((qdma_descq_init 0 0 0) <| enabled := true |>).
Definition qd : qdma_dev :=
  Qdev true 2 0 1 0 [added; qdma_descq_init 0 1 1] [qdma_descq_init 0 0 0; qdma_descq_init 0 1 1].
Definition thr : thread_sys :=
  ThreadSys 2 [SampleThread.th 0 []; SampleThread.th 0 []] [SampleThread.th 0 []; SampleThread.th 0 []]
    [[]; []] ∅.
Definition sys : sys SimHw.t :=
  Sys (IntrSys Sample.dev [40; 41] [] [Some 0x10000] []) qd thr (Memory [] []) (SimHw.init 3) false.

Lemma inv : qdev_inv qd.
Proof.
  split.
  - cbn. lia.
  - by intros [|].
  - intros [[|] i] q; unfold get_descq; cbn; intros Hq;
      (destruct i as [|[|i]]; [injection Hq as <-|injection Hq as <-|by destruct i]); by split.
  - by intros [|].
Qed.

Lemma wf : descq_fields_wf added.
Proof. split; cbn; lia. Qed.

Lemma ready : threads_ready (false, 0%nat) 2 thr.
Proof. by split. Qed.

(** The same queue, started: served by thread 1 and vector 0. *)
Definition up : qdma_descq :=
  added <| inited := true |> <| online := true |> <| wrkthp := Some 1%nat |>.
Definition thr_up : thread_sys :=
  ThreadSys 2 [SampleThread.th 0 []; SampleThread.th 1 [(false, 0%nat)]]
    [SampleThread.th 0 []; SampleThread.th 0 []] [[(false, 0%nat)]; []] ∅.
Definition sys_up : Queue.sys SimHw.t :=
  sys <| s_qd := set_descq (false, 0%nat) up qd |> <| s_thr := thr_up |>.

Lemma inv_up : qdev_inv (s_qd sys_up).
Proof. apply (update_inv _ added); [apply inv|reflexivity|by split|reflexivity]. Qed.

End SampleSys.

Lemma queue_add_lowest_witness : ∃ q' hndl s',
  qdma_queue_add (SampleSys.conf_new true false) false SampleSys.sys =
    (AddResult 0 (Some hndl) (Some (conf q')), s') ∧ cnt_of false (s_qd s') = 2.
Proof.
  pose proof (queue_add_lowest SampleSys.sys (SampleSys.conf_new true false)
    SampleSys.inv ltac:(reflexivity) ltac:(reflexivity)) as H.
  change (qdma_device_prep_q_resource SampleSys.sys) with (0, SampleSys.sys) in H.
  destruct H as (_ & _ & i & q & q' & hndl & s' & E & _ & _ & _ & _ & _ & _ & _ & Hc & _).
  exists q', hndl, s'. split; [exact E|exact Hc].
Defined.

Lemma queue_add_refused_witness :
  let conf := (SampleSys.conf_new true false) <| qidx := 0 |> in
  qdma_queue_add conf false SampleSys.sys = (AddResult (- EINVAL) (Some 0xFFFF) None, SampleSys.sys).
Proof.
  cbv zeta. rewrite (queue_add_refused SampleSys.sys ((SampleSys.conf_new true false) <| qidx := 0 |>)).
  - reflexivity.
  - apply SampleSys.inv.
  - reflexivity.
  - cbn. lia.
  - right. split; [done|]. right. reflexivity.
Defined.

Lemma queue_start_outcome_witness : ∃ rv s' q',
  qdma_queue_start 0 SampleSys.sys = Some (rv, s') ∧ get_descq (s_qd s') (false, 0%nat) = Some q' ∧
  ctxt_idle (s_hw s').
Proof.
  pose proof (queue_start_outcome SampleSys.sys 0 (false, 0%nat) SampleSys.added SampleSys.inv
    ltac:(reflexivity) ltac:(reflexivity) ltac:(reflexivity) ltac:(by vm_compute) ltac:(by vm_compute)) as H.
  destruct (qdma_queue_start 0 SampleSys.sys) as [[rv s']|]; [|by destruct (H SampleSys.ready)].
  destruct H as (q' & Hq & _ & _ & _ & _ & _ & H).
  destruct H as [Hi _]; [apply SimHw.init_idle|by vm_compute|apply SampleSys.wf|by vm_compute| |apply SampleSys.ready|].
  - apply Forall_singleton. intros ? [= <-]. lia.
  - exists rv, s', q'. split; [reflexivity|]. split; [exact Hq|exact Hi].
Defined.



Lemma sg_req_submit_queued_witness : ∃ e',
  qdma_sg_req_submit 2 [] ((SampleQ.env true 0)
    <| dq ::= λ q, q <| enabled := true |> <| wrkthp := Some 3%nat |> |>
    <| reqs ::= <[2%nat := SampleQ.req 0]> |>) = (Waiting, e') ∧
  work_list (dq e') = [1%nat; 2%nat].
Proof.
  destruct (sg_req_submit_queued ((SampleQ.env true 0)
    <| dq ::= λ q, q <| enabled := true |> <| wrkthp := Some 3%nat |> |>
    <| reqs ::= <[2%nat := SampleQ.req 0]> |>) 2 (SampleQ.req 0) [] 3) as (e' & E & Hw & _).
  - split; cbn.
    + by apply NoDup_singleton.
    + intros cb ->%list_elem_of_singleton. by exists (SampleQ.req 0).
    + intros cb r Hr. destruct (decide (cb = 2%nat)) as [->|].
      * rewrite lookup_insert_eq in Hr. by injection Hr as <-.
      * rewrite lookup_insert_ne in Hr by done. by apply lookup_singleton_Some in Hr as [_ <-].
    + intros cb H. by apply elem_of_nil in H.
    + intros cb H. by apply elem_of_nil in H.
    + done.
    + done.
    + reflexivity.
  - reflexivity.
  - reflexivity.
  - reflexivity.
  - reflexivity.
  - reflexivity.
  - cbn. by intros ?%list_elem_of_singleton.
  - reflexivity.
  - by left.
  - exists e'. split; [exact E|exact Hw].
Defined.
