(* ===== verification/Api.v ===== *)
(** * The queue API as a transition system (libqdma_export.c)

    The entry points of [src/drv/libqdma/libqdma_export.c] that add,
    configure, start, stop and remove queues, as the steps of one system, and
    the invariant [qdev_inv] of every state the calls can reach from
    [qdma_device_init], in any order and with any answer of the device and of
    the allocators. *)

From S2P Require Import Prelude Regs Types Context Sgl Descq RxQueue Thread Resource Intr Queue.

(** ** The steps *)

(** The configuration is for the direction the handle names. *)
Definition right_direction (qd : qdma_dev) (id : Z) (qconf : qdma_queue_conf) : Prop :=
  ∀ d, qdma_device_get_descq_by_id qd id false = Some d → c2h qconf = d.1.

(** A call that completes.  [qconf->qidx] is unsigned.  The code does not check
    the direction of a configuration ([qdma_queue_config]); [strict]: the
    callers get it right. *)
Inductive api_step {D} `{!RegIo D} (strict : bool) : sys D → sys D → Prop :=
  | step_add qconf qhndl_null s :
      0 <= qidx qconf → api_step strict s (qdma_queue_add qconf qhndl_null s).2
  | step_config id qconf s :
      (strict = true → right_direction (s_qd s) id qconf) →
      api_step strict s (qdma_queue_config id qconf s).2
  | step_remove id s : api_step strict s (qdma_queue_remove id s).2
  | step_start id s rv s' : qdma_queue_start id s = Some (rv, s') → api_step strict s s'
  | step_stop id s rv s' : qdma_queue_stop id s = Some (rv, s') → api_step strict s s'.

(** ** Lemmas: updates that keep the invariant *)

(** A queue in the same place and use whose flags are in order. *)
Definition keeps (q p : qdma_descq) : Prop :=
  conf p = conf q ∧ enabled p = enabled q ∧
  (online p = true → inited p = true) ∧ (inited p = true → enabled p = true).

(** The queues have their configuration and their use as in [qd0]. *)
Definition same_use (qd0 qd : qdma_dev) : Prop :=
  qmax qd = qmax qd0 ∧
  ∀ d, (λ q, (conf q, enabled q)) <$> get_descq qd d = (λ q, (conf q, enabled q)) <$> get_descq qd0 d.

(** A state of the queues reached from [qd0] without adding or removing any,
    and the invariant [I]. *)
Definition after_with (I : qdma_dev → Prop) (qd0 qd : qdma_dev) : Prop := I qd ∧ same_use qd0 qd.

Definition after : qdma_dev → qdma_dev → Prop := after_with qdev_inv.

Lemma after_refl qd : qdev_inv qd → after qd qd.
Proof. done. Qed.

(** An invariant that such updates keep. *)
Definition keeps_closed (I : qdma_dev → Prop) : Prop :=
  ∀ d q p qd, I qd → get_descq qd d = Some q → keeps q p → I (set_descq d p qd).

Lemma inv_keeps_closed : keeps_closed qdev_inv.
Proof.
  intros d q p qd Hi Hq (Ec & Ee & Ho & Hn). apply (update_inv d q p); [done..| |done].
  pose proof (qi_ok _ Hi d q Hq) as Hok. by apply (queue_ok_same d q p).
Qed.

Lemma keeps_after_with I qd0 d q p qd :
  keeps_closed I → after_with I qd0 qd → get_descq qd d = Some q → keeps q p → after_with I qd0 (set_descq d p qd).
Proof.
  intros HI [Hi [Hm Hs]] Hq Hk. split; [by apply (HI d q)|]. destruct Hk as (Ec & Ee & Ho & Hn).
  split; [by rewrite set_descq_qmax|]. intros d'. rewrite <- Hs. destruct (decide (d' = d)) as [->|Hne].
  - rewrite get_set_same by (by rewrite Hq). rewrite Hq. cbn. by rewrite Ec, Ee.
  - by rewrite get_set_other.
Qed.

Lemma keeps_after qd0 d q p qd :
  after qd0 qd → get_descq qd d = Some q → keeps q p → after qd0 (set_descq d p qd).
Proof. apply keeps_after_with, inv_keeps_closed. Qed.

Lemma by_id_exists qd id d :
  qdma_device_get_descq_by_id qd id true = Some d → ∃ q, get_descq qd d = Some q ∧ enabled q = true.
Proof.
  unfold qdma_device_get_descq_by_id. destruct (if qmax qd <=? id then _ else _) as [d'|]; [|done].
  cbn [mbind option_bind andb]. destruct (negb _) eqn:E; [done|]. intros [= ->].
  destruct (get_descq qd d) as [q|]; [|done]. exists q. cbn in E. split; [done|]. by destruct (enabled q).
Qed.

(** The queue a handle names exists. *)
Lemma by_id_in_range qd id b d :
  qdev_inv qd → qdma_device_get_descq_by_id qd id b = Some d → ∃ q, get_descq qd d = Some q.
Proof.
  intros Hi. pose proof (qi_qmax _ Hi). unfold qdma_device_get_descq_by_id.
  destruct (Z.leb_spec (qmax qd) id).
  - destruct (Z.leb_spec (qmax qd) (id - qmax qd)); cbn [mbind option_bind]; [done|].
    destruct (b && _); [done|]. intros [= <-]. apply get_descq_lt; [done|lia].
  - cbn [mbind option_bind]. destruct (b && _); [done|]. intros [= <-]. apply get_descq_lt; [done|lia].
Qed.

Lemma free_resource_keeps q : keeps q ((qdma_descq_free_resource q) <| inited := false |>) ∨ online q = true.
Proof.
  pose proof (free_resource_config q) as (Gc & _ & _ & _ & Ge & _ & Go & _).
  destruct (online q) eqn:E; [by right|left]. unfold keeps. cbn. rewrite Go. done.
Qed.

Section steps.
Context {D : Type} `{!RegIo D}.
Implicit Types s : sys D.

(** Enabling and configuring a queue not in use, with its count. *)
Lemma add_take_inv qconf s :
  qdev_inv (s_qd s) → 0 <= qidx qconf → cnt_of (c2h qconf) (s_qd s) < qmax (s_qd s) →
  (qidx qconf ≠ QDMA_QUEUE_IDX_INVALID → qidx qconf < qmax (s_qd s)) →
  qdev_inv (s_qd (add_take qconf (on_qd (set_cnt (c2h qconf) (λ n, u16 (n + 1))) s).2).2).
Proof.
  intros Hi H0 Hc Hx. pose proof (count_up_down s (c2h qconf) Hi) as Hud.
  set (s1 := (on_qd _ s).2) in *. unfold add_take.
  assert (dir_list (c2h qconf) (s_qd s1) = dir_list (c2h qconf) (s_qd s)) as El
    by (unfold s1, dir_list, set_cnt; cbn; by destruct (c2h qconf)).
  assert (qmax (s_qd s1) = qmax (s_qd s)) as Em by (unfold s1, set_cnt; cbn; by destruct (c2h qconf)).
  destruct (Z.eqb_spec (qidx qconf) QDMA_QUEUE_IDX_INVALID) as [E|E].
  - pose proof (first_free_spec (dir_list (c2h qconf) (s_qd s)) 0) as Hff.
    change (if c2h qconf then c2h_descq (s_qd s1) else h2c_descq (s_qd s1)) with (dir_list (c2h qconf) (s_qd s1)).
    rewrite El, Em, firstn_all2 by (rewrite (qi_len _ Hi); lia).
    destruct (first_free _ 0) as [i|]; cbn [snd].
    + destruct Hff as (j & q & -> & Hq & He & _).
      destruct (take_queue s qconf j q Hi Hq He) as (_ & _ & H). rewrite upd_queue_xd. exact H.
    + by rewrite Hud.
  - destruct (enabled (queue_of s1 _)) eqn:Een; cbn [snd]; [by rewrite Hud|].
    destruct (get_descq_lt (s_qd s) (c2h qconf) (Z.to_nat (qidx qconf)) Hi) as [q Hq]; [lia|].
    assert (queue_of s1 (c2h qconf, Z.to_nat (qidx qconf)) = q) as Hqo
      by (unfold queue_of; change (s_qd s1) with (set_cnt (c2h qconf) (λ n, u16 (n + 1)) (s_qd s));
          by rewrite get_descq_cnt, Hq).
    rewrite Hqo in Een. destruct (take_queue s qconf _ q Hi Hq Een) as (_ & _ & H). rewrite upd_queue_xd. exact H.
Qed.

Lemma queue_add_inv qconf null s :
  qdev_inv (s_qd s) → 0 <= qidx qconf → qdev_inv (s_qd (qdma_queue_add qconf null s).2).
Proof.
  intros Hi H0. unfold qdma_queue_add. pose proof (init_qrange_inv s Hi) as Hi1.
  destruct (qdma_device_prep_q_resource s) as [rv s1]. cbn [snd] in *.
  destruct (rv <? 0); [done|]. destruct null; [done|].
  destruct (Z.leb_spec (qmax (s_qd s1)) (cnt_of (c2h qconf) (s_qd s1))); [done|].
  destruct (Z.eqb_spec (qidx qconf) QDMA_QUEUE_IDX_INVALID) as [E|E]; cbn [negb andb].
  - by apply add_take_inv.
  - destruct (Z.leb_spec (qmax (s_qd s1)) (qidx qconf)); [done|]. by apply add_take_inv.
Qed.

Lemma queue_config_inv id qconf s :
  qdev_inv (s_qd s) →
  (∀ d, qdma_device_get_descq_by_id (s_qd s) id false = Some d → c2h qconf = d.1) →
  qdev_inv (s_qd (qdma_queue_config id qconf s).2).
Proof.
  intros Hi Hd. unfold qdma_queue_config.
  destruct (qdma_device_get_descq_by_id (s_qd s) id false) as [[b i]|] eqn:E; [|done].
  specialize (Hd _ eq_refl). cbn in Hd. subst b. destruct (by_id_in_range _ _ _ _ Hi E) as [q Hq].
  rewrite (queue_of_eq s _ q Hq). destruct (enabled q) eqn:He; [done|].
  destruct (take_queue s qconf i q Hi Hq He) as (E3 & _ & Hinv). cbv zeta in E3, Hinv.
  assert (∀ f, (on_qd (set_cnt (c2h qconf) f) (upd_queue (c2h qconf, i) (λ q, q <| enabled := true |>) s).2).2 =
    (upd_queue (c2h qconf, i) (λ q, q <| enabled := true |>) (on_qd (set_cnt (c2h qconf) f) s).2).2) as Hcomm.
  { intros f. rewrite (upd_queue_eq _ _ q s Hq), (upd_queue_eq _ _ q (on_qd (set_cnt (c2h qconf) f) s).2)
      by (cbn [on_qd snd s_qd set eta sys_eta]; by rewrite get_descq_cnt).
    cbn. by rewrite set_cnt_descq. }
  unfold mbind, ST_bind. cbn [upd_queue on_qd] in *. rewrite <- Hcomm in Hinv. exact Hinv.
Qed.

Lemma queue_remove_inv id s : qdev_inv (s_qd s) → qdev_inv (s_qd (qdma_queue_remove id s).2).
Proof.
  intros Hi. destruct (qdma_device_get_descq_by_id (s_qd s) id true) as [d|] eqn:E.
  2: { unfold qdma_queue_remove. by rewrite E. }
  destruct (by_id_exists _ _ _ E) as (q & Hq & Hen).
  destruct (queue_remove_run s id d q) as (s' & -> & Eqd & _); [done..|]. cbn [snd].
  rewrite Eqd, (qo_dir _ _ (qi_ok _ Hi d q Hq) Hen).
  destruct (enabled_counted (s_qd s) d q) as [_ Eu]; [done..|].
  pose proof (qi_ok _ Hi d q Hq) as Hok.
  set (p := q <| inited := false |> <| online := false |>) in *.
  pose proof (free_resource_config p) as (Gc & _ & _ & _ & _ & Gi & Go & _).
  eapply (set_descq_inv d q); [done|done| |rewrite Eu, Hen; cbn; lia].
  split; cbn; rewrite ?Gc, ?Gi, ?Go; try done. by apply (qo_idx _ _ Hok).
Qed.

Section kept.
Context (I : qdma_dev → Prop) (HI : keeps_closed I).

(** The error exit of a start, from a queue that is not online. *)
Lemma start_err_after qd0 d rv s q :
  after_with I qd0 (s_qd s) → get_descq (s_qd s) d = Some q → online q = false →
  after_with I qd0 (s_qd (start_err_out d rv s).2).
Proof.
  intros Hi Hq Ho. unfold start_err_out. rewrite (queue_of_eq s d q Hq).
  unfold mbind, ST_bind, on_hw. destruct (qdma_descq_context_clear _ _ _ _) as [rv' h].
  unfold upd_queue. cbn. rewrite Hq. cbn. apply (keeps_after_with I qd0 d q); [done..|].
  destruct (free_resource_keeps q); [done|congruence].
Qed.

Lemma start_program_after qd0 d s q rv s' :
  after_with I qd0 (s_qd s) → get_descq (s_qd s) d = Some q → enabled q = true → online q = false →
  start_program d s = Some (rv, s') → after_with I qd0 (s_qd s').
Proof.
  intros Hi Hq He Ho. unfold start_program. rewrite (upd_queue_eq d _ q s Hq).
  set (q2 := q <| inited := true |>). set (s2 := s <| s_qd := _ |>).
  assert (get_descq (s_qd s2) d = Some q2) as Hq2 by (apply get_set_same; eexists; exact Hq).
  assert (after_with I qd0 (s_qd s2)) as Hi2 by (by apply (keeps_after_with I qd0 d q)).
  unfold on_hw. destruct (qdma_descq_prog_hw _ _ _) as [rv1 h].
  destruct (rv1 <? 0).
  - intros Es. injection Es as Es. change s' with (rv, s').2. rewrite <- Es.
    by apply (start_err_after qd0 d rv1 _ q2).
  - set (s3 := s2 <| s_hw := h |>). rewrite (upd_queue_eq d _ q2 s3 Hq2).
    set (q3 := q2 <| online := true |>). set (s4 := s3 <| s_qd := _ |>).
    assert (get_descq (s_qd s4) d = Some q3) as Hq4 by (apply get_set_same; eexists; exact Hq2).
    assert (after_with I qd0 (s_qd s4)) as Hi4 by (by apply (keeps_after_with I qd0 d q2)).
    rewrite (queue_of_eq s4 d q3 Hq4).
    destruct (qdma_thread_add_work _ _ _ _) as [[q4 thr]|] eqn:E; [|done]. cbn [mbind option_bind].
    intros [= <- <-]. destruct (add_work_keeps _ _ _ _ _ _ E) as (i & w & ->). cbn.
    by apply (keeps_after_with I qd0 d q3).
Qed.

Lemma queue_start_kept id s rv s' :
  I (s_qd s) → qdma_queue_start id s = Some (rv, s') → after_with I (s_qd s) (s_qd s').
Proof.
  intros Hi. assert (after_with I (s_qd s) (s_qd s)) as Ha by done. unfold qdma_queue_start.
  destruct (qdma_device_get_descq_by_id (s_qd s) id true) as [d|] eqn:E; [|by intros [= <- <-]].
  destruct (by_id_exists _ _ _ E) as (q & Hq & Hen). rewrite (queue_of_eq s d q Hq), Hen. cbn [negb orb].
  destruct (inited q) eqn:Ein; [by intros [= <- <-]|]. cbn [orb].
  destruct (online q) eqn:Eon; [by intros [= <- <-]|].
  unfold on_res. set (r0 := Res q _ _ _).
  pose proof (alloc_resource_frame r0) as ((Fc & _ & _ & _ & Fe & Fi & Fo & _) & _ & _).
  destruct (qdma_descq_alloc_resource r0) as [rv1 r]. cbn [fst snd] in *. change (r_q r0) with q in *.
  set (s1 := s <| s_is ::= _ |> <| s_qd ::= _ |> <| s_mem := _ |>).
  assert (get_descq (s_qd s1) d = Some (r_q r)) as Hq1 by (apply get_set_same; eexists; exact Hq).
  assert (after_with I (s_qd s) (s_qd s1)) as Hi1.
  { apply (keeps_after_with I (s_qd s) d q); [done..|]. unfold keeps. rewrite Fc, Fe, Fi, Fo, Ein, Eon. done. }
  destruct (rv1 <? 0).
  - intros Es. injection Es as Es. change s' with (rv, s').2. rewrite <- Es.
    apply (start_err_after (s_qd s) d rv1 s1 (r_q r)); congruence.
  - apply (start_program_after (s_qd s) d s1 (r_q r)); congruence.
Qed.

Lemma queue_stop_kept id s rv s' :
  I (s_qd s) → qdma_queue_stop id s = Some (rv, s') → after_with I (s_qd s) (s_qd s').
Proof.
  intros Hi. assert (after_with I (s_qd s) (s_qd s)) as Ha by done. unfold qdma_queue_stop.
  destruct (qdma_device_get_descq_by_id (s_qd s) id true) as [d|] eqn:E; [|by intros [= <- <-]].
  destruct (by_id_exists _ _ _ E) as (q & Hq & Hen). rewrite (queue_of_eq s d q Hq).
  destruct (qdma_thread_remove_work _ _ _) as [[q1 thr]|] eqn:Er; [|done]. cbn [mbind option_bind].
  rewrite (remove_work_keeps _ _ _ _ _ Er). set (p := q <| wbthp := None |> <| wrkthp := None |>).
  unfold on_hw. destruct (qdma_descq_context_clear _ _ _ _) as [rv' h]. cbn [snd].
  set (s2 := (_ <| s_hw := h |>)).
  assert (get_descq (s_qd s2) d = Some p) as Hq2 by (apply get_set_same; eexists; exact Hq).
  rewrite (upd_queue_eq d _ p s2 Hq2). intros [= <- <-]. cbn.
  pose proof (free_resource_config p) as (Gc & _ & _ & _ & Ge & _).
  rewrite set_set_descq. apply (keeps_after_with I (s_qd s) d q); [done..|]. by split; [exact Gc|split; [exact Ge|]].
Qed.

End kept.

Lemma queue_start_after id s rv s' :
  qdev_inv (s_qd s) → qdma_queue_start id s = Some (rv, s') → after (s_qd s) (s_qd s').
Proof. apply queue_start_kept, inv_keeps_closed. Qed.

Lemma queue_stop_after id s rv s' :
  qdev_inv (s_qd s) → qdma_queue_stop id s = Some (rv, s') → after (s_qd s) (s_qd s').
Proof. apply queue_stop_kept, inv_keeps_closed. Qed.

Lemma api_step_inv s s' : api_step true s s' → qdev_inv (s_qd s) → qdev_inv (s_qd s').
Proof.
  intros Hs Hi. destruct Hs as [qconf null s H0|id qconf s Hd|id s|id s rv s' E|id s rv s' E].
  - by apply queue_add_inv.
  - apply queue_config_inv; [done|]. exact (Hd eq_refl).
  - by apply queue_remove_inv.
  - by eapply queue_start_after.
  - by eapply queue_stop_after.
Qed.

End steps.

(** ** What holds without the directions

    The counters go by the direction a queue is configured for, which a
    configuration of the wrong direction makes differ from its array. *)

(** A queue's share in the counter of direction [b]. *)
Definition share (b : bool) (q : qdma_descq) : Z := b2z (enabled q && Bool.eqb (c2h (conf q)) b).

Definition shares (b : bool) (qd : qdma_dev) : Z :=
  sumZ (map (share b) (dir_list false qd)) + sumZ (map (share b) (dir_list true qd)).

(** A queue in its place with its flags in order. *)
Definition placed (d : descq_id) (q : qdma_descq) : Prop :=
  qidx (conf q) = Z.of_nat d.2 ∧ (online q = true → inited q = true) ∧ (inited q = true → enabled q = true).

Record qdev_core (qd : qdma_dev) : Prop := {
  qc_qmax : 0 < qmax qd < 2 ^ 15;
  qc_len : ∀ b, length (dir_list b qd) = Z.to_nat (qmax qd);
  qc_ok : ∀ d q, get_descq qd d = Some q → placed d q;
  qc_cnt : ∀ b, cnt_of b qd = shares b qd
}.

Lemma share_range b q : 0 <= share b q <= 1.
Proof. unfold share. destruct (_ && _); cbn; lia. Qed.

Lemma share_sum_range b l : 0 <= sumZ (map (share b) l) <= Z.of_nat (length l).
Proof.
  induction l as [|q l IH]; [cbn; lia|]. pose proof (share_range b q).
  change (sumZ (map (share b) (q :: l))) with (share b q + sumZ (map (share b) l)). cbn [length]. lia.
Qed.

Lemma shares_range b qd :
  (∀ c, length (dir_list c qd) = Z.to_nat (qmax qd)) → 0 <= qmax qd < 2 ^ 15 → 0 <= shares b qd < 2 ^ 16.
Proof.
  intros Hl Hm. unfold shares. pose proof (share_sum_range b (dir_list false qd)).
  pose proof (share_sum_range b (dir_list true qd)). rewrite !Hl in *. lia.
Qed.

Lemma shares_set b d q q' qd :
  get_descq qd d = Some q → shares b (set_descq d q' qd) = shares b qd - share b q + share b q'.
Proof.
  intros Hq. unfold shares. rewrite !dir_list_set. rewrite get_descq_dir in Hq.
  destruct (d.1); cbn [Bool.eqb]; rewrite (sumZ_map_insert _ _ _ _ _ Hq); lia.
Qed.

Lemma dir_list_cnt c b f qd : dir_list c (set_cnt b f qd) = dir_list c qd.
Proof. unfold dir_list, set_cnt. by destruct b, c. Qed.

Lemma set_cnt_of b c f qd : cnt_of c (set_cnt b f qd) = if Bool.eqb c b then f (cnt_of c qd) else cnt_of c qd.
Proof. unfold cnt_of, set_cnt. by destruct b, c. Qed.

(** A queue is replaced and the counter of direction [b] follows. *)
Lemma core_set b d q q' qd k :
  qdev_core qd → get_descq qd d = Some q → placed d q' →
  share b q' = share b q + k → share (negb b) q' = share (negb b) q →
  qdev_core (set_cnt b (λ n, u16 (n + k)) (set_descq d q' qd)).
Proof.
  intros [Hm Hl Hok Hc] Hq Hp Hb Hn.
  assert (qmax (set_cnt b (λ n, u16 (n + k)) (set_descq d q' qd)) = qmax qd) as Em
    by (unfold set_cnt; destruct b; cbn; apply set_descq_qmax).
  assert (∀ c, length (dir_list c (set_descq d q' qd)) = Z.to_nat (qmax qd)) as Hl'.
  { intros c. rewrite dir_list_set, <- (Hl c). by destruct (Bool.eqb _ _); [rewrite length_insert|]. }
  split; rewrite ?Em.
  - done.
  - intros c. by rewrite dir_list_cnt.
  - intros d0 q0. rewrite get_descq_cnt. destruct (decide (d0 = d)) as [->|Hne].
    + rewrite get_set_same by (by eexists). by intros [= <-].
    + rewrite get_set_other by done. apply Hok.
  - intros c. rewrite set_cnt_of, set_descq_cnt_of.
    assert (∀ x f, shares c (set_cnt b f x) = shares c x) as Es by (intros; unfold shares; by rewrite !dir_list_cnt).
    rewrite Es. pose proof (shares_range c (set_descq d q' qd)) as Hr. rewrite set_descq_qmax in Hr.
    specialize (Hr Hl' ltac:(lia)). rewrite (shares_set c d q q' qd Hq) in *. rewrite Hc.
    destruct (Bool.eqb_spec c b) as [->|Hcb].
    + rewrite Hb in *. rewrite u16_small by lia. lia.
    + assert (c = negb b) as -> by (by destruct c, b). rewrite Hn. lia.
Qed.

Lemma core_keeps_closed : keeps_closed qdev_core.
Proof.
  intros d q p qd Hi Hq (Ec & Ee & Ho & Hn). destruct (qc_ok _ Hi d q Hq) as (Hx & _).
  assert (∀ b, share b p = share b q) as Es by (intros; unfold share; by rewrite Ec, Ee).
  pose proof (core_set true d q p qd 0 Hi Hq) as H. destruct H as [Hm Hl Hok Hc].
  { split_and!; [by rewrite Ec|done|done]. } { rewrite Es. lia. } { by rewrite Es. }
  split; try done. intros b. specialize (Hc b). rewrite set_cnt_of in Hc.
  assert (shares b (set_cnt true (λ n, u16 (n + 0)) (set_descq d p qd)) = shares b (set_descq d p qd)) as E
    by (unfold shares; by rewrite !dir_list_cnt).
  rewrite E in Hc. destruct (Bool.eqb b true); [|done]. rewrite <- Hc, Z.add_0_r.
  rewrite u16_small; [done|]. rewrite set_descq_cnt_of, (qc_cnt _ Hi). apply shares_range; [apply Hi|].
  pose proof (qc_qmax _ Hi). lia.
Qed.

(** With every queue in use configured for its array, this is the invariant. *)
Lemma inv_core qd : qdev_inv qd → qdev_core qd.
Proof.
  intros [Hm Hl Hok Hc]. split; [done|done| |].
  - intros d q Hq. destruct (Hok d q Hq). by split_and!.
  - assert (∀ b c l, (∀ i q, l !! i = Some q → enabled q = true → c2h (conf q) = c) →
      sumZ (map (share b) l) = if Bool.eqb c b then count_enabled l else 0) as Hs.
    { intros b c l. induction l as [|q l IH]; intros Hl'; [by destruct (Bool.eqb c b)|].
      change (sumZ (map (share b) (q :: l))) with (share b q + sumZ (map (share b) l)).
      rewrite IH by (intros i; apply (Hl' (S i))). specialize (Hl' 0%nat q eq_refl).
      unfold share, count_enabled. rewrite filter_cons. destruct (enabled q); cbn [andb];
        [rewrite (Hl' eq_refl)|]; repeat case_decide; try done; destruct (Bool.eqb c b); cbn [length b2z]; lia. }
    intros b. rewrite Hc. unfold shares.
    rewrite (Hs b false), (Hs b true); [by destruct b; cbn; lia|..]; intros i q Hq He.
    + exact (qo_dir _ _ (Hok (true, i) q Hq) He).
    + exact (qo_dir _ _ (Hok (false, i) q Hq) He).
Qed.

Section core.
Context {D : Type} `{!RegIo D}.
Implicit Types s : sys D.

(** A free queue is taken, whatever its array. *)
Lemma core_take s qconf b i q :
  qdev_core (s_qd s) → get_descq (s_qd s) (b, i) = Some q → enabled q = false →
  qdev_core (set_cnt (c2h qconf) (λ n, u16 (n + 1))
    (set_descq (b, i) (qdma_descq_config (s_xd s) qconf false (q <| enabled := true |>)) (s_qd s))).
Proof.
  intros Hi Hq He. destruct (qc_ok _ Hi _ q Hq) as (Hx & Ho & Hn). apply (core_set _ _ q); [done|done|done| |].
  - unfold share. rewrite He. cbn. by rewrite eqb_reflx.
  - unfold share. rewrite He. cbn. by destruct (c2h qconf).
Qed.

Lemma core_up_down s (b : bool) :
  qdev_core (s_qd s) → (qcnt_drop b (on_qd (set_cnt b (λ n, u16 (n + 1))) s).2).2 = s.
Proof.
  intros Hi. unfold qcnt_drop, on_qd. cbn.
  assert (set_cnt b (λ n, u16 (n - 1)) (set_cnt b (λ n, u16 (n + 1)) (s_qd s)) = s_qd s) as E.
  { pose proof (shares_range b (s_qd s) (qc_len _ Hi) ltac:(pose proof (qc_qmax _ Hi); lia)) as Hr.
    rewrite <- (qc_cnt _ Hi) in Hr. unfold u16.
    unfold set_cnt, cnt_of in *. destruct (s_qd s); destruct b; cbn in *; f_equal;
      rewrite Zminus_mod_idemp_l, Z.add_simpl_r; by apply Z.mod_small. }
  destruct s; cbn in *. by rewrite E.
Qed.

Lemma core_add_take qconf s :
  qdev_core (s_qd s) → 0 <= qidx qconf →
  (qidx qconf ≠ QDMA_QUEUE_IDX_INVALID → qidx qconf < qmax (s_qd s)) →
  qdev_core (s_qd (add_take qconf (on_qd (set_cnt (c2h qconf) (λ n, u16 (n + 1))) s).2).2).
Proof.
  intros Hi H0 Hx. pose proof (core_up_down s (c2h qconf) Hi) as Hud.
  assert (∀ i q, get_descq (s_qd s) (c2h qconf, i) = Some q → enabled q = false → qdev_core (s_qd
    (upd_queue (c2h qconf, i) (qdma_descq_config (s_xd s) qconf false)
      (upd_queue (c2h qconf, i) (λ q, q <| enabled := true |>)
        (on_qd (set_cnt (c2h qconf) (λ n, u16 (n + 1))) s).2).2).2)) as Htake.
  { intros i q Hq He. destruct (take_run s qconf i q Hq) as [E _]. cbv zeta in E. rewrite E.
    cbn [s_qd set eta sys_eta]. by apply core_take. }
  set (s1 := (on_qd _ s).2) in *. unfold add_take.
  assert (dir_list (c2h qconf) (s_qd s1) = dir_list (c2h qconf) (s_qd s)) as El by apply dir_list_cnt.
  assert (qmax (s_qd s1) = qmax (s_qd s)) as Em by (unfold s1, set_cnt; cbn; by destruct (c2h qconf)).
  destruct (Z.eqb_spec (qidx qconf) QDMA_QUEUE_IDX_INVALID) as [E|E].
  - pose proof (first_free_spec (dir_list (c2h qconf) (s_qd s)) 0) as Hff.
    change (if c2h qconf then c2h_descq (s_qd s1) else h2c_descq (s_qd s1)) with (dir_list (c2h qconf) (s_qd s1)).
    rewrite El, Em, firstn_all2 by (rewrite (qc_len _ Hi); lia).
    destruct (first_free _ 0) as [i|]; cbn [snd]; [|by rewrite Hud].
    destruct Hff as (j & q & -> & Hq & He & _). rewrite upd_queue_xd. by apply (Htake j q).
  - destruct (enabled (queue_of s1 _)) eqn:Een; cbn [snd]; [by rewrite Hud|].
    destruct (lookup_lt_is_Some_2 (dir_list (c2h qconf) (s_qd s)) (Z.to_nat (qidx qconf))) as [q Hq];
      [rewrite (qc_len _ Hi); lia|].
    assert (queue_of s1 (c2h qconf, Z.to_nat (qidx qconf)) = q) as Hqo.
    { apply queue_of_eq. change (s_qd s1) with (set_cnt (c2h qconf) (λ n, u16 (n + 1)) (s_qd s)).
      by rewrite get_descq_cnt. }
    rewrite Hqo in Een. rewrite upd_queue_xd. by apply (Htake _ q).
Qed.

Lemma core_add qconf null s :
  qdev_core (s_qd s) → 0 <= qidx qconf → qdev_core (s_qd (qdma_queue_add qconf null s).2).
Proof.
  intros Hi H0. unfold qdma_queue_add. pose proof (prep_queues s) as Hp.
  destruct (qdma_device_prep_q_resource s) as [rv s1]. destruct Hp as [[b Eb] _].
  assert (qdev_core (s_qd s1)) as Hi1 by (rewrite Eb; destruct Hi; by split). clear Eb.
  destruct (rv <? 0); [done|]. destruct null; [done|].
  destruct (Z.leb_spec (qmax (s_qd s1)) (cnt_of (c2h qconf) (s_qd s1))); [done|].
  destruct (Z.eqb_spec (qidx qconf) QDMA_QUEUE_IDX_INVALID) as [E|E]; cbn [negb andb].
  - by apply core_add_take.
  - destruct (Z.leb_spec (qmax (s_qd s1)) (qidx qconf)); [done|]. by apply core_add_take.
Qed.

Lemma core_config id qconf s : qdev_core (s_qd s) → qdev_core (s_qd (qdma_queue_config id qconf s).2).
Proof.
  intros Hi. unfold qdma_queue_config.
  destruct (qdma_device_get_descq_by_id (s_qd s) id false) as [d|] eqn:E; [|done].
  destruct (get_descq (s_qd s) d) as [q|] eqn:Hq.
  - rewrite (queue_of_eq s d q Hq). destruct (enabled q) eqn:He; [done|].
    unfold mbind, ST_bind, mret, ST_ret. cbn [upd_queue on_qd snd]. rewrite Hq. cbn [s_qd set eta sys_eta].
    rewrite get_descq_cnt, get_set_same by (by eexists). cbn. rewrite set_cnt_descq, set_set_descq.
    destruct d as [b i]. by apply core_take.
  - exfalso. pose proof (qc_qmax _ Hi) as Hm. rewrite get_descq_dir in Hq. apply lookup_ge_None in Hq.
    rewrite (qc_len _ Hi) in Hq. unfold qdma_device_get_descq_by_id in E.
    destruct (Z.leb_spec (qmax (s_qd s)) id).
    + destruct (Z.leb_spec (qmax (s_qd s)) (id - qmax (s_qd s))); [done|]. cbn in E. injection E as <-. cbn in Hq. lia.
    + cbn in E. injection E as <-. cbn in Hq. lia.
Qed.

Lemma core_remove id s : qdev_core (s_qd s) → qdev_core (s_qd (qdma_queue_remove id s).2).
Proof.
  intros Hi. destruct (qdma_device_get_descq_by_id (s_qd s) id true) as [d|] eqn:E.
  2: { unfold qdma_queue_remove. by rewrite E. }
  destruct (by_id_exists _ _ _ E) as (q & Hq & Hen).
  destruct (queue_remove_run s id d q) as (s' & -> & Eqd & _); [done..|]. cbn [snd]. rewrite Eqd.
  set (p := q <| inited := false |> <| online := false |>) in *.
  pose proof (free_resource_config p) as (Gc & _ & _ & _ & _ & Gi & Go & _).
  destruct (qc_ok _ Hi d q Hq) as (Hx & _). apply (core_set _ d q _ _ (-1)); [done|done| | |].
  - split_and!; cbn; rewrite ?Gc, ?Gi, ?Go; done.
  - unfold share. rewrite Hen. cbn. by rewrite eqb_reflx.
  - unfold share. rewrite Hen. cbn. by destruct (c2h (conf q)).
Qed.

Lemma api_step_core b s s' : api_step b s s' → qdev_core (s_qd s) → qdev_core (s_qd s').
Proof.
  intros Hs Hi. destruct Hs as [qconf null s H0|id qconf s Hd|id s|id s rv s' E|id s rv s' E].
  - by apply core_add.
  - by apply core_config.
  - by apply core_remove.
  - by apply (queue_start_kept qdev_core core_keeps_closed id s rv s').
  - by apply (queue_stop_kept qdev_core core_keeps_closed id s rv s').
Qed.

End core.

(** ** The initial state *)

Lemma init_queues_length n qbase i : length (init_queues n qbase i) = n.
Proof. revert i. induction n as [|n IH]; intros i; cbn; [done|]. by rewrite IH. Qed.

Lemma init_queues_lookup n qbase i j q :
  init_queues n qbase i !! j = Some q → q = qdma_descq_init qbase (i + Z.of_nat j) (i + Z.of_nat j).
Proof.
  revert i j. induction n as [|n IH]; intros i [|j] Hq; try done.
  - injection Hq as <-. by rewrite Z.add_0_r.
  - rewrite (IH _ _ Hq). f_equal; lia.
Qed.

Lemma init_queues_count n qbase i : count_enabled (init_queues n qbase i) = 0.
Proof. revert i. induction n as [|n IH]; intros i; cbn; [done|]. apply IH. Qed.

Lemma init_qdev_inv {D} `{!RegIo D} (s s0 : sys D) :
  0 <= qsets_max (dev_conf (s_xd s)) < 2 ^ 15 → init_qdev true s = (0, s0) → qdev_inv (s_qd s0).
Proof.
  intros Hm. unfold init_qdev. destruct (Z.eqb_spec (qsets_max (dev_conf (s_xd s))) 0); [done|]. cbn [negb].
  rewrite (u16_small (qsets_max _)) by lia. set (m := qsets_max (dev_conf (s_xd s))) in *.
  set (b := u16 (func_id (s_xd s) * m)). set (qs := init_queues _ b 0).
  assert (qdev_inv (Qdev false m b 0 0 qs qs)) as Hi.
  { assert (∀ c, dir_list c (Qdev false m b 0 0 qs qs) = qs) as El by (by intros [|]).
    split; cbn [qmax].
    - lia.
    - intros c. rewrite El. apply init_queues_length.
    - intros d q. rewrite get_descq_dir, El. intros ->%init_queues_lookup. by split.
    - intros c. rewrite El. unfold qs. rewrite init_queues_count. by destruct c. }
  destruct (func_id (s_xd s) =? 0); [|by intros [= <-]].
  unfold on_hw, mbind, ST_bind, mret, ST_ret. destruct (hw_set_global_csr _) as [u1 h1].
  destruct (enable_channels _ _ true _) as [u2 h2]. destruct (enable_channels _ _ false _) as [u3 h3].
  by intros [= <-].
Qed.

Lemma intr_setup_conf vc en rq x : dev_conf (intr_setup vc en rq x).2 = dev_conf x.
Proof.
  unfold intr_setup. destruct (poll_mode _); [done|]. destruct (_ =? 0); [done|].
  destruct (XDEV_NUM_IRQ_MAX <? _), (en <? 0); try done; by destruct (negb _).
Qed.

Lemma find_user_bar_qsets v f c : qsets_max (find_user_bar v f c) = qsets_max c.
Proof.
  unfold find_user_bar. set (w := Z.land _ _). generalize (seqZ 0 6) c. intros l. clear.
  induction l as [|i l IH]; intros c; [done|]. cbn [foldl]. rewrite IH. by destruct (Z.testbit w i).
Qed.

Lemma device_init_inv {D} `{!RegIo D} vc en rq (s s0 : sys D) :
  0 <= qsets_max (dev_conf (s_xd s)) < 2 ^ 15 →
  qdma_device_init vc en rq true s = (0, s0) → qdev_inv (s_qd s0).
Proof.
  intros Hm. unfold qdma_device_init, on_hw, on_intr, mbind, ST_bind.
  destruct (readl QDMA_REG_FUNC_ID _) as [f h1]. cbn [s_is s_hw set eta sys_eta].
  destruct (readl 0x10C _) as [g h2]. cbn [s_is s_hw set eta sys_eta].
  match goal with |- context [intr_setup vc en rq ?x] =>
    pose proof (intr_setup_conf vc en rq x) as Hc; destruct (intr_setup vc en rq x) as [rv x'] end.
  destruct (negb _); [by intros [= E]|]. apply init_qdev_inv. cbn in *. unfold s_xd. cbn. by rewrite Hc, find_user_bar_qsets.
Qed.

(** ** Properties *)

(** C14: whatever calls of the API are made after [qdma_device_init], in any
    order, and whatever the device and the allocators answer: the two arrays
    keep their size, each queue keeps its index, an online queue is
    initialised, an initialised one is in use, and each counter is the number
    of queues in use that are configured for its direction.  As long as the
    callers of [qdma_queue_config] name queues of the configuration's
    direction, which it does not check, a queue in use also belongs
    to the array of its direction, and the counters are the numbers of queues
    in use of the two arrays. *)
Theorem api_reachable_inv {D} `{!RegIo D} vec_count enable request (s s0 s' : sys D) :
  0 <= qsets_max (dev_conf (s_xd s)) < 2 ^ 15 →
  qdma_device_init vec_count enable request true s = (0, s0) →
  (rtc (api_step false) s0 s' → qdev_core (s_qd s')) ∧ (rtc (api_step true) s0 s' → qdev_inv (s_qd s')).
Proof.
  intros Hm Hinit. pose proof (device_init_inv _ _ _ _ _ Hm Hinit) as Hi. clear Hinit. split.
  - pose proof (inv_core _ Hi) as Hc. clear Hi. intros Hr.
    induction Hr as [s1|s1 s2 s3 Hstep _ IH]; [done|]. apply IH. by apply (api_step_core false s1).
  - intros Hr. induction Hr as [s1|s1 s2 s3 Hstep _ IH]; [done|]. apply IH. by apply (api_step_inv s1).
Qed.

(** Two queues in each direction, none in use. *)
Definition fresh_sys : sys SimHw.t :=
  Sys (IntrSys (Xdev (DevConf 0 true false 2 1 1 0 0 2) 0 0 0 [] 0 [] false []) [] [] [] [])
    (Qdev false 0 0 0 0 [] []) SampleSys.thr (Memory [] []) (SimHw.init 3) false.

Definition init_sys : sys SimHw.t := (qdma_device_init 0 0 [] true fresh_sys).2.
Definition one_queue : sys SimHw.t := (qdma_queue_add (SampleSys.conf_new true false) false init_sys).2.

(** An H2C queue configured as a C2H queue. *)
Definition wrong_queue : sys SimHw.t := (qdma_queue_config 0 (SampleSys.conf_new true true) init_sys).2.

Lemma api_reachable_inv_witness :
  cnt_of false (s_qd one_queue) = 1 ∧ qdev_inv (s_qd one_queue) ∧
  cnt_of true (s_qd wrong_queue) = 1 ∧ qdev_core (s_qd wrong_queue).
Proof.
  assert (0 <= qsets_max (dev_conf (s_xd fresh_sys)) < 2 ^ 15) as Hm by (split; by vm_compute).
  assert (qdma_device_init 0 0 [] true fresh_sys = (0, init_sys)) as Hi by (vm_compute; reflexivity).
  split; [by vm_compute|]. split; [|split; [by vm_compute|]].
  - destruct (api_reachable_inv 0 0 [] fresh_sys init_sys one_queue Hm Hi) as [_ H]. apply H, rtc_once.
    apply (step_add true (SampleSys.conf_new true false) false). by vm_compute.
  - destruct (api_reachable_inv 0 0 [] fresh_sys init_sys wrong_queue Hm Hi) as [H _]. apply H, rtc_once.
    apply (step_config false 0 (SampleSys.conf_new true true)). intros [=].
Defined.

(** [qdma_queue_config] counts the queue in the direction of the
    configuration, whichever direction the handle names, and writes that
    direction into the queue: after one such call on a fresh device the C2H
    counter is 1 while only an H2C queue is in use. *)
Theorem queue_config_miscounts :
  let '(rv, s1) := qdma_queue_config 0 (SampleSys.conf_new true true) init_sys in
  rv = 0 ∧ cnt_of true (s_qd s1) = 1 ∧ count_enabled (dir_list true (s_qd s1)) = 0 ∧
  cnt_of false (s_qd s1) = 0 ∧ count_enabled (dir_list false (s_qd s1)) = 1 ∧ ¬ qdev_inv (s_qd s1).
Proof.
  destruct (qdma_queue_config 0 (SampleSys.conf_new true true) init_sys) as [rv s1] eqn:E.
  vm_compute in E. injection E as <- <-. split_and!; try by vm_compute.
  intros Hi. pose proof (qi_cnt _ Hi true) as Hc. by vm_compute in Hc.
Qed.
