(* ===== verification/Transfer.v ===== *)
(** * A transfer from end to end (libqdma_export.c, qdma_thread.c, qdma_descq.c)

    The parts a request of a memory-mapped or a streaming H2C queue goes
    through, put together:
    the submission ([qdma_sg_req_submit]), the thread that writes descriptors
    ([qdma_thread_wrk_proc]), the device that executes them, the writeback
    handler ([descq_mm_n_h2c_wb]) and the caller's wake-up
    ([sg_req_submit_finish]), in any order the kernel and the device choose.

    The device's side is its documented behaviour: it executes the descriptors
    of the ring in order up to the producer index of the doorbell, which is the
    queue's between two operations, and reports the index it has reached.  What
    it executed is a log; what an execution does to the memories or sends to
    the card's stream is the parameter [MmEngine] or [StEngine]. *)

From S2P Require Import Prelude Regs Types Sgl Descq RxQueue Thread Resource Intr Queue.

(** ** The device's side *)

(** A queue with its requests, and the descriptors the device has executed. *)
Record xfer := Xfer { xe : qenv; dlog : list ring_desc }.

Definition set_wb_cidx (i : Z) (e : qenv) : qenv :=
  e <| dq ::= λ q, q <| ring ::= λ r, r <| desc_wb_cidx := i |> |> |>.

(** One descriptor is executed and the new index written back; [None] when
    there is none. *)
Definition engine_step (x : xfer) : option xfer :=
  let q := dq (xe x) in
  let i := desc_wb_cidx (ring q) in
  if i =? pidx (ring q) then None else
  l ← desc (ring q);
  d ← l !! Z.to_nat i;
  Some (Xfer (set_wb_cidx ((i + 1) mod rngsz (conf q)) (xe x)) (dlog x ++ [d])).

(** The memories the descriptors name, the host's ([false]) and the card's
    ([true]): a byte of them, and what the execution of one memory-mapped
    descriptor of a queue (C2H?) does. *)
Class MmEngine (M : Type) := {
  mem_get : bool → Z → M → Z;
  mm_exec : bool → qdma_mm_desc → M → M
}.

(** The documented effect: a valid descriptor's number of bytes is copied from
    its source to its destination, from the card to the host by a C2H queue. *)
Class MmLaws (M : Type) `{!MmEngine M} : Prop := {
  mm_exec_get is_c2h d m side a :
    bits_get S_DESC_F_DV 1 (mm_flag_len d) = 1 →
    0 <= mm_src_addr d → mm_src_addr d + bits_get 0 28 (mm_flag_len d) <= 2 ^ 64 →
    0 <= mm_dst_addr d → mm_dst_addr d + bits_get 0 28 (mm_flag_len d) <= 2 ^ 64 →
    mem_get side a (mm_exec is_c2h d m) =
    if Bool.eqb side (negb is_c2h) && (mm_dst_addr d <=? a)
       && (a <? mm_dst_addr d + bits_get 0 28 (mm_flag_len d))
    then mem_get is_c2h (mm_src_addr d + (a - mm_dst_addr d)) m
    else mem_get side a m
}.

(** The memories after the descriptors of a log. *)
Definition mem_run {M} `{!MmEngine M} (is_c2h : bool) (ds : list ring_desc) (m : M) : M :=
  fold_left (λ m d, match d with MM d => mm_exec is_c2h d m | _ => m end) ds m.

(** The packet a streaming H2C descriptor sends, read from the host's memory. *)
Class StEngine := { st_packet : (Z → Z) → qdma_h2c_desc → list Z }.

(** The documented effect of one that is valid, a packet's start and its end. *)
Class StLaws `{!StEngine} : Prop := {
  st_packet_bytes host d n :
    flag_len_is (h2c_flag_len d) n true true → 0 <= n →
    0 <= h2c_src_addr d → h2c_src_addr d + n <= 2 ^ 64 →
    st_packet host d = map host (seqZ (h2c_src_addr d) n)
}.

(** The packets of a log. *)
Definition packets `{!StEngine} (host : Z → Z) (ds : list ring_desc) : list (list Z) :=
  concat (map (λ d, match d with H2C d => [st_packet host d] | _ => [] end) ds).

(** ** What may happen to a started queue

    A caller submits a request that is new and, with those that wait, fits in
    the ring; or one that is refused; or gives up waiting (a time-out or a
    signal) before its request is written into the ring; the thread takes one
    turn or a whole pass; the device executes a descriptor; the writeback
    handler runs.  [xstep_any] adds the callers that give up when descriptors of
    their request are in the ring, which the code does not tell apart: see
    [giveup_in_flight_breaks]. *)

(** The pieces a queue cuts a request into. *)
Definition req_pieces (q : qdma_descq) (r : qdma_sg_req) : list (Z * Z) := sg_pieces (piece_max q) (sgt r).

(** The descriptors the requests [l] will need. *)
Definition need (e : qenv) (l : list nat) : Z :=
  sumZ (map (λ cb, Z.of_nat (length (req_pieces (dq e) (req_of e cb)))) l).

(** Room for a request: ring slots neither in flight nor needed by one that waits. *)
Definition fits (e : qenv) (n : Z) : Prop :=
  in_flight (dq e) + need e (work_list (dq e)) + n <= rngsz (conf (dq e)) - 1.

(** A request as callers make it: its area for the library is zeroed. *)
Record submittable (e : qenv) (cb : nat) (r : qdma_sg_req) (mapped : list sg_entry) : Prop := {
  sb_up : enabled (dq e) = true ∧ online (dq e) = true ∧ is_Some (wrkthp (dq e));
  sb_new : reqs e !! cb = None;
  sb_dir : req_write r = negb (c2h (conf (dq e)));
  sb_mapped : dma_mapped r = true ∨ mapped ≠ [];
  sb_fresh : fresh_req (piece_max (dq e)) (mapped_req r mapped);
  sb_fits : fits e (Z.of_nat (length (req_pieces (dq e) (mapped_req r mapped))))
}.

Definition with_req (cb : nat) (r : qdma_sg_req) (e : qenv) : qenv := e <| reqs ::= <[cb := r]> |>.

(** The caller takes its request back. *)
Definition forget (cb : nat) (e : qenv) : qenv := e <| reqs ::= delete cb |>.

(** A request for the other direction, or whose pages cannot be mapped. *)
Definition unacceptable (e : qenv) (r : qdma_sg_req) (mapped : list sg_entry) : Prop :=
  req_write r = c2h (conf (dq e)) ∨ (dma_mapped r = false ∧ mapped = []).

Inductive xstep : xfer → xfer → Prop :=
  | x_submit x cb r mapped :
      submittable (xe x) cb r mapped →
      xstep x (Xfer (qdma_sg_req_submit cb mapped (with_req cb r (xe x))).2 (dlog x))
  | x_refused x cb r mapped :
      enabled (dq (xe x)) = true → reqs (xe x) !! cb = None → unacceptable (xe x) r mapped →
      xstep x (Xfer (forget cb (qdma_sg_req_submit cb mapped (with_req cb r (xe x))).2) (dlog x))
  | x_giveup x cb :
      nonblock (req_of (xe x) cb) = false → cb ∈ work_list (dq (xe x)) →
      xstep x (Xfer (forget cb (sg_req_submit_finish cb (xe x)).2) (dlog x))
  | x_turn x cb rest :
      work_list (dq (xe x)) = cb :: rest →
      xstep x (Xfer (qdma_descq_proc_sgt_request cb (xe x)).2 (dlog x))
  | x_pass x : xstep x (Xfer (qdma_thread_wrk_proc (xe x)) (dlog x))
  | x_engine x y : engine_step x = Some y → xstep x y
  | x_writeback x : xstep x (Xfer (descq_mm_n_h2c_wb (xe x)).2 (dlog x)).

(** The same with callers that give up at any time. *)
Inductive xstep_any : xfer → xfer → Prop :=
  | xa_step x y : xstep x y → xstep_any x y
  | xa_giveup x cb :
      nonblock (req_of (xe x) cb) = false → cb ∈ pend_list (dq (xe x)) →
      xstep_any x (Xfer (forget cb (sg_req_submit_finish cb (xe x)).2) (dlog x)).

(** ** What the device is to execute *)

(** Descriptor [k] of [n]. *)
Definition marked (k n : nat) (d : ring_desc) : ring_desc :=
  (if Nat.eqb k 0 then or_flags (2 ^ S_DESC_F_SOP) else id)
    ((if Nat.eqb (S k) n then or_flags (2 ^ S_DESC_F_EOP) else id) d).

(** The descriptor of piece [k] of a request. *)
Definition piece_desc (q : qdma_descq) (r : qdma_sg_req) (k : nat) (p : Z * Z) : ring_desc :=
  let ps := req_pieces q r in
  if st (conf q) then h2c_piece p
  else marked k (length ps) (MM (mm_piece (c2h (conf q)) (u64 (ep_addr r + sumZ (map snd (take k ps)))) p)).

(** The descriptors of a request: one for each piece of its entries. *)
Definition req_descs (q : qdma_descq) (r : qdma_sg_req) : list ring_desc :=
  let ps := req_pieces q r in
  if st (conf q) then map h2c_piece ps
  else imap (λ k, marked k (length ps)) (mm_descs (c2h (conf q)) (ep_addr r) ps).

Definition descs_of (e : qenv) (l : list nat) : list ring_desc :=
  concat (map (λ cb, req_descs (dq e) (req_of e cb)) l).

(** ** The invariant *)

(** Descriptors in the ring the device has not executed. *)
Definition undone (q : qdma_descq) : Z := (pidx (ring q) - desc_wb_cidx (ring q)) mod rngsz (conf q).

Definition hw_slot (q : qdma_descq) (k : nat) : nat :=
  Z.to_nat ((desc_wb_cidx (ring q) + Z.of_nat k) mod rngsz (conf q)).

(** The ring holds [ds] from where the device is to where the driver is. *)
Definition ring_holds (q : qdma_descq) (ds : list ring_desc) : Prop :=
  Z.of_nat (length ds) = undone q ∧
  ∃ l, desc (ring q) = Some l ∧ ∀ k d, ds !! k = Some d → l !! hw_slot q k = Some d.

(** A request whose entries add up to its byte count. *)
Record intact (r : qdma_sg_req) : Prop := {
  in_wf : Forall sg_entry_wf (sgt r);
  in_ep : 0 <= ep_addr r < 2 ^ 64;
  in_count : count r = sg_total (sgt r) ∧ 0 < count r < 2 ^ 32
}.

(** [done]: the requests completed so far, in order. *)
Record xinv (done : list nat) (x : xfer) : Prop := {
  xi_mode : st (conf (dq (xe x))) && c2h (conf (dq (xe x))) = false;
  xi_ring : ring_wf (dq (xe x));
  xi_credit : credit_inv (xe x);
  xi_hw : 0 <= desc_wb_cidx (ring (dq (xe x))) < rngsz (conf (dq (xe x))) ∧
          consumed (dq (xe x)) <= in_flight (dq (xe x));
  xi_fresh : ∀ cb, cb ∈ work_list (dq (xe x)) → fresh_req (piece_max (dq (xe x))) (req_of (xe x) cb);
  xi_fits : fits (xe x) 0;
  xi_log : ∃ ds, ring_holds (dq (xe x)) ds ∧
             dlog x ++ ds = descs_of (xe x) (done ++ pend_list (dq (xe x)));
  xi_pend : ∀ cb, cb ∈ pend_list (dq (xe x)) →
             desc_nr (req_of (xe x) cb) <= Z.of_nat (length (req_pieces (dq (xe x)) (req_of (xe x) cb)));
  xi_wait : ∀ cb, cb ∈ pend_list (dq (xe x)) ++ work_list (dq (xe x)) → cb_done (req_of (xe x) cb) = false;
  xi_done : ∀ cb, cb ∈ done → cb_done (req_of (xe x) cb) = true ∧ status (req_of (xe x) cb) = 0 ∧
             offset (req_of (xe x) cb) = count (req_of (xe x) cb);
  xi_intact : ∀ cb, cb ∈ done ++ pend_list (dq (xe x)) ++ work_list (dq (xe x)) → intact (req_of (xe x) cb);
  xi_nodup : NoDup (done ++ pend_list (dq (xe x)) ++ work_list (dq (xe x)));
  xi_known : ∀ cb, is_Some (reqs (xe x) !! cb) →
             cb ∈ done ++ pend_list (dq (xe x)) ++ work_list (dq (xe x))
}.

(** The order of the requests: completed, in the ring, waiting. *)
Definition line (done : list nat) (x : xfer) : list nat :=
  done ++ pend_list (dq (xe x)) ++ work_list (dq (xe x)).

(** ** Lemmas: sizes *)

Lemma length_req_descs q r : length (req_descs q r) = length (req_pieces q r).
Proof.
  unfold req_descs. destruct (st (conf q)); [apply length_map|]. by rewrite length_imap, length_mm_descs.
Qed.

(** The pieces depend on the queue's mode. *)
Lemma req_pieces_ext q q' r r' : conf q' = conf q → sgt r' = sgt r → req_pieces q' r' = req_pieces q r.
Proof. intros E1 E2. unfold req_pieces, piece_max. by rewrite E1, E2. Qed.

Lemma need_cons e cb l :
  need e (cb :: l) = Z.of_nat (length (req_pieces (dq e) (req_of e cb))) + need e l.
Proof. done. Qed.

Lemma need_app e l k : need e (l ++ k) = need e l + need e k.
Proof. unfold need. by rewrite map_app, sumZ_app. Qed.

Lemma need_nonneg e l : 0 <= need e l.
Proof. apply sumZ_nonneg, Forall_map, Forall_true. intros. cbn. lia. Qed.

Lemma need_ext e e' l :
  conf (dq e') = conf (dq e) → (∀ cb, cb ∈ l → sgt (req_of e' cb) = sgt (req_of e cb)) → need e' l = need e l.
Proof.
  intros Hc H. unfold need. f_equal. apply map_ext_in. intros cb Hcb%list_elem_of_In.
  by rewrite (req_pieces_ext (dq e) (dq e') (req_of e cb)) by auto.
Qed.

Lemma descs_of_app e l k : descs_of e (l ++ k) = descs_of e l ++ descs_of e k.
Proof. unfold descs_of. by rewrite map_app, concat_app. Qed.

Lemma length_descs_of e l : Z.of_nat (length (descs_of e l)) = need e l.
Proof.
  induction l as [|cb l IH]; [done|]. rewrite need_cons, <- IH. unfold descs_of. cbn.
  rewrite length_app, length_req_descs. lia.
Qed.

(** What a request's descriptors depend on. *)
Definition same_data (r r' : qdma_sg_req) : Prop := sgt r' = sgt r ∧ ep_addr r' = ep_addr r.

Lemma req_descs_ext q q' r r' : conf q' = conf q → same_data r r' → req_descs q' r' = req_descs q r.
Proof. intros Hc [E1 E2]. unfold req_descs. by rewrite (req_pieces_ext q q' r r' Hc E1), Hc, E2. Qed.

Lemma descs_of_ext e e' l :
  conf (dq e') = conf (dq e) → (∀ cb, cb ∈ l → same_data (req_of e cb) (req_of e' cb)) →
  descs_of e' l = descs_of e l.
Proof.
  intros Hc H. unfold descs_of. f_equal. apply map_ext_in. intros cb Hcb%list_elem_of_In.
  by apply req_descs_ext, H.
Qed.

Lemma intact_ext r r' : same_data r r' → count r' = count r → intact r → intact r'.
Proof. intros [E1 E2] E3 []. split; by rewrite ?E1, ?E2, ?E3. Qed.

Lemma fresh_intact max r : 0 < max → fresh_req max r → intact r.
Proof.
  intros Hmax [_ Hwf Hs Hep [Hc Hc32] _]. split; try done. split; [done|].
  destruct (sg_pieces_sum max Hmax _ Hwf) as [Hsum Hp].
  rewrite Hc in Hc32 |- *. rewrite <- Hsum in *. destruct (sg_pieces _ _) as [|p ps]; [done|].
  apply Forall_cons in Hp as [Hp Hps]. cbn in *.
  assert (0 <= sumZ (map snd ps)); [|unfold sumZ in *; lia].
  apply sumZ_nonneg, Forall_map. eapply Forall_impl; [exact Hps|]. intros q Hq. cbn in *. lia.
Qed.

(** Two lists that start the same: the shorter is a prefix of the longer. *)
Lemma prefix_of_shorter {A} (a b c : list A) :
  a `prefix_of` c → b `prefix_of` c → (length a <= length b)%nat → a `prefix_of` b.
Proof.
  intros Ha Hb Hl. destruct (prefix_weak_total a b c Ha Hb) as [H|H]; [done|].
  destruct H as [k ->]. rewrite length_app in Hl. destruct k; [by rewrite app_nil_r|cbn in Hl; lia].
Qed.

(** What is in flight is consumed or still to be executed. *)
Lemma undone_eq q :
  ring_wf q → 0 <= desc_wb_cidx (ring q) < rngsz (conf q) → consumed q <= in_flight q →
  undone q = in_flight q - consumed q.
Proof.
  intros [Hr Hp Hc _ _] Hw Hle. unfold undone, in_flight, consumed in *.
  rewrite !index_diff in * by lia. zcmp; lia.
Qed.

(** ** Lemmas: the device executes a descriptor *)

Lemma set_wb_credit i e : credit_inv e → credit_inv (set_wb_cidx i e).
Proof. intros []. by split. Qed.

Lemma set_wb_ring i e : ring_wf (dq e) → ring_wf (dq (set_wb_cidx i e)).
Proof. intros []. by split. Qed.

(** The device is behind the driver: one descriptor more is consumed. *)
Lemma consumed_next q :
  ring_wf q → 0 <= desc_wb_cidx (ring q) < rngsz (conf q) → consumed q <= in_flight q →
  desc_wb_cidx (ring q) ≠ pidx (ring q) →
  let q' := q <| ring ::= λ r, r <| desc_wb_cidx := (desc_wb_cidx (ring q) + 1) mod rngsz (conf q) |> |> in
  consumed q' = consumed q + 1 ∧ consumed q < in_flight q ∧ undone q' = undone q - 1.
Proof.
  intros Hwf Hw Hle Hne q'. pose proof (undone_eq q Hwf Hw Hle) as Hu. pose proof Hwf as [Hr Hp Hc _ _].
  assert (0 < undone q) as Hpos by (unfold undone in *; rewrite index_diff in * by lia; zcmp; lia).
  pose proof (in_flight_range q Hwf). pose proof (consumed_range q Hwf).
  assert (consumed q' = consumed q + 1) as E.
  { unfold q', consumed in *. cbn. rewrite Zminus_mod_idemp_l.
    replace (desc_wb_cidx (ring q) + 1 - cidx (ring q)) with (desc_wb_cidx (ring q) - cidx (ring q) + 1) by lia.
    rewrite <- Zplus_mod_idemp_l. apply Z.mod_small. lia. }
  split; [done|]. split; [lia|].
  assert (0 <= desc_wb_cidx (ring q') < rngsz (conf q')) as Hw' by (apply Z.mod_pos_bound; cbn; lia).
  rewrite (undone_eq q'); [|by split; destruct Hwf|done|]; change (in_flight q') with (in_flight q); lia.
Qed.

Lemma ring_holds_next q d ds :
  ring_wf q → 0 <= desc_wb_cidx (ring q) < rngsz (conf q) → consumed q <= in_flight q →
  desc_wb_cidx (ring q) ≠ pidx (ring q) → ring_holds q (d :: ds) →
  ring_holds (q <| ring ::= λ r, r <| desc_wb_cidx := (desc_wb_cidx (ring q) + 1) mod rngsz (conf q) |> |>) ds ∧
  ∃ l, desc (ring q) = Some l ∧ l !! Z.to_nat (desc_wb_cidx (ring q)) = Some d.
Proof.
  intros Hwf Hw Hle Hne [Hl (l & El & Hk)].
  destruct (consumed_next q Hwf Hw Hle Hne) as (_ & _ & Hu). split.
  - split; [cbn [length] in Hl; lia|]. exists l. split; [done|]. intros k d' Hd'.
    rewrite <- (Hk (S k) d' Hd'). unfold hw_slot. cbn. rewrite Zplus_mod_idemp_l.
    do 2 f_equal. f_equal. lia.
  - exists l. split; [done|]. specialize (Hk 0%nat d eq_refl). unfold hw_slot in Hk.
    by rewrite Z.add_0_r, Z.mod_small in Hk by lia.
Qed.

Lemma engine_inv done x y : xinv done x → engine_step x = Some y → xinv done y ∧ line done y = line done x.
Proof.
  intros [Hm Hr Hc [Hw Hle] Hf Hfit (ds & Hds & Hlog) Hp Hwt Hd Hit Hn Hk]. unfold engine_step.
  destruct (Z.eqb_spec (desc_wb_cidx (ring (dq (xe x)))) (pidx (ring (dq (xe x))))) as [|Hne]; [done|].
  destruct (consumed_next _ Hr Hw Hle Hne) as (Ec & Hlt & Eu).
  destruct ds as [|d ds].
  { destruct Hds as [Hl _]. cbn in Hl. rewrite (undone_eq _ Hr Hw Hle) in Hl. lia. }
  destruct (ring_holds_next _ d ds Hr Hw Hle Hne Hds) as [Hds' (l & El & Ed)].
  rewrite El. cbn [mbind option_bind]. rewrite Ed. cbn [mbind option_bind]. intros [= <-].
  split; [|done]. split; try done.
  - by apply set_wb_ring.
  - by apply set_wb_credit.
  - split; [apply Z.mod_pos_bound; cbn; destruct Hr; lia|]. cbn [xe set_wb_cidx dq set] in *.
    change (consumed (dq (set_wb_cidx ((desc_wb_cidx (ring (dq (xe x))) + 1) mod rngsz (conf (dq (xe x)))) (xe x)))
            <= in_flight (dq (xe x))). unfold set_wb_cidx. cbn [dq set eta qenv_eta]. cbv zeta in Ec. rewrite Ec. lia.
  - exists ds. split; [exact Hds'|]. cbn [dlog]. rewrite <- app_assoc. exact Hlog.
Qed.

(** The device can execute everything that is in the ring. *)
Fixpoint engine_run (n : nat) (x : xfer) : xfer :=
  match n with
  | O => x
  | S n => match engine_step x with Some y => engine_run n y | None => x end
  end.

Lemma engine_run_steps n x : rtc xstep x (engine_run n x).
Proof.
  revert x. induction n as [|n IH]; intros x; cbn [engine_run]; [done|].
  destruct (engine_step x) as [y|] eqn:E; [|done].
  apply (rtc_l _ x y); [by apply x_engine|apply IH].
Qed.

Lemma engine_run_all done n x :
  xinv done x → Z.of_nat n = undone (dq (xe x)) →
  let y := engine_run n x in
  xinv done y ∧ line done y = line done x ∧ undone (dq (xe y)) = 0 ∧
  work_list (dq (xe y)) = work_list (dq (xe x)) ∧ pend_list (dq (xe y)) = pend_list (dq (xe x)) ∧
  reqs (xe y) = reqs (xe x) ∧ conf (dq (xe y)) = conf (dq (xe x)).
Proof.
  revert x. induction n as [|n IH]; intros x Hx Hn; cbn [engine_run]; [by split_and!|].
  pose proof Hx as [_ Hr _ [Hw Hle] _ _ (ds & Hds & _) _ _ _ _ _ _].
  assert (desc_wb_cidx (ring (dq (xe x))) ≠ pidx (ring (dq (xe x)))) as Hne.
  { intros E. unfold undone in Hn. rewrite E, Z.sub_diag, Z.mod_0_l in Hn by (destruct Hr; lia). lia. }
  destruct ds as [|d ds]; [destruct Hds as [Hl _]; cbn in Hl; lia|].
  destruct (ring_holds_next _ d ds Hr Hw Hle Hne Hds) as [_ (l & El & Ed)].
  assert (engine_step x = Some (Xfer (set_wb_cidx ((desc_wb_cidx (ring (dq (xe x))) + 1)
    mod rngsz (conf (dq (xe x)))) (xe x)) (dlog x ++ [d]))) as E.
  { unfold engine_step. rewrite (proj2 (Z.eqb_neq _ _) Hne), El. cbn [mbind option_bind].
    by rewrite Ed. }
  destruct (engine_inv done x _ Hx E) as [Hy Hly]. rewrite E.
  destruct (consumed_next _ Hr Hw Hle Hne) as (_ & _ & Eu). cbv zeta in Eu.
  destruct (IH _ Hy) as (H1 & H2 & H3 & H4); [|split_and!; [done|by rewrite H2|done|apply H4..]].
  change (Z.of_nat n = undone (dq (set_wb_cidx ((desc_wb_cidx (ring (dq (xe x))) + 1) mod rngsz (conf (dq (xe x)))) (xe x)))).
  transitivity (undone (dq (xe x)) - 1); [lia|]. symmetry. exact Eu.
Qed.

(** ** Lemmas: the writeback handler *)

(** What a run of the handler does to the requests: the first [k] pending ones
    are completed, of the others that wait only the count of descriptors
    changes. *)
Record wb_effect (k : nat) (e e' : qenv) : Prop := {
  we_conf : conf (dq e') = conf (dq e);
  we_work : work_list (dq e') = work_list (dq e);
  we_pend : pend_list (dq e') = drop k (pend_list (dq e));
  we_ring : desc (ring (dq e')) = desc (ring (dq e)) ∧ pidx (ring (dq e')) = pidx (ring (dq e)) ∧
    desc_wb_cidx (ring (dq e')) = desc_wb_cidx (ring (dq e)) ∧
    cidx (ring (dq e')) = desc_wb_cidx (ring (dq e));
  we_done : ∀ cb, cb ∈ take k (pend_list (dq e)) → reqs e' !! cb = completed <$> reqs e !! cb;
  we_other : ∀ cb, cb ∉ pend_list (dq e) → reqs e' !! cb = reqs e !! cb;
  we_rest : ∀ cb, cb ∈ drop k (pend_list (dq e)) → ∃ n, 0 < n <= desc_nr (req_of e cb) ∧
    reqs e' !! cb = (λ r, r <| desc_nr := n |>) <$> reqs e !! cb
}.

(** A handler that finds nothing new. *)
Lemma wb_effect_none e :
  credit_inv e → desc_wb_cidx (ring (dq e)) = cidx (ring (dq e)) → wb_effect 0 e e.
Proof.
  intros Hi E. split; try done.
  - by intros cb ?%elem_of_nil.
  - intros cb Hcb. apply pending_kept; [|by apply (pend_submitted _ Hi)|done].
    apply (lists_known _ Hi), elem_of_app. by left.
Qed.

Lemma wb_effect_ext k e e1 e2 : wb_effect k e e1 → dq e2 = dq e1 → reqs e2 = reqs e1 → wb_effect k e e2.
Proof. intros [] E1 E2. split; rewrite ?E1, ?E2; done. Qed.

(** The completions are distributed over the pending requests. *)
Lemma req_update_effect e e1 c :
  credit_inv e → in_flight (dq e) < 2 ^ 16 → 0 < c <= in_flight (dq e) →
  reqs e1 = reqs e → conf (dq e1) = conf (dq e) → pend_list (dq e1) = pend_list (dq e) →
  work_list (dq e1) = work_list (dq e) → credit (ring (dq e1)) = credit (ring (dq e)) →
  desc (ring (dq e1)) = desc (ring (dq e)) → pidx (ring (dq e1)) = pidx (ring (dq e)) →
  desc_wb_cidx (ring (dq e1)) = desc_wb_cidx (ring (dq e)) →
  cidx (ring (dq e1)) = desc_wb_cidx (ring (dq e)) →
  ∃ k, wb_effect k e (req_update_pend c e1).
Proof.
  intros Hi Hf Hc Er Ecf Ep Ew Ecr Ed Epx Ewb Ecx. unfold req_update_pend.
  rewrite Ecr, (credit_sum e) by (done || lia). pose proof (credit_nonneg _ Hi).
  destruct (update_pend_loop_spec (pend_list (dq e1)) (c + credit (ring (dq e))) e1)
    as (k & c' & e' & -> & (Hs & Hp & _ & _ & _ & _ & Hdone & Hother & Hrest)); [done| | |lia|].
  { rewrite Ep, Ew. apply Hi. }
  { intros cb Hcb. rewrite Ep in Hcb. unfold req_of. rewrite Er.
    split; [apply (lists_known _ Hi), elem_of_app; by left|by apply (pend_submitted _ Hi)]. }
  destruct Hs as (Hring & Hconf & _ & Hwork & _). rewrite Ep in *.
  exists k. split; cbn; rewrite ?Hring; try congruence.
  - by split_and!.
  - intros cb Hcb. rewrite Hdone by done. by rewrite Er.
  - intros cb Hcb. rewrite Hother by done. by rewrite Er.
  - intros cb Hcb. destruct (Hrest cb Hcb) as (n & Hn & ->). exists n. unfold req_of in *. by rewrite Er in *.
Qed.

Lemma writeback_effect e :
  ring_wf (dq e) → credit_inv e →
  0 <= desc_wb_cidx (ring (dq e)) < rngsz (conf (dq e)) → consumed (dq e) <= in_flight (dq e) →
  ∃ k, wb_effect k e (descq_mm_n_h2c_wb e).2.
Proof.
  intros Hwf Hi Hhw Hle. pose proof Hwf as [Hr Hp Hc _ _]. unfold descq_mm_n_h2c_wb.
  destruct (Z.eqb_spec (pidx (ring (dq e))) (cidx (ring (dq e)))) as [E|_].
  { exists 0%nat. apply wb_effect_none; [done|].
    assert (in_flight (dq e) = 0) as E0 by (unfold in_flight; by rewrite E, Z.sub_diag, Z.mod_0_l by lia).
    rewrite E0 in Hle. unfold consumed in Hle. rewrite index_diff in Hle by lia. cbn [snd]. zcmp; lia. }
  destruct (Z.eqb_spec (desc_wb_cidx (ring (dq e))) (cidx (ring (dq e)))) as [E|En].
  { exists 0%nat. by apply wb_effect_none. }
  assert (0 < consumed (dq e)) as Hpos by (unfold consumed in *; rewrite index_diff in * by lia; zcmp; lia).
  destruct (descq_wb_credit_spec (dq e) (desc_wb_cidx (ring (dq e)))) as (q' & -> & -> & Hwf' & Hif);
    [done..|]. fold (consumed (dq e)). cbv zeta. cbn [snd].
  set (q' := set ring _ _). set (e1 := if _ && _ then _ else _).
  assert (dq e1 = q' ∧ reqs e1 = reqs e) as [E1 E2] by (unfold e1; by case_match).
  pose proof (in_flight_range _ Hwf).
  destruct (req_update_effect e e1 (consumed (dq e))) as [k Hk]; rewrite ?E1, ?E2; try done; [lia|].
  exists k. apply (wb_effect_ext k e _ _ Hk);
    [exact (proj1 (intr_coal_update_same _))|exact (proj2 (intr_coal_update_same _))].
Qed.

(** The data of a request never change, its entry is never lost. *)
Lemma wb_effect_req k e e' cb :
  wb_effect k e e' →
  same_data (req_of e cb) (req_of e' cb) ∧ offset (req_of e' cb) = offset (req_of e cb) ∧
  count (req_of e' cb) = count (req_of e cb) ∧ (is_Some (reqs e' !! cb) → is_Some (reqs e !! cb)).
Proof.
  intros Hw. destruct (decide (cb ∈ pend_list (dq e))) as [Hin|Hout].
  - rewrite <- (take_drop k (pend_list (dq e))) in Hin. unfold req_of.
    apply elem_of_app in Hin as [Hin|Hin].
    + rewrite (we_done _ _ _ Hw cb Hin). by destruct (reqs e !! cb).
    + destruct (we_rest _ _ _ Hw cb Hin) as (n & _ & ->). by destruct (reqs e !! cb).
  - unfold req_of. by rewrite (we_other _ _ _ Hw cb Hout).
Qed.

(** Requests outside the pending list are untouched. *)
Lemma wb_effect_other k e e' cb : wb_effect k e e' → cb ∉ pend_list (dq e) → req_of e' cb = req_of e cb.
Proof. intros Hw Hn. unfold req_of. by rewrite (we_other _ _ _ Hw cb Hn). Qed.

(** A pending request is completed, or waits with fewer descriptors. *)
Lemma wb_pending k e e' cb :
  credit_inv e → wb_effect k e e' → cb ∈ pend_list (dq e) →
  offset (req_of e' cb) = count (req_of e' cb) ∧
  (cb ∈ take k (pend_list (dq e)) → cb_done (req_of e' cb) = true ∧ status (req_of e' cb) = 0) ∧
  (cb ∈ drop k (pend_list (dq e)) → cb_done (req_of e' cb) = cb_done (req_of e cb) ∧
     desc_nr (req_of e' cb) <= desc_nr (req_of e cb) ∧
     req_pieces (dq e') (req_of e' cb) = req_pieces (dq e) (req_of e cb)).
Proof.
  intros Hi Hw Hin. destruct (wb_effect_req k _ _ cb Hw) as ((Es & _) & Eo & Ec & _).
  destruct (lists_known _ Hi cb) as [r Hr]; [apply elem_of_app; by left|]. split_and!.
  - rewrite Eo, Ec. by apply (pend_submitted _ Hi).
  - intros Hcb. unfold req_of. by rewrite (we_done _ _ _ Hw cb Hcb), Hr.
  - intros Hcb. destruct (we_rest _ _ _ Hw cb Hcb) as (n & Hn & E).
    rewrite (req_pieces_ext (dq e) (dq e') (req_of e cb)) by (apply Hw || exact Es).
    unfold req_of in *. rewrite E, Hr in *. cbn in *. split_and!; [done|lia|done].
Qed.

(** The two counters of the ring after the handler. *)
Lemma wb_effect_ring k e e' :
  wb_effect k e e' → ring_wf (dq e) → 0 <= desc_wb_cidx (ring (dq e)) < rngsz (conf (dq e)) →
  consumed (dq e) <= in_flight (dq e) →
  consumed (dq e') = 0 ∧ undone (dq e') = undone (dq e) ∧ in_flight (dq e') = undone (dq e) ∧
  0 <= undone (dq e) <= in_flight (dq e).
Proof.
  intros Hw Hwf Hhw Hle. destruct (we_ring _ _ _ Hw) as (_ & E2 & E3 & E4).
  pose proof (undone_eq _ Hwf Hhw Hle). pose proof (consumed_range _ Hwf).
  unfold consumed, undone, in_flight in *. rewrite (we_conf _ _ _ Hw), E2, E3, E4.
  rewrite Z.sub_diag, Z.mod_0_l by (destruct Hwf; lia). split_and!; lia.
Qed.

Lemma writeback_inv done x :
  xinv done x →
  let y := Xfer (descq_mm_n_h2c_wb (xe x)).2 (dlog x) in
  ∃ k, xinv (done ++ take k (pend_list (dq (xe x)))) y ∧
    line (done ++ take k (pend_list (dq (xe x)))) y = line done x ∧
    work_list (dq (xe y)) = work_list (dq (xe x)) ∧ in_flight (dq (xe y)) = undone (dq (xe x)).
Proof.
  intros [Hm Hr Hc [Hw Hle] Hf Hfit (ds & [Hl (l & El & Hds)] & Hlog) Hp Hwt Hd Hit Hn Hk] y.
  destruct (writeback_effect (xe x) Hr Hc Hw Hle) as [k He]. change (wb_effect k (xe x) (xe y)) in He.
  destruct (writeback_run (xe x) Hr Hc Hw Hle) as (e' & E & Hr' & Hc' & _).
  assert (xe y = e') as Ey by (unfold y; by rewrite E). rewrite <- Ey in Hr', Hc'. clear e' E Ey.
  destruct (wb_effect_ring _ _ _ He Hr Hw Hle) as (Hc0 & Hu & Hif & Hu0).
  destruct (we_ring _ _ _ He) as (R1 & R2 & R3 & R4). exists k.
  set (pend := pend_list (dq (xe x))) in *.
  assert (line (done ++ take k pend) y = line done x) as Hline.
  { unfold line. rewrite (we_pend _ _ _ He), (we_work _ _ _ He). fold pend.
    rewrite <- (app_assoc done), (app_assoc (take k pend)), take_drop. done. }
  assert (∀ cb, cb ∈ work_list (dq (xe x)) ∨ cb ∈ done → cb ∉ pend) as Hnp.
  { intros cb Hcb Hin. apply NoDup_app in Hn as (_ & H1 & Hn). apply NoDup_app in Hn as (_ & H2 & _).
    destruct Hcb as [Hcb|Hcb]; [by apply (H2 cb)|]. apply (H1 cb Hcb), elem_of_app. by left. }
  assert (dlog y = dlog x) as Edl by done. clearbody y.
  pose proof (λ cb, wb_pending k (xe x) (xe y) cb Hc He) as Hpend. fold pend in Hpend.
  split; [|split_and!; [done|apply (we_work _ _ _ He)|by rewrite Hif]].
  split; try done.
  - by rewrite (we_conf _ _ _ He).
  - split; [by rewrite R3, (we_conf _ _ _ He)|]. rewrite Hc0, Hif. lia.
  - intros cb Hcb. rewrite (we_work _ _ _ He) in Hcb.
    rewrite (wb_effect_other _ _ _ cb He), (piece_max_ext _ _ (we_conf _ _ _ He)) by auto. by apply Hf.
  - unfold fits in *. rewrite Hif, (we_conf _ _ _ He), (we_work _ _ _ He).
    rewrite (need_ext (xe x)); [lia|apply He|]. intros cb Hcb. by rewrite (wb_effect_other _ _ _ cb He) by auto.
  - exists ds. split.
    + split; [by rewrite Hu|]. exists l. split; [by rewrite R1|]. unfold hw_slot. by rewrite R3, (we_conf _ _ _ He).
    + rewrite (we_pend _ _ _ He). fold pend. rewrite <- app_assoc, take_drop.
      rewrite (descs_of_ext (xe x)); [by rewrite Edl|apply He|]. intros cb _. by apply (wb_effect_req k).
  - rewrite (we_pend _ _ _ He). intros cb Hcb. destruct (Hpend cb) as (_ & _ & H); [by apply elem_of_drop_in in Hcb|].
    destruct (H Hcb) as (_ & Hle' & ->). etrans; [exact Hle'|]. apply Hp. by apply elem_of_drop_in in Hcb.
  - rewrite (we_pend _ _ _ He), (we_work _ _ _ He). intros cb [Hcb|Hcb]%elem_of_app.
    + destruct (Hpend cb) as (_ & _ & H); [by apply elem_of_drop_in in Hcb|]. destruct (H Hcb) as (-> & _).
      apply Hwt, elem_of_app. left. by apply elem_of_drop_in in Hcb.
    + rewrite (wb_effect_other _ _ _ cb He) by auto. apply Hwt, elem_of_app. by right.
  - intros cb [Hcb|Hcb]%elem_of_app.
    + rewrite (wb_effect_other _ _ _ cb He) by auto. by apply Hd.
    + destruct (Hpend cb) as (Ho & H & _); [by apply elem_of_take_in in Hcb|]. destruct (H Hcb). by split_and!.
  - intros cb Hcb. fold (line (done ++ take k pend) y) in Hcb. rewrite Hline in Hcb.
    destruct (wb_effect_req k _ _ cb He) as (Hs & _ & Ec & _). by apply (intact_ext (req_of (xe x) cb)); [..|apply Hit].
  - fold (line (done ++ take k pend) y). by rewrite Hline.
  - intros cb Hcb. fold (line (done ++ take k pend) y). rewrite Hline. apply Hk.
    by apply (wb_effect_req k _ _ cb He).
Qed.

(** ** Lemmas: a request is submitted *)

(** The request is queued with its counters cleared. *)
Lemma submit_queued e cb r mapped :
  st (conf (dq e)) && c2h (conf (dq e)) = false → submittable e cb r mapped →
  ∃ t, (qdma_sg_req_submit cb mapped (with_req cb r e)).2 = queued cb (mapped_req r mapped) t e.
Proof.
  intros Hm [(Hen & Hon & t & Ht) _ Hdir Hmap _ _]. exists t.
  rewrite (sg_req_submit_run _ _ r _ t); try done; [|cbn; by rewrite lookup_insert_eq].
  unfold queued, with_req. cbn. by rewrite insert_insert_eq.
Qed.

Lemma submit_inv done x cb r mapped :
  xinv done x → submittable (xe x) cb r mapped →
  let y := Xfer (qdma_sg_req_submit cb mapped (with_req cb r (xe x))).2 (dlog x) in
  xinv done y ∧ line done y = line done x ++ [cb].
Proof.
  intros [Hm Hr Hc [Hw Hle] Hf Hfit (ds & Hds & Hlog) Hp Hwt Hd Hit Hn Hk] Hsb.
  destruct (submit_queued (xe x) cb r mapped Hm Hsb) as [t ->]. destruct Hsb as [_ Hnew Hdir Hmap Hfr Hft].
  set (r' := mapped_req r mapped) in *.
  assert (cb ∉ line done x) as Hni.
  { intros Hin. apply elem_of_app in Hin as [Hin|Hin].
    - destruct (Hd cb Hin) as (H1 & _). unfold req_of in H1. by rewrite Hnew in H1.
    - destruct (lists_known _ Hc cb Hin) as [? H1]. by rewrite Hnew in H1. }
  set (y := Xfer _ _). cbv zeta.
  assert (∀ z, z ∈ line done x → req_of (xe y) z = req_of (xe x) z) as Hro.
  { intros z Hz. unfold req_of. cbn. rewrite lookup_insert_ne; [done|]. by intros ->. }
  assert (req_of (xe y) cb = r') as Hrc by (unfold req_of; cbn; by rewrite lookup_insert_eq).
  assert (line done y = line done x ++ [cb]) as Hline.
  { unfold line. cbn [y xe queued dq work_list pend_list set eta descq_eta]. by rewrite !app_assoc. }
  destruct (queued_inv cb r' t (xe x) Hc) as [Hc' _]; [by intros ?; apply Hni, elem_of_app; right|done|].
  assert (∀ z, z ∈ pend_list (dq (xe x)) ++ work_list (dq (xe x)) → z ∈ line done x) as Hpw
    by (intros z Hz; apply elem_of_app; by right).
  split; [|exact Hline]. split; try done.
  - by apply (ring_wf_ext (dq (xe x))).
  - change (work_list (dq (xe y))) with (work_list (dq (xe x)) ++ [cb]).
    intros z [Hz|Hz]%elem_of_app; [|apply list_elem_of_singleton in Hz as ->; by rewrite Hrc].
    rewrite Hro by (apply Hpw, elem_of_app; by right). by apply Hf.
  - unfold fits in *. change (work_list (dq (xe y))) with (work_list (dq (xe x)) ++ [cb]).
    rewrite need_app, need_cons, Hrc. change (need (xe y) []) with 0.
    rewrite (need_ext (xe x)); [|done|]. 1: change (in_flight (dq (xe x)) + (need (xe x) (work_list (dq (xe x))) +
      (Z.of_nat (length (req_pieces (dq (xe x)) r')) + 0)) + 0 <= rngsz (conf (dq (xe x))) - 1); lia.
    intros z Hz. rewrite Hro; [done|]. apply Hpw, elem_of_app. by right.
  - exists ds. split; [done|]. change (dlog y) with (dlog x). rewrite Hlog. symmetry. apply descs_of_ext; [done|].
    intros z Hz. rewrite Hro; [done|]. apply elem_of_app in Hz as [Hz|Hz]; [apply elem_of_app; by left|].
    apply Hpw, elem_of_app. by left.
  - intros z Hz. rewrite Hro by (apply Hpw, elem_of_app; by left). by apply Hp.
  - intros z Hz. assert (z ∈ (pend_list (dq (xe x)) ++ work_list (dq (xe x))) ++ [cb]) as Hz'
      by (by rewrite <- app_assoc).
    apply elem_of_app in Hz' as [Hz'|Hz']; [rewrite Hro by auto; by apply Hwt|].
    apply list_elem_of_singleton in Hz' as ->. by rewrite Hrc.
  - intros z Hz. rewrite Hro by (apply elem_of_app; by left). by apply Hd.
  - intros z Hz. fold (line done y) in Hz. rewrite Hline in Hz.
    apply elem_of_app in Hz as [Hz|Hz%list_elem_of_singleton]; [rewrite Hro by done; by apply Hit|].
    subst z. rewrite Hrc. exact (fresh_intact _ _ (piece_max_pos _) Hfr).
  - fold (line done y). rewrite Hline. apply NoDup_app. split_and!; [done| |by apply NoDup_singleton].
    by intros z Hz ->%list_elem_of_singleton.
  - intros z Hz. fold (line done y). rewrite Hline. apply elem_of_app.
    destruct (decide (z = cb)) as [->|Hne]; [right; by left|left].
    apply Hk. cbn in Hz. by rewrite lookup_insert_ne in Hz.
Qed.

(** ** Lemmas: a request is refused *)

(** Nothing has changed for anybody else. *)
Lemma refused_same e cb r mapped :
  st (conf (dq e)) && c2h (conf (dq e)) = false → enabled (dq e) = true → reqs e !! cb = None →
  unacceptable e r mapped → forget cb (qdma_sg_req_submit cb mapped (with_req cb r e)).2 = e.
Proof.
  intros Hm Hen Hnew Hbad. unfold qdma_sg_req_submit. cbn [with_req dq set eta qenv_eta]. rewrite Hen. cbn [negb].
  assert (req_of (with_req cb r e) cb = r) as -> by (unfold req_of; cbn; by rewrite lookup_insert_eq).
  assert (∀ f, forget cb (upd_req cb f (with_req cb r e)) = e) as Hback.
  { intros f. unfold forget, upd_req, with_req. destruct e as [q rs x tr]. cbn in *. f_equal.
    rewrite alter_insert_eq. by rewrite delete_insert_id. }
  destruct (Bool.eqb_spec (req_write r) (c2h (conf (dq e)))) as [_|Hne].
  { unfold forget, with_req. destruct e as [q rs x tr]. cbn in *. f_equal. by apply delete_insert_id. }
  destruct Hbad as [|[Hd ->]]; [done|]. rewrite Hm. unfold sg_map, req_of.
  cbn [cb_zero upd_req with_req reqs set eta qenv_eta]. rewrite lookup_alter_eq, lookup_insert_eq.
  cbn. rewrite Hd. cbn. apply Hback.
Qed.

(** ** Lemmas: a caller gives up *)

Lemma need_filter e P `{!∀ cb : nat, Decision (P cb)} l : need e (filter P l) <= need e l.
Proof.
  induction l as [|cb l IH]; [done|]. rewrite filter_cons. destruct (decide (P cb)); rewrite !need_cons; lia.
Qed.

Lemma giveup_inv done x cb :
  xinv done x → cb ∈ work_list (dq (xe x)) →
  let y := Xfer (forget cb (sg_req_submit_finish cb (xe x)).2) (dlog x) in
  xinv done y ∧ line done y = filter (.≠ cb) (line done x).
Proof.
  intros [Hm Hr Hc [Hw Hle] Hf Hfit (ds & Hds & Hlog) Hp Hwt Hd Hit Hn Hk] Hin y.
  assert ((cb ∉ done) ∧ (cb ∉ pend_list (dq (xe x)))) as [Hnd Hnp].
  { apply NoDup_app in Hn as (_ & H1 & Hn). apply NoDup_app in Hn as (_ & H2 & _). split; intros H.
    - apply (H1 cb H), elem_of_app. by right.
    - by apply (H2 cb H). }
  assert (xe y = forget cb (list_del cb (xe x))) as Ey.
  { unfold y, sg_req_submit_finish. rewrite (Hwt cb) by (apply elem_of_app; by right).
    assert (req_of (list_del cb (xe x)) cb = req_of (xe x) cb) as -> by done.
    rewrite (Hwt cb) by (apply elem_of_app; by right). done. }
  assert (dlog y = dlog x) as Edl by done. clearbody y.
  assert (pend_list (dq (xe y)) = pend_list (dq (xe x))) as Epd by (rewrite Ey; cbn; by apply filter_ne_notin).
  assert (work_list (dq (xe y)) = filter (.≠ cb) (work_list (dq (xe x)))) as Ewk by (by rewrite Ey).
  assert (ring (dq (xe y)) = ring (dq (xe x)) ∧ conf (dq (xe y)) = conf (dq (xe x))) as [Erg Ecf] by (by rewrite Ey).
  assert (∀ z, z ≠ cb → reqs (xe y) !! z = reqs (xe x) !! z) as Hoth
    by (intros z Hz; rewrite Ey; cbn; by rewrite lookup_delete_ne).
  assert (∀ z, z ≠ cb → req_of (xe y) z = req_of (xe x) z) as Hro by (intros z Hz; unfold req_of; by rewrite Hoth).
  assert (reqs (xe y) !! cb = None) as Hno by (rewrite Ey; cbn; apply lookup_delete_eq). clear Ey.
  assert (line done y = filter (.≠ cb) (line done x)) as Hline.
  { unfold line. rewrite Epd, Ewk, !filter_app.
    by rewrite (filter_ne_notin cb done), (filter_ne_notin cb (pend_list _)) by done. }
  assert (∀ z, z ∈ filter (.≠ cb) (work_list (dq (xe x))) → z ≠ cb ∧ z ∈ work_list (dq (xe x))) as Hwk
    by (intros z; by rewrite list_elem_of_filter).
  assert (∀ z, z ∈ line done y → z ≠ cb ∧ z ∈ line done x) as Hl by (intros z; by rewrite Hline, list_elem_of_filter).
  assert (∀ z, z ∈ done ++ pend_list (dq (xe x)) → z ≠ cb) as Hdp.
  { intros z [Hz|Hz]%elem_of_app ->; done. }
  split; [|exact Hline]. split; rewrite ?Edl, ?Erg, ?Ecf, ?Epd, ?Ewk; try done.
  - by apply (ring_wf_ext (dq (xe x))); rewrite ?Erg.
  - destruct Hc as [Hnd' Hkn Hrng Hps Hwt' Hcn Hcp Hff].
    assert (∀ l, (∀ z, z ∈ l → z ≠ cb) → owners_of (reqs (xe y)) l = owners_of (reqs (xe x)) l) as Hown
      by (intros l Hlz; apply owners_of_ext; intros z Hz; by rewrite Hoth by auto).
    assert (∀ z, z ∈ work_list (dq (xe x)) → desc_nr (req_of (xe x) z) = 0) as Hz0
      by (intros z Hz; by apply (Hf z Hz)).
    split; rewrite ?Epd, ?Ewk, ?Erg; try done.
    + apply NoDup_app in Hnd' as (A & B & C). apply NoDup_app. split_and!; [done| |by apply NoDup_filter].
      intros z Hz [_ Hz']%Hwk. by apply (B z Hz).
    + intros z Hz. assert (z ≠ cb ∧ z ∈ pend_list (dq (xe x)) ++ work_list (dq (xe x))) as [Hne Hz'].
      { apply elem_of_app in Hz as [Hz|[? ?]%Hwk]; (split; [|apply elem_of_app]); [by intros ->|by left|done|by right]. }
      rewrite Hoth by done. by apply Hkn.
    + intros z r Hz. destruct (decide (z = cb)) as [->|Hne]; [congruence|]. rewrite Hoth in Hz by done. by apply (Hrng z).
    + intros z Hz. rewrite Hro by (by intros ->). by apply Hps.
    + intros z Hz. assert (z ∈ filter (.≠ cb) (work_list (dq (xe x)))) as [Hne Hz']%Hwk
        by (destruct (filter _ _); [done|by right]). rewrite Hro by done. by apply Hz0.
    + intros z l Hz. rewrite Hro; [by apply (Hcp z l)|]. intros ->. apply Hnp. rewrite Hz. by left.
    + assert (in_flight (dq (xe y)) = in_flight (dq (xe x))) as -> by (unfold in_flight; by rewrite Erg, Ecf).
      rewrite <- Hff. unfold owners. rewrite Epd, Ewk, !owners_of_app, Hown by (by intros z Hz ->).
      rewrite !(owners_of_zero _ (filter _ _)), (owners_of_zero _ (work_list _)); [done|exact Hz0|].
      intros z [Hne Hz]%Hwk. rewrite Hoth by done. by apply Hz0.
  - unfold consumed, in_flight in *. by rewrite Erg, Ecf.
  - intros z [Hne Hz]%Hwk. rewrite Hro, (piece_max_ext _ _ Ecf) by done. by apply Hf.
  - unfold fits in *. rewrite Ewk, Ecf.
    assert (in_flight (dq (xe y)) = in_flight (dq (xe x))) as -> by (unfold in_flight; by rewrite Erg, Ecf).
    rewrite (need_ext (xe x)); [|done|by intros z [Hne _]%Hwk; rewrite Hro].
    pose proof (need_filter (xe x) (.≠ cb) (work_list (dq (xe x)))). lia.
  - exists ds. split.
    + destruct Hds as [H1 (l & H2 & H3)]. unfold ring_holds, undone, hw_slot in *. rewrite Erg, Ecf. by eauto.
    + rewrite Hlog. symmetry. apply descs_of_ext; [done|]. intros z Hz. by rewrite Hro by auto.
  - intros z Hz. rewrite Hro by (by intros ->). rewrite (req_pieces_ext (dq (xe x)) _ (req_of (xe x) z)) by done. by apply Hp.
  - intros z Hz. assert (z ≠ cb ∧ z ∈ pend_list (dq (xe x)) ++ work_list (dq (xe x))) as [Hne Hz'].
    { apply elem_of_app in Hz as [Hz|[? ?]%Hwk]; (split; [|apply elem_of_app]); [by intros ->|by left|done|by right]. }
    rewrite Hro by done. by apply Hwt.
  - intros z Hz. rewrite Hro by (by intros ->). by apply Hd.
  - intros z Hz. fold (line done y) in Hz. assert (z ∈ line done y) as [Hne Hz']%Hl by (unfold line; by rewrite Epd, Ewk).
    rewrite Hro by done. by apply Hit.
  - assert (done ++ pend_list (dq (xe x)) ++ filter (.≠ cb) (work_list (dq (xe x))) = filter (.≠ cb) (line done x)) as ->
      by (rewrite <- Hline; unfold line; by rewrite Epd, Ewk). by apply NoDup_filter.
  - intros z Hz. assert (z ≠ cb) as Hne by (intros ->; rewrite Hno in Hz; by destruct Hz). rewrite Hoth in Hz by done.
    assert (z ∈ line done y) as Hz' by (rewrite Hline, list_elem_of_filter; split; [done|by apply Hk]).
    unfold line in Hz'. by rewrite Epd, Ewk in Hz'.
Qed.

(** ** Lemmas: a request is written into the ring *)

Lemma emit_all_keeps {S B} (f : S → B) (emit : Z → Z → S → S) ps s :
  (∀ a l s, f (emit a l s) = f s) → f (emit_all emit ps s) = f s.
Proof.
  intros H. unfold emit_all. revert s. induction ps as [|p ps IH]; intros s; cbn; [done|]. by rewrite IH.
Qed.

Lemma wake_emit_dq ev e : dq (wake_wb (emit_ev ev e)) = dq e.
Proof. by rewrite (proj1 (wake_wb_same _)). Qed.

(** The submission does not touch what the device has written back. *)
Lemma account_wb_cidx cb n c e :
  desc_wb_cidx (ring (dq (account cb n c e))) = desc_wb_cidx (ring (dq e)).
Proof. unfold account. cbn. by case_match. Qed.

Lemma proc_wb_cidx cb sg off e :
  sg_start (req_of e cb) = Some (sg, off) → Forall sg_entry_wf sg →
  desc_wb_cidx (ring (dq (qdma_descq_proc_sgt_request cb e).2)) = desc_wb_cidx (ring (dq e)).
Proof.
  intros Hst Hsg. unfold qdma_descq_proc_sgt_request. destruct (st (conf (dq e))); cbn [negb].
  - destruct (negb _); [|done]. unfold descq_proc_st_h2c_request. destruct (_ =? 0); [done|].
    rewrite Hst, sg_walk_spec by done. cbn [snd]. rewrite (proj1 (wake_wb_same _)), account_wb_cidx.
    refine (emit_all_keeps (λ w, desc_wb_cidx (ring (dq (hw_e w)))) h2c_emit _ _ _). by intros a l [].
  - unfold descq_mm_proc_request. destruct (_ =? 0); [done|].
    rewrite Hst, sg_walk_spec by done. set (w := emit_all _ _ _).
    assert (desc_wb_cidx (ring (mw_q w)) = desc_wb_cidx (ring (dq e))) as Hw.
    { apply (emit_all_keeps (λ w, desc_wb_cidx (ring (mw_q w)))). intros a l []. reflexivity. }
    destruct (mw_desc_end w); [|exact Hw]. cbn [snd]. rewrite <- Hw. by rewrite wake_emit_dq, account_wb_cidx.
Qed.

(** The producer index is [undone] slots ahead of the device. *)
Lemma pidx_ahead q :
  ring_wf q → 0 <= desc_wb_cidx (ring q) < rngsz (conf q) → ∀ k,
  (pidx (ring q) + k) mod rngsz (conf q) = (desc_wb_cidx (ring q) + (undone q + k)) mod rngsz (conf q).
Proof.
  intros [Hr Hp _ _ _] Hw k. unfold undone.
  replace (desc_wb_cidx (ring q) + ((pidx (ring q) - desc_wb_cidx (ring q)) mod rngsz (conf q) + k))
    with ((pidx (ring q) - desc_wb_cidx (ring q)) mod rngsz (conf q) + (desc_wb_cidx (ring q) + k)) by lia.
  rewrite Zplus_mod_idemp_l. f_equal. lia.
Qed.

Lemma req_descs_lookup q r k d :
  0 <= ep_addr r < 2 ^ 64 → req_descs q r !! k = Some d →
  ∃ p, req_pieces q r !! k = Some p ∧ d = piece_desc q r k p.
Proof.
  intros He. unfold req_descs, piece_desc. destruct (st (conf q)).
  { change (map h2c_piece ?l) with (h2c_piece <$> l). rewrite list_lookup_fmap.
    intros (p & Hp & ->)%fmap_Some. by exists p. }
  rewrite list_lookup_imap. intros (d0 & Hd0 & ->)%fmap_Some.
  destruct (req_pieces q r !! k) as [p|] eqn:Ep.
  - rewrite (mm_descs_lookup _ _ _ _ _ He Ep) in Hd0. injection Hd0 as <-. by exists p.
  - apply lookup_ge_None in Ep. rewrite lookup_ge_None_2 in Hd0 by (rewrite length_mm_descs; lia). done.
Qed.

(** The ring with a request written into it. *)
Definition put_ring (cb : nat) (e : qenv) (l : list ring_desc) : list ring_desc :=
  let ps := req_pieces (dq e) (req_of e cb) in
  if st (conf (dq e)) then ring_put (rngsz (conf (dq e))) (pidx (ring (dq e))) (map h2c_piece ps) l
  else mm_ring cb ps e l.

Lemma put_ring_lookup cb e l k p :
  let ps := req_pieces (dq e) (req_of e cb) in
  ring_wf (dq e) → length l = Z.to_nat (rngsz (conf (dq e))) → Z.of_nat (length ps) < rngsz (conf (dq e)) →
  0 <= ep_addr (req_of e cb) < 2 ^ 64 → ps !! k = Some p →
  put_ring cb e l !! Z.to_nat ((pidx (ring (dq e)) + Z.of_nat k) mod rngsz (conf (dq e))) =
  Some (piece_desc (dq e) (req_of e cb) k p).
Proof.
  intros ps Hwf Hl Hn He Hk. unfold put_ring, piece_desc. fold ps. destruct (st (conf (dq e))).
  - apply ring_put_lookup; [destruct Hwf; lia|destruct Hwf; lia|done|rewrite length_map; lia|].
    change (map h2c_piece ps) with (h2c_piece <$> ps). by rewrite list_lookup_fmap, Hk.
  - by apply mm_ring_lookup.
Qed.

Lemma put_ring_other cb e l s :
  let ps := req_pieces (dq e) (req_of e cb) in
  ring_wf (dq e) → Z.of_nat (length ps) < rngsz (conf (dq e)) → ps ≠ [] → 0 <= s →
  (∀ k, 0 <= k < Z.of_nat (length ps) → (pidx (ring (dq e)) + k) mod rngsz (conf (dq e)) ≠ s) →
  put_ring cb e l !! Z.to_nat s = l !! Z.to_nat s.
Proof.
  intros ps Hwf Hn Hne Hs Hout. unfold put_ring. fold ps. destruct (st (conf (dq e))); [|by apply mm_ring_other].
  apply ring_put_other; [destruct Hwf; lia|destruct Hwf; lia|done|]. by rewrite length_map.
Qed.

(** The descriptors of a request are put behind those in the ring. *)
Lemma ring_holds_put cb e q' ds :
  ring_wf (dq e) → 0 <= desc_wb_cidx (ring (dq e)) < rngsz (conf (dq e)) → consumed (dq e) <= in_flight (dq e) →
  ring_holds (dq e) ds → 0 <= ep_addr (req_of e cb) < 2 ^ 64 → req_pieces (dq e) (req_of e cb) ≠ [] →
  in_flight (dq e) + Z.of_nat (length (req_pieces (dq e) (req_of e cb))) < rngsz (conf (dq e)) →
  conf q' = conf (dq e) → desc_wb_cidx (ring q') = desc_wb_cidx (ring (dq e)) →
  pidx (ring q') = (pidx (ring (dq e)) + Z.of_nat (length (req_pieces (dq e) (req_of e cb)))) mod rngsz (conf (dq e)) →
  desc (ring q') = put_ring cb e <$> desc (ring (dq e)) →
  ring_holds q' (ds ++ req_descs (dq e) (req_of e cb)).
Proof.
  intros Hwf Hw Hle [Hl (l & El & Hds)] Hep Hne Hfit Ec Ew Ep Ed.
  pose proof (consumed_range _ Hwf) as Hcr. pose proof (in_flight_range _ Hwf) as Hfr.
  pose proof (undone_eq _ Hwf Hw Hle) as Hu. set (ps := req_pieces (dq e) (req_of e cb)) in *. set (sz := rngsz (conf (dq e))) in *.
  pose proof (pidx_ahead _ Hwf Hw) as Hahead. fold sz in Hahead.
  pose proof (desc_len _ Hwf) as Hlen. rewrite El in Hlen. injection Hlen as Hlen.
  assert (0 < sz) as Hsz by (destruct Hwf; unfold sz; lia).
  split.
  - rewrite length_app, length_req_descs. fold ps. unfold undone. rewrite Ep, Ew, Ec. fold sz.
    rewrite Hahead, Zminus_mod_idemp_l.
    replace (desc_wb_cidx (ring (dq e)) + (undone (dq e) + Z.of_nat (length ps)) - desc_wb_cidx (ring (dq e)))
      with (undone (dq e) + Z.of_nat (length ps)) by lia.
    rewrite Z.mod_small by lia. lia.
  - exists (put_ring cb e l). split; [by rewrite Ed, El|]. intros k d Hk. unfold hw_slot. rewrite Ew, Ec. fold sz.
    destruct (decide (k < length ds)%nat) as [Hlt|Hge].
    + rewrite lookup_app_l in Hk by done. rewrite <- (Hds k d Hk). unfold hw_slot. fold sz.
      apply put_ring_other; [done|fold ps sz; lia|done|apply (mod_range sz Hsz)|].
      intros j Hj. fold ps in Hj. rewrite Hahead. intros Eq%(cyclic_inj sz Hsz); lia.
    + rewrite lookup_app_r in Hk by lia.
      destruct (req_descs_lookup _ _ _ _ Hep Hk) as (p & Hp & ->). fold ps in Hp.
      replace (desc_wb_cidx (ring (dq e)) + Z.of_nat k)
        with (desc_wb_cidx (ring (dq e)) + (undone (dq e) + Z.of_nat (k - length ds))) by lia.
      rewrite <- Hahead. apply put_ring_lookup; [done|done|fold sz ps; lia|done|done].
Qed.

(** One turn of the thread: the request at the head, which fits, is written
    completely and waits for the device. *)
Record turned (cb : nat) (e e' : qenv) : Prop := {
  tu_run : qdma_descq_proc_sgt_request cb e = (0, e');
  tu_sub : submitted cb (req_pieces (dq e) (req_of e cb)) e e';
  tu_desc : desc (ring (dq e')) = put_ring cb e <$> desc (ring (dq e));
  tu_wb : desc_wb_cidx (ring (dq e')) = desc_wb_cidx (ring (dq e));
  tu_lists : work_list (dq e') = tail (work_list (dq e)) ∧ pend_list (dq e') = pend_list (dq e) ++ [cb];
  tu_inv : ring_wf (dq e') ∧ credit_inv e';
  tu_flight : in_flight (dq e') = in_flight (dq e) + Z.of_nat (length (req_pieces (dq e) (req_of e cb)))
}.

(** Both routines, which are one behind the dispatch. *)
Lemma proc_request_run cb sg off e :
  st (conf (dq e)) && c2h (conf (dq e)) = false → can_submit (piece_max (dq e)) cb sg off e →
  batch (piece_max (dq e)) sg e = req_pieces (dq e) (req_of e cb) →
  ∃ e', qdma_descq_proc_sgt_request cb e = (0, e') ∧ submitted cb (req_pieces (dq e) (req_of e cb)) e e' ∧
    desc (ring (dq e')) = put_ring cb e <$> desc (ring (dq e)).
Proof.
  intros Hm Hcs Hb. rewrite <- Hb. unfold qdma_descq_proc_sgt_request, put_ring, piece_max in *. rewrite <- Hb.
  destruct (st (conf (dq e))); cbn [negb andb] in *.
  - rewrite Hm. cbn [negb]. destruct (st_h2c_request_run cb sg off e Hcs) as (e' & -> & Hs & Hd & _). by exists e'.
  - destruct (mm_proc_request_run cb sg off e Hcs) as (e' & -> & Hs & Hd & _). by exists e'.
Qed.

Lemma turn_run e cb rest :
  st (conf (dq e)) && c2h (conf (dq e)) = false → ring_wf (dq e) → credit_inv e → work_list (dq e) = cb :: rest →
  fresh_req (piece_max (dq e)) (req_of e cb) → fits e 0 → ∃ e', turned cb e e'.
Proof.
  intros Hm Hwf Hi Hw Hfr Hfit. set (ps := req_pieces (dq e) (req_of e cb)).
  pose proof (piece_max_pos (dq e)) as Hmax.
  assert (is_Some (reqs e !! cb)) as Hk by (apply (lists_known _ Hi), elem_of_app; right; rewrite Hw; by left).
  assert (ps ≠ []) as Hne by apply Hfr. pose proof (need_nonneg e rest) as Hnn.
  assert (Z.of_nat (length ps) <= avail (ring (dq e))) as Hav.
  { unfold fits in Hfit. rewrite Hw, need_cons in Hfit. fold ps in Hfit. rewrite (avail_eq _ Hwf). lia. }
  assert (0 < Z.of_nat (length ps)) as Hpos by (destruct ps; [done|cbn; lia]).
  pose proof (fresh_can_submit e cb Hwf ltac:(lia) Hk Hfr) as Hcs.
  assert (batch (piece_max (dq e)) (sgt (req_of e cb)) e = ps) as Hb.
  { unfold batch. rewrite take_ge; [done|]. change (sg_pieces _ _) with ps. lia. }
  destruct (proc_request_run cb _ 0 e Hm Hcs Hb) as (e' & E & Hsub & Hd). fold ps in Hsub.
  pose proof (can_submit_room (piece_max (dq e)) _ _ _ _ Hmax Hcs) as Hroom. rewrite Hb in Hroom.
  destruct (submission_ring cb ps e e' Hwf Hroom Hsub) as [Hwf' Hif].
  exists e'. split; try done.
  - rewrite <- (proc_wb_cidx cb _ 0 e (cs_start _ _ _ _ _ Hcs) (cs_wf _ _ _ _ _ Hcs)). by rewrite E.
  - destruct (submission_notin cb rest e Hi Hw) as (Hn1 & Hn2 & _).
    pose proof (sub_lists _ _ _ _ Hsub) as Hl. rewrite (sub_req _ _ _ _ Hsub) in Hl.
    destruct Hfr as [[Ho _] Hsg _ _ [Hc _] _]. cbn in Hl.
    destruct (sg_pieces_sum (piece_max (dq e)) Hmax _ Hsg) as [Hsum _].
    rewrite Ho in Hl. change (sumZ (map snd ps)) with (sumZ (map snd (sg_pieces (piece_max (dq e)) (sgt (req_of e cb))))) in Hl.
    rewrite Hsum, Hc, Z.eqb_refl, Hw in Hl. rewrite Hw.
    by rewrite filter_cons_False, !filter_ne_notin in Hl by (done || (intros Hne'; by apply Hne')).
  - split; [done|]. by apply (submission_credit_inv cb ps rest e e').
Qed.

Lemma turn_inv done x cb rest :
  xinv done x → work_list (dq (xe x)) = cb :: rest →
  let y := Xfer (qdma_descq_proc_sgt_request cb (xe x)).2 (dlog x) in
  qdma_descq_proc_sgt_request cb (xe x) = (0, xe y) ∧
  xinv done y ∧ line done y = line done x ∧ work_list (dq (xe y)) = rest.
Proof.
  intros [Hm Hr Hc [Hw Hle] Hf Hfit (ds & Hds & Hlog) Hp Hwt Hd Hit Hn Hk] Ework y.
  assert (fresh_req (piece_max (dq (xe x))) (req_of (xe x) cb)) as Hfr by (apply Hf; rewrite Ework; by left).
  destruct (turn_run (xe x) cb rest Hm Hr Hc Ework Hfr Hfit) as [e' Ht].
  assert (xe y = e') as Ey by (unfold y; by rewrite (tu_run _ _ _ Ht)). rewrite <- Ey in Ht. clear e' Ey.
  pose proof (tu_run _ _ _ Ht) as Erun. assert (dlog y = dlog x) as Edl by done. clearbody y.
  destruct (tu_inv _ _ _ Ht) as [Hr' Hc']. destruct (tu_lists _ _ _ Ht) as [Ew Ep]. rewrite Ework in Ew. cbn in Ew.
  pose proof (tu_sub _ _ _ Ht) as Hsub. pose proof (tu_flight _ _ _ Ht) as Hif.
  set (n := Z.of_nat (length (req_pieces (dq (xe x)) (req_of (xe x) cb)))) in *.
  assert (consumed (dq (xe y)) = consumed (dq (xe x))) as Econs
    by (unfold consumed; by rewrite (tu_wb _ _ _ Ht), (sub_cidx _ _ _ _ Hsub), (sub_conf _ _ _ _ Hsub)).
  assert (∀ z, z ≠ cb → req_of (xe y) z = req_of (xe x) z) as Hro
    by (intros z Hz; unfold req_of; by rewrite (sub_other _ _ _ _ Hsub)).
  pose proof (sub_req _ _ _ _ Hsub) as Hrc.
  assert (∀ z, same_data (req_of (xe x) z) (req_of (xe y) z) ∧
               cb_done (req_of (xe y) z) = cb_done (req_of (xe x) z) ∧
               count (req_of (xe y) z) = count (req_of (xe x) z)) as Hsame.
  { intros z. destruct (decide (z = cb)) as [->|Hne]; [by rewrite Hrc|by rewrite Hro]. }
  assert (line done y = line done x) as Hline by (unfold line; by rewrite Ep, Ew, Ework, <- app_assoc).
  destruct (submission_notin cb rest (xe x) Hc Ework) as (Hn1 & Hn2 & _).
  split; [done|]. split; [|done].
  pose proof Hfit as Hfit'. unfold fits in Hfit'. rewrite Ework, need_cons in Hfit'. fold n in Hfit'.
  pose proof (need_nonneg (xe x) rest) as Hnn. split; try done.
  - by rewrite (sub_conf _ _ _ _ Hsub).
  - rewrite (tu_wb _ _ _ Ht), (sub_conf _ _ _ _ Hsub), Econs, Hif. split; [done|lia].
  - intros z Hz. rewrite Ew in Hz. rewrite Hro, (piece_max_ext _ _ (sub_conf _ _ _ _ Hsub)) by (by intros ->).
    apply Hf. rewrite Ework. by right.
  - unfold fits. rewrite Hif, Ew, (sub_conf _ _ _ _ Hsub), (need_ext (xe x)); [lia|apply Hsub|]. intros z _. apply Hsame.
  - exists (ds ++ req_descs (dq (xe x)) (req_of (xe x) cb)). split.
    + destruct Hfr. apply ring_holds_put; try done; [fold n; lia|apply Hsub|apply Ht|apply Hsub|apply Ht].
    + rewrite app_assoc, Edl, Hlog, Ep, app_assoc, (descs_of_app _ _ [cb]).
      rewrite !(descs_of_ext (xe x) (xe y)) by (apply Hsub || (intros z _; apply Hsame)).
      f_equal. unfold descs_of. cbn. by rewrite app_nil_r.
  - rewrite Ep. intros z Hz.
    rewrite (req_pieces_ext (dq (xe x)) _ (req_of (xe x) z)) by (apply Hsub || apply Hsame).
    apply elem_of_app in Hz as [Hz|Hz%list_elem_of_singleton]; [rewrite Hro by (by intros ->); by apply Hp|].
    subst z. rewrite Hrc. cbn. destruct Hfr as [[_ ->] _ _ _ _ _]. fold n. lia.
  - intros z Hz. destruct (Hsame z) as (_ & -> & _). apply Hwt. rewrite Ep, Ew, <- app_assoc in Hz. by rewrite Ework.
  - intros z Hz. rewrite Hro; [by apply Hd|]. intros ->. apply NoDup_app in Hn as (_ & Hn & _).
    apply (Hn cb Hz), elem_of_app. right. rewrite Ework. by left.
  - intros z Hz. fold (line done y) in Hz. rewrite Hline in Hz. destruct (Hsame z) as (Hs & _ & Ec).
    by apply (intact_ext (req_of (xe x) z)); [..|apply Hit].
  - fold (line done y). by rewrite Hline.
  - intros z Hz. fold (line done y). rewrite Hline. apply Hk. destruct (decide (z = cb)) as [->|Hne].
    + apply (lists_known _ Hc), elem_of_app. right. rewrite Ework. by left.
    + by rewrite <- (sub_other _ _ _ _ Hsub z Hne).
Qed.

(** A whole pass of the thread writes every waiting request. *)
Lemma pass_inv done x :
  xinv done x →
  let y := Xfer (qdma_thread_wrk_proc (xe x)) (dlog x) in
  xinv done y ∧ line done y = line done x ∧ work_list (dq (xe y)) = [].
Proof.
  cbv zeta. unfold qdma_thread_wrk_proc. remember (work_list (dq (xe x))) as work eqn:Hw. symmetry in Hw.
  revert x Hw. induction work as [|cb rest IH]; intros x Hw Hx; cbn [wrk_proc_loop]; [by destruct x|].
  destruct (turn_inv done x cb rest Hx Hw) as (E & Hy & Hl & Hr). cbv zeta in *.
  set (y := Xfer (qdma_descq_proc_sgt_request cb (xe x)).2 (dlog x)) in *.
  rewrite E. cbn [Z.ltb Z.compare]. change (dlog x) with (dlog y).
  destruct (Z.eqb_spec (avail (ring (dq (xe y)))) 0) as [Ez|Ez].
  - assert (rest = []) as ->.
    { destruct rest as [|z rest]; [done|]. exfalso. pose proof (xi_fits _ _ Hy) as Hfit. unfold fits in Hfit.
      rewrite Hr, need_cons in Hfit. pose proof (need_nonneg (xe y) rest).
      rewrite (avail_eq _ (xi_ring _ _ Hy)) in Ez.
      assert (fresh_req (piece_max (dq (xe y))) (req_of (xe y) z)) as Hfr by (apply (xi_fresh _ _ Hy); rewrite Hr; by left).
      pose proof (fresh_some _ _ Hfr) as Hne. change (sg_pieces _ _) with (req_pieces (dq (xe y)) (req_of (xe y) z)) in Hne.
      assert (0 < Z.of_nat (length (req_pieces (dq (xe y)) (req_of (xe y) z)))) by (destruct (req_pieces _); [done|cbn; lia]).
      lia. }
    destruct y as [e' dl]. cbn [xe dlog] in *. by split_and!.
  - destruct (IH y Hr Hy) as (H1 & H2 & H3). split_and!; [done|by rewrite H2|done].
Qed.

(** ** Every reachable state *)

(** A started memory-mapped or streaming H2C queue that has nothing to do yet. *)
Record idle (x : xfer) : Prop := {
  id_mode : st (conf (dq (xe x))) && c2h (conf (dq (xe x))) = false;
  id_ring : ring_wf (dq (xe x));
  id_index : pidx (ring (dq (xe x))) = cidx (ring (dq (xe x))) ∧
             desc_wb_cidx (ring (dq (xe x))) = cidx (ring (dq (xe x)));
  id_credit : credit (ring (dq (xe x))) = 0;
  id_lists : work_list (dq (xe x)) = [] ∧ pend_list (dq (xe x)) = [];
  id_reqs : reqs (xe x) = ∅;
  id_log : dlog x = []
}.

(** The accounting of a queue without requests. *)
Lemma empty_credit e :
  work_list (dq e) = [] → pend_list (dq e) = [] → reqs e = ∅ → credit (ring (dq e)) = 0 →
  in_flight (dq e) = 0 → credit_inv e.
Proof.
  intros Hw Hp Hr Hc Hi. assert (∀ cb : nat, cb ∉ @nil nat) as Hnil by (intros cb ?%elem_of_nil; done).
  split; unfold owners, req_of; rewrite ?Hw, ?Hp, ?Hr, ?Hc, ?Hi; cbn [app]; try done;
    try (by apply NoDup_nil); by intros cb ?%Hnil.
Qed.

Lemma idle_inv x : idle x → xinv [] x.
Proof.
  intros [Hm Hwf [Ei Ew] Hc [Hw Hp] Hr Hl]. pose proof Hwf as [Hsz _ Hcx _ _].
  assert (in_flight (dq (xe x)) = 0 ∧ consumed (dq (xe x)) = 0 ∧ undone (dq (xe x)) = 0) as (E1 & E2 & E3).
  { unfold in_flight, consumed, undone. rewrite Ei, Ew, Z.sub_diag, Z.mod_0_l by lia. done. }
  assert (∀ cb : nat, cb ∉ @nil nat) as Hnil by (intros cb ?%elem_of_nil; done).
  split; rewrite ?Hw, ?Hp, ?Hr; cbn [app]; try done;
    try (by intros cb ?%Hnil); try (by apply NoDup_nil).
  - by apply empty_credit.
  - rewrite E1, E2, Ew. split; [done|lia].
  - unfold fits. rewrite E1, Hw. change (need (xe x) []) with 0. lia.
  - exists []. split; [|by rewrite Hl]. split; [by rewrite E3|].
    pose proof (desc_len _ Hwf) as Hd. destruct (desc (ring (dq (xe x)))) as [l|]; [|done]. by exists l.
  - intros cb H. rewrite lookup_empty in H. by destruct H.
Qed.

(** The requests of [l] that are still in [l'], in their order, are its start. *)
Definition extends (l l' : list nat) : Prop := filter (λ cb, cb ∈ l') l `prefix_of` l'.

Lemma extends_prefix l l' : l `prefix_of` l' → extends l l'.
Proof.
  intros Hp. unfold extends. rewrite filter_all; [done|]. intros cb Hcb. destruct Hp as [k ->].
  apply elem_of_app. by left.
Qed.

Lemma extends_filter cb l : extends l (filter (.≠ cb) l).
Proof.
  unfold extends. rewrite (filter_iff_in _ (.≠ cb) l); [done|].
  intros x Hx. rewrite list_elem_of_filter. by split; [intros []|].
Qed.

(** A step keeps the invariant; requests join the line at its end only, leave it
    only when their callers give up, and are completed from its front. *)
Lemma step_inv done x y :
  xinv done x → xstep x y →
  ∃ done', xinv done' y ∧ done `prefix_of` done' ∧ extends (line done x) (line done' y).
Proof.
  intros Hx Hs. destruct Hs as [x cb r mapped Hsb|x cb r mapped Hen Hnew Hbad|x cb Hnb Hin|x cb rest Hw|x|x y He|x].
  - destruct (submit_inv done x cb r mapped Hx Hsb) as [Hy Hl]. exists done. split_and!; [done|done|].
    rewrite Hl. by apply extends_prefix, prefix_app_r.
  - rewrite (refused_same _ _ _ _ (xi_mode _ _ Hx) Hen Hnew Hbad). exists done.
    destruct x as [e l]. split_and!; [done|done|by apply extends_prefix].
  - destruct (giveup_inv done x cb Hx Hin) as [Hy Hl]. exists done. rewrite Hl.
    split_and!; [done|done|apply extends_filter].
  - destruct (turn_inv done x cb rest Hx Hw) as (_ & Hy & Hl & _). exists done. rewrite Hl.
    split_and!; [done|done|by apply extends_prefix].
  - destruct (pass_inv done x Hx) as (Hy & Hl & _). exists done. rewrite Hl.
    split_and!; [done|done|by apply extends_prefix].
  - destruct (engine_inv done x y Hx He) as [Hy Hl]. exists done. rewrite Hl.
    split_and!; [done|done|by apply extends_prefix].
  - destruct (writeback_inv done x Hx) as (k & Hy & Hl & _). eexists. split; [exact Hy|].
    split; [by apply prefix_app_r|]. rewrite Hl. by apply extends_prefix.
Qed.

Lemma reach_inv x0 x : idle x0 → rtc xstep x0 x → ∃ done, xinv done x.
Proof.
  intros H0 Hr. pose proof (idle_inv _ H0) as Hx. revert Hx. generalize (@nil nat) as done.
  clear H0. induction Hr as [x|x y z Hs _ IH]; intros done Hx; [by exists done|].
  destruct (step_inv done x y Hx Hs) as (done' & Hy & _). by apply (IH done').
Qed.

(** No request owns more descriptors than it needs. *)
Lemma owners_le e l :
  (∀ cb, cb ∈ l → 0 <= desc_nr (req_of e cb) <= Z.of_nat (length (req_pieces (dq e) (req_of e cb)))) →
  Z.of_nat (length (owners_of (reqs e) l)) <= need e l.
Proof.
  induction l as [|cb l IH]; intros H; [done|]. rewrite owners_of_cons, need_cons, length_app, length_replicate.
  fold (req_of e cb). specialize (H cb ltac:(by left)) as Hcb.
  assert (Z.of_nat (length (owners_of (reqs e) l)) <= need e l) by (apply IH; intros z Hz; apply H; by right). lia.
Qed.

(** What the device has executed covers the completed requests. *)
Lemma done_executed done x :
  xinv done x →
  descs_of (xe x) done `prefix_of` dlog x ∧
  dlog x `prefix_of` descs_of (xe x) (done ++ pend_list (dq (xe x))).
Proof.
  intros [_ Hr Hc [Hw Hle] Hfr _ (ds & [Hl _] & Hlog) Hp _ _ _ _ _].
  assert (dlog x `prefix_of` descs_of (xe x) (done ++ pend_list (dq (xe x)))) as Hpre
    by (rewrite <- Hlog; by apply prefix_app_r).
  split; [|done].
  apply (prefix_of_shorter _ _ (descs_of (xe x) (done ++ pend_list (dq (xe x))))); [|exact Hpre|].
  { rewrite descs_of_app. by apply prefix_app_r. }
  rewrite descs_of_app in Hlog. apply (f_equal length) in Hlog. rewrite !length_app in Hlog.
  rewrite (undone_eq _ Hr Hw Hle) in Hl. pose proof (consumed_range _ Hr).
  pose proof (length_descs_of (xe x) (pend_list (dq (xe x)))) as Hn.
  assert (in_flight (dq (xe x)) <= need (xe x) (pend_list (dq (xe x)))); [|lia]. clear Hlog Hl Hn Hpre.
  rewrite <- (fifo_in_flight _ Hc). pose proof (credit_nonneg _ Hc). unfold owners.
  rewrite owners_of_app, (owners_of_zero _ (work_list _)), app_nil_r by (intros cb Hcb; apply (Hfr cb Hcb)).
  etrans; [|apply owners_le]; [lia|]. intros cb Hcb. split; [|by apply Hp].
  destruct (pend_submitted _ Hc cb Hcb). lia.
Qed.

(** The caller of a completed request is told that all its bytes have moved. *)
Lemma done_finish done x cb :
  xinv done x → cb ∈ done → sg_req_submit_finish cb (xe x) = (sg_total (sgt (req_of (xe x) cb)), xe x).
Proof.
  intros Hx Hcb. destruct (xi_done _ _ Hx cb Hcb) as (Hd & Hs & Ho).
  destruct (xi_intact _ _ Hx cb) as [_ _ [Hc Hpos]]; [apply elem_of_app; by left|].
  unfold sg_req_submit_finish. rewrite Hd, Hd, Hs, Ho. cbn [negb orb Z.eqb].
  destruct (Z.eqb_spec (count (req_of (xe x) cb)) 0); [lia|]. cbn. by rewrite Hc.
Qed.

(** A completed request is one of the completed ones. *)
Lemma done_flag done x cb : xinv done x → cb_done (req_of (xe x) cb) = true → cb ∈ done.
Proof.
  intros Hx Hd. destruct (reqs (xe x) !! cb) as [r|] eqn:E; [|unfold req_of in Hd; by rewrite E in Hd].
  destruct (proj1 (elem_of_app _ _ _) (xi_known _ _ Hx cb ltac:(by eexists))) as [H|H]; [done|].
  by rewrite (xi_wait _ _ Hx cb H) in Hd.
Qed.

(** The device has executed the descriptors of a completed request, in one
    piece. *)
Lemma done_log done x cb :
  xinv done x → cb ∈ done →
  ∃ before after, dlog x = before ++ req_descs (dq (xe x)) (req_of (xe x) cb) ++ after.
Proof.
  intros Hx (l1 & l2 & ->)%list_elem_of_split. destruct (done_executed _ x Hx) as [[after Hlog] _].
  exists (descs_of (xe x) l1), (descs_of (xe x) l2 ++ after).
  rewrite Hlog, descs_of_app, (descs_of_app _ [cb] l2 : descs_of _ (cb :: l2) = _), <- !app_assoc.
  do 2 f_equal. unfold descs_of. cbn. by rewrite app_nil_r.
Qed.

(** ** Lemmas: the bytes the descriptors move *)

(** Addresses of the bytes of a scatter-gather list, in order. *)
Definition sg_addrs (sg : list sg_entry) : list Z :=
  concat (map (λ e, seqZ (sg_dma_address e) (sg_dma_len e)) sg).

Definition piece_addrs (ps : list (Z * Z)) : list Z := concat (map (λ p, seqZ p.1 p.2) ps).

(** No entry runs over the end of the address space. *)
Definition no_wrap (sg : list sg_entry) : Prop := Forall (λ e, sg_dma_address e + sg_dma_len e <= 2 ^ 64) sg.

Lemma length_piece_addrs ps : Forall (λ p, 0 <= p.2) ps → Z.of_nat (length (piece_addrs ps)) = sumZ (map snd ps).
Proof.
  induction 1 as [|p ps Hp _ IH]; [done|]. unfold piece_addrs in *. cbn. rewrite length_app, length_seqZ.
  unfold sumZ in *. lia.
Qed.

Lemma pieces_addrs max addr len :
  0 < max → 0 <= addr < 2 ^ 64 → 0 <= len → addr + len <= 2 ^ 64 →
  piece_addrs (pieces max addr len) = seqZ addr len ∧
  Forall (λ p, 0 <= p.1 ∧ p.1 + p.2 <= 2 ^ 64) (pieces max addr len).
Proof.
  intros Hm Ha Hl. revert addr len Ha Hl.
  refine (pieces_ind max Hm (λ addr len, addr + len <= 2 ^ 64 → _) _ _).
  - intros addr _. rewrite pieces_nil by done. by rewrite seqZ_nil.
  - intros addr len Ha Hl IH Hw. rewrite pieces_cons by done. set (n := Z.min len max) in *.
    destruct (decide (n = len)) as [En|En].
    + rewrite En, Z.sub_diag, pieces_nil by done. unfold piece_addrs. cbn. rewrite app_nil_r.
      split; [done|]. apply Forall_cons. split; [cbn; lia|by apply Forall_nil].
    + assert (u64 (addr + n) = addr + n) as Eu by (apply Z.mod_small; lia). rewrite Eu in *.
      destruct IH as [IH1 IH2]; [lia|]. split.
      * change (piece_addrs ((addr, n) :: pieces max (addr + n) (len - n)))
          with (seqZ addr n ++ piece_addrs (pieces max (addr + n) (len - n))).
        rewrite IH1, <- seqZ_app by lia. f_equal. lia.
      * apply Forall_cons. split; [cbn; lia|done].
Qed.

Lemma sg_pieces_addrs max sg :
  0 < max → Forall sg_entry_wf sg → no_wrap sg →
  piece_addrs (sg_pieces max sg) = sg_addrs sg ∧
  Forall (λ p, 0 <= p.1 ∧ p.1 + p.2 <= 2 ^ 64) (sg_pieces max sg).
Proof.
  intros Hm. induction 1 as [|e sg [Ha Hl] _ IH]; intros Hw; [done|].
  apply Forall_cons in Hw as [Hw Hws]. destruct (IH Hws) as [IH1 IH2].
  destruct (pieces_addrs max (sg_dma_address e) (sg_dma_len e)) as [P1 P2]; [done|done|lia|done|].
  rewrite sg_pieces_cons. unfold piece_addrs in *. split.
  - rewrite map_app, concat_app, P1, IH1. done.
  - by apply Forall_app.
Qed.

Section moves.
Context {M : Type} `{!MmEngine M, !MmLaws M}.

(** The bytes at [S] on one side are now at [D] on the other, nothing else
    has changed. *)
Definition copies (is_c2h : bool) (S D : list Z) (m m' : M) : Prop :=
  length S = length D ∧
  (∀ i s d, S !! i = Some s → D !! i = Some d → mem_get (negb is_c2h) d m' = mem_get is_c2h s m) ∧
  (∀ side a, side = is_c2h ∨ a ∉ D → mem_get side a m' = mem_get side a m).

Lemma copies_nil b m : copies b [] [] m m.
Proof. by split_and!. Qed.

Lemma copies_app b S1 S2 D1 D2 m m1 m2 :
  NoDup (D1 ++ D2) → copies b S1 D1 m m1 → copies b S2 D2 m1 m2 → copies b (S1 ++ S2) (D1 ++ D2) m m2.
Proof.
  intros Hn (L1 & C1 & O1) (L2 & C2 & O2). apply NoDup_app in Hn as (_ & Hd & _).
  split; [rewrite !length_app; lia|]. split.
  - intros i s d Hs Hi. destruct (decide (i < length S1)%nat) as [Hlt|Hge].
    + rewrite lookup_app_l in Hs by done. rewrite lookup_app_l in Hi by lia.
      rewrite O2; [by apply (C1 i)|]. right. apply Hd. by eapply list_elem_of_lookup_2.
    + rewrite lookup_app_r in Hs by lia. rewrite lookup_app_r in Hi by lia. rewrite L1 in Hs.
      rewrite (C2 _ _ _ Hs Hi). apply O1. by left.
  - intros side a Ha. rewrite O2, O1; [done| |].
    + destruct Ha as [|Ha]; [by left|right]. intros H. by apply Ha, elem_of_app; left.
    + destruct Ha as [|Ha]; [by left|right]. intros H. by apply Ha, elem_of_app; right.
Qed.

(** One descriptor. *)
Lemma exec_copies b d m n :
  bits_get S_DESC_F_DV 1 (mm_flag_len d) = 1 → bits_get 0 28 (mm_flag_len d) = n → 0 <= n →
  0 <= mm_src_addr d → mm_src_addr d + n <= 2 ^ 64 → 0 <= mm_dst_addr d → mm_dst_addr d + n <= 2 ^ 64 →
  copies b (seqZ (mm_src_addr d) n) (seqZ (mm_dst_addr d) n) m (mm_exec b d m).
Proof.
  intros Hv <- Hn Hs0 Hs Hd0 Hd. split; [by rewrite !length_seqZ|]. split.
  - intros i s a [-> Hi]%lookup_seqZ [-> _]%lookup_seqZ. rewrite mm_exec_get, eqb_reflx by done. cbn [andb].
    rewrite (proj2 (Z.leb_le _ _)), (proj2 (Z.ltb_lt _ _)) by lia. cbn. f_equal. lia.
  - intros side a Ha. rewrite mm_exec_get by done.
    destruct (Bool.eqb_spec side (negb b)) as [->|]; [|done]. cbn [andb].
    destruct Ha as [Ha|Ha]; [by destruct b|]. rewrite elem_of_seqZ in Ha.
    destruct (Z.leb_spec (mm_dst_addr d) a), (Z.ltb_spec a (mm_dst_addr d + bits_get 0 28 (mm_flag_len d)));
      try done. lia.
Qed.

(** A mark changes neither the addresses nor the length of a descriptor. *)
Definition marks_only (f : nat → ring_desc → ring_desc) : Prop :=
  ∀ k b ep p, 0 <= p.2 < 2 ^ 28 → ∃ d, f k (MM (mm_piece b ep p)) = MM d ∧
    mm_src_addr d = mm_src_addr (mm_piece b ep p) ∧ mm_dst_addr d = mm_dst_addr (mm_piece b ep p) ∧
    bits_get S_DESC_F_DV 1 (mm_flag_len d) = 1 ∧ bits_get 0 28 (mm_flag_len d) = p.2.

Lemma marked_marks n : marks_only (λ k, marked k n).
Proof.
  intros k b ep p Hp. pose proof (flag_len_word p.2 (Nat.eqb k 0) (Nat.eqb (S k) n) Hp) as Hw.
  destruct Hw as (H1 & H2 & _). unfold marked, mm_piece.
  destruct (Nat.eqb k 0), (Nat.eqb (S k) n), b; cbn in *; rewrite ?Z.lor_0_l in *;
    eexists; (split; [reflexivity|]); by split_and!.
Qed.

Definition one_way (b : bool) (host card : list Z) (P : list Z → list Z → Prop) : Prop :=
  if b then P card host else P host card.

Lemma run_pieces b f ep ps m :
  marks_only f → Forall (λ p, 0 < p.2 < 2 ^ 28 ∧ 0 <= p.1 ∧ p.1 + p.2 <= 2 ^ 64) ps →
  0 <= ep → ep + sumZ (map snd ps) <= 2 ^ 64 → (b = true → NoDup (piece_addrs ps)) →
  one_way b (piece_addrs ps) (seqZ ep (sumZ (map snd ps)))
    (λ S D, copies b S D m (mem_run b (imap f (mm_descs b ep ps)) m)).
Proof.
  intros Hf HF. revert f ep m Hf. induction HF as [|p ps (Hp & Ha0 & Ha) HF IH]; intros f ep m Hf He Hw Hn.
  { cbn. change (sumZ []) with 0. rewrite seqZ_nil by done. destruct b; apply copies_nil. }
  cbn [mm_descs imap]. cbn [map] in Hw |- *. change (sumZ (p.2 :: map snd ps)) with (p.2 + sumZ (map snd ps)) in *.
  assert (0 <= sumZ (map snd ps)) as Hs0.
  { apply sumZ_nonneg, Forall_map. eapply Forall_impl; [exact HF|]. intros q (Hq & _). cbn in *. lia. }
  destruct (Hf 0%nat b ep p ltac:(lia)) as (d & Ed & Es & Edd & Hv & Hl).
  assert (mm_descs b (u64 (ep + p.2)) ps = mm_descs b (ep + p.2) ps) as ->.
  { destruct ps as [|q ps]; [done|]. f_equal. apply Z.mod_small. apply Forall_cons in HF as [(Hq & _) HF]. cbn in Hw.
    assert (0 <= sumZ (map snd ps)); [|unfold sumZ in *; lia].
    apply sumZ_nonneg, Forall_map. eapply Forall_impl; [exact HF|]. intros r (Hr & _). cbn in *. lia. }
  specialize (IH (f ∘ S) (ep + p.2) (mm_exec b d m) (λ k, Hf (S k)) ltac:(lia) ltac:(lia)).
  change (piece_addrs (p :: ps)) with (seqZ p.1 p.2 ++ piece_addrs ps) in *.
  rewrite seqZ_app by lia. unfold mem_run in *. cbn [fold_left]. rewrite Ed.
  assert (copies b (seqZ (mm_src_addr d) p.2) (seqZ (mm_dst_addr d) p.2) m (mm_exec b d m)) as Hone.
  { apply exec_copies; [done|done|lia|..]; rewrite ?Es, ?Edd; destruct b; cbn; lia. }
  rewrite Es, Edd in Hone. destruct b; cbn [one_way mm_piece mm_src_addr mm_dst_addr] in *.
  - eapply copies_app; [by apply Hn|exact Hone|]. apply IH. intros _. specialize (Hn eq_refl).
    by apply NoDup_app in Hn as (_ & _ & Hn).
  - eapply copies_app; [|exact Hone|by apply IH]. rewrite <- seqZ_app by lia. apply NoDup_seqZ.
Qed.

(** The descriptors of a request move its bytes. *)
Lemma request_copies q r m :
  let b := c2h (conf q) in
  st (conf q) = false → intact r → no_wrap (sgt r) → ep_addr r + count r <= 2 ^ 64 → (b = true → NoDup (sg_addrs (sgt r))) →
  one_way b (sg_addrs (sgt r)) (seqZ (ep_addr r) (count r))
    (λ S D, copies b S D m (mem_run b (req_descs q r) m)).
Proof.
  intros b Hst [Hwf Hep [Hc Hpos]] Hnw Hw Hn.
  destruct (sg_pieces_addrs XDMA_DESC_BLEN_MAX (sgt r) ltac:(done) Hwf Hnw) as [Ea Hr].
  destruct (sg_pieces_sum XDMA_DESC_BLEN_MAX ltac:(done) (sgt r) Hwf) as [Es Hp].
  rewrite <- Ea, Hc, <- Es in *. unfold req_descs, req_pieces, piece_max. rewrite Hst.
  apply (run_pieces b (λ k, marked k _)); [apply marked_marks| |lia|lia|done].
  apply Forall_forall. intros p Hin. rewrite Forall_forall in Hr, Hp.
  specialize (Hr p Hin). specialize (Hp p Hin). change XDMA_DESC_BLEN_MAX with (2 ^ 28 - 1) in Hp. lia.
Qed.
End moves.

(** The descriptors of a streaming request send its pieces. *)
Lemma request_packets `{!StEngine, !StLaws} q r host :
  st (conf q) = true → intact r → no_wrap (sgt r) →
  packets host (req_descs q r) = map (λ p, map host (seqZ p.1 p.2)) (req_pieces q r) ∧
  concat (packets host (req_descs q r)) = map host (sg_addrs (sgt r)) ∧
  Forall (λ p, 0 < Z.of_nat (length p) <= PAGE_SIZE) (packets host (req_descs q r)).
Proof.
  intros Hst [Hwf _ _] Hnw.
  destruct (sg_pieces_addrs PAGE_SIZE (sgt r) ltac:(done) Hwf Hnw) as [Ea Hr].
  destruct (sg_pieces_sum PAGE_SIZE ltac:(done) (sgt r) Hwf) as [_ Hp].
  unfold req_descs, req_pieces, piece_max. rewrite Hst, <- Ea. clear Ea Hwf Hnw.
  assert (packets host (map h2c_piece (sg_pieces PAGE_SIZE (sgt r))) =
          map (λ p, map host (seqZ p.1 p.2)) (sg_pieces PAGE_SIZE (sgt r))) as Ep.
  { clear - Hp Hr H0. induction Hp as [|p ps Hp Hps IH]; [done|]. apply Forall_cons in Hr as [Hr Hrs]. unfold packets in *. cbn.
    rewrite IH by done. f_equal. apply st_packet_bytes; cbn; [|lia|lia|lia].
    apply h2c_piece_flags. unfold PAGE_SIZE in Hp. lia. }
  rewrite Ep. split; [done|]. split.
  - unfold piece_addrs. rewrite concat_map, map_map. done.
  - apply Forall_map. eapply Forall_impl; [exact Hp|]. intros p Hlen. cbn in *. rewrite length_map, length_seqZ. lia.
Qed.

(** ** Properties *)

(** C1: requests on a started memory-mapped or streaming H2C queue, in
    whatever order callers, thread, device and writeback handler take their
    turns.  Callers submit requests whose entries are sane and add up to their
    byte count and which, with those that wait, fit in the ring; requests for
    the other direction or without mapped pages are refused; a caller may give
    up waiting as long as its request has not been written into the ring.  Then
    the requests stay in the order they were submitted in; the device executes
    exactly their descriptors, in that order, none twice and none left out;
    and a request is completed only when the device has executed all of its
    descriptors, in order, and its caller then gets its byte count. *)
Theorem transfer_in_order x0 x :
  idle x0 → rtc xstep x0 x →
  ∃ done, NoDup (line done x) ∧
    (∀ cb, is_Some (reqs (xe x) !! cb) → cb ∈ line done x) ∧
    dlog x `prefix_of` descs_of (xe x) (line done x) ∧
    descs_of (xe x) done `prefix_of` dlog x ∧
    (∀ cb, cb_done (req_of (xe x) cb) = true ↔ cb ∈ done) ∧
    (∀ cb, cb ∈ done → sg_req_submit_finish cb (xe x) = (sg_total (sgt (req_of (xe x) cb)), xe x)) ∧
    ∀ y, xstep x y → ∃ done', done `prefix_of` done' ∧ extends (line done x) (line done' y) ∧
      ∀ cb, cb_done (req_of (xe y) cb) = true ↔ cb ∈ done'.
Proof.
  intros H0 Hr. destruct (reach_inv x0 x H0 Hr) as [done Hx]. exists done.
  assert (∀ done x, xinv done x → ∀ cb, cb_done (req_of (xe x) cb) = true ↔ cb ∈ done) as Hflag.
  { intros dn z Hz cb. split; [by apply done_flag|]. intros Hcb. by apply (xi_done _ _ Hz). }
  destruct (done_executed done x Hx) as [H1 H2]. split_and!.
  - apply (xi_nodup _ _ Hx).
  - apply (xi_known _ _ Hx).
  - etrans; [exact H2|]. unfold line. rewrite (app_assoc done), (descs_of_app _ (_ ++ _)). by apply prefix_app_r.
  - exact H1.
  - by apply Hflag.
  - intros cb. by apply done_finish.
  - intros y Hs. destruct (step_inv done x y Hx Hs) as (done' & Hy & Hd & Hl).
    exists done'. split_and!; [done|done|by apply Hflag].
Qed.

(** C4: nothing gets stuck: from every state the queue of C1 can reach (its
    requests sane and fitting in the ring together with those that wait, no
    caller giving up a request whose descriptors are in the ring), one pass of
    the thread, the device's work on what is in the ring and one run of the
    writeback handler complete every request submitted so far and not given up,
    and nothing is left waiting. *)
Theorem transfer_completes x0 x :
  idle x0 → rtc xstep x0 x →
  let y := Xfer (qdma_thread_wrk_proc (xe x)) (dlog x) in
  let z := engine_run (Z.to_nat (undone (dq (xe y)))) y in
  let w := Xfer (descq_mm_n_h2c_wb (xe z)).2 (dlog z) in
  rtc xstep x w ∧ work_list (dq (xe w)) = [] ∧ pend_list (dq (xe w)) = [] ∧
  ∀ cb, is_Some (reqs (xe x) !! cb) → cb_done (req_of (xe w) cb) = true ∧ status (req_of (xe w) cb) = 0.
Proof.
  intros H0 Hr. cbv zeta. destruct (reach_inv x0 x H0 Hr) as [done Hx].
  destruct (pass_inv done x Hx) as (Hy & Hly & Hwy). set (y := Xfer _ _) in *.
  pose proof (xi_ring _ _ Hy) as Hry. destruct (xi_hw _ _ Hy) as [Hhw Hle].
  assert (0 <= undone (dq (xe y))) as Hu0 by (apply Z.mod_pos_bound; destruct Hry; lia).
  destruct (engine_run_all done (Z.to_nat (undone (dq (xe y)))) y Hy) as (Hz & Hlz & Huz & Hwz & _); [lia|].
  set (z := engine_run _ y) in *.
  destruct (writeback_inv done z Hz) as (k & Hw & Hlw & Hww & Hfw). set (w := Xfer (descq_mm_n_h2c_wb (xe z)).2 (dlog z)) in *.
  rewrite Hwz, Hwy in Hww. rewrite Huz in Hfw.
  assert (pend_list (dq (xe w)) = []) as Hp.
  { destruct (pend_list (dq (xe w))) as [|cb l] eqn:E; [done|]. exfalso.
    pose proof (pend_in_fifo (xe w) cb (xi_credit _ _ Hw) ltac:(rewrite E; by left)) as Hin.
    pose proof (fifo_length (xe w) (xi_ring _ _ Hw) (xi_credit _ _ Hw)) as Hl. rewrite Hfw in Hl.
    destruct (fifo (xe w)); [by apply elem_of_nil in Hin|cbn in Hl; lia]. }
  split_and!; [|done|done|].
  - apply (rtc_l _ x y); [by apply x_pass|]. etrans; [apply engine_run_steps|].
    apply rtc_once. by apply x_writeback.
  - intros cb Hcb. assert (cb ∈ line done x) as Hin by apply (xi_known _ _ Hx cb Hcb).
    rewrite <- Hly, <- Hlz, <- Hlw in Hin. unfold line in Hin. rewrite Hp, Hww, app_nil_r in Hin.
    split; by apply (xi_done _ _ Hw).
Qed.

(** C2: where the bytes go, on a memory-mapped queue under the conditions of C1
    (the requests are sane and fit in the ring together with those that wait;
    no caller gives up a request whose descriptors are in the ring): once a
    request is completed, its caller gets its byte count, and what the device
    has executed contains the request's descriptors in one piece, whose
    execution copied exactly the request's bytes: byte [i] of the
    scatter-gather list to byte [i] behind the card's address or, for a C2H
    queue, back; no other byte of the host or the card changed then.  This
    holds in every order of the steps, for requests whose addresses do not
    wrap and, when the host is written, whose entries do not overlap. *)
Theorem transfer_moves_bytes {M} `{!MmEngine M, !MmLaws M} x0 x cb (m0 : M) :
  idle x0 → rtc xstep x0 x → cb_done (req_of (xe x) cb) = true → st (conf (dq (xe x))) = false →
  let r := req_of (xe x) cb in
  let b := c2h (conf (dq (xe x))) in
  let ds := req_descs (dq (xe x)) r in
  no_wrap (sgt r) → ep_addr r + count r <= 2 ^ 64 → (b = true → NoDup (sg_addrs (sgt r))) →
  sg_req_submit_finish cb (xe x) = (count r, xe x) ∧
  ∃ before after, dlog x = before ++ ds ++ after ∧
    one_way b (sg_addrs (sgt r)) (seqZ (ep_addr r) (count r))
      (λ S D, copies b S D (mem_run b before m0) (mem_run b (before ++ ds) m0)).
Proof.
  intros H0 Hr Hd Hst r b ds Hnw Hep Hnd. destruct (reach_inv x0 x H0 Hr) as [done Hx].
  pose proof (done_flag done x cb Hx Hd) as Hin.
  assert (intact r) as Hint by (apply (xi_intact _ _ Hx), elem_of_app; by left).
  split; [rewrite (done_finish done x cb Hx Hin); by rewrite (proj1 (in_count _ Hint))|].
  destruct (done_log done x cb Hx Hin) as (before & after & Hlog).
  exists before, after. split; [exact Hlog|].
  unfold mem_run at 2. rewrite fold_left_app. fold (mem_run b before m0).
  fold (mem_run b ds (mem_run b before m0)). by apply request_copies.
Qed.

(** C3: where the bytes go, on a streaming H2C queue under the conditions of C1
    (the requests are sane and fit in the ring together with those that wait;
    no caller gives up a request whose descriptors are in the ring): once a
    request whose addresses do not wrap is completed, its caller gets its byte
    count, and the card has received exactly the request's bytes, in order and
    in one piece of its stream, in packets of at most a page. *)
Theorem transfer_streams_bytes `{!StEngine, !StLaws} x0 x cb (host : Z → Z) :
  idle x0 → rtc xstep x0 x → cb_done (req_of (xe x) cb) = true → st (conf (dq (xe x))) = true →
  let r := req_of (xe x) cb in
  no_wrap (sgt r) →
  sg_req_submit_finish cb (xe x) = (count r, xe x) ∧
  ∃ before ps after, packets host (dlog x) = before ++ ps ++ after ∧
    concat ps = map host (sg_addrs (sgt r)) ∧ Z.of_nat (length (concat ps)) = count r ∧
    Forall (λ p, 0 < Z.of_nat (length p) <= PAGE_SIZE) ps.
Proof.
  intros Hidle Hr Hd Hst r Hnw. destruct (reach_inv x0 x Hidle Hr) as [done Hx].
  pose proof (done_flag done x cb Hx Hd) as Hin.
  assert (intact r) as Hint by (apply (xi_intact _ _ Hx), elem_of_app; by left).
  split; [rewrite (done_finish done x cb Hx Hin); by rewrite (proj1 (in_count _ Hint))|].
  destruct (request_packets (dq (xe x)) r host Hst Hint Hnw) as (_ & Hc & Hp).
  destruct (done_log done x cb Hx Hin) as (before & after & Hlog).
  exists (packets host before), (packets host (req_descs (dq (xe x)) r)), (packets host after).
  split; [|split; [exact Hc|split; [|exact Hp]]].
  - rewrite Hlog. unfold packets. by rewrite !map_app, !concat_app.
  - destruct (sg_pieces_addrs PAGE_SIZE (sgt r) ltac:(done) (in_wf _ Hint) Hnw) as [Ea _].
    destruct (sg_pieces_sum PAGE_SIZE ltac:(done) (sgt r) (in_wf _ Hint)) as [Es Hp'].
    rewrite Hc, length_map, <- Ea, length_piece_addrs, Es; [by rewrite (proj1 (in_count _ Hint))|].
    eapply Forall_impl; [exact Hp'|]. intros p Hlen. cbn in *. lia.
Qed.

(** ** A concrete queue and memory *)

(** Memories as functions, with the documented effect. *)
Module SimMem.
Definition t : Type := bool → Z → Z.
#[global] Instance engine : MmEngine t := {
  mem_get side a m := m side a;
  mm_exec is_c2h d m := λ side a,
    if Bool.eqb side (negb is_c2h) && (mm_dst_addr d <=? a)
       && (a <? mm_dst_addr d + bits_get 0 28 (mm_flag_len d))
    then m is_c2h (mm_src_addr d + (a - mm_dst_addr d)) else m side a
}.
#[global] Instance laws : MmLaws t.
Proof. by split. Qed.

(** The host's byte at [a] is [a mod 256], the card is empty. *)
Definition init : t := λ side a, if side then 0 else a mod 256.
End SimMem.

(** The card's stream, with the documented effect. *)
Module SimStream.
#[global] Instance stream : StEngine := {
  st_packet host d := map host (seqZ (h2c_src_addr d) (bits_get 0 28 (h2c_flag_len d))) }.
#[global] Instance stream_laws : StLaws.
Proof. split. intros host d n [<- _] _ _ _. done. Qed.
End SimStream.

Module SampleTransfer.
(** A started H2C queue, memory-mapped or streaming, with a ring of four. *)
Definition idle_queue (is_st : bool) : xfer :=
  Xfer (QEnv ((Sample.queue is_st false) <| enabled := true |> <| wrkthp := Some 0%nat |>
          <| ring ::= λ r, r <| desc := Some (replicate 4 (SampleQ.zero_desc is_st)) |> |>)
        ∅ Sample.dev []) [].
Definition x0 : xfer := idle_queue false.
(** A request of 150 bytes in two entries is submitted, written, executed and
    reported. *)
Definition x1 : xfer := Xfer (qdma_sg_req_submit 1 [] (with_req 1 (SampleQ.req 0) (xe x0))).2 (dlog x0).
Definition x2 : xfer := Xfer (qdma_thread_wrk_proc (xe x1)) (dlog x1).
Definition x3 : xfer := engine_run (Z.to_nat (undone (dq (xe x2)))) x2.
Definition x4 : xfer := Xfer (descq_mm_n_h2c_wb (xe x3)).2 (dlog x3).

Lemma x0_idle : idle x0.
Proof. split; [reflexivity|by split|done|reflexivity|done|reflexivity|reflexivity]. Qed.

Lemma req_submittable : submittable (xe x0) 1 (SampleQ.req 0) [].
Proof.
  split; [split_and!; [reflexivity|reflexivity|by eexists]|reflexivity|reflexivity|by left| |by vm_compute].
  split; [done|repeat constructor; cbn; lia|by vm_compute|cbn; lia|split; [reflexivity|cbn; lia]|by vm_compute].
Qed.

Lemma x1_reach : rtc xstep x0 x1.
Proof. apply rtc_once. apply (x_submit x0 1 (SampleQ.req 0) []), req_submittable. Qed.

Lemma x4_reach : rtc xstep x0 x4.
Proof.
  etrans; [exact x1_reach|]. apply (rtc_l _ x1 x2); [apply (x_pass x1)|].
  etrans; [exact (engine_run_steps (Z.to_nat (undone (dq (xe x2)))) x2)|]. apply rtc_once. exact (x_writeback x3).
Qed.

Lemma x4_req : req_of (xe x4) 1 = (SampleQ.req 0) <| desc_nr := 2 |> <| offset := 150 |> <| cb_done := true |>.
Proof. by vm_compute. Qed.

(** The same request on the streaming queue. *)
Definition s0 : xfer := idle_queue true.
Definition s1 : xfer := Xfer (qdma_sg_req_submit 1 [] (with_req 1 (SampleQ.req 0) (xe s0))).2 (dlog s0).
Definition s2 : xfer := Xfer (qdma_thread_wrk_proc (xe s1)) (dlog s1).
Definition s3 : xfer := engine_run (Z.to_nat (undone (dq (xe s2)))) s2.
Definition s4 : xfer := Xfer (descq_mm_n_h2c_wb (xe s3)).2 (dlog s3).

Lemma s0_idle : idle s0.
Proof. split; [reflexivity|by split|done|reflexivity|done|reflexivity|reflexivity]. Qed.

Lemma s4_reach : rtc xstep s0 s4.
Proof.
  apply (rtc_l _ s0 s1).
  { apply (x_submit s0 1 (SampleQ.req 0) []).
    split; [split_and!; [reflexivity|reflexivity|by eexists]|reflexivity|reflexivity|by left| |by vm_compute].
    split; [done|repeat constructor; cbn; lia|by vm_compute|cbn; lia|split; [reflexivity|cbn; lia]|by vm_compute]. }
  apply (rtc_l _ s1 s2); [apply (x_pass s1)|].
  etrans; [exact (engine_run_steps (Z.to_nat (undone (dq (xe s2)))) s2)|]. apply rtc_once. exact (x_writeback s3).
Qed.

Lemma s4_req : req_of (xe s4) 1 = (SampleQ.req 0) <| desc_nr := 2 |> <| offset := 150 |> <| cb_done := true |>.
Proof. by vm_compute. Qed.

(** A caller that gives up when its request is in the ring: request 1 is
    written, its caller gives up, request 2 of one entry is written behind it,
    and the device executes one descriptor, the first of request 1. *)
Definition small : qdma_sg_req := SgReq true true 0x800 [SgEntry 0x7000 100] 100 0 false 0 0 false 0.
Definition g3 : xfer := Xfer (forget 1 (sg_req_submit_finish 1 (xe x2)).2) (dlog x2).
Definition g4 : xfer := Xfer (qdma_sg_req_submit 2 [] (with_req 2 small (xe g3))).2 (dlog g3).
Definition g5 : xfer := Xfer (qdma_thread_wrk_proc (xe g4)) (dlog g4).
Definition g6 : xfer := engine_run 1 g5.
Definition g7 : xfer := Xfer (descq_mm_n_h2c_wb (xe g6)).2 (dlog g6).

Lemma small_submittable : submittable (xe g3) 2 small [].
Proof.
  split; [split_and!; [by vm_compute|by vm_compute|vm_compute; by eexists]|by vm_compute|by vm_compute|by left| |by vm_compute].
  split; [done|repeat constructor; cbn; lia|by vm_compute|cbn; lia|split; [reflexivity|cbn; lia]|by vm_compute].
Qed.

Lemma g7_reach : rtc xstep_any x0 g7.
Proof.
  assert (∀ x y, rtc xstep x y → rtc xstep_any x y) as Hsub.
  { intros x y. induction 1 as [|x y z H _ IH]; [done|]. eapply rtc_l; [by apply xa_step|done]. }
  etrans; [apply Hsub; exact x1_reach|]. apply (rtc_l _ x1 x2); [apply xa_step, (x_pass x1)|].
  apply (rtc_l _ x2 g3); [apply (xa_giveup x2 1); [by vm_compute|vm_compute; by left]|].
  apply Hsub. apply (rtc_l _ g3 g4); [apply (x_submit g3 2 small []), small_submittable|].
  apply (rtc_l _ g4 g5); [apply (x_pass g4)|]. transitivity g6; [exact (engine_run_steps 1 g5)|].
  apply rtc_once. exact (x_writeback g6).
Qed.
End SampleTransfer.

Lemma transfer_in_order_witness : ∃ done,
  descs_of (xe SampleTransfer.x4) done `prefix_of` dlog SampleTransfer.x4 ∧ (1%nat ∈ done).
Proof.
  destruct (transfer_in_order SampleTransfer.x0 SampleTransfer.x4 SampleTransfer.x0_idle SampleTransfer.x4_reach)
    as (done & _ & _ & _ & H1 & H2 & _).
  exists done. split; [exact H1|]. apply H2. rewrite SampleTransfer.x4_req. reflexivity.
Defined.

Lemma transfer_completes_witness :
  cb_done (req_of (xe SampleTransfer.x4) 1) = true ∧ rtc xstep SampleTransfer.x1 SampleTransfer.x4.
Proof.
  destruct (transfer_completes SampleTransfer.x0 SampleTransfer.x1 SampleTransfer.x0_idle SampleTransfer.x1_reach)
    as (H & _ & _ & Hd).
  split; [|exact H]. apply (Hd 1%nat). exists (SampleQ.req 0). vm_compute. reflexivity.
Defined.

Lemma transfer_moves_bytes_witness :
  sg_req_submit_finish 1 (xe SampleTransfer.x4) = (150, xe SampleTransfer.x4) ∧
  mem_get true 0x564 (mem_run false (dlog SampleTransfer.x4) SimMem.init) = 0x2000 mod 256.
Proof.
  pose proof (transfer_moves_bytes SampleTransfer.x0 SampleTransfer.x4 1 SimMem.init
    SampleTransfer.x0_idle SampleTransfer.x4_reach) as H. rewrite SampleTransfer.x4_req in H.
  destruct H as [H _]; [reflexivity|reflexivity|repeat constructor; cbn; lia|cbn; lia|intros E; vm_compute in E; discriminate|].
  split; [exact H|vm_compute; reflexivity].
Defined.

Lemma transfer_streams_bytes_witness :
  sg_req_submit_finish 1 (xe SampleTransfer.s4) = (150, xe SampleTransfer.s4) ∧
  ∃ before ps after,
    packets (λ a, a mod 256) (dlog SampleTransfer.s4) = before ++ ps ++ after ∧ Z.of_nat (length (concat ps)) = 150.
Proof.
  pose proof (transfer_streams_bytes SampleTransfer.s0 SampleTransfer.s4 1 (λ a, a mod 256)
    SampleTransfer.s0_idle SampleTransfer.s4_reach) as H. rewrite SampleTransfer.s4_req in H.
  destruct H as (H & before & ps & after & H1 & _ & H2 & _); [reflexivity|reflexivity|repeat constructor; cbn; lia|].
  split; [exact H|]. exists before, ps, after. split; [exact H1|exact H2].
Defined.

(** A caller may also give up, on a time-out or a signal, when descriptors of
    its request are in the ring ([qdma_sg_req_submit]): its request is
    taken off the list, but its descriptors are not, and the credits they bring
    go to the requests behind it.  There is a run of a memory-mapped queue after
    which a request has been completed with success, and its caller is given
    the full byte count, while the device has executed none of its
    descriptors. *)
Theorem giveup_in_flight_breaks : ∃ x0 x,
  idle x0 ∧ rtc xstep_any x0 x ∧ cb_done (req_of (xe x) 2) = true ∧
  sg_req_submit_finish 2 (xe x) = (100, xe x) ∧ count (req_of (xe x) 2) = 100 ∧
  req_descs (dq (xe x)) (req_of (xe x) 2) ≠ [] ∧
  ∀ d, d ∈ req_descs (dq (xe x)) (req_of (xe x) 2) → d ∉ dlog x.
Proof.
  exists SampleTransfer.x0, SampleTransfer.g7. split; [exact SampleTransfer.x0_idle|].
  split; [exact SampleTransfer.g7_reach|]. split; [by vm_compute|]. split; [by vm_compute|].
  split; [by vm_compute|]. split; [by vm_compute|].
  intros d Hd Hl. vm_compute in Hd, Hl. apply list_elem_of_In in Hd, Hl.
  destruct Hd as [<-|[]]. destruct Hl as [H|[]]. discriminate H.
Qed.
