(* ===== verification/Restart.v ===== *)
(** * A queue through its life: added, started, stopped, started again

    The queue API ([Queue]) and the transfers of a started queue ([Transfer])
    put together: what the ring of a queue is when [qdma_queue_start] returns,
    after [qdma_queue_add] and after [qdma_queue_stop]. *)

From S2P Require Import Prelude Regs Types Context Sgl Descq RxQueue Thread Resource Intr Queue Transfer.

(** ** The ring around a start *)

(** A memory-mapped or streaming H2C queue with nothing in its ring and no
    request, its indices anywhere. *)
Record quiet (q : qdma_descq) : Prop := {
  qt_mode : st (conf q) && c2h (conf q) = false;
  qt_size : 2 <= rngsz (conf q) < 2 ^ 16;
  qt_index : pidx (ring q) = cidx (ring q) ∧ 0 <= cidx (ring q) < rngsz (conf q);
  qt_avail : avail (ring q) = rngsz (conf q) - 1;
  qt_credit : credit (ring q) = 0;
  qt_lists : work_list q = [] ∧ pend_list q = []
}.

(** The driver's half of the ring, which neither start nor stop touches. *)
Definition same_indices (q q' : qdma_descq) : Prop :=
  conf q' = conf q ∧ pidx (ring q') = pidx (ring q) ∧ cidx (ring q') = cidx (ring q) ∧
  avail (ring q') = avail (ring q) ∧ credit (ring q') = credit (ring q) ∧
  work_list q' = work_list q ∧ pend_list q' = pend_list q.

(** What a start that returns 0 leaves of the queue. *)
Record started (q q' : qdma_descq) : Prop := {
  sd_same : same_indices q q';
  sd_wb : desc_wb_cidx (ring q') = 0;
  sd_desc : length <$> desc (ring q') = Some (Z.to_nat (rngsz (conf q')));
  sd_up : enabled q' = true ∧ online q' = true ∧ is_Some (wrkthp q')
}.

(** The queue and its device as [Transfer] sees them. *)
Definition fresh_xfer {D} (s : sys D) (q : qdma_descq) : xfer := Xfer (QEnv q ∅ (s_xd s) []) [].

Lemma quiet_same q q' : same_indices q q' → quiet q → quiet q'.
Proof.
  intros (E1 & E2 & E3 & E4 & E5 & E6 & E7) []. split; rewrite ?E1, ?E2, ?E3, ?E4, ?E5, ?E6, ?E7; done.
Qed.

Lemma same_config_indices q q' : same_config q q' → same_indices q q'.
Proof. unfold same_config, same_indices. intuition. Qed.

Lemma same_indices_trans q1 q2 q3 : same_indices q1 q2 → same_indices q2 q3 → same_indices q1 q3.
Proof. unfold same_indices. intuition congruence. Qed.

(** A configured queue without requests is quiet, its indices at 0. *)
Lemma configured_quiet x c q :
  st c && c2h c = false → work_list q = [] → pend_list q = [] →
  let q' := qdma_descq_config x c false (q <| enabled := true |>) in quiet q' ∧ cidx (ring q') = 0.
Proof. intros Hm Hw Hp. split; [|done]. split; cbn; rewrite ?Hm; try done; unfold RNG_SZ_DFLT; lia. Qed.

Lemma quiet_in_flight q : quiet q → in_flight q = 0.
Proof. intros [_ Hs [E _] _ _ _]. unfold in_flight. rewrite E, Z.sub_diag. apply Z.mod_0_l. lia. Qed.

Lemma quiet_ring q :
  quiet q → length <$> desc (ring q) = Some (Z.to_nat (rngsz (conf q))) → ring_wf q.
Proof.
  intros Hq Hd. pose proof (quiet_in_flight q Hq) as Hf. destruct Hq as [_ Hs [Hp Hc] Ha _ _].
  split; rewrite ?Hp, ?Hf; lia || done.
Qed.

Lemma quiet_credit {D} (s : sys D) q : quiet q → credit_inv (xe (fresh_xfer s q)).
Proof. intros Hq. apply empty_credit; cbn; try apply Hq; [done|by apply quiet_in_flight]. Qed.

(** A started queue that is quiet is idle exactly when its indices are 0. *)
Lemma started_idle {D} (s : sys D) q q' :
  started q q' → quiet q → idle (fresh_xfer s q') ↔ cidx (ring q) = 0.
Proof.
  intros [Hsame Hwb Hd _] Hq. pose proof (quiet_same _ _ Hsame Hq) as Hq'.
  pose proof Hsame as (_ & _ & Ec & _). split.
  - intros Hi. destruct (id_index _ Hi) as [_ H]. cbn in H. congruence.
  - intros E. pose proof (quiet_ring _ Hq' Hd) as Hr. destruct Hq' as [Hm _ [Hp _] _ Hcr Hl].
    split; cbn; try done. split; [done|]. congruence.
Qed.

(** ** What the API does to the ring *)

Section api.
Context {D : Type} `{!RegIo D}.
Implicit Types s : sys D.

(** A start that returns 0 makes a new ring, of which the device has executed
    nothing, and keeps the driver's indices. *)
Lemma queue_start_started s s' id d q :
  qdma_device_get_descq_by_id (s_qd s) id true = Some d → get_descq (s_qd s) d = Some q →
  0 <= rngsz (conf q) → qdma_queue_start id s = Some (0, s') →
  ∃ q', get_descq (s_qd s') d = Some q' ∧ started q q'.
Proof.
  intros Hid Hq Hsz. pose proof (by_id_enabled _ _ _ _ Hid Hq) as Hen.
  unfold qdma_queue_start. rewrite Hid, (queue_of_eq s d q Hq).
  destruct (negb (enabled q) || inited q || online q); [done|]. unfold on_res.
  set (r0 := Res q _ _ _). pose proof (alloc_resource_frame r0) as [Fc _].
  pose proof (alloc_resource_spec r0 Hsz) as Hspec. pose proof (alloc_resource_wb r0) as Hwb.
  destruct (qdma_descq_alloc_resource r0) as [rv r]. cbn [fst snd] in *. change (r_q r0) with q in *.
  set (s1 := s <| s_is ::= _ |> <| s_qd ::= _ |> <| s_mem := _ |>).
  destruct Hspec as [[-> [Hd _]]|[-> _]].
  - cbn [Z.ltb Z.compare]. intros Hs.
    assert (get_descq (s_qd s1) d = Some (r_q r)) as Hq1 by (apply get_set_same; by eexists).
    pose proof (start_program_any s1 d (r_q r) Hq1) as Hc. rewrite Hs in Hc.
    destruct Hc as [(_ & i & w & E)|[Hlt _]]; [|lia]. exists (up i w (r_q r)). rewrite E.
    split; [apply get_set_same; by eexists|].
    pose proof Fc as (_ & _ & _ & _ & Ee & _).
    split; [exact (same_config_indices _ _ Fc)|exact (Hwb eq_refl)|exact Hd|].
    split_and!; [by cbn; rewrite Ee|done|by eexists].
  - change (- ENOMEM <? 0) with true.
    assert (get_descq (s_qd s1) d = Some (r_q r)) as Hq1 by (apply get_set_same; by eexists).
    by destruct (start_err_out_any d (- ENOMEM) s1 (r_q r) Hq1) as [h ->].
Qed.

Lemma by_id_same qd d q q' id :
  get_descq qd d = Some q → enabled q' = enabled q →
  qdma_device_get_descq_by_id (set_descq d q' qd) id true = qdma_device_get_descq_by_id qd id true.
Proof.
  intros Hq He. unfold qdma_device_get_descq_by_id. rewrite set_descq_qmax.
  destruct (if qmax qd <=? id then _ else _) as [d'|]; [|done]. cbn [mbind option_bind].
  destruct (decide (d' = d)) as [->|Hne].
  - rewrite get_set_same, Hq by (by eexists). cbn. by rewrite He.
  - by rewrite get_set_other.
Qed.

(** A stop keeps the driver's indices, and the queue's handle. *)
Lemma queue_stop_stopped s s' id d q :
  qdma_device_get_descq_by_id (s_qd s) id true = Some d → get_descq (s_qd s) d = Some q →
  qdma_queue_stop id s = Some (0, s') →
  qdma_device_get_descq_by_id (s_qd s') id true = Some d ∧
  ∃ q', get_descq (s_qd s') d = Some q' ∧ same_indices q q'.
Proof.
  intros Hid Hq Hs. pose proof (queue_stop_any s id d q Hid Hq) as H. cbv zeta in H. rewrite Hs in H.
  destruct H as (_ & _ & _ & E & _). rewrite E. set (p := q <| wbthp := None |> <| wrkthp := None |>) in *.
  pose proof (free_resource_config p) as Fc. pose proof Fc as (_ & _ & _ & _ & Ee & _). split.
  - rewrite (by_id_same _ _ q) by (done || exact Ee). done.
  - eexists. split; [apply get_set_same; by eexists|].
    exact (same_config_indices p (qdma_descq_free_resource p) Fc).
Qed.

(** An addition that returns 0 has configured a queue that was free; the
    handle leads to it. *)
Lemma queue_add_taken s s' qconf h c :
  qdev_inv (s_qd s) → init_qrange (s_qd s) = true → 0 <= qidx qconf →
  qdma_queue_add qconf false s = (AddResult 0 (Some h) c, s') →
  ∃ i q, let d := (c2h qconf, i) in
    get_descq (s_qd s) d = Some q ∧ enabled q = false ∧
    get_descq (s_qd s') d = Some (qdma_descq_config (s_xd s) qconf false (q <| enabled := true |>)) ∧
    qdma_device_get_descq_by_id (s_qd s') h true = Some d.
Proof.
  intros Hi Hinit Hpos. unfold qdma_queue_add, qdma_device_prep_q_resource. rewrite Hinit.
  cbn [Z.ltb Z.compare]. destruct (Z.leb_spec (qmax (s_qd s)) (cnt_of (c2h qconf) (s_qd s))); [done|].
  destruct (negb _ && _) eqn:Eb; [done|]. unfold add_take.
  set (s1 := (on_qd _ s).2).
  assert ((if c2h qconf then c2h_descq (s_qd s1) else h2c_descq (s_qd s1)) = dir_list (c2h qconf) (s_qd s)) as El
    by (unfold s1, dir_list, set_cnt; cbn; by destruct (c2h qconf)).
  assert (qmax (s_qd s1) = qmax (s_qd s)) as Eq1 by (unfold s1, set_cnt; cbn; by destruct (c2h qconf)).
  assert (∀ i q r, get_descq (s_qd s) (c2h qconf, i) = Some q → enabled q = false →
    (let d := (c2h qconf, i) in
     let s := (upd_queue d (λ q, q <| enabled := true |>) s1).2 in
     let s := (upd_queue d (qdma_descq_config (s_xd s) qconf false) s).2 in
     let c := conf (queue_of s d) in
     (AddResult 0 (Some (qidx c + (if c2h qconf then qmax (s_qd s) else 0))) (Some c), s)) = r →
    r = (AddResult 0 (Some h) c, s') →
    get_descq (s_qd s') (c2h qconf, i) = Some (qdma_descq_config (s_xd s) qconf false (q <| enabled := true |>)) ∧
    qdma_device_get_descq_by_id (s_qd s') h true = Some (c2h qconf, i)) as Htake.
  { intros i q r Hq He <-. cbv zeta. destruct (take_queue s qconf i q Hi Hq He) as (E3 & Eq & _).
    cbv zeta in E3, Eq. fold s1 in E3, Eq. rewrite upd_queue_xd. change (s_xd s1) with (s_xd s).
    rewrite Eq, E3. intros [= <- _ <-]. destruct (take_queue_handle s qconf i q Hi Hq He) as (Hg & _ & Hid). done. }
  rewrite El, Eq1. destruct (Z.eqb_spec (qidx qconf) QDMA_QUEUE_IDX_INVALID) as [_|Hne].
  - rewrite firstn_all2 by (rewrite (qi_len _ Hi); lia).
    pose proof (first_free_spec (dir_list (c2h qconf) (s_qd s)) 0) as Hff.
    destruct (first_free _ 0) as [i|]; [|done]. destruct Hff as (j & q & -> & Hq & He & _). cbn [Nat.add].
    intros H1. exists j, q. split; [by rewrite get_descq_dir|]. split; [done|]. eapply Htake; [|done|reflexivity|exact H1].
    by rewrite get_descq_dir.
  - destruct (enabled (queue_of s1 _)) eqn:Een; [done|]. cbn [negb andb] in Eb. apply Z.leb_gt in Eb.
    set (i := Z.to_nat (qidx qconf)) in *.
    destruct (get_descq_lt (s_qd s) (c2h qconf) i Hi) as [q Hq]; [unfold i; lia|].
    assert (queue_of s1 (c2h qconf, i) = q) as Eq by (apply queue_of_eq; unfold s1, on_qd; cbn [snd s_qd set eta sys_eta]; by rewrite get_descq_cnt).
    rewrite Eq in Een. intros H1. exists i, q. split; [done|]. split; [done|].
    eapply Htake; [done|done|reflexivity|exact H1].
Qed.

End api.

(** ** A writeback before the device has done anything *)

(** The index of the last run is ahead of the 0 of the new ring: the rest of
    the ring is taken to be executed. *)
Lemma stale_writeback e cb :
  ring_wf (dq e) → credit_inv e → pend_list (dq e) = [cb] →
  desc_wb_cidx (ring (dq e)) = 0 → 0 < cidx (ring (dq e)) → pidx (ring (dq e)) ≠ cidx (ring (dq e)) →
  credit (ring (dq e)) = 0 → desc_nr (req_of e cb) <= rngsz (conf (dq e)) - cidx (ring (dq e)) →
  reqs (descq_mm_n_h2c_wb e).2 = alter completed cb (reqs e).
Proof.
  intros Hwf Hi Hp Hwb Hc Hne Hcr Hn. destruct Hwf as [Hsz _ Hci _ _]. unfold descq_mm_n_h2c_wb. rewrite Hwb.
  apply Z.eqb_neq in Hne as ->. destruct (Z.eqb_spec 0 (cidx (ring (dq e)))) as [?|_]; [lia|].
  unfold descq_wb_credit. destruct (Z.eqb_spec 0 (cidx (ring (dq e)))) as [?|_]; [lia|].
  destruct (Z.ltb_spec 0 (cidx (ring (dq e)))); [|lia].
  assert (u32 (u32 (rngsz (conf (dq e)) - cidx (ring (dq e))) + 0) = rngsz (conf (dq e)) - cidx (ring (dq e))) as ->
    by (unfold u32; rewrite Z.add_0_r, Z.mod_mod by lia; apply Z.mod_small; lia).
  set (n := rngsz _ - _) in *. set (q := (dq e) <| ring := _ |>). set (e1 := if _ && _ then _ else _).
  assert (dq e1 = q ∧ reqs e1 = reqs e) as [E1 E2] by (unfold e1; by case_match).
  destruct (pend_submitted _ Hi cb) as [Hpos Hoff]; [rewrite Hp; by left|].
  assert (req_of e1 cb = req_of e cb) as Er by (unfold req_of; by rewrite E2).
  destruct (done_head cb e1 []) as (ev & Ed & _).
  { by rewrite E1. } { rewrite E1. exact (lists_nodup _ Hi). } { by rewrite Er. }
  cbn [snd]. rewrite (proj2 (intr_coal_update_same _)). unfold req_update_pend.
  rewrite !E1. change (pend_list q) with (pend_list (dq e)). change (credit (ring q)) with (credit (ring (dq e))).
  assert (u32 (n + credit (ring (dq e))) = n) as ->
    by (rewrite Hcr, Z.add_0_r; apply Z.mod_small; unfold n; lia).
  rewrite Hp. cbn [update_pend_loop]. rewrite Er. destruct (Z.leb_spec (desc_nr (req_of e cb)) n); [|lia].
  rewrite Ed. cbn. destruct (n - desc_nr (req_of e cb) =? 0); cbn; by rewrite E2.
Qed.

(** A request that is submitted to a quiet queue and written into its ring. *)
Lemma quiet_submit_pass e cb r mapped :
  quiet (dq e) → ring_wf (dq e) → credit_inv e → submittable e cb r mapped →
  let e1 := (qdma_sg_req_submit cb mapped (with_req cb r e)).2 in
  let e2 := qdma_thread_wrk_proc e1 in
  turned cb e1 e2 ∧ req_of e1 cb = mapped_req r mapped ∧ ring (dq e1) = ring (dq e) ∧ conf (dq e1) = conf (dq e) ∧
  pend_list (dq e2) = [cb].
Proof.
  intros Hq Hwf Hi Hsb. cbv zeta. destruct (submit_queued e cb r mapped (qt_mode _ Hq) Hsb) as [t ->].
  destruct Hsb as [_ Hnew _ _ Hfr Hfit]. set (r' := mapped_req r mapped) in *.
  destruct (qt_lists _ Hq) as [Hw Hp].
  destruct (queued_inv cb r' t e Hi) as [Hi' _]; [rewrite Hw, Hp; by intros ?%elem_of_nil|done|].
  set (e1 := queued cb r' t e) in *.
  assert (work_list (dq e1) = [cb]) as Hw1 by (cbn; by rewrite Hw).
  assert (req_of e1 cb = r') as Hr1 by (unfold req_of; cbn; by rewrite lookup_insert_eq).
  destruct (turn_run e1 cb []) as [e2 Ht]; [exact (qt_mode _ Hq)|by apply (ring_wf_ext (dq e))|done|done|by rewrite Hr1| |].
  { unfold fits in *. rewrite Hw1, need_cons, Hr1. rewrite Hw in Hfit.
    change (need e1 []) with 0. change (need e []) with 0 in Hfit.
    change (in_flight (dq e1)) with (in_flight (dq e)). change (conf (dq e1)) with (conf (dq e)).
    change (req_pieces (dq e1) r') with (req_pieces (dq e) r'). lia. }
  assert (qdma_thread_wrk_proc e1 = e2) as ->.
  { unfold qdma_thread_wrk_proc. rewrite Hw1. cbn [wrk_proc_loop]. rewrite (tu_run _ _ _ Ht). cbn [Z.ltb Z.compare].
    by destruct (_ =? 0). }
  split_and!; try done. rewrite (proj2 (tu_lists _ _ _ Ht)). cbn. by rewrite Hp.
Qed.

(** On a quiet queue whose indices are not at 0 and whose ring is new, a request
    that fits in the rest of the ring is completed by the first run of the
    handler after it has been written. *)
Lemma stale_completes e cb r mapped :
  quiet (dq e) → ring_wf (dq e) → credit_inv e → submittable e cb r mapped →
  desc_wb_cidx (ring (dq e)) = 0 → 0 < cidx (ring (dq e)) →
  let r' := mapped_req r mapped in
  let n := Z.of_nat (length (req_pieces (dq e) r')) in
  n <= rngsz (conf (dq e)) - cidx (ring (dq e)) →
  let e3 := (descq_mm_n_h2c_wb (qdma_thread_wrk_proc (qdma_sg_req_submit cb mapped (with_req cb r e)).2)).2 in
  0 < n ∧ cb_done (req_of e3 cb) = true ∧ sg_req_submit_finish cb e3 = (sg_total (sgt r'), e3).
Proof.
  intros Hq Hwf Hi Hsb Hwb Hc r' n Hn. cbv zeta.
  destruct (quiet_submit_pass e cb r mapped Hq Hwf Hi Hsb) as (Ht & Hr & Hring & Hconf & Hp). fold r' in Hr.
  set (e1 := (qdma_sg_req_submit _ _ _).2) in *. set (e2 := qdma_thread_wrk_proc e1) in *. clearbody e1 e2.
  pose proof (sb_fresh _ _ _ _ Hsb) as Hfr. fold r' in Hfr.
  assert (0 < n) as Hpos by (pose proof (fresh_some _ _ Hfr); unfold n, req_pieces; destruct (sg_pieces _ _); [done|cbn; lia]).
  assert (n <= rngsz (conf (dq e)) - 1) as Hfit by lia.
  destruct (tu_inv _ _ _ Ht) as [Hwf2 Hi2]. pose proof (tu_sub _ _ _ Ht) as Hsub.
  assert (Z.of_nat (length (req_pieces (dq e1) (req_of e1 cb))) = n) as En
    by (rewrite Hr; unfold n; by rewrite (req_pieces_ext (dq e) (dq e1) r')).
  pose proof (sub_req _ _ _ _ Hsub) as Hrz. rewrite En, Hr in Hrz.
  destruct (fresh_start _ _ Hfr) as [Hoff Hnr].
  pose proof (tu_flight _ _ _ Ht) as Hif. rewrite En in Hif.
  assert (in_flight (dq e1) = 0) as Hif1
    by (rewrite <- (quiet_in_flight _ Hq); unfold in_flight; by rewrite Hring, Hconf).
  assert (pidx (ring (dq e2)) ≠ cidx (ring (dq e2))) as Hne.
  { intros E. unfold in_flight in Hif at 1. rewrite E, Z.sub_diag, Z.mod_0_l in Hif by (destruct Hwf2; lia). lia. }
  pose proof (sub_cidx _ _ _ _ Hsub) as Hc2. pose proof (sub_conf _ _ _ _ Hsub) as Hconf2.
  assert (reqs (descq_mm_n_h2c_wb e2).2 = alter completed cb (reqs e2)) as Hreqs.
  { apply stale_writeback; try done.
    - by rewrite (tu_wb _ _ _ Ht), Hring.
    - by rewrite Hc2, Hring.
    - rewrite (sub_credit _ _ _ _ Hsub), Hring. apply Hq.
    - rewrite Hrz. cbn [desc_nr set eta]. rewrite Hc2, Hring, Hconf2, Hconf. cbn. lia. }
  destruct (sub_known _ _ _ _ Hsub) as [r2 Hr2].
  assert (req_of e2 cb = r2) as Er2 by (unfold req_of; by rewrite Hr2).
  assert (req_of (descq_mm_n_h2c_wb e2).2 cb = completed r2) as E3
    by (unfold req_of; by rewrite Hreqs, lookup_alter_eq, Hr2).
  destruct (pend_submitted _ Hi2 cb) as [_ Hoff2]; [rewrite Hp; by left|]. rewrite Er2 in Hoff2.
  assert (count r2 = count r') as Hcount by (rewrite <- Er2, Hrz; done).
  destruct (in_count _ (fresh_intact _ _ (piece_max_pos _) Hfr)) as [Hsum Hcp].
  split; [done|]. rewrite E3. split; [done|]. unfold sg_req_submit_finish. rewrite E3. cbn [completed cb_done status set eta].
  rewrite E3. cbn. rewrite Hoff2, Hcount, Hsum in *. destruct (Z.eqb_spec (sg_total (sgt r')) 0); [lia|done].
Qed.

(** ** Properties *)

Section life.
Context {D : Type} `{!RegIo D}.
Implicit Types s : sys D.


(** C6: stopping a queue ([qdma_queue_stop]) and starting it again
    ([qdma_queue_start]) keeps the driver's ring indices, which only
    [qdma_descq_config] sets to 0, while the new ring says that the device is
    at 0.  Unless they were 0, the next request that fits in the rest of the
    ring is completed with success, and its caller gets its byte count, as
    soon as its descriptors are written and the writeback handler runs: the
    device has executed none of them. *)
Theorem restart_completes_early s s1 s2 id d q cb r mapped :
  qdma_device_get_descq_by_id (s_qd s) id true = Some d → get_descq (s_qd s) d = Some q →
  quiet q → 0 < cidx (ring q) →
  qdma_queue_stop id s = Some (0, s1) → qdma_queue_start id s1 = Some (0, s2) →
  ∃ q2, get_descq (s_qd s2) d = Some q2 ∧
    pidx (ring q2) = cidx (ring q) ∧ cidx (ring q2) = cidx (ring q) ∧ desc_wb_cidx (ring q2) = 0 ∧
    let x := fresh_xfer s2 q2 in
    let y := Xfer (qdma_sg_req_submit cb mapped (with_req cb r (xe x))).2 (dlog x) in
    let z := Xfer (qdma_thread_wrk_proc (xe y)) (dlog y) in
    let w := Xfer (descq_mm_n_h2c_wb (xe z)).2 (dlog z) in
    (submittable (xe x) cb r mapped →
     Z.of_nat (length (req_pieces q2 (mapped_req r mapped))) <= rngsz (conf q) - cidx (ring q) →
     rtc xstep x w ∧ req_descs q2 (mapped_req r mapped) ≠ [] ∧ dlog w = [] ∧
     cb_done (req_of (xe w) cb) = true ∧
     sg_req_submit_finish cb (xe w) = (sg_total (sgt (mapped_req r mapped)), xe w)).
Proof.
  intros Hid Hq Hqt Hc Hstop Hstart.
  destruct (queue_stop_stopped s s1 id d q Hid Hq Hstop) as [Hid1 (q1 & Hq1 & Hs1)].
  pose proof (quiet_same _ _ Hs1 Hqt) as Hqt1.
  destruct (queue_start_started s1 s2 id d q1 Hid1 Hq1) as (q2 & Hq2 & Hst);
    [destruct (qt_size _ Hqt1); lia|done|].
  pose proof (same_indices_trans _ _ _ Hs1 (sd_same _ _ Hst)) as Hs2.
  pose proof (quiet_same _ _ Hs2 Hqt) as Hqt2. destruct Hs2 as (Ec & Ep & Eci & _).
  exists q2. split; [done|]. split; [by rewrite Ep, (proj1 (qt_index _ Hqt))|]. split; [done|].
  split; [apply Hst|]. cbv zeta. intros Hsb Hn. set (x := fresh_xfer s2 q2) in *.
  destruct (stale_completes (xe x) cb r mapped) as (Hpos & Hd & Hf); try done.
  { apply quiet_ring; [done|apply Hst]. } { by apply quiet_credit. } { apply Hst. }
  { cbn. by rewrite Eci. } { cbn. by rewrite Ec, Eci. }
  split; [|split; [|by split_and!]].
  - eapply rtc_l; [by apply (x_submit x cb r mapped)|]. eapply rtc_l; [apply x_pass|]. apply rtc_once, x_writeback.
  - intros E. apply (f_equal length) in E. rewrite length_req_descs in E.
    change (dq (xe x)) with q2 in Hpos. rewrite E in Hpos. done.
Qed.
End life.

(** ** A concrete life *)

Module SampleLife.
(** The second H2C queue is added and started. *)
Definition add := qdma_queue_add (SampleSys.conf_new false false) false SampleSys.sys.
Definition start := qdma_queue_start 1 add.2.
Definition sys_started : sys SimHw.t := (default (0, add.2) start).2.

(** The first H2C queue has been up for a while: two descriptors were executed
    and accounted for. *)
Definition used : qdma_descq :=
  SampleSys.up <| ring ::= λ r, r <| pidx := 2 |> <| cidx := 2 |> |>.
Definition sys_used : sys SimHw.t :=
  SampleSys.sys_up <| s_qd ::= set_descq (false, 0%nat) used |>.
Definition stop := qdma_queue_stop 0 sys_used.
Definition down : sys SimHw.t := (default (0, sys_used) stop).2.
Definition again := qdma_queue_start 0 down.
Definition sys_again : sys SimHw.t := (default (0, down) again).2.
Definition q_again : qdma_descq := queue_of sys_again (false, 0%nat).

(** A request of two descriptors, on the queue that is up again. *)
Definition x : xfer := fresh_xfer sys_again q_again.
Definition y : xfer := Xfer (qdma_sg_req_submit 1 [] (with_req 1 (SampleQ.req 0) (xe x))).2 (dlog x).
Definition z : xfer := Xfer (qdma_thread_wrk_proc (xe y)) (dlog y).
Definition w : xfer := Xfer (descq_mm_n_h2c_wb (xe z)).2 (dlog z).

Lemma used_quiet : quiet used.
Proof. split; by vm_compute. Qed.

Lemma again_submittable : submittable (xe x) 1 (SampleQ.req 0) [].
Proof.
  split; [split_and!; [by vm_compute|by vm_compute|vm_compute; by eexists]|reflexivity|by vm_compute|by left| |by vm_compute].
  split; [done|repeat constructor; cbn; lia|by vm_compute|cbn; lia|split; [reflexivity|cbn; lia]|by vm_compute].
Qed.

Lemma free_unused d q :
  get_descq (s_qd SampleSys.sys) d = Some q → enabled q = false → work_list q = [] ∧ pend_list q = [].
Proof.
  destruct d as [[|] i]; unfold get_descq; cbn; intros Hq _;
    (destruct i as [|[|i]]; [injection Hq as <-|injection Hq as <-|by destruct i]); done.
Qed.
End SampleLife.


(** The request of 150 bytes is reported as done; the device has done nothing. *)
Lemma restart_completes_early_witness :
  dlog SampleLife.w = [] ∧ sg_req_submit_finish 1 (xe SampleLife.w) = (150, xe SampleLife.w).
Proof.
  destruct (restart_completes_early SampleLife.sys_used SampleLife.down SampleLife.sys_again 0 (false, 0%nat)
    SampleLife.used 1 (SampleQ.req 0) []) as (q2 & Hq2 & _ & _ & _ & H).
  - vm_compute. reflexivity.
  - vm_compute. reflexivity.
  - exact SampleLife.used_quiet.
  - vm_compute. reflexivity.
  - vm_compute. reflexivity.
  - vm_compute. reflexivity.
  - assert (q2 = SampleLife.q_again) as -> by (unfold SampleLife.q_again, queue_of; rewrite Hq2; reflexivity).
    destruct (H SampleLife.again_submittable) as (_ & _ & H1 & _ & H2); [by vm_compute|].
    split; [exact H1|exact H2].
Defined.
