(* ===== verification/Sriov.v ===== *)
(** * Virtual functions of a physical function (qdma_sriov.c)

    The table of virtual functions that [src/drv/libqdma/qdma_sriov.c] keeps
    in the device: enabling and disabling SR-IOV, and the three updates the
    mailbox makes as virtual functions come and go ([xdev_sriov_vf_online],
    [xdev_sriov_vf_fmap], [xdev_sriov_vf_offline]).  The PCI core is a
    parameter with the operations of the class [PciIov]. *)

From S2P Require Import Prelude Regs Types.

(** ** The table *)

(** A slot, as every loop of the file visits it. *)
Fixpoint vf_online_loop (fid : Z) (l : list qdma_vf_info) : Z * list qdma_vf_info :=
  match l with
  | [] => (- EINVAL, [])
  | vf :: l =>
      if vf_func_id vf =? QDMA_FUNC_ID_INVALID then (0, vf <| vf_func_id := fid |> :: l)
      else let '(rv, l) := vf_online_loop fid l in (rv, vf :: l)
  end.

Fixpoint vf_fmap_loop (fid qb qm : Z) (l : list qdma_vf_info) : Z * list qdma_vf_info :=
  match l with
  | [] => (- EINVAL, [])
  | vf :: l =>
      if vf_func_id vf =? fid then (0, vf <| vf_qbase := qb |> <| vf_qmax := qm |> :: l)
      else let '(rv, l) := vf_fmap_loop fid qb qm l in (rv, vf :: l)
  end.

Definition vf_clear (fid : Z) (vf : qdma_vf_info) : qdma_vf_info :=
  if vf_func_id vf =? fid then VfInfo QDMA_FUNC_ID_INVALID 0 0 else vf.

(** [func_id] is a [u8]; [qbase] and [qmax] are [unsigned short]. *)
Definition xdev_sriov_vf_online (fid : Z) : ST xlnx_dma_dev Z := λ x,
  let '(rv, l) := vf_online_loop fid (vf_info x) in (rv, x <| vf_info := l |>).

Definition xdev_sriov_vf_offline (fid : Z) : ST xlnx_dma_dev unit := λ x,
  (tt, x <| vf_info ::= map (vf_clear fid) |>).

Definition xdev_sriov_vf_fmap (fid qb qm : Z) : ST xlnx_dma_dev Z := λ x,
  let '(rv, l) := vf_fmap_loop fid (u16 qb) (u16 qm) (vf_info x) in (rv, x <| vf_info := l |>).

(** ** Enabling SR-IOV *)

(** [pci_num_vf], [pci_enable_sriov] and [pci_disable_sriov] on a PCI device
    of type [P]. *)
Class PciIov (P : Type) := {
  pci_num_vf : P → Z;
  pci_enable_sriov : Z → ST P Z;
  pci_disable_sriov : ST P unit
}.

Section sriov.
Context {P : Type} `{!PciIov P}.

(** [vf_info] holds the [vf_count] entries the driver visits: none after
    [kfree]. *)
Definition xdev_sriov_disable : ST (xlnx_dma_dev * P) unit := λ s,
  let '(x, p) := s in
  let '(_, p) := pci_disable_sriov p in (tt, (x <| vf_info := [] |>, p)).

(** [mem]: the answer of [kmalloc], what the [num_vfs] entries held before
    ([None] on failure).  [vf_count] is a [u8]: it keeps the low eight bits of
    the number. *)
Definition xdev_sriov_enable (num_vfs : Z) (mem : option (list qdma_vf_info))
    : ST (xlnx_dma_dev * P) Z := λ s,
  let '(x, p) := s in
  let current_vfs := pci_num_vf p in
  if negb (current_vfs =? 0) then (current_vfs, s) else
  match mem with
  | None => (- ENOMEM, s)
  | Some vf =>
      let vf := map (λ v, v <| vf_func_id := QDMA_FUNC_ID_INVALID |>) vf in
      let x := x <| vf_info := take (Z.to_nat (u8 num_vfs)) vf |> in
      let '(rv, p) := pci_enable_sriov num_vfs p in
      if negb (rv =? 0) then (0, (xdev_sriov_disable (x, p)).2) else (num_vfs, (x, p))
  end.

(** [hndl]: the answer of [xdev_check_hndl] for a handle that is not NULL. *)
Definition qdma_device_sriov_config (hndl : Z) (num_vfs : Z) (mem : option (list qdma_vf_info))
    : ST (xlnx_dma_dev * P) Z := λ s,
  if hndl <? 0 then (hndl, s) else
  if num_vfs =? 0 then (0, (xdev_sriov_disable s).2) else
  let '(rv, s) := xdev_sriov_enable num_vfs mem s in
  if rv <? 0 then (rv, s) else (Z.of_nat (length (vf_info s.1)), s).

End sriov.

(** ** Lemmas *)

Lemma vf_online_loop_spec fid l :
  (∃ k vf, l !! k = Some vf ∧ vf_func_id vf = QDMA_FUNC_ID_INVALID ∧
     (∀ j v, (j < k)%nat → l !! j = Some v → vf_func_id v ≠ QDMA_FUNC_ID_INVALID) ∧
     vf_online_loop fid l = (0, <[k := vf <| vf_func_id := fid |>]> l)) ∨
  ((∀ v, v ∈ l → vf_func_id v ≠ QDMA_FUNC_ID_INVALID) ∧ vf_online_loop fid l = (- EINVAL, l)).
Proof.
  induction l as [|v l IH]; cbn [vf_online_loop].
  { right. split; [by intros ? ?%elem_of_nil|done]. }
  destruct (Z.eqb_spec (vf_func_id v) QDMA_FUNC_ID_INVALID) as [E|E].
  - left. exists 0%nat, v. split_and!; [done|done|intros; lia|done].
  - destruct IH as [(k & vf & Hk & Hf & Hlt & ->)|[Hn ->]].
    + left. exists (S k), vf. split_and!; try done.
      intros [|j] w Hj Hw; [by injection Hw as <-|]. apply (Hlt j); [lia|done].
    + right. split; [|done]. by intros w [->|Hw]%elem_of_cons; [|apply Hn].
Qed.

(** The first entry of a function is the one the queue range goes to. *)
Lemma vf_fmap_loop_spec fid qb qm l k vf :
  l !! k = Some vf → vf_func_id vf = fid →
  (∀ j v, (j < k)%nat → l !! j = Some v → vf_func_id v ≠ fid) →
  vf_fmap_loop fid qb qm l = (0, <[k := VfInfo fid qb qm]> l).
Proof.
  revert k. induction l as [|v l IH]; intros [|k] Hk Hf Hlt; cbn [vf_fmap_loop]; try done.
  - injection Hk as ->. rewrite Hf, Z.eqb_refl. cbn. by rewrite Hf.
  - destruct (Z.eqb_spec (vf_func_id v) fid) as [E|_].
    { by destruct (Hlt 0%nat v ltac:(lia) eq_refl). }
    rewrite (IH k); [done..|]. intros j w Hj. apply (Hlt (S j)). lia.
Qed.

Lemma vf_clear_other fid l : (∀ v, v ∈ l → vf_func_id v ≠ fid) → map (vf_clear fid) l = l.
Proof.
  intros Hl. induction l as [|v l IH]; [done|]. cbn. rewrite IH by (intros; apply Hl; by right).
  unfold vf_clear. destruct (Z.eqb_spec (vf_func_id v) fid) as [E|]; [|done].
  destruct (Hl v); [by left|done].
Qed.

(** ** Properties *)

(** C37: the life of a virtual function in its physical function's table: a
    function that is not in the table and says hello takes the first free
    slot; the queue range it then asks for is recorded in that slot, the other
    slots unchanged; and when it says goodbye the table is the one before it
    came, the slot free and without a range. *)
Theorem vf_lifecycle fid qb qm (x : xlnx_dma_dev) k vf :
  fid ≠ QDMA_FUNC_ID_INVALID → (∀ v, v ∈ vf_info x → vf_func_id v ≠ fid) →
  vf_info x !! k = Some vf → vf_func_id vf = QDMA_FUNC_ID_INVALID →
  (∀ j v, (j < k)%nat → vf_info x !! j = Some v → vf_func_id v ≠ QDMA_FUNC_ID_INVALID) →
  ∃ x1 x2, xdev_sriov_vf_online fid x = (0, x1) ∧ xdev_sriov_vf_fmap fid qb qm x1 = (0, x2) ∧
    x2 = x <| vf_info := <[k := VfInfo fid (u16 qb) (u16 qm)]> (vf_info x) |> ∧
    (xdev_sriov_vf_offline fid x2).2 =
      x <| vf_info := <[k := VfInfo QDMA_FUNC_ID_INVALID 0 0]> (vf_info x) |>.
Proof.
  intros Hne Hnew Hk Hfree Hfirst. apply lookup_lt_Some in Hk as Hlen.
  unfold xdev_sriov_vf_online, xdev_sriov_vf_fmap.
  destruct (vf_online_loop_spec fid (vf_info x)) as [(k' & vf' & Hk' & Hf' & Hlt' & ->)|[Hn _]].
  2: { destruct (Hn vf); [by eapply list_elem_of_lookup_2|done]. }
  assert (k' = k) as ->.
  { destruct (Nat.lt_trichotomy k k') as [H|[H|H]]; [|done|].
    - by destruct (Hlt' k vf H Hk).
    - by destruct (Hfirst k' vf' H Hk'). }
  rewrite Hk' in Hk. injection Hk as ->.
  eexists _, _. split; [reflexivity|]. cbn [vf_info set eta xdev_eta].
  rewrite (vf_fmap_loop_spec fid _ _ _ k (vf <| vf_func_id := fid |>)).
  - split; [reflexivity|]. cbn. rewrite list_insert_insert_eq. split; [done|].
    f_equal. rewrite list_fmap_insert. unfold vf_clear at 1. cbn. rewrite Z.eqb_refl.
    f_equal. by apply vf_clear_other.
  - by apply list_lookup_insert_eq.
  - done.
  - intros j v Hj. rewrite list_lookup_insert_ne by lia.
    intros Hv. apply Hnew. by eapply list_elem_of_lookup_2.
Qed.

(** A hello that finds no free slot is refused with -EINVAL and changes
    nothing. *)
Theorem vf_online_full fid (x : xlnx_dma_dev) :
  (∀ v, v ∈ vf_info x → vf_func_id v ≠ QDMA_FUNC_ID_INVALID) →
  xdev_sriov_vf_online fid x = (- EINVAL, x).
Proof.
  intros Hn. unfold xdev_sriov_vf_online.
  destruct (vf_online_loop_spec fid (vf_info x)) as [(k & vf & Hk & Hf & _)|[_ ->]].
  - destruct (Hn vf); [by eapply list_elem_of_lookup_2|done].
  - by destruct x.
Qed.

Definition sample_pf : xlnx_dma_dev :=
  Sample.dev <| vf_info := [VfInfo 5 80 8; VfInfo QDMA_FUNC_ID_INVALID 0 0] |>.

Lemma vf_lifecycle_witness : ∃ x1, xdev_sriov_vf_online 6 sample_pf = (0, x1).
Proof.
  destruct (vf_lifecycle 6 88 8 sample_pf 1 (VfInfo QDMA_FUNC_ID_INVALID 0 0)) as (x1 & x2 & E & _).
  - done.
  - intros v. cbn. rewrite !elem_of_cons, elem_of_nil. by intros [->|[->|[]]].
  - reflexivity.
  - reflexivity.
  - intros [|j] v Hj; [by intros [= <-]|lia].
  - exists x1. exact E.
Defined.
