(* ===== verification/Msg.v ===== *)
(** * Mailbox messages (qdma_mbox.h)

    A message is the array [raw] of 16 words of the union [struct mbox_msg]
    (little endian, bit-fields from the low bit as the compiler lays them
    out); the members of the union's structs are bit ranges of those words.
    The lemmas say what a read of one member gives after a write of another,
    and are collected in the tactic [msg_fields]. *)

From S2P Require Import Prelude Regs Types Context.

(** ** Members as bit ranges *)

Definition mbox_msg : Type := list Z.

Record mfield := MField { mf_word : nat; mf_shift : Z; mf_width : Z }.

(** [m.f] and [m.f = v]. *)
Definition mget (f : mfield) (m : mbox_msg) : Z :=
  bits_get (mf_shift f) (mf_width f) (array m (mf_word f)).

Definition bits_put (s w v x : Z) : Z :=
  Z.lor (Z.ldiff x (Z.shiftl (Z.ones w) s)) (Z.shiftl (Z.land v (Z.ones w)) s).

Definition mset (f : mfield) (v : Z) (m : mbox_msg) : mbox_msg :=
  <[mf_word f := bits_put (mf_shift f) (mf_width f) v (array m (mf_word f))]> m.

(** [memset(&m, 0, sizeof(struct mbox_msg))] *)
Definition msg_zero : mbox_msg := replicate 16 0.

(** [struct mbox_msg_hdr] *)
Definition hdr_op : mfield := MField 0 0 4.
Definition hdr_sent : mfield := MField 0 4 1.
Definition hdr_rcv : mfield := MField 0 5 1.
Definition hdr_ack : mfield := MField 0 6 1.
Definition hdr_wait : mfield := MField 0 7 1.
Definition hdr_src : mfield := MField 0 8 8.
Definition hdr_dst : mfield := MField 0 16 8.
Definition hdr_status : mfield := MField 0 24 8.

(** [char status] is signed. *)
Definition status_of (m : mbox_msg) : Z := s8 (mget hdr_status m).

(** [struct mbox_msg_fmap] *)
Definition fmap_qbase : mfield := MField 1 0 32.
Definition fmap_qmax : mfield := MField 2 0 32.

(** [struct mbox_msg_intr_ctxt]; its words [w] start at word 2 *)
Definition ictxt_clear : mfield := MField 1 0 1.
Definition ictxt_vec_base : mfield := MField 1 16 8.
Definition ictxt_vec_cnt : mfield := MField 1 24 8.
Definition MBOX_INTR_CTXT_VEC_MAX : Z := 7.

(** [struct mbox_msg_qctxt] *)
Definition qctxt_clear : mfield := MField 1 0 1.
Definition qctxt_verify : mfield := MField 1 1 1.
Definition qctxt_c2h : mfield := MField 1 2 1.
Definition qctxt_st : mfield := MField 1 3 1.
Definition qctxt_qid : mfield := MField 1 16 16.

(** The member [context] of [struct mbox_msg_qctxt]: words 2 to 14. *)
Definition qctxt_context (m : mbox_msg) : hw_descq_context :=
  HwCtxt (take 4 (drop 2 m)) (take 2 (drop 6 m)) (take 4 (drop 8 m)) (take 2 (drop 12 m))
    (take 1 (drop 14 m)).

Definition set_context (c : hw_descq_context) (m : mbox_msg) : mbox_msg :=
  take 2 m ++ ctxt_sw c ++ ctxt_prefetch c ++ ctxt_wrb c ++ ctxt_hw c ++ ctxt_cr c ++ drop 15 m.

(** ** Operations and status values *)

Definition MBOX_OP_HELLO : Z := 1.
Definition MBOX_OP_BYE : Z := 2.
Definition MBOX_OP_RESET : Z := 3.
Definition MBOX_OP_FMAP : Z := 4.
Definition MBOX_OP_INTR_CTXT : Z := 5.
Definition MBOX_OP_QCTXT_WRT : Z := 6.
Definition MBOX_OP_QCTXT_RD : Z := 7.
Definition MBOX_OP_QCTXT_CLR : Z := 8.

Definition MBOX_STATUS_GOOD : Z := 0.
Definition MBOX_STATUS_ERR : Z := 1.
Definition MBOX_STATUS_EINVAL : Z := 2.

(** ** Lemmas *)

Definition msg_wf (m : mbox_msg) : Prop := length m = 16%nat ∧ Forall word32 m.

(** A member that lies in the 16 words. *)
Definition mf_ok (f : mfield) : bool :=
  Nat.ltb (mf_word f) 16 && (0 <=? mf_shift f) && (0 <=? mf_width f)
  && (mf_shift f + mf_width f <=? 32).

Definition mf_disjoint (f g : mfield) : bool :=
  negb (Nat.eqb (mf_word f) (mf_word g)) || (mf_shift f + mf_width f <=? mf_shift g)
  || (mf_shift g + mf_width g <=? mf_shift f).

Lemma mf_ok_spec f :
  mf_ok f = true → (mf_word f < 16)%nat ∧ 0 <= mf_shift f ∧ 0 <= mf_width f ∧
                   mf_shift f + mf_width f <= 32.
Proof.
  unfold mf_ok. rewrite !andb_true_iff, Nat.ltb_lt, !Z.leb_le. tauto.
Qed.

(** Bit [n] of an updated word. *)
Lemma bits_put_spec s w v x n :
  0 <= s → 0 <= w → 0 <= n →
  Z.testbit (bits_put s w v x) n =
  if (s <=? n) && (n <? s + w) then Z.testbit v (n - s) else Z.testbit x n.
Proof.
  intros Hs Hw Hn. unfold bits_put.
  rewrite Z.lor_spec, Z.ldiff_spec, !Z.shiftl_spec, Z.land_spec by lia.
  destruct (Z.leb_spec s n), (Z.ltb_spec n (s + w)); cbn [andb].
  - rewrite Z.ones_spec_low by lia. by rewrite andb_false_r, andb_true_r.
  - rewrite Z.ones_spec_high by lia. by rewrite andb_true_r, andb_false_r, orb_false_r.
  - rewrite !(Z.testbit_neg_r _ (n - s)) by lia. by rewrite andb_true_r, orb_false_r.
  - lia.
Qed.

Lemma bits_get_spec s w x n :
  0 <= s → 0 <= n → Z.testbit (bits_get s w x) n = Z.testbit x (n + s) && Z.testbit (Z.ones w) n.
Proof. intros. unfold bits_get. by rewrite Z.land_spec, Z.shiftr_spec by lia. Qed.

Lemma bits_get_put s w v x :
  0 <= s → 0 <= w → bits_get s w (bits_put s w v x) = v mod 2 ^ w.
Proof.
  intros Hs Hw. apply Z.bits_inj'. intros n Hn.
  rewrite bits_get_spec, bits_put_spec by lia. rewrite <- Z.land_ones, Z.land_spec by lia.
  rewrite Z.add_simpl_r. destruct (decide (n < w)).
  - destruct (Z.leb_spec s (n + s)), (Z.ltb_spec (n + s) (s + w)); cbn [andb]; done || lia.
  - by rewrite Z.ones_spec_high, !andb_false_r by lia.
Qed.

Lemma bits_get_put_other s w s' w' v x :
  0 <= s → 0 <= w → 0 <= s' → 0 <= w' → s + w <= s' ∨ s' + w' <= s →
  bits_get s' w' (bits_put s w v x) = bits_get s' w' x.
Proof.
  intros Hs Hw Hs' Hw' Hd. apply Z.bits_inj'. intros n Hn.
  rewrite !bits_get_spec, bits_put_spec by lia. destruct (decide (n < w')).
  - destruct (Z.leb_spec s (n + s')), (Z.ltb_spec (n + s') (s + w)); cbn [andb]; done || lia.
  - by rewrite Z.ones_spec_high, !andb_false_r by lia.
Qed.

Lemma bits_put_word s w v x :
  0 <= s → 0 <= w → s + w <= 32 → word32 x → word32 (bits_put s w v x).
Proof.
  intros Hs Hw Hd Hx. unfold word32. replace (bits_put s w v x) with (bits_put s w v x mod 2 ^ 32).
  { apply Z.mod_pos_bound. lia. }
  apply Z.bits_inj'. intros n Hn. destruct (decide (n < 32)).
  - by rewrite Z.mod_pow2_bits_low by lia.
  - rewrite Z.mod_pow2_bits_high, bits_put_spec by lia.
    destruct (Z.ltb_spec n (s + w)); [lia|]. rewrite andb_false_r.
    symmetry. by apply (testbit_small 32); [|lia].
Qed.

Lemma array_insert_eq (l : list Z) i v : (i < length l)%nat → array (<[i := v]> l) i = v.
Proof.
  intros Hi. unfold array. by rewrite nth_lookup, list_lookup_insert_eq.
Qed.

Lemma array_insert_ne (l : list Z) i j v : i ≠ j → array (<[i := v]> l) j = array l j.
Proof. intros Hi. unfold array. by rewrite !nth_lookup, list_lookup_insert_ne. Qed.

Lemma array_word m i : Forall word32 m → word32 (array m i).
Proof.
  intros HF. unfold array. rewrite nth_lookup. destruct (m !! i) as [w|] eqn:E; cbn.
  - by apply (Forall_lookup_1 _ _ _ _ HF E).
  - unfold word32. lia.
Qed.

Lemma mget_mset f v m :
  mf_ok f = true → length m = 16%nat → mget f (mset f v m) = v mod 2 ^ mf_width f.
Proof.
  intros (Hw & Hs & Hl & _)%mf_ok_spec Hm. unfold mget, mset.
  rewrite array_insert_eq by lia. by apply bits_get_put.
Qed.

Lemma mget_mset_other f g v m :
  mf_ok f = true → mf_ok g = true → mf_disjoint f g = true → length m = 16%nat →
  mget g (mset f v m) = mget g m.
Proof.
  intros (Hw & Hs & Hl & _)%mf_ok_spec (Hw' & Hs' & Hl' & _)%mf_ok_spec Hd Hm. unfold mget, mset.
  unfold mf_disjoint in Hd. rewrite !orb_true_iff, negb_true_iff, Nat.eqb_neq, !Z.leb_le in Hd.
  destruct (decide (mf_word f = mf_word g)) as [E|E]; [|by rewrite array_insert_ne].
  rewrite E, array_insert_eq by lia. apply bits_get_put_other; lia.
Qed.

Lemma length_mset f v m : length (mset f v m) = length m.
Proof. apply length_insert. Qed.

Lemma mset_wf f v m : mf_ok f = true → msg_wf m → msg_wf (mset f v m).
Proof.
  intros (Hw & Hs & Hl & H32)%mf_ok_spec [Hm HF]. split; [by rewrite length_mset|].
  apply Forall_insert; [done|]. apply bits_put_word; [lia..|]. by apply array_word.
Qed.

Lemma msg_zero_wf : msg_wf msg_zero.
Proof. split; [done|]. apply Forall_replicate. unfold word32. lia. Qed.

Lemma mget_range f m : mf_ok f = true → 0 <= mget f m < 2 ^ mf_width f.
Proof. intros (_ & _ & Hw & _)%mf_ok_spec. by apply bits_get_range. Qed.

(** *** The context of a message *)

(** A context with the lengths of the C type. *)
Record hw_ctxt_full (c : hw_descq_context) : Prop := {
  full_sw : words4 (ctxt_sw c);
  full_prefetch : length (ctxt_prefetch c) = 2%nat ∧ Forall word32 (ctxt_prefetch c);
  full_wrb : words4 (ctxt_wrb c);
  full_hw : length (ctxt_hw c) = 2%nat ∧ Forall word32 (ctxt_hw c);
  full_cr : length (ctxt_cr c) = 1%nat ∧ Forall word32 (ctxt_cr c)
}.

Lemma full_wf c : hw_ctxt_full c → hw_ctxt_wf c.
Proof. intros []. by split. Qed.

Lemma msg_words (m : mbox_msg) : length m = 16%nat → ∃ w0 w1 w2 w3 w4 w5 w6 w7 w8 w9 w10 w11 w12 w13 w14 w15,
  m = [w0; w1; w2; w3; w4; w5; w6; w7; w8; w9; w10; w11; w12; w13; w14; w15].
Proof.
  intros Hm. do 16 (destruct m as [|? m]; [discriminate Hm|]). destruct m; [|discriminate Hm].
  by repeat eexists.
Qed.

Lemma hw_ctxt_words c : hw_ctxt_full c → ∃ a b d e f g h i j k l n o,
  c = HwCtxt [a; b; d; e] [f; g] [h; i; j; k] [l; n] [o] ∧
  Forall word32 [a; b; d; e; f; g; h; i; j; k; l; n; o].
Proof.
  destruct c as [sw pf wb hw cr].
  intros [[Hs Fs] [Hp Fp] [Hw Fw] [Hh Fh] [Hc Fc]]. cbn in *.
  do 4 (destruct sw as [|? sw]; [discriminate Hs|]). destruct sw; [|discriminate Hs].
  do 2 (destruct pf as [|? pf]; [discriminate Hp|]). destruct pf; [|discriminate Hp].
  do 4 (destruct wb as [|? wb]; [discriminate Hw|]). destruct wb; [|discriminate Hw].
  do 2 (destruct hw as [|? hw]; [discriminate Hh|]). destruct hw; [|discriminate Hh].
  destruct cr as [|? cr]; [discriminate Hc|]. destruct cr; [|discriminate Hc].
  do 13 eexists. split; [reflexivity|]. rewrite !Forall_cons in *. tauto.
Qed.

Lemma context_roundtrip c (m : mbox_msg) :
  hw_ctxt_full c → length m = 16%nat → qctxt_context (set_context c m) = c.
Proof.
  intros Hc Hm. destruct (msg_words m Hm) as (?&?&?&?&?&?&?&?&?&?&?&?&?&?&?&?&->).
  by destruct (hw_ctxt_words c Hc) as (?&?&?&?&?&?&?&?&?&?&?&?&?&->&_).
Qed.

Lemma set_context_wf c m : hw_ctxt_full c → msg_wf m → msg_wf (set_context c m).
Proof.
  intros Hc [Hm HF]. destruct (msg_words m Hm) as (?&?&?&?&?&?&?&?&?&?&?&?&?&?&?&?&->).
  destruct (hw_ctxt_words c Hc) as (?&?&?&?&?&?&?&?&?&?&?&?&?&->&HC).
  split; [done|]. cbn. rewrite !Forall_cons in *. tauto.
Qed.

(** The first two words, and so every header member, are kept. *)
Lemma mget_set_context f c (m : mbox_msg) :
  hw_ctxt_full c → (mf_word f < 2)%nat → length m = 16%nat → mget f (set_context c m) = mget f m.
Proof.
  intros Hc Hf Hm. unfold mget. f_equal.
  destruct (msg_words m Hm) as (?&?&?&?&?&?&?&?&?&?&?&?&?&?&?&?&->).
  destruct (hw_ctxt_words c Hc) as (?&?&?&?&?&?&?&?&?&?&?&?&?&->&_).
  destruct (mf_word f) as [|[|]]; done || lia.
Qed.

(** A write in the first two words keeps the context. *)
Lemma context_mset f v (m : mbox_msg) :
  (mf_word f < 2)%nat → length m = 16%nat → qctxt_context (mset f v m) = qctxt_context m.
Proof.
  intros Hf Hm. unfold mset. destruct (msg_words m Hm) as (?&?&?&?&?&?&?&?&?&?&?&?&?&?&?&?&->).
  destruct (mf_word f) as [|[|]]; done || lia.
Qed.

Lemma qctxt_context_full m : msg_wf m → hw_ctxt_full (qctxt_context m).
Proof.
  intros [Hm HF]. destruct (msg_words m Hm) as (?&?&?&?&?&?&?&?&?&?&?&?&?&?&?&?&->).
  rewrite !Forall_cons in HF. destruct HF as (?&?&?&?&?&?&?&?&?&?&?&?&?&?&?&?&?).
  split; (split; [done|]); cbn; rewrite ?Forall_cons; tauto.
Qed.

(** Evaluate the members of a message built by [mset] and [set_context]. *)
Create Rewrite HintDb qdma_msg.
#[export] Hint Rewrite length_mset : qdma_msg.

Ltac msg_len :=
  repeat first [rewrite length_mset | assumption | reflexivity
               | match goal with H : msg_wf ?m |- length ?m = _ => exact (proj1 H) end].

Ltac msg_fields :=
  repeat first
    [ rewrite mget_mset by (reflexivity || solve [msg_len])
    | rewrite mget_mset_other by (reflexivity || solve [msg_len])
    | rewrite context_mset by ((cbn; lia) || solve [msg_len]) ].
