(* ===== verification/Mbox.v ===== *)
(** * The mailbox (qdma_mbox.c)

    The exchange of messages between a physical function and its virtual
    functions: [mbox_send] and [mbox_read] on the mailbox registers, the
    request/response call [qdma_mbox_send_msg], and the timer routine
    [qdma_mbox_proc] of both builds.  The physical function's routine answers
    the messages of the virtual functions and performs the context operations
    they ask for. *)

From S2P Require Import Prelude Regs Types Context Sriov Msg.

(** ** Registers; [vf] selects the build ([__QDMA_VF__]) *)

Definition MBOX_BASE (vf : bool) : Z := if vf then 0x1000 else 0x2400.
Definition MBOX_FN_STATUS : Z := 0x0.
Definition F_MBOX_FN_STATUS_IN_MSG : Z := 0x1.
Definition F_MBOX_FN_STATUS_OUT_MSG : Z := 0x2.
Definition F_MBOX_FN_STATUS_ACK : Z := 0x4.
Definition S_MBOX_FN_STATUS_SRC : Z := 4.
Definition M_MBOX_FN_STATUS_SRC : Z := 0xFF.
Definition G_MBOX_FN_STATUS_SRC (x : Z) : Z :=
  Z.land (Z.shiftr x S_MBOX_FN_STATUS_SRC) M_MBOX_FN_STATUS_SRC.
Definition MBOX_FN_CMD : Z := 0x4.
Definition F_MBOX_FN_CMD_SND : Z := 0x1.
Definition F_MBOX_FN_CMD_RCV : Z := 0x2.
Definition MBOX_FN_TARGET : Z := 0xC.
Definition M_MBOX_FN_TARGET_ID : Z := 0xFF.
Definition MBOX_PF_ACK_BASE : Z := 0x20.
Definition MBOX_PF_ACK_STEP : Z := 4.
Definition MBOX_PF_ACK_COUNT : nat := 8.
Definition MBOX_IN_MSG_BASE : Z := 0x40.
Definition MBOX_OUT_MSG_BASE : Z := 0x80.
Definition MBOX_MSG_REG_MAX : nat := 16.

Section mbox.
Context {D : Type} `{!RegIo D}.

(** ** One message *)

Definition pf_mbox_clear_func_ack (fid : Z) : ST D unit :=
  let idx := fid / 32 in
  let bit := fid mod 32 in
  writel (MBOX_BASE false + MBOX_PF_ACK_BASE + idx * MBOX_PF_ACK_STEP) (u32 (Z.shiftl 1 bit)).

(** The return code and the message, whose [sent] flag is updated. *)
Definition mbox_send (vf : bool) (m : mbox_msg) (wait : bool) : ST D (Z * mbox_msg) :=
  let fn_id := mget hdr_dst m in
  let m := mset hdr_sent 0 m in
  _ ← (if vf then mret tt
       else writel (MBOX_BASE vf + MBOX_FN_TARGET) (Z.land fn_id M_MBOX_FN_TARGET_ID));
  rv ← (if wait then hw_monitor_reg (MBOX_BASE vf + MBOX_FN_STATUS) F_MBOX_FN_STATUS_OUT_MSG 0
                       100 (5000 * 1000)
        else mret 0);
  if rv <? 0 then
    _ ← readl (MBOX_BASE vf + MBOX_FN_STATUS); mret (- EAGAIN, m)
  else
  v ← readl (MBOX_BASE vf + MBOX_FN_STATUS);
  if negb (Z.land v F_MBOX_FN_STATUS_OUT_MSG =? 0) then mret (- EAGAIN, m) else
  _ ← write_regs (MBOX_BASE vf + MBOX_OUT_MSG_BASE) (map (array m) (seq 0 MBOX_MSG_REG_MAX));
  _ ← (if vf then mret tt else pf_mbox_clear_func_ack fn_id);
  _ ← writel (MBOX_BASE vf + MBOX_FN_CMD) F_MBOX_FN_CMD_SND;
  mret (0, mset hdr_sent 1 m).

(** The message received over the buffer [m]. *)
Definition mbox_read (vf : bool) (m : mbox_msg) (wait : bool) : ST D (Z * mbox_msg) :=
  let m := mset hdr_rcv 0 m in
  rv ← (if wait then hw_monitor_reg (MBOX_BASE vf + MBOX_FN_STATUS) F_MBOX_FN_STATUS_IN_MSG
                       F_MBOX_FN_STATUS_IN_MSG 1000 (5000 * 1000)
        else mret 0);
  if rv <? 0 then mret (- EAGAIN, m) else
  v ← readl (MBOX_BASE vf + MBOX_FN_STATUS);
  if v =? 0xffffffff then mret (- EAGAIN, m) else
  if Z.land v F_MBOX_FN_STATUS_IN_MSG =? 0 then mret (- EAGAIN, m) else
  let from_id := G_MBOX_FN_STATUS_SRC v in
  _ ← (if vf then mret tt else writel (MBOX_BASE vf + MBOX_FN_TARGET) from_id);
  m ← read_regs (MBOX_BASE vf + MBOX_IN_MSG_BASE) MBOX_MSG_REG_MAX;
  let m := if vf || (from_id =? mget hdr_src m) then m else mset hdr_src from_id m in
  _ ← writel (MBOX_BASE vf + MBOX_FN_CMD) F_MBOX_FN_CMD_RCV;
  mret (0, m).

(** A request.  [m_req]: what [xdev->m_req], zeroed before the wait, holds
    after it: the message the timer routine copied there, or zeros.  The
    message [m] becomes the response. *)
Definition qdma_mbox_send_msg (vf : bool) (m : mbox_msg) (wait_resp : bool) (m_req : mbox_msg)
    : ST D (Z * mbox_msg) :=
  let m := if wait_resp then mset hdr_wait 1 (mset hdr_ack 0 m) else mset hdr_wait 0 m in
  r ← mbox_send vf m true;
  let '(rv, m) := r in
  if (rv <? 0) || negb wait_resp then mret (rv, m) else
  if (mget hdr_op m_req =? mget hdr_op m) && negb (mget hdr_ack m_req =? 0)
  then mret (status_of m_req, m_req)
  else mret (- ETIME, m).

(** ** The timer routine of the physical function *)

Fixpoint clear_acks (n : nat) (reg : Z) : ST D unit :=
  match n with
  | O => mret tt
  | S n =>
      v ← readl reg;
      _ ← (if v =? 0 then mret tt else writel reg v);
      clear_acks n (reg + MBOX_PF_ACK_STEP)
  end.

Definition pf_mbox_clear_ack : ST D unit :=
  v ← readl (MBOX_BASE false + MBOX_FN_STATUS);
  if Z.land v F_MBOX_FN_STATUS_ACK =? 0 then mret tt
  else clear_acks MBOX_PF_ACK_COUNT (MBOX_BASE false + MBOX_PF_ACK_BASE).

(** Run a context operation or an update of the device structure. *)
Definition on_dev {A} (m : ST D A) : ST (xlnx_dma_dev * D) A := λ s,
  let '(a, d) := m s.2 in (a, (s.1, d)).
Definition on_xdev {A} (m : ST xlnx_dma_dev A) : ST (xlnx_dma_dev * D) A := λ s,
  let '(a, x) := m s.1 in (a, (x, s.2)).

(** The queue base of a virtual function that asks for one; [unsigned]. *)
Definition default_qbase (src : Z) : Z :=
  u32 (QDMA_Q_PER_PF_MAX * QDMA_PF_MAX + (src - QDMA_PF_MAX) * QDMA_Q_PER_VF_MAX).

(** [case MBOX_OP_FMAP] *)
Definition pf_do_fmap (m : mbox_msg) : ST (xlnx_dma_dev * D) mbox_msg :=
  let src := mget hdr_src m in
  let m := if mget fmap_qbase m =? 0 then mset fmap_qbase (default_qbase src) m else m in
  _ ← on_dev (hw_set_fmap src (mget fmap_qbase m) (mget fmap_qmax m));
  _ ← on_xdev (xdev_sriov_vf_fmap src (mget fmap_qbase m) (mget fmap_qmax m));
  mret m.

(** The [switch]: the return code, the message, and whether the operation is
    unknown ([default]). *)
Definition pf_switch (m : mbox_msg) : ST (xlnx_dma_dev * D) (Z * mbox_msg * bool) :=
  let op := mget hdr_op m in
  let src := mget hdr_src m in
  let qid := mget qctxt_qid m in
  let st := negb (mget qctxt_st m =? 0) in
  let c2h := negb (mget qctxt_c2h m =? 0) in
  if op =? MBOX_OP_HELLO then
    _ ← on_xdev (xdev_sriov_vf_online src); mret (0, m, false)
  else if op =? MBOX_OP_BYE then
    _ ← on_dev (hw_set_fmap src 0 0);
    _ ← on_xdev (xdev_sriov_vf_offline src); mret (0, m, false)
  else if op =? MBOX_OP_FMAP then
    m ← pf_do_fmap m; mret (0, m, false)
  else if op =? MBOX_OP_INTR_CTXT then mret (- EINVAL, m, false)
  else if op =? MBOX_OP_QCTXT_CLR then
    rv ← on_dev (qdma_descq_context_clear qid st c2h); mret (rv, m, false)
  else if op =? MBOX_OP_QCTXT_RD then
    r ← on_dev (qdma_descq_context_read qid st c2h); mret (r.1, set_context r.2 m, false)
  else if op =? MBOX_OP_QCTXT_WRT then
    rv ← on_dev (qdma_descq_context_clear qid st c2h);
    if rv <? 0 then mret (rv, m, false) else
    rv ← on_dev (qdma_descq_context_program qid st c2h (qctxt_context m)); mret (rv, m, false)
  else mret (0, m, true).

(** The status of the routine after a message; [status] is a variable of the
    routine and keeps its value from one message to the next. *)
Definition next_status (status rv : Z) (unknown : bool) : Z :=
  let status := if unknown then - MBOX_STATUS_EINVAL else status in
  if (rv <? 0) && (status =? 0) then - MBOX_STATUS_ERR else status.

(** The header of the response. *)
Definition respond (x : xlnx_dma_dev) (status : Z) (m : mbox_msg) : mbox_msg :=
  mset hdr_status (u8 status) (mset hdr_ack 1
    (mset hdr_src (func_id x) (mset hdr_dst (mget hdr_src m) m))).

(** [while (mbox_read(xdev, &m, 0) == 0)], at most [fuel] messages. *)
Fixpoint pf_proc_loop (fuel : nat) (m : mbox_msg) (status : Z) (s : xlnx_dma_dev * D)
    : option (xlnx_dma_dev * D) :=
  match fuel with
  | O => None
  | S fuel =>
      let '((rv, m), s) := on_dev (mbox_read false m false) s in
      if negb (rv =? 0) then Some s else
      if negb (mget hdr_ack m =? 0) then pf_proc_loop fuel m status s else
      let '((rv, m, unknown), s) := pf_switch m s in
      let status := next_status status rv unknown in
      let m := respond s.1 status m in
      let '((rv, m), s) := on_dev (mbox_send false m true) s in
      if rv <? 0 then Some s else
      if negb (Z.land (flags s.1) XDEV_FLAG_OFFLINE =? 0) then Some s
      else pf_proc_loop fuel m status s
  end.

(** [m0]: the message buffer on the stack.  The result says whether the timer
    is started again. *)
Definition pf_mbox_proc (fuel : nat) (m0 : mbox_msg) (s : xlnx_dma_dev * D)
    : option (bool * (xlnx_dma_dev * D)) :=
  let '(_, s) := on_dev pf_mbox_clear_ack s in
  s ← pf_proc_loop fuel m0 MBOX_STATUS_GOOD s;
  Some (Z.land (flags s.1) XDEV_FLAG_OFFLINE =? 0, s).

(** ** The timer routine of a virtual function *)

(** The device, the buffers [m_resp] and [m_req], and the registers. *)
Record vf_state := VfState { v_xd : xlnx_dma_dev; m_resp : mbox_msg; m_req : mbox_msg; v_hw : D }.

Fixpoint vf_proc_loop (fuel : nat) (status : Z) (s : vf_state) : option vf_state :=
  match fuel with
  | O => None
  | S fuel =>
      let x := v_xd s in
      let '((rv, m), d) := mbox_read true (m_resp s) false (v_hw s) in
      if negb (rv =? 0) then Some (VfState x m (m_req s) d) else
      if negb (mget hdr_ack m =? 0) then
        let x := if func_id x =? 0
                 then x <| func_id := mget hdr_dst m |> <| func_id_parent := mget hdr_src m |>
                 else x in
        let req := if negb (mget hdr_wait m =? 0) then m else m_req s in
        vf_proc_loop fuel status (VfState x m req d)
      else
        let status := if mget hdr_op m =? MBOX_OP_RESET then status else - MBOX_STATUS_EINVAL in
        let m := respond x status m in
        let '((rv, m), d) := mbox_send true m true d in
        let s := VfState x m (m_req s) d in
        if rv <? 0 then Some s else
        if negb (Z.land (flags x) XDEV_FLAG_OFFLINE =? 0) then Some s
        else vf_proc_loop fuel status s
  end.

Definition vf_mbox_proc (fuel : nat) (s : vf_state) : option (bool * vf_state) :=
  s ← vf_proc_loop fuel MBOX_STATUS_GOOD s;
  Some (Z.land (flags (v_xd s)) XDEV_FLAG_OFFLINE =? 0, s).

(** The registers' part of [qdma_mbox_timer_init]. *)
Definition mbox_timer_init (vf : bool) : ST D unit :=
  if vf then
    v ← readl (MBOX_BASE vf + MBOX_FN_STATUS);
    if Z.land v F_MBOX_FN_STATUS_IN_MSG =? 0
    then writel (MBOX_BASE vf + MBOX_FN_CMD) F_MBOX_FN_CMD_RCV else mret tt
  else pf_mbox_clear_ack.

End mbox.
Arguments vf_state D : clear implicits.
