(* ===== verification/MboxHw.v ===== *)
(** * The mailbox hardware, and the mailbox calls on it

    What the driver relies on of the physical function's mailbox registers
    (class [MboxHw]): a queue of received messages with their senders, sixteen
    output registers, a target, and the messages sent.  An executable device
    [SimMbox] satisfies the class.  The lemmas say what [mbox_send],
    [mbox_read] and [pf_mbox_clear_ack] do on such a device, and that mailbox
    and contexts do not disturb each other. *)

From S2P Require Import Prelude Regs Types Context Sriov Msg Mbox.

(** ** The interface *)

Record mbox_view := MboxView {
  mv_in : list (Z * mbox_msg);     (* waiting: the sender and the words *)
  mv_out : list Z;                 (* the output registers *)
  mv_target : Z;
  mv_sent : list (Z * mbox_msg)    (* sent: the receiver and the words *)
}.

Definition mv_set_out (i : nat) (w : Z) (v : mbox_view) : mbox_view :=
  MboxView (mv_in v) (<[i := w]> (mv_out v)) (mv_target v) (mv_sent v).
Definition mv_set_target (w : Z) (v : mbox_view) : mbox_view :=
  MboxView (mv_in v) (mv_out v) w (mv_sent v).
Definition mv_send (v : mbox_view) : mbox_view :=
  MboxView (mv_in v) (mv_out v) (mv_target v) (mv_sent v ++ [(mv_target v, mv_out v)]).
(** The receive command removes the message of the target function, which
    must be the one at the head. *)
Definition mv_receive (v : mbox_view) : mbox_view :=
  MboxView (match mv_in v with
            | (src, m) :: l => if mv_target v =? src then l else mv_in v
            | [] => []
            end) (mv_out v) (mv_target v) (mv_sent v).

(** A register of the physical function's mailbox whose access has an effect
    the view shows (the acknowledge registers have none). *)
Definition is_mbox_view_reg (reg : Z) : bool :=
  (reg =? 0x2400) || (reg =? 0x2404) || (reg =? 0x240C) || ((0x2440 <=? reg) && (reg <? 0x24C0)).

Class MboxHw (D : Type) `{HC : CtxtHw D} := {
  mb_view : D → mbox_view;
  mb_busy : D → nat;   (* polls until the last message sent has left *)
  mb_max_busy : nat;
  mb_max_busy_le : Z.of_nat mb_max_busy <= 50000;
  mb_read_status : ∀ d, let '(w, d') := readl 0x2400 d in
    mb_view d' = mb_view d ∧ mb_busy d' = mb_busy d ∧ 0 <= w < 0xffffffff ∧
    (Z.testbit w 0 = true ↔ mv_in (mb_view d) ≠ []) ∧
    (Z.testbit w 1 = true ↔ mb_busy d ≠ 0%nat) ∧
    (∀ src m l, mv_in (mb_view d) = (src, m) :: l → bits_get 4 8 w = src);
  mb_read_in : ∀ (i : nat) d, (i < 16)%nat →
    let '(w, d') := readl (0x2440 + 4 * Z.of_nat i) d in
    mb_view d' = mb_view d ∧ mb_busy d' = mb_busy d ∧
    (∀ src m l, mv_in (mb_view d) = (src, m) :: l → mv_target (mb_view d) = src → w = array m i);
  mb_write_out : ∀ (i : nat) w d, (i < 16)%nat →
    let d' := (writel (0x2480 + 4 * Z.of_nat i) w d).2 in
    mb_view d' = mv_set_out i w (mb_view d) ∧ mb_busy d' = mb_busy d;
  mb_write_target : ∀ w d,
    let d' := (writel 0x240C w d).2 in
    mb_view d' = mv_set_target w (mb_view d) ∧ mb_busy d' = mb_busy d;
  mb_write_snd : ∀ d, mb_busy d = 0%nat →
    let d' := (writel 0x2404 0x1 d).2 in
    mb_view d' = mv_send (mb_view d) ∧ (mb_busy d' <= mb_max_busy)%nat;
  mb_write_rcv : ∀ d,
    let d' := (writel 0x2404 0x2 d).2 in
    mb_view d' = mv_receive (mb_view d) ∧ mb_busy d' = mb_busy d;
  mb_write_other : ∀ reg w d, is_mbox_view_reg reg = false →
    let d' := (writel reg w d).2 in mb_view d' = mb_view d ∧ mb_busy d' = mb_busy d;
  mb_read_other : ∀ reg d, is_mbox_view_reg reg = false →
    let d' := (readl reg d).2 in mb_view d' = mb_view d ∧ mb_busy d' = mb_busy d;
  mb_delay : ∀ us d,
    let d' := (udelay us d).2 in
    mb_view d' = mb_view d ∧ (mb_busy d' <= Nat.pred (mb_busy d))%nat
}.

(** ** Actions that keep a relation between the states before and after *)

Definition keeps_rel {S A} (R : S → S → Prop) (m : ST S A) : Prop := ∀ s, R s (m s).2.

Section keeps.
Context {S : Type} (R : S → S → Prop) `{!PreOrder R}.

Lemma keeps_ret {A} (a : A) : keeps_rel R (mret a : ST S A).
Proof. intros s. cbn. reflexivity. Qed.

Lemma keeps_bind {A B} (m : ST S A) (f : A → ST S B) :
  keeps_rel R m → (∀ a, keeps_rel R (f a)) → keeps_rel R (m ≫= f).
Proof.
  intros Hm Hf s. specialize (Hm s). unfold mbind, ST_bind. destruct (m s) as [a s'].
  cbn in Hm. etrans; [exact Hm|]. apply Hf.
Qed.

Lemma keeps_or_fail (m k : ST S Z) : keeps_rel R m → keeps_rel R k → keeps_rel R (or_fail m k).
Proof.
  intros Hm Hk. apply keeps_bind; [done|]. intros a. destruct (a <? 0); [apply keeps_ret|done].
Qed.

End keeps.

(** Decompose an action into its register accesses, by the form of the term
    (no unification: a poll would be unfolded). *)
Ltac keeps_tac :=
  repeat match goal with
    | |- keeps_rel _ (mret _) => apply keeps_ret; typeclasses eauto
    | |- keeps_rel _ (_ ≫= _) => apply keeps_bind; [typeclasses eauto| |intros ?]
    | |- keeps_rel _ (or_fail _ _) => apply keeps_or_fail; [typeclasses eauto| |]
    | |- keeps_rel _ (if ?b then _ else _) => destruct b
    | |- keeps_rel _ (match ?b with _ => _ end) => destruct b
    end.

Section frames.
Context {D : Type} `{HM : MboxHw D}.

(** The mailbox as it was (it may have become less busy). *)
Definition same_mbox (d d' : D) : Prop := mb_view d' = mb_view d ∧ (mb_busy d' <= mb_busy d)%nat.
(** The contexts as they were. *)
Definition same_ctxt (d d' : D) : Prop := ch_view d' = ch_view d ∧ (ch_busy d' <= ch_busy d)%nat.

#[export] Instance same_mbox_pre : PreOrder same_mbox.
Proof. split; [by intros d|]. intros d1 d2 d3 [E1 L1] [E2 L2]. split; [congruence|lia]. Qed.
#[export] Instance same_ctxt_pre : PreOrder same_ctxt.
Proof. split; [by intros d|]. intros d1 d2 d3 [E1 L1] [E2 L2]. split; [congruence|lia]. Qed.

Lemma same_ctxt_idle d d' : same_ctxt d d' → ctxt_idle d → ctxt_idle d' ∧ ctxts d' = ctxts d.
Proof.
  intros [E L] [Hb Hwf]. unfold ctxt_idle, ctxts. rewrite E. split; [split; [lia|done]|done].
Qed.

(** *** Context operations leave the mailbox alone *)

Lemma readl_mbox reg : is_mbox_view_reg reg = false → keeps_rel same_mbox (readl reg).
Proof. intros H d. destruct (mb_read_other reg d H) as [E1 E2]. split; [done|by rewrite E2]. Qed.
Lemma writel_mbox reg w : is_mbox_view_reg reg = false → keeps_rel same_mbox (writel reg w).
Proof. intros H d. destruct (mb_write_other reg w d H) as [E1 E2]. split; [done|by rewrite E2]. Qed.
Lemma udelay_mbox us : keeps_rel same_mbox (udelay us).
Proof. intros d. destruct (mb_delay us d) as [E1 E2]. split; [done|lia]. Qed.

Lemma hw_poll_mbox n reg mask val iv :
  is_mbox_view_reg reg = false → keeps_rel same_mbox (hw_poll n reg mask val iv).
Proof.
  intros Hr. induction n as [|n IH]; cbn [hw_poll]; keeps_tac;
    [by apply readl_mbox|by apply readl_mbox|apply udelay_mbox|exact IH].
Qed.

Lemma monitor_mbox reg mask val iv t :
  is_mbox_view_reg reg = false → keeps_rel same_mbox (hw_monitor_reg reg mask val iv t).
Proof. intros Hr. by apply hw_poll_mbox. Qed.

(** Four consecutive registers of the context interface. *)
Lemma write_regs_mbox reg l :
  0 <= reg → reg + 4 * Z.of_nat (length l) <= 0x2400 → keeps_rel same_mbox (write_regs reg l).
Proof.
  revert reg. induction l as [|w l IH]; intros reg H0 Hr; cbn [write_regs length] in *; keeps_tac.
  - apply writel_mbox. unfold is_mbox_view_reg. zcmp; done || lia.
  - apply IH; lia.
Qed.

Lemma read_regs_mbox reg n :
  0 <= reg → reg + 4 * Z.of_nat n <= 0x2400 → keeps_rel same_mbox (read_regs reg n).
Proof.
  revert reg. induction n as [|n IH]; intros reg H0 Hr; cbn [read_regs] in *; keeps_tac.
  - apply readl_mbox. unfold is_mbox_view_reg. zcmp; done || lia.
  - apply IH; lia.
Qed.

Lemma indirect_prog_mbox qid op sel data cnt verify :
  cnt <= 4 → keeps_rel same_mbox (hw_indirect_ctext_prog qid op sel data cnt verify).
Proof.
  intros Hc. unfold hw_indirect_ctext_prog, ind_ctxt_prepare. keeps_tac;
    lazymatch goal with
    | |- keeps_rel _ (writel _ _) => by apply writel_mbox
    | |- keeps_rel _ (hw_monitor_reg _ _ _ _ _) => by apply monitor_mbox
    | |- keeps_rel _ (read_regs _ _) =>
        apply read_regs_mbox; unfold QDMA_REG_IND_CTXT_DATA_BASE; lia
    | |- keeps_rel _ (write_regs _ _) =>
        apply write_regs_mbox; [done|];
        rewrite ?length_app, ?length_map, ?length_seq, ?length_replicate;
        unfold QDMA_REG_IND_CTXT_DATA_BASE, QDMA_REG_IND_CTXT_MASK_BASE, QDMA_REG_IND_CTXT_REG_COUNT; lia
    end.
Qed.

Lemma prog_mbox qid op sel data cnt verify :
  cnt <= 4 → keeps_rel same_mbox (prog qid op sel data cnt verify).
Proof. intros Hc. unfold prog. keeps_tac. by apply indirect_prog_mbox. Qed.

Lemma context_clear_mbox qid st c2h : keeps_rel same_mbox (qdma_descq_context_clear qid st c2h).
Proof. unfold qdma_descq_context_clear. keeps_tac; by apply prog_mbox. Qed.

Lemma context_program_mbox qid st c2h c : keeps_rel same_mbox (qdma_descq_context_program qid st c2h c).
Proof.
  unfold qdma_descq_context_program. keeps_tac;
    lazymatch goal with
    | |- keeps_rel _ (prog _ _ _ _ _ _) => by apply prog_mbox
    | _ => apply context_clear_mbox
    end.
Qed.

Lemma read_into_mbox qid sel cnt get upd k c :
  cnt <= 4 → (∀ c, keeps_rel same_mbox (k c)) → keeps_rel same_mbox (read_into qid sel cnt get upd k c).
Proof. intros Hc Hk. unfold read_into. keeps_tac; [by apply indirect_prog_mbox|apply Hk]. Qed.

Lemma context_read_mbox qid st c2h : keeps_rel same_mbox (qdma_descq_context_read qid st c2h).
Proof.
  unfold qdma_descq_context_read.
  do 3 (apply read_into_mbox; [done|intros ?]). keeps_tac.
  do 2 (apply read_into_mbox; [done|intros ?]). keeps_tac.
Qed.

Lemma set_fmap_mbox fid qb qm : 0 <= fid < 256 → keeps_rel same_mbox (hw_set_fmap fid qb qm).
Proof.
  intros Hf. apply writel_mbox. unfold is_mbox_view_reg, QDMA_REG_TRQ_SEL_FMAP_BASE, QDMA_REG_TRQ_SEL_FMAP_STEP.
  zcmp; done || lia.
Qed.

(** *** Mailbox operations leave the contexts alone *)

Lemma readl_ctxt reg : is_ctxt_reg reg = false → keeps_rel same_ctxt (readl reg).
Proof. intros H d. destruct (ch_read_other reg d H) as [E1 E2]. split; [done|by rewrite E2]. Qed.
Lemma writel_ctxt reg w : is_ctxt_reg reg = false → keeps_rel same_ctxt (writel reg w).
Proof. intros H d. destruct (ch_write_other reg w d H) as [E1 E2]. split; [done|by rewrite E2]. Qed.
Lemma udelay_ctxt us : keeps_rel same_ctxt (udelay us).
Proof. intros d. destruct (ch_delay us d) as [E1 E2]. split; [done|lia]. Qed.

Lemma mbox_not_ctxt reg : 0x2400 <= reg → is_ctxt_reg reg = false.
Proof.
  intros H. unfold is_ctxt_reg, QDMA_REG_IND_CTXT_DATA_BASE, QDMA_REG_IND_CTXT_CMD. zcmp; done || lia.
Qed.

Lemma set_fmap_ctxt fid qb qm : 0 <= fid < 256 → keeps_rel same_ctxt (hw_set_fmap fid qb qm).
Proof.
  intros Hf. apply writel_ctxt. unfold is_ctxt_reg, QDMA_REG_TRQ_SEL_FMAP_BASE, QDMA_REG_TRQ_SEL_FMAP_STEP,
    QDMA_REG_IND_CTXT_DATA_BASE, QDMA_REG_IND_CTXT_CMD. zcmp; done || lia.
Qed.

Lemma hw_poll_ctxt n reg mask val iv :
  0x2400 <= reg → keeps_rel same_ctxt (hw_poll n reg mask val iv).
Proof.
  intros Hr. induction n as [|n IH]; cbn [hw_poll]; keeps_tac;
    [by apply readl_ctxt, mbox_not_ctxt|by apply readl_ctxt, mbox_not_ctxt|apply udelay_ctxt|exact IH].
Qed.

Lemma write_regs_ctxt reg l : 0x2400 <= reg → keeps_rel same_ctxt (write_regs reg l).
Proof.
  revert reg. induction l as [|w l IH]; intros reg Hr; cbn [write_regs]; keeps_tac.
  - by apply writel_ctxt, mbox_not_ctxt.
  - apply IH. lia.
Qed.

Lemma read_regs_ctxt reg n : 0x2400 <= reg → keeps_rel same_ctxt (read_regs reg n).
Proof.
  revert reg. induction n as [|n IH]; intros reg Hr; cbn [read_regs]; keeps_tac.
  - by apply readl_ctxt, mbox_not_ctxt.
  - apply IH. lia.
Qed.

Ltac ctxt_tac :=
  keeps_tac;
  lazymatch goal with
  | |- keeps_rel _ (writel _ _) => apply writel_ctxt, mbox_not_ctxt
  | |- keeps_rel _ (readl _) => apply readl_ctxt, mbox_not_ctxt
  | |- keeps_rel _ (write_regs _ _) => apply write_regs_ctxt
  | |- keeps_rel _ (read_regs _ _) => apply read_regs_ctxt
  | |- keeps_rel _ (hw_monitor_reg _ _ _ _ _) => apply hw_poll_ctxt
  end.

Lemma mbox_send_ctxt m wait :
  0 <= mget hdr_dst m → keeps_rel same_ctxt (mbox_send false m wait).
Proof.
  intros Hd. unfold mbox_send, pf_mbox_clear_func_ack. ctxt_tac;
    unfold MBOX_BASE, MBOX_FN_TARGET, MBOX_FN_STATUS, MBOX_FN_CMD, MBOX_OUT_MSG_BASE, MBOX_PF_ACK_BASE,
      MBOX_PF_ACK_STEP; try lia.
  pose proof (Z.div_pos (mget hdr_dst m) 32). lia.
Qed.

Lemma mbox_read_ctxt m wait : keeps_rel same_ctxt (mbox_read false m wait).
Proof.
  unfold mbox_read. ctxt_tac;
    unfold MBOX_BASE, MBOX_FN_TARGET, MBOX_FN_STATUS, MBOX_FN_CMD, MBOX_IN_MSG_BASE; lia.
Qed.

Lemma clear_acks_ctxt n reg : 0x2400 <= reg → keeps_rel same_ctxt (clear_acks n reg).
Proof.
  revert reg. induction n as [|n IH]; intros reg Hr; cbn [clear_acks]; keeps_tac.
  - by apply readl_ctxt, mbox_not_ctxt.
  - by apply writel_ctxt, mbox_not_ctxt.
  - apply IH. unfold MBOX_PF_ACK_STEP. lia.
Qed.

Lemma clear_ack_ctxt : keeps_rel same_ctxt pf_mbox_clear_ack.
Proof.
  unfold pf_mbox_clear_ack. keeps_tac; [by apply readl_ctxt|by apply clear_acks_ctxt].
Qed.

(** *** Sending *)

(** Polling a device whose last message leaves within [n] polls. *)
Lemma poll_out_idle n (d : D) iv :
  (mb_busy d <= n)%nat →
  ∃ d', hw_poll n (MBOX_BASE false + MBOX_FN_STATUS) F_MBOX_FN_STATUS_OUT_MSG 0 iv d = (1, d') ∧
        mb_view d' = mb_view d ∧ mb_busy d' = 0%nat.
Proof.
  change (MBOX_BASE false + MBOX_FN_STATUS) with 0x2400. revert d.
  induction n as [|n IH]; intros d Hb; cbn [hw_poll]; pose proof (mb_read_status d) as Hr;
    destruct (readl 0x2400 d) as [w d1] eqn:E; destruct Hr as (Hv & Hbu & _ & _ & Hw & _);
    rewrite (st_bind_eq _ _ _ _ _ E); change F_MBOX_FN_STATUS_OUT_MSG with (2 ^ 1);
    rewrite land_pow2_testbit by lia; destruct (Z.testbit w 1) eqn:Ht; cbn [Z.eqb Z.pow].
  - pose proof (proj1 Hw eq_refl). lia.
  - exists d1. assert (mb_busy d = 0%nat) as H0 by (destruct (mb_busy d); [done|discriminate (proj2 Hw ltac:(done))]).
    split_and!; [done..|congruence].
  - change (2 ^ 1 =? 0) with false. cbn iota. st_run as [[] d2] eqn:E2.
    destruct (mb_delay iv d1) as [Hv2 Hb2]. rewrite E2 in Hv2, Hb2. cbn in Hv2, Hb2.
    destruct (IH d2) as (d3 & Hp & Hv3 & Hb3); [lia|]. exists d3. split_and!; [exact Hp|congruence|done].
  - exists d1. assert (mb_busy d = 0%nat) as H0 by (destruct (mb_busy d); [done|discriminate (proj2 Hw ltac:(done))]).
    split_and!; [done..|congruence].
Qed.

Lemma monitor_out_idle (d : D) :
  (mb_busy d <= mb_max_busy)%nat →
  ∃ d', hw_monitor_reg (MBOX_BASE false + MBOX_FN_STATUS) F_MBOX_FN_STATUS_OUT_MSG 0 100 (5000 * 1000) d
        = (1, d') ∧ mb_view d' = mb_view d ∧ mb_busy d' = 0%nat.
Proof.
  intros Hb. unfold hw_monitor_reg. change (100 =? 0) with false. change (5000 * 1000 =? 0) with false.
  cbv iota zeta. assert (do_while_iters (s32 (5000 * 1000 / 100)) = 50000) as -> by reflexivity.
  apply poll_out_idle. pose proof mb_max_busy_le. lia.
Qed.

(** The output registers, written one by one. *)
Lemma write_out_regs l k (d : D) :
  (k + length l <= 16)%nat → length (mv_out (mb_view d)) = 16%nat →
  ∃ d', write_regs (0x2480 + 4 * Z.of_nat k) l d = (tt, d') ∧ mb_busy d' = mb_busy d ∧
    mb_view d' = MboxView (mv_in (mb_view d))
      (take k (mv_out (mb_view d)) ++ l ++ drop (k + length l) (mv_out (mb_view d)))
      (mv_target (mb_view d)) (mv_sent (mb_view d)).
Proof.
  revert k d. induction l as [|w l IH]; intros k d Hk Hl; cbn [write_regs length] in *.
  { exists d. split_and!; [done..|]. rewrite Nat.add_0_r. cbn. rewrite take_drop. by destruct (mb_view d). }
  destruct (mb_write_out k w d) as [Hv Hb]; [lia|]. st_run as [[] d1] eqn:E. cbn in Hv, Hb.
  replace (0x2480 + 4 * Z.of_nat k + 4) with (0x2480 + 4 * Z.of_nat (S k)) by lia.
  destruct (IH (S k) d1) as (d' & -> & Hb' & Hv'); [lia|rewrite Hv; cbn; by rewrite length_insert|].
  exists d'. split_and!; [done|congruence|]. rewrite Hv', Hv. cbn. f_equal.
  rewrite (take_S_r _ _ w) by (by apply list_lookup_insert_eq; lia).
  rewrite take_insert_ge by lia. rewrite drop_insert_lt by lia.
  rewrite <- app_assoc. cbn. by rewrite Nat.add_succ_r.
Qed.

(** Sending waits until the last message has left, then the message goes to
    the function of its header. *)
Lemma mbox_send_run (m : mbox_msg) (d : D) :
  msg_wf m → (mb_busy d <= mb_max_busy)%nat → length (mv_out (mb_view d)) = 16%nat →
  let m' := mset hdr_sent 0 m in
  ∃ d', mbox_send false m true d = ((0, mset hdr_sent 1 m'), d') ∧
    mb_view d' = MboxView (mv_in (mb_view d)) m' (mget hdr_dst m)
                   (mv_sent (mb_view d) ++ [(mget hdr_dst m, m')]) ∧
    (mb_busy d' <= mb_max_busy)%nat.
Proof.
  intros Hm Hb Ho m'. pose proof (mset_wf hdr_sent 0 m eq_refl Hm) as [Hl _]. fold m' in Hl.
  pose proof (mget_range hdr_dst m eq_refl) as Hdst. cbn in Hdst.
  unfold mbox_send, pf_mbox_clear_func_ack. fold m'.
  assert (Z.land (mget hdr_dst m) M_MBOX_FN_TARGET_ID = mget hdr_dst m) as ->.
  { change M_MBOX_FN_TARGET_ID with (Z.ones 8). rewrite Z.land_ones by lia. apply Z.mod_small. lia. }
  destruct (mb_write_target (mget hdr_dst m) d) as [Hv1 Hb1].
  change (MBOX_BASE false + MBOX_FN_TARGET) with 0x240C. st_run as [[] d1] eqn:E1. cbn in Hv1, Hb1.
  destruct (monitor_out_idle d1) as (d2 & E2 & Hv2 & Hb2); [lia|].
  rewrite (st_bind_eq _ _ _ _ _ E2). cbn [Z.ltb Z.compare].
  change (MBOX_BASE false + MBOX_FN_STATUS) with 0x2400. pose proof (mb_read_status d2) as Hr.
  st_run as [w d3] eqn:E3. destruct Hr as (Hv3 & Hb3 & _ & _ & Hw & _).
  assert (Z.land w F_MBOX_FN_STATUS_OUT_MSG = 0) as ->.
  { change F_MBOX_FN_STATUS_OUT_MSG with (2 ^ 1). rewrite land_pow2_testbit by lia.
    destruct (Z.testbit w 1); [|done]. by pose proof (proj1 Hw eq_refl). }
  cbn [Z.eqb negb]. rewrite map_array_take, take_ge by (unfold MBOX_MSG_REG_MAX; lia).
  destruct (write_out_regs m' 0 d3) as (d4 & E4 & Hb4 & Hv4); [lia|rewrite Hv3, Hv2, Hv1; done|].
  change (0x2480 + 4 * Z.of_nat 0) with (MBOX_BASE false + MBOX_OUT_MSG_BASE) in E4.
  rewrite (st_bind_eq _ _ _ _ _ E4).
  destruct (mb_write_other (MBOX_BASE false + MBOX_PF_ACK_BASE + mget hdr_dst m / 32 * MBOX_PF_ACK_STEP)
    (u32 (Z.shiftl 1 (mget hdr_dst m mod 32))) d4) as [Hv5 Hb5].
  { pose proof (Z.div_pos (mget hdr_dst m) 32). pose proof (Z.div_lt_upper_bound (mget hdr_dst m) 32 8).
    unfold is_mbox_view_reg, MBOX_BASE, MBOX_PF_ACK_BASE, MBOX_PF_ACK_STEP. zcmp; done || lia. }
  st_run as [[] d5] eqn:E5. cbn in Hv5, Hb5.
  change (MBOX_BASE false + MBOX_FN_CMD) with 0x2404. change F_MBOX_FN_CMD_SND with 0x1.
  destruct (mb_write_snd d5) as [Hv6 Hb6]; [congruence|].
  st_run as [[] d6] eqn:E6. cbn in Hv6, Hb6. exists d6. split_and!; [done| |done].
  rewrite Hv6, Hv5, Hv4, Hv3, Hv2, Hv1. unfold mv_send, mv_set_target. cbn [mv_in mv_out mv_target mv_sent take app Nat.add].
  rewrite (drop_ge (mv_out (mb_view d))) by (rewrite Ho, Hl; lia). rewrite app_nil_r. done.
Qed.

(** *** Receiving *)

Lemma bits_put_get s w x : 0 <= s → 0 <= w → bits_put s w (bits_get s w x) x = x.
Proof.
  intros Hs Hw. apply Z.bits_inj'. intros n Hn. rewrite bits_put_spec by lia.
  destruct (Z.leb_spec s n), (Z.ltb_spec n (s + w)); cbn [andb]; try done.
  rewrite bits_get_spec, Z.ones_spec_low, andb_true_r by lia. f_equal. lia.
Qed.

Lemma mset_mget f (m : mbox_msg) : mf_ok f = true → length m = 16%nat → mset f (mget f m) m = m.
Proof.
  intros (Hw & Hs & Hl & _)%mf_ok_spec Hm. unfold mset, mget. rewrite bits_put_get by lia.
  apply list_insert_id. unfold array. rewrite nth_lookup.
  destruct (lookup_lt_is_Some_2 m (mf_word f)) as [w E]; [lia|]. by rewrite E.
Qed.

(** The input registers of the message at the head. *)
Lemma read_in_regs n k src m l (d : D) :
  (k + n <= 16)%nat → mv_in (mb_view d) = (src, m) :: l → mv_target (mb_view d) = src →
  ∃ d', read_regs (0x2440 + 4 * Z.of_nat k) n d = (map (array m) (seq k n), d') ∧
    mb_view d' = mb_view d ∧ mb_busy d' = mb_busy d.
Proof.
  revert k d. induction n as [|n IH]; intros k d Hk Hin Ht; cbn [read_regs seq map]; [by exists d|].
  pose proof (mb_read_in k d) as Hr. st_run as [w d1] eqn:E.
  destruct Hr as (Hv & Hb & Hw); [lia|]. rewrite (Hw _ _ _ Hin Ht).
  replace (0x2440 + 4 * Z.of_nat k + 4) with (0x2440 + 4 * Z.of_nat (S k)) by lia.
  destruct (IH (S k) d1) as (d' & Er & Hv' & Hb'); [lia|by rewrite Hv..|].
  rewrite (st_bind_eq _ _ _ _ _ Er). exists d'. split_and!; [done|congruence|congruence].
Qed.

Lemma mbox_read_empty m (d : D) :
  mv_in (mb_view d) = [] →
  ∃ d', mbox_read false m false d = ((- EAGAIN, mset hdr_rcv 0 m), d') ∧
    mb_view d' = mb_view d ∧ mb_busy d' = mb_busy d.
Proof.
  intros Hin. unfold mbox_read. change (MBOX_BASE false + MBOX_FN_STATUS) with 0x2400.
  rewrite (st_bind_eq (mret 0) _ d 0 d eq_refl). cbn [Z.ltb Z.compare].
  pose proof (mb_read_status d) as Hr. st_run as [w d1] eqn:E.
  destruct Hr as (Hv & Hb & Hw & Hi & _ & _). destruct (Z.eqb_spec w 0xffffffff); [lia|].
  assert (Z.land w F_MBOX_FN_STATUS_IN_MSG = 0) as ->.
  { change F_MBOX_FN_STATUS_IN_MSG with (2 ^ 0). rewrite land_pow2_testbit by lia.
    destruct (Z.testbit w 0); [|done]. by destruct (proj1 Hi eq_refl). }
  by exists d1.
Qed.

(** A message waiting is received whole, its sender the one the hardware
    names, and acknowledged. *)
Lemma mbox_read_run m0 src (m : mbox_msg) l (d : D) :
  mv_in (mb_view d) = (src, m) :: l → length m = 16%nat →
  ∃ d', mbox_read false m0 false d = ((0, mset hdr_src src m), d') ∧ mb_busy d' = mb_busy d ∧
    mb_view d' = MboxView l (mv_out (mb_view d)) src (mv_sent (mb_view d)).
Proof.
  intros Hin Hm. unfold mbox_read. change (MBOX_BASE false + MBOX_FN_STATUS) with 0x2400.
  rewrite (st_bind_eq (mret 0) _ d 0 d eq_refl). cbn [Z.ltb Z.compare].
  pose proof (mb_read_status d) as Hr. st_run as [w d1] eqn:E.
  destruct Hr as (Hv & Hb & Hw & Hi & _ & Hs). destruct (Z.eqb_spec w 0xffffffff); [lia|].
  assert (Z.testbit w 0 = true) as Ht by (apply Hi; by rewrite Hin).
  assert (Z.land w F_MBOX_FN_STATUS_IN_MSG = 1) as ->.
  { change F_MBOX_FN_STATUS_IN_MSG with (2 ^ 0). rewrite land_pow2_testbit by lia. by rewrite Ht. }
  assert (G_MBOX_FN_STATUS_SRC w = src) as -> by (exact (Hs _ _ _ Hin)).
  cbn [Z.eqb]. change (MBOX_BASE false + MBOX_FN_TARGET) with 0x240C.
  destruct (mb_write_target src d1) as [Hv2 Hb2]. st_run as [[] d2] eqn:E2. cbn in Hv2, Hb2.
  destruct (read_in_regs 16 0 src m l d2) as (d3 & E3 & Hv3 & Hb3);
    [lia|by rewrite Hv2, Hv|by rewrite Hv2|].
  change (0x2440 + 4 * Z.of_nat 0) with (MBOX_BASE false + MBOX_IN_MSG_BASE) in E3.
  rewrite (st_bind_eq _ _ _ _ _ E3), map_array_take, take_ge by lia. cbn [orb].
  change (MBOX_BASE false + MBOX_FN_CMD) with 0x2404. change F_MBOX_FN_CMD_RCV with 0x2.
  destruct (mb_write_rcv d3) as [Hv4 Hb4]. st_run as [[] d4] eqn:E4. cbn in Hv4, Hb4.
  exists d4. split_and!.
  - destruct (Z.eqb_spec src (mget hdr_src m)) as [Es|]; [|done]. rewrite Es, mset_mget; done.
  - congruence.
  - rewrite Hv4, Hv3, Hv2, Hv. unfold mv_receive, mv_set_target. cbn. by rewrite Hin, Z.eqb_refl.
Qed.

(** Clearing the acknowledge registers. *)
Lemma clear_acks_mbox n reg :
  0x2420 <= reg → reg + 4 * Z.of_nat n <= 0x2440 → keeps_rel same_mbox (clear_acks n reg).
Proof.
  revert reg. induction n as [|n IH]; intros reg H0 Hr; cbn [clear_acks]; keeps_tac.
  - apply readl_mbox. unfold is_mbox_view_reg. zcmp; done || lia.
  - apply writel_mbox. unfold is_mbox_view_reg. zcmp; done || lia.
  - apply IH; unfold MBOX_PF_ACK_STEP; lia.
Qed.

Lemma clear_ack_mbox : keeps_rel same_mbox pf_mbox_clear_ack.
Proof.
  unfold pf_mbox_clear_ack. keeps_tac.
  - intros d. change (MBOX_BASE false + MBOX_FN_STATUS) with 0x2400.
    pose proof (mb_read_status d) as Hr. destruct (readl 0x2400 d) as [w d1].
    destruct Hr as (Hv & Hb & _). split; cbn; [done|lia].
  - by apply clear_acks_mbox.
Qed.

End frames.

#[export] Existing Instances same_mbox_pre same_ctxt_pre.

(** ** An executable mailbox device *)

Module SimMbox.

Record t := Sim { hw : SimHw.t; raw_view : mbox_view; busy : nat }.

(** The senders are function numbers, as a [u8] holds them. *)
Definition norm_in (l : list (Z * mbox_msg)) : list (Z * mbox_msg) := map (λ p, (u8 p.1, p.2)) l.
Definition norm (v : mbox_view) : mbox_view :=
  MboxView (norm_in (mv_in v)) (mv_out v) (mv_target v) (mv_sent v).
Definition view (d : t) : mbox_view := norm (raw_view d).

Definition status (d : t) : Z :=
  let v := view d in
  Z.lor (match mv_in v with [] => 0 | (src, _) :: _ => Z.lor 1 (Z.shiftl src 4) end)
        (if Nat.eqb (busy d) 0 then 0 else 2).

Definition word_index (base reg : Z) : option nat :=
  if (base <=? reg) && (reg <? base + 64) && ((reg - base) mod 4 =? 0)
  then Some (Z.to_nat ((reg - base) / 4)) else None.

Definition read (reg : Z) : ST t Z := λ d,
  if reg =? 0x2400 then (status d, d) else
  match word_index 0x2440 reg with
  | Some i => (match mv_in (view d) with (_, m) :: _ => array m i | [] => 0 end, d)
  | None => let '(w, h) := SimHw.read reg (hw d) in (w, Sim h (raw_view d) (busy d))
  end.

Definition write (reg w : Z) : ST t unit := λ d,
  if reg =? 0x240C then (tt, Sim (hw d) (mv_set_target w (view d)) (busy d))
  else if reg =? 0x2404 then
    if w =? 1 then (tt, Sim (hw d) (mv_send (view d)) 7)
    else (tt, Sim (hw d) (mv_receive (view d)) (busy d))
  else match word_index 0x2480 reg with
  | Some i => (tt, Sim (hw d) (mv_set_out i w (view d)) (busy d))
  | None => let '(_, h) := SimHw.write reg w (hw d) in (tt, Sim h (raw_view d) (busy d))
  end.

Definition delay (us : Z) : ST t unit := λ d,
  (tt, Sim (SimHw.delay us (hw d)).2 (raw_view d) (Nat.pred (busy d))).

#[export] Instance io : RegIo t := {| readl := read; writel := write; udelay := delay |}.

Definition init (ins : list (Z * mbox_msg)) : t :=
  Sim (SimHw.init 3) (MboxView ins (replicate 16 0) 0 []) 0.

Lemma u8_idem x : u8 (u8 x) = u8 x.
Proof. unfold u8. by rewrite Z.mod_mod. Qed.

Lemma norm_in_idem l : norm_in (norm_in l) = norm_in l.
Proof. unfold norm_in. rewrite map_map. apply map_ext. intros p. cbn. by rewrite u8_idem. Qed.

Lemma norm_view d : norm (view d) = view d.
Proof. unfold view, norm. cbn [mv_in mv_out mv_target mv_sent]. by rewrite norm_in_idem. Qed.

Lemma norm_receive d : norm (mv_receive (view d)) = mv_receive (view d).
Proof.
  destruct d as [h [l o tg se] b]. unfold view, norm, mv_receive. cbn [mv_in mv_out mv_target mv_sent raw_view].
  f_equal. destruct l as [|[src m] l]; [done|].
  change (norm_in ((src, m) :: l)) with ((u8 src, m) :: norm_in l). cbn iota beta.
  destruct (_ =? _); [apply norm_in_idem|]. cbn. by rewrite u8_idem, norm_in_idem.
Qed.

Lemma word_index_base base (i : nat) :
  (i < 16)%nat → word_index base (base + 4 * Z.of_nat i) = Some i.
Proof.
  intros Hi. unfold word_index. replace (base + 4 * Z.of_nat i - base) with (Z.of_nat i * 4) by lia.
  rewrite Z_mod_mult, Z_div_mult, Nat2Z.id by lia. zcmp; [done|lia..].
Qed.

Lemma word_index_None base reg : reg < base ∨ base + 64 <= reg → word_index base reg = None.
Proof.
  intros H. unfold word_index.
  destruct (Z.leb_spec base reg), (Z.ltb_spec reg (base + 64)); cbn; done || lia.
Qed.

(** Below the mailbox the device is the context device. *)
Lemma read_low reg d : reg < 0x2400 →
  read reg d = ((SimHw.read reg (hw d)).1, Sim (SimHw.read reg (hw d)).2 (raw_view d) (busy d)).
Proof.
  intros Hr. unfold read. destruct (Z.eqb_spec reg 0x2400); [lia|].
  rewrite word_index_None by lia. by destruct (SimHw.read reg (hw d)).
Qed.

Lemma write_low reg w d : reg < 0x2400 →
  write reg w d = (tt, Sim (SimHw.write reg w (hw d)).2 (raw_view d) (busy d)).
Proof.
  intros Hr. unfold write. destruct (Z.eqb_spec reg 0x240C); [lia|].
  destruct (Z.eqb_spec reg 0x2404); [lia|]. rewrite word_index_None by lia.
  by destruct (SimHw.write reg w (hw d)).
Qed.

Lemma read_hw reg d : hw (read reg d).2 = hw d ∨ hw (read reg d).2 = (SimHw.read reg (hw d)).2.
Proof.
  unfold read. destruct (reg =? 0x2400); [by left|]. destruct (word_index _ _); [by left|right].
  by destruct (SimHw.read reg (hw d)).
Qed.

Lemma write_hw reg w d : hw (write reg w d).2 = hw d ∨ hw (write reg w d).2 = (SimHw.write reg w (hw d)).2.
Proof.
  unfold write. destruct (reg =? 0x240C); [by left|].
  destruct (reg =? 0x2404); [destruct (w =? 1); by left|].
  destruct (word_index _ _); [by left|right]. by destruct (SimHw.write reg w (hw d)).
Qed.

#[export] Program Instance ctxt : CtxtHw t :=
  {| ch_view d := SimHw.view (hw d); ch_busy d := SimHw.busy (hw d); ch_max_busy := 5000 |}.
Next Obligation. lia. Qed.
Next Obligation.
  intros i w d Hi. cbn [writel io]. rewrite write_low by (unfold QDMA_REG_IND_CTXT_DATA_BASE; lia).
  exact (ch_write_data (D := SimHw.t) i w (hw d) Hi).
Qed.
Next Obligation.
  intros i w d Hi. cbn [writel io]. rewrite write_low by (unfold QDMA_REG_IND_CTXT_MASK_BASE; lia).
  exact (ch_write_mask (D := SimHw.t) i w (hw d) Hi).
Qed.
Next Obligation.
  intros w d Hb. cbn [writel io]. rewrite write_low by done.
  exact (ch_write_cmd (D := SimHw.t) w (hw d) Hb).
Qed.
Next Obligation.
  intros reg w d Hr. cbn [writel io]. destruct (write_hw reg w d) as [-> | ->]; [done|].
  exact (ch_write_other (D := SimHw.t) reg w (hw d) Hr).
Qed.
Next Obligation.
  intros d. cbn [readl io]. rewrite read_low by done. exact (ch_read_cmd (D := SimHw.t) (hw d)).
Qed.
Next Obligation.
  intros i d Hi. cbn [readl io]. rewrite read_low by (unfold QDMA_REG_IND_CTXT_DATA_BASE; lia).
  pose proof (ch_read_data (D := SimHw.t) i (hw d) Hi) as H. cbn [readl SimHw.io] in H.
  by destruct (SimHw.read _ (hw d)).
Qed.
Next Obligation.
  intros reg d Hr. cbn [readl io]. destruct (read_hw reg d) as [-> | ->]; [done|].
  exact (ch_read_other (D := SimHw.t) reg (hw d) Hr).
Qed.
Next Obligation. intros us d. exact (ch_delay (D := SimHw.t) us (hw d)). Qed.

Lemma status_spec d :
  0 <= status d < 0xffffffff ∧
  (Z.testbit (status d) 0 = true ↔ mv_in (view d) ≠ []) ∧
  (Z.testbit (status d) 1 = true ↔ busy d ≠ 0%nat) ∧
  (∀ src m l, mv_in (view d) = (src, m) :: l → bits_get 4 8 (status d) = src).
Proof.
  unfold status. cbv zeta.
  set (b := if Nat.eqb (busy d) 0 then 0 else 2).
  assert (0 <= b < 2 ^ 12 ∧ Z.testbit b 0 = false ∧ bits_get 4 8 b = 0 ∧
          (Z.testbit b 1 = true ↔ busy d ≠ 0%nat)) as (Hb & Hb0 & Hb4 & Hb1).
  { unfold b. destruct (Nat.eqb_spec (busy d) 0); cbn; split_and!; try done; lia. }
  assert (∀ src m l, mv_in (view d) = (src, m) :: l → 0 <= src < 2 ^ 8) as Hsrc.
  { unfold view, norm, norm_in. cbn. destruct (mv_in (raw_view d)) as [|p l0]; [done|].
    cbn. intros src m l [= <- _ _]. apply Z.mod_pos_bound. lia. }
  destruct (mv_in (view d)) as [|[src m] l].
  - rewrite Z.lor_0_l. split_and!; [lia|lia| |done|done]. rewrite Hb0. by split.
  - specialize (Hsrc src m l eq_refl).
    assert (0 <= Z.shiftl src 4 < 2 ^ 12) as H4 by (rewrite Z.shiftl_mul_pow2 by lia; lia).
    pose proof (lor_bound 12 1 (Z.shiftl src 4) ltac:(lia) ltac:(lia) H4) as H5.
    pose proof (lor_bound 12 _ b ltac:(lia) H5 Hb) as H6.
    split_and!; [lia|lia| | |].
    + rewrite !Z.lor_spec. by split.
    + rewrite !Z.lor_spec, (Z.shiftl_spec_low src 4 1) by lia. exact Hb1.
    + intros src' m' l' [= <- _ _]. rewrite !bits_get_lor, Hb4, bits_get_field by lia.
      change (bits_get 4 8 1) with 0. by rewrite Z.lor_0_r.
Qed.

#[export] Program Instance mbox : MboxHw t :=
  {| mb_view := view; mb_busy := busy; mb_max_busy := 7 |}.
Next Obligation. lia. Qed.
Next Obligation.
  intros d. cbn [readl io]. unfold read. rewrite Z.eqb_refl.
  destruct (status_spec d) as (Hw & H0 & H1 & Hs). split; [reflexivity|]. split; [reflexivity|]. split; [exact Hw|]. split; [exact H0|]. by split.
Qed.
Next Obligation.
  intros i d Hi. cbn [readl io]. unfold read.
  destruct (Z.eqb_spec (0x2440 + 4 * Z.of_nat i) 0x2400); [lia|]. rewrite word_index_base by done.
  split_and!; [done..|]. by intros src m l -> _.
Qed.
Next Obligation.
  intros i w d Hi. cbn [writel io]. unfold write.
  destruct (Z.eqb_spec (0x2480 + 4 * Z.of_nat i) 0x240C); [lia|].
  destruct (Z.eqb_spec (0x2480 + 4 * Z.of_nat i) 0x2404); [lia|]. rewrite word_index_base by done.
  split; [|done]. change (norm (mv_set_out i w (view d))
    = mv_set_out i w (view d)). rewrite <- (norm_view d) at 2. done.
Qed.
Next Obligation.
  intros w d. split; [|done]. change (norm (mv_set_target w (view d)) = mv_set_target w (view d)).
  rewrite <- (norm_view d) at 2. done.
Qed.
Next Obligation.
  intros d Hb. split; [|cbn; lia]. change (norm (mv_send (view d)) = mv_send (view d)).
  rewrite <- (norm_view d) at 2. done.
Qed.
Next Obligation. intros d. split; [|done]. apply norm_receive. Qed.
Next Obligation.
  intros reg w d Hr. cbn [writel io]. unfold is_mbox_view_reg in Hr.
  rewrite !orb_false_iff, andb_false_iff, !Z.eqb_neq, Z.leb_gt, Z.ltb_ge in Hr. unfold write.
  destruct (Z.eqb_spec reg 0x240C); [lia|]. destruct (Z.eqb_spec reg 0x2404); [lia|].
  rewrite word_index_None by lia. by destruct (SimHw.write reg w (hw d)).
Qed.
Next Obligation.
  intros reg d Hr. cbn [readl io]. unfold is_mbox_view_reg in Hr.
  rewrite !orb_false_iff, andb_false_iff, !Z.eqb_neq, Z.leb_gt, Z.ltb_ge in Hr. unfold read.
  destruct (Z.eqb_spec reg 0x2400); [lia|].
  rewrite word_index_None by lia. by destruct (SimHw.read reg (hw d)).
Qed.
Next Obligation. intros us d. by split. Qed.

Lemma mbox_init_idle ins : ctxt_idle (init ins).
Proof. exact (SimHw.init_idle 3). Qed.

End SimMbox.

#[export] Existing Instances SimMbox.io SimMbox.ctxt SimMbox.mbox.
