(* ===== verification/MboxServe.v ===== *)
(** * The physical function as a server of its virtual functions

    An abstract account of [qdma_mbox_proc] (qdma_mbox.c): what one message
    does to the table of contexts, to the table of virtual functions and to
    the routine's status, and what is answered ([pf_answer]); and the
    refinement theorem that the routine, register access by register access,
    does exactly that to every message waiting. *)

From S2P Require Import Prelude Regs Types Context Sriov Msg Mbox MboxHw.

(** ** The specification *)

Record pf_spec := PfSpec {
  sp_dev : xlnx_dma_dev; sp_ctxt : gmap (Z * Z) (list Z); sp_status : Z }.

(** The operation a message asks for, on the tables. *)
Definition pf_effect (x : xlnx_dma_dev) (tbl : gmap (Z * Z) (list Z)) (m : mbox_msg)
    : xlnx_dma_dev * gmap (Z * Z) (list Z) * (Z * mbox_msg * bool) :=
  let op := mget hdr_op m in
  let src := mget hdr_src m in
  let qid := mget qctxt_qid m in
  let st := negb (mget qctxt_st m =? 0) in
  let c2h := negb (mget qctxt_c2h m =? 0) in
  if op =? MBOX_OP_HELLO then ((xdev_sriov_vf_online src x).2, tbl, (0, m, false))
  else if op =? MBOX_OP_BYE then ((xdev_sriov_vf_offline src x).2, tbl, (0, m, false))
  else if op =? MBOX_OP_FMAP then
    let m := if mget fmap_qbase m =? 0 then mset fmap_qbase (default_qbase src) m else m in
    ((xdev_sriov_vf_fmap src (mget fmap_qbase m) (mget fmap_qmax m) x).2, tbl, (0, m, false))
  else if op =? MBOX_OP_INTR_CTXT then (x, tbl, (- EINVAL, m, false))
  else if op =? MBOX_OP_QCTXT_CLR then (x, cleared qid st c2h tbl, (0, m, false))
  else if op =? MBOX_OP_QCTXT_RD then
    (x, tbl, (0, set_context (table_context tbl qid st c2h) m, false))
  else if op =? MBOX_OP_QCTXT_WRT then
    (x, programmed qid st c2h (qctxt_context m) (cleared qid st c2h tbl), (0, m, false))
  else (x, tbl, (0, m, true)).

(** A message of function [src] and the answer to it, if any. *)
Definition pf_answer (s : pf_spec) (src : Z) (m : mbox_msg) : pf_spec * list (Z * mbox_msg) :=
  let m := mset hdr_src src m in
  if negb (mget hdr_ack m =? 0) then (s, []) else
  let '(x, tbl, (rv, m, unknown)) := pf_effect (sp_dev s) (sp_ctxt s) m in
  let status := next_status (sp_status s) rv unknown in
  (PfSpec x tbl status, [(src, mset hdr_sent 0 (respond x status m))]).

Fixpoint pf_serve (s : pf_spec) (ins : list (Z * mbox_msg)) : pf_spec * list (Z * mbox_msg) :=
  match ins with
  | [] => (s, [])
  | (src, m) :: ins =>
      let '(s, out) := pf_answer s src m in
      let '(s, outs) := pf_serve s ins in (s, out ++ outs)
  end.

(** A message the virtual function's driver can send: its queue number is one
    of the device's. *)
Definition valid_msg (p : Z * mbox_msg) : Prop :=
  msg_wf p.2 ∧ 0 <= p.1 < 256 ∧ mget qctxt_qid p.2 < 2048.

(** ** Lemmas *)

Definition table_wf (tbl : gmap (Z * Z) (list Z)) : Prop := ∀ k w, tbl !! k = Some w → words4 w.

Lemma table_context_full tbl qid st c2h : table_wf tbl → hw_ctxt_full (table_context tbl qid st c2h).
Proof.
  intros Ht. assert (∀ k, words4 (default ctxt_zero (tbl !! k))) as Hg.
  { intros k. destruct (tbl !! k) as [w|] eqn:E; [by apply (Ht k)|].
    split; [done|]. repeat constructor; unfold word32; lia. }
  assert (∀ k n, (n <= 4)%nat → length (take n (default ctxt_zero (tbl !! k))) = n) as Hl.
  { intros k n Hn. rewrite length_take. destruct (Hg k) as [-> _]. lia. }
  assert (Forall word32 [0; 0]) as H0 by (repeat constructor; unfold word32; lia).
  unfold table_context. split; cbn [ctxt_sw ctxt_prefetch ctxt_wrb ctxt_hw ctxt_cr].
  - apply Hg.
  - destruct (st && c2h); [|done]. split; [apply Hl; lia|apply Forall_take, Hg].
  - destruct (st && c2h); [apply Hg|]. split; [done|]. repeat constructor; unfold word32; lia.
  - split; [apply Hl; lia|apply Forall_take, Hg].
  - split; [apply Hl; lia|apply Forall_take, Hg].
Qed.

(** The parts of the device the mailbox operations do not write. *)
Definition same_dev (x x' : xlnx_dma_dev) : Prop := flags x' = flags x ∧ func_id x' = func_id x.

Lemma online_same fid x : same_dev x (xdev_sriov_vf_online fid x).2.
Proof. unfold xdev_sriov_vf_online. by destruct (vf_online_loop _ _). Qed.
Lemma fmap_same fid qb qm x : same_dev x (xdev_sriov_vf_fmap fid qb qm x).2.
Proof. unfold xdev_sriov_vf_fmap. by destruct (vf_fmap_loop _ _ _ _). Qed.

Lemma pf_effect_same x tbl m : same_dev x (pf_effect x tbl m).1.1.
Proof.
  unfold pf_effect. cbv zeta. repeat case_match; cbn; try done; first [apply online_same|apply fmap_same].
Qed.

(** The message that goes back has the layout of a message and keeps its
    sender and operation. *)
Lemma pf_effect_msg x tbl m :
  table_wf tbl → msg_wf m →
  let m' := (pf_effect x tbl m).2.1.2 in
  msg_wf m' ∧ mget hdr_src m' = mget hdr_src m ∧ mget hdr_op m' = mget hdr_op m ∧
  mget hdr_wait m' = mget hdr_wait m.
Proof.
  intros Ht Hm. unfold pf_effect. cbv zeta. repeat case_match; cbn [fst snd]; try done.
  - pose proof (proj1 Hm) as Hl. split; [by apply mset_wf|]. by msg_fields.
  - pose proof (proj1 Hm) as Hl.
    pose proof (table_context_full tbl (mget qctxt_qid m) (negb (mget qctxt_st m =? 0))
      (negb (mget qctxt_c2h m =? 0)) Ht) as Hc.
    split; [by apply set_context_wf|].
    by rewrite !mget_set_context by (assumption || (cbn; lia)).
Qed.

Lemma respond_wf x status m : msg_wf m → msg_wf (respond x status m).
Proof. intros Hm. unfold respond. by repeat apply mset_wf. Qed.

(** The answer the physical function sends has the operation, the mark and
    the status the virtual function looks for, and the message's body. *)
Lemma response_fields x status (m : mbox_msg) :
  length m = 16%nat →
  let resp := mset hdr_sent 0 (respond x status m) in
  mget hdr_op resp = mget hdr_op m ∧ mget hdr_ack resp = 1 ∧ status_of resp = s8 (u8 status) ∧
  qctxt_context resp = qctxt_context m ∧ mget fmap_qbase resp = mget fmap_qbase m ∧
  mget hdr_src resp = func_id x mod 2 ^ 8 ∧ mget hdr_dst resp = mget hdr_src m mod 2 ^ 8.
Proof.
  intros Hm resp. unfold resp, respond, status_of.
  split_and!; msg_fields; try done. cbn. unfold u8. by rewrite Z.mod_mod.
Qed.

Lemma insert_table_wf k w tbl : words4 w → table_wf tbl → table_wf (<[k := w]> tbl).
Proof.
  intros Hw Ht k' w'. rewrite lookup_insert. case_decide; [by intros [= <-]|apply Ht].
Qed.

Lemma ctxt_zero_words : words4 ctxt_zero.
Proof. split; [done|]. repeat constructor; unfold word32; lia. Qed.

Lemma cleared_wf qid st c2h tbl : table_wf tbl → table_wf (cleared qid st c2h tbl).
Proof.
  intros Ht. pose proof ctxt_zero_words. unfold cleared. cbv zeta.
  destruct (st && c2h); by repeat apply insert_table_wf.
Qed.

Lemma programmed_wf qid st c2h c tbl :
  hw_ctxt_wf c → table_wf tbl → table_wf (programmed qid st c2h c tbl).
Proof.
  intros [Hs [Hp HFp] Hw] Ht. unfold programmed. cbv zeta.
  assert (words4 (pad4 (ctxt_prefetch c))) by (apply pad4_words; [lia|done]).
  destruct (st && c2h); repeat apply insert_table_wf; try done; by apply cleared_wf.
Qed.

Lemma pf_effect_table x tbl m : table_wf tbl → msg_wf m → table_wf (pf_effect x tbl m).1.2.
Proof.
  intros Ht Hm. unfold pf_effect. cbv zeta. repeat case_match; cbn [fst snd]; try done.
  - by apply cleared_wf.
  - apply programmed_wf; [by apply full_wf, qctxt_context_full|by apply cleared_wf].
Qed.

Section serve.
Context {D : Type} `{HM : MboxHw D}.

Lemma idle_table (d : D) : ctxt_idle d → table_wf (ctxts d).
Proof. intros [_ Hwf] k w. apply (cv_ctxt_wf _ Hwf). Qed.

(** The two halves of an operation's result: the contexts and the mailbox. *)
Lemma run_keeps {A} (R : D → D → Prop) (m : ST D A) d a d' : keeps_rel R m → m d = (a, d') → R d d'.
Proof. intros Hk E. specialize (Hk d). by rewrite E in Hk. Qed.

Lemma set_fmap_run id qb qm (d : D) :
  0 <= id < 256 → ctxt_idle d →
  ∃ d', hw_set_fmap id qb qm d = (tt, d') ∧ ctxt_idle d' ∧ ctxts d' = ctxts d ∧ same_mbox d d'.
Proof.
  intros Hid Hi. destruct (hw_set_fmap id qb qm d) as [[] d'] eqn:E.
  pose proof (run_keeps _ _ _ _ _ (set_fmap_mbox _ qb qm Hid) E) as Hmb.
  pose proof (run_keeps _ _ _ _ _ (set_fmap_ctxt _ qb qm Hid) E) as Hc.
  exists d'. destruct (same_ctxt_idle d d' Hc Hi). by split_and!.
Qed.

(** Clearing and programming, as one step of the switch. *)
Lemma set_context_run m (d : D) :
  ctxt_idle d → msg_wf m → 0 <= mget qctxt_qid m < 2048 →
  let q := mget qctxt_qid m in let st := negb (mget qctxt_st m =? 0) in let c2h := negb (mget qctxt_c2h m =? 0) in
  ∃ d1 d2, qdma_descq_context_clear q st c2h d = (0, d1) ∧
    qdma_descq_context_program q st c2h (qctxt_context m) d1 = (0, d2) ∧ ctxt_idle d2 ∧
    ctxts d2 = programmed q st c2h (qctxt_context m) (cleared q st c2h (ctxts d)) ∧ same_mbox d d2.
Proof.
  intros Hi Hm Hq q st c2h.
  destruct (context_clear_ok d q st c2h) as (d1 & E1 & Hi1 & Hc1); [exact Hi|exact Hq|].
  pose proof (run_keeps _ _ _ _ _ (context_clear_mbox _ _ _) E1) as Hmb1.
  destruct (context_program_ok d1 q st c2h (qctxt_context m)) as (d2 & E2 & Hi2 & Hc2);
    [exact Hi1|exact Hq|by apply full_wf, qctxt_context_full|].
  pose proof (run_keeps _ _ _ _ _ (context_program_mbox _ _ _ _) E2) as Hmb2.
  exists d1, d2. split; [done|]. split; [done|]. split; [done|]. split; [by rewrite Hc2, Hc1|by etrans].
Qed.

(** The [switch] does what the specification says. *)
Lemma pf_switch_run m x (d : D) :
  ctxt_idle d → msg_wf m → mget qctxt_qid m < 2048 →
  ∃ x' tbl r d', pf_effect x (ctxts d) m = (x', tbl, r) ∧ pf_switch m (x, d) = (r, (x', d')) ∧
    ctxt_idle d' ∧ ctxts d' = tbl ∧ same_mbox d d'.
Proof.
  intros Hi Hm Hq.
  pose proof (mget_range hdr_src m eq_refl) as Hsrc. cbn in Hsrc.
  pose proof (mget_range qctxt_qid m eq_refl) as Hq0. cbn in Hq0.
  assert (0 <= mget qctxt_qid m < 2048) as Hqid by lia.
  assert (same_mbox d d) as Hrefl by done.
  pose proof (λ qb qm, set_fmap_run (mget hdr_src m) qb qm d Hsrc Hi) as Hfmap.
  unfold pf_switch, pf_effect. cbv zeta.
  destruct (_ =? MBOX_OP_HELLO); [|destruct (_ =? MBOX_OP_BYE); [|destruct (_ =? MBOX_OP_FMAP);
    [|destruct (_ =? MBOX_OP_INTR_CTXT); [|destruct (_ =? MBOX_OP_QCTXT_CLR);
    [|destruct (_ =? MBOX_OP_QCTXT_RD); [|destruct (_ =? MBOX_OP_QCTXT_WRT)]]]]]].
  - unfold mbind, ST_bind, on_xdev. cbn [fst snd].
    destruct (xdev_sriov_vf_online _ x) as [rv x']. by eexists _, _, _, _.
  - destruct (Hfmap 0 0) as (d' & E & Hi' & Hc & Hmb). unfold mbind, ST_bind, on_dev, on_xdev.
    cbn [fst snd]. rewrite E. cbn. by eexists _, _, _, _.
  - unfold pf_do_fmap. set (m' := if mget fmap_qbase m =? 0 then _ else m).
    destruct (Hfmap (mget fmap_qbase m') (mget fmap_qmax m')) as (d' & E & Hi' & Hc & Hmb).
    unfold mbind, ST_bind, on_dev, on_xdev. cbn [fst snd]. rewrite E. cbn [fst snd].
    destruct (xdev_sriov_vf_fmap _ _ _ x) as [rv x']. by eexists _, _, _, _.
  - by eexists _, _, _, _.
  - destruct (context_clear_ok d (mget qctxt_qid m) (negb (mget qctxt_st m =? 0))
      (negb (mget qctxt_c2h m =? 0))) as (d' & E & Hi' & Hc); [done..|].
    pose proof (run_keeps _ _ _ _ _ (context_clear_mbox _ _ _) E) as Hmb.
    unfold mbind, ST_bind, on_dev. cbn [fst snd]. rewrite E. by eexists _, _, _, _.
  - destruct (context_read_ok d (mget qctxt_qid m) (negb (mget qctxt_st m =? 0))
      (negb (mget qctxt_c2h m =? 0))) as (d' & E & Hi' & Hc); [done..|].
    pose proof (run_keeps _ _ _ _ _ (context_read_mbox _ _ _) E) as Hmb.
    unfold mbind, ST_bind, on_dev. cbn [fst snd]. rewrite E. by eexists _, _, _, _.
  - destruct (set_context_run m d Hi Hm Hqid) as (d1 & d2 & E1 & E2 & Hi2 & Hc2 & Hmb2).
    unfold mbind, ST_bind, on_dev. cbn [fst snd]. rewrite E1. cbn [Z.ltb Z.compare fst snd]. rewrite E2.
    by eexists _, _, _, _.
  - by eexists _, _, _, _.
Qed.

(** The device between two messages, [ins] waiting. *)
Record serving (ins : list (Z * mbox_msg)) (d : D) : Prop := {
  sv_idle : ctxt_idle d;
  sv_busy : (mb_busy d <= mb_max_busy)%nat;
  sv_out : length (mv_out (mb_view d)) = 16%nat;
  sv_in : mv_in (mb_view d) = ins
}.

Lemma on_dev_eq {A} (m : ST D A) x d a d' : m d = (a, d') → on_dev m (x, d) = (a, (x, d')).
Proof. intros E. unfold on_dev. cbn. by rewrite E. Qed.

(** One turn of the loop on a message that is waiting. *)
Lemma serve_step fuel m0 status x d src m ins :
  serving ((src, m) :: ins) d → valid_msg (src, m) → Z.land (flags x) XDEV_FLAG_OFFLINE = 0 →
  ∃ m1 d', let '(s', out) := pf_answer (PfSpec x (ctxts d) status) src m in
    pf_proc_loop (S fuel) m0 status (x, d) = pf_proc_loop fuel m1 (sp_status s') (sp_dev s', d') ∧
    serving ins d' ∧ ctxts d' = sp_ctxt s' ∧ mv_sent (mb_view d') = mv_sent (mb_view d) ++ out ∧
    same_dev x (sp_dev s').
Proof.
  intros [Hi Hb Ho Hin] (Hm & Hsrc & Hq) Hoff. cbn [fst snd] in Hm, Hsrc, Hq.
  destruct (mbox_read_run m0 src m ins d Hin (proj1 Hm)) as (d1 & E1 & Hb1 & Hv1).
  pose proof (run_keeps _ _ _ _ _ (mbox_read_ctxt m0 false) E1) as Hc1.
  destruct (same_ctxt_idle _ _ Hc1 Hi) as [Hi1 Ht1].
  set (m1 := mset hdr_src src m) in *. assert (msg_wf m1) as Hm1 by (by apply mset_wf).
  assert (mget qctxt_qid m1 < 2048) as Hq1
    by (unfold m1; pose proof (proj1 Hm); by rewrite mget_mset_other).
  cbn [pf_proc_loop]. rewrite (on_dev_eq _ _ _ _ _ E1). cbn [Z.eqb negb].
  unfold pf_answer. fold m1. cbn [sp_dev sp_ctxt sp_status].
  destruct (mget hdr_ack m1 =? 0) eqn:Eack; cbn [negb].
  2: { exists m1, d1. split; [done|]. split; [|rewrite Ht1, Hv1, app_nil_r; by split_and!].
       split; [done|lia|by rewrite Hv1|by rewrite Hv1]. }
  destruct (pf_switch_run m1 x d1 Hi1 Hm1 Hq1) as (x' & tbl & [[rv m2] unknown] & d2 & Eff & Esw & Hi2 & Ht2 & Hmb2).
  rewrite Ht1 in Eff. rewrite Esw, Eff. cbn [fst snd].
  pose proof (pf_effect_same x (ctxts d) m1) as Hdev. rewrite Eff in Hdev. cbn [fst] in Hdev.
  pose proof (pf_effect_msg x (ctxts d) m1 (idle_table d Hi) Hm1) as Hmsg. rewrite Eff in Hmsg.
  cbn [fst snd] in Hmsg. destruct Hmsg as (Hm2 & Hs2 & _ & _).
  set (st' := next_status status rv unknown). set (r := respond x' st' m2).
  assert (msg_wf r) as Hr by (by apply respond_wf). destruct Hmb2 as [Hv2 Hb2].
  assert (mget hdr_src m2 = src) as Hs2'.
  { rewrite Hs2. unfold m1. rewrite mget_mset by (done || apply Hm). apply Z.mod_small. cbn. lia. }
  assert (mget hdr_dst r = src) as Hdst.
  { unfold r, respond. pose proof (proj1 Hm2). msg_fields. rewrite Hs2'. apply Z.mod_small. cbn. lia. }
  destruct (mbox_send_run r d2 Hr) as (d3 & E3 & Hv3 & Hb3); [lia|by rewrite Hv2, Hv1|].
  pose proof (run_keeps _ _ _ _ _ (mbox_send_ctxt r true ltac:(lia)) E3) as Hc3.
  destruct (same_ctxt_idle _ _ Hc3 Hi2) as [Hi3 Ht3].
  rewrite (on_dev_eq _ _ _ _ _ E3). cbn [Z.ltb Z.compare fst snd].
  assert (Z.land (flags x') XDEV_FLAG_OFFLINE = 0) as -> by (destruct Hdev as [-> _]; done).
  cbn [Z.eqb negb]. eexists _, d3. split; [done|].
  cbn [sp_dev sp_ctxt sp_status].
  split; [|split; [congruence|split; [by rewrite Hv3, Hv2, Hv1, Hdst|done]]].
  split; [done|done| |by rewrite Hv3, Hv2, Hv1].
  rewrite Hv3. cbn [mv_out]. rewrite length_mset. apply Hr.
Qed.

(** The loop answers every message and ends when none is left. *)
Lemma serve_loop ins : ∀ fuel m0 status x (d : D),
  (length ins < fuel)%nat → serving ins d → Forall valid_msg ins →
  Z.land (flags x) XDEV_FLAG_OFFLINE = 0 →
  ∃ d', let '(s', outs) := pf_serve (PfSpec x (ctxts d) status) ins in
    pf_proc_loop fuel m0 status (x, d) = Some (sp_dev s', d') ∧ serving [] d' ∧
    ctxts d' = sp_ctxt s' ∧ mv_sent (mb_view d') = mv_sent (mb_view d) ++ outs ∧
    same_dev x (sp_dev s').
Proof.
  induction ins as [|[src m] ins IH]; intros fuel m0 status x d Hf Hsv Hval Hoff;
    (destruct fuel as [|fuel]; [cbn in Hf; lia|]).
  - destruct (mbox_read_empty m0 d (sv_in _ _ Hsv)) as (d' & E & Hv & Hb).
    pose proof (run_keeps _ _ _ _ _ (mbox_read_ctxt m0 false) E) as Hc.
    destruct (same_ctxt_idle _ _ Hc (sv_idle _ _ Hsv)) as [Hi Ht]. destruct Hsv as [_ Hb0 Ho Hin].
    exists d'. cbn [pf_serve pf_proc_loop]. rewrite (on_dev_eq _ _ _ _ _ E).
    split; [done|]. cbn [sp_dev sp_ctxt]. split; [split; [done|lia|by rewrite Hv|by rewrite Hv]|].
    rewrite Hv, app_nil_r. by split_and!.
  - apply Forall_cons in Hval as [Hval1 Hval]. cbn [length] in Hf.
    destruct (serve_step fuel m0 status x d src m ins Hsv Hval1 Hoff) as (m1 & d1 & Hstep).
    cbn [pf_serve]. destruct (pf_answer _ src m) as [[x1 tbl1 st1] out]. cbn [sp_dev sp_ctxt sp_status] in Hstep.
    destruct Hstep as (E1 & Hsv1 & Ht1 & Hs1 & [Hfl Hfi]).
    destruct (IH fuel m1 st1 x1 d1) as (d2 & H2); [lia|done|done|by rewrite Hfl|].
    rewrite Ht1 in H2. destruct (pf_serve _ ins) as [s2 outs]. destruct H2 as (E2 & Hsv2 & Ht2 & Hs2 & [Hfl2 Hfi2]).
    exists d2. rewrite E1, E2, Hs2, Hs1, app_assoc. split_and!; try done. split; congruence.
Qed.

(** The routine before its loop. *)
Lemma proc_start ins m0 x (d : D) :
  serving ins d → ∃ d1, serving ins d1 ∧ ctxts d1 = ctxts d ∧ mb_view d1 = mb_view d ∧
    ∀ fuel s', pf_proc_loop fuel m0 MBOX_STATUS_GOOD (x, d1) = Some s' →
      pf_mbox_proc fuel m0 (x, d) = Some (Z.land (flags s'.1) XDEV_FLAG_OFFLINE =? 0, s').
Proof.
  intros [Hi Hb Ho Hin]. destruct (pf_mbox_clear_ack d) as [[] d1] eqn:E1.
  pose proof (run_keeps _ _ _ _ _ clear_ack_mbox E1) as [Hv1 Hb1].
  destruct (same_ctxt_idle _ _ (run_keeps _ _ _ _ _ clear_ack_ctxt E1) Hi) as [Hi1 Ht1].
  exists d1. split; [split; [done|lia|by rewrite Hv1|by rewrite Hv1]|]. split; [done|]. split; [done|].
  intros fuel s' E. unfold pf_mbox_proc. by rewrite (on_dev_eq _ _ _ _ _ E1), E.
Qed.

End serve.

Lemma pf_serve_snoc ins s src m :
  pf_serve s (ins ++ [(src, m)]) =
  let '(s1, outs) := pf_serve s ins in let '(s2, out) := pf_answer s1 src m in (s2, outs ++ out).
Proof.
  revert s. induction ins as [|[src' m'] ins IH]; intros s; cbn [app pf_serve].
  - destruct (pf_answer s src m). by rewrite app_nil_r.
  - destruct (pf_answer s src' m') as [s1 out]. rewrite IH.
    destruct (pf_serve s1 ins) as [s2 outs], (pf_answer s2 src m). by rewrite app_assoc.
Qed.

(** ** Properties *)

(** C12: the timer routine of the physical function serves its virtual
    functions: run on a device with messages waiting, it ends (one turn per
    message and one to see that there are none left), has received every
    message and answered, in order, each one that is not itself an answer; the
    answers, the contexts on the device and the table of virtual functions are
    those of the specification [pf_serve]; the timer is armed again. *)
Theorem pf_mbox_proc_serves {D} `{HM : MboxHw D} ins m0 x (d : D) :
  serving ins d → Forall valid_msg ins → Z.land (flags x) XDEV_FLAG_OFFLINE = 0 →
  ∃ d', let '(s', outs) := pf_serve (PfSpec x (ctxts d) MBOX_STATUS_GOOD) ins in
    pf_mbox_proc (S (length ins)) m0 (x, d) = Some (true, (sp_dev s', d')) ∧ serving [] d' ∧
    ctxts d' = sp_ctxt s' ∧ mv_sent (mb_view d') = mv_sent (mb_view d) ++ outs.
Proof.
  intros Hsv Hval Hoff. destruct (proc_start ins m0 x d Hsv) as (d1 & Hsv1 & Ht1 & Hv1 & Hproc).
  destruct (serve_loop ins (S (length ins)) m0 MBOX_STATUS_GOOD x d1) as (d2 & H2); [lia|done..|].
  exists d2. rewrite Ht1, Hv1 in H2. destruct (pf_serve _ ins) as [s' outs].
  destruct H2 as (E2 & Hsv2 & Ht & Hs & [Hfl _]). split; [|done].
  rewrite (Hproc _ _ E2). cbn. by rewrite Hfl, Hoff.
Qed.

(** With the status -EINVAL, a message leaves it and its answer carries it. *)
Lemma answer_sticks s src (m : mbox_msg) :
  table_wf (sp_ctxt s) → valid_msg (src, m) → sp_status s = - MBOX_STATUS_EINVAL →
  let '(s', out) := pf_answer s src m in
  table_wf (sp_ctxt s') ∧ sp_status s' = - MBOX_STATUS_EINVAL ∧
  Forall (λ p, status_of p.2 = - MBOX_STATUS_EINVAL) out ∧
  length out = if decide (mget hdr_ack m = 0) then 1%nat else 0%nat.
Proof.
  intros Ht (Hm & Hsrc & _) Hs. cbn [fst snd] in Hm, Hsrc. unfold pf_answer.
  assert (mget hdr_ack (mset hdr_src src m) = mget hdr_ack m) as -> by (pose proof (proj1 Hm); by msg_fields).
  destruct (Z.eqb_spec (mget hdr_ack m) 0) as [E|E]; cbn [negb]; [rewrite decide_True by done|by rewrite decide_False].
  assert (msg_wf (mset hdr_src src m)) as Hm1 by (by apply mset_wf).
  pose proof (pf_effect_msg (sp_dev s) (sp_ctxt s) _ Ht Hm1) as (Hm2 & _).
  pose proof (pf_effect_table (sp_dev s) (sp_ctxt s) _ Ht Hm1) as Ht2.
  destruct (pf_effect (sp_dev s) (sp_ctxt s) _) as [[x tbl] [[rv m2] unknown]]. cbn [fst snd] in *.
  assert (next_status (sp_status s) rv unknown = - MBOX_STATUS_EINVAL) as ->.
  { unfold next_status. rewrite Hs. destruct unknown; by rewrite andb_false_r. }
  split_and!; [done|done| |done]. constructor; [|done].
  destruct (response_fields x (- MBOX_STATUS_EINVAL) m2 (proj1 Hm2)) as (_ & _ & Rs & _). exact Rs.
Qed.

Lemma serve_sticks ins : ∀ s,
  table_wf (sp_ctxt s) → Forall valid_msg ins → sp_status s = - MBOX_STATUS_EINVAL →
  let '(s', outs) := pf_serve s ins in
  sp_status s' = - MBOX_STATUS_EINVAL ∧ Forall (λ p, status_of p.2 = - MBOX_STATUS_EINVAL) outs ∧
  length outs = length (filter (λ p, mget hdr_ack p.2 = 0) ins).
Proof.
  induction ins as [|[src m] ins IH]; intros s Ht Hval Hs; [done|].
  apply Forall_cons in Hval as [Hv Hval]. cbn [pf_serve].
  pose proof (answer_sticks s src m Ht Hv Hs) as Ha. destruct (pf_answer s src m) as [s1 out].
  destruct Ha as (Ht1 & Hs1 & Ho & Hl). specialize (IH s1 Ht1 Hval Hs1).
  destruct (pf_serve s1 ins) as [s2 outs]. destruct IH as (Hs2 & Hos & Hls).
  split; [done|]. split; [by apply Forall_app|]. rewrite length_app, Hl, Hls, filter_cons. cbn [snd].
  by destruct (decide (mget hdr_ack m = 0)).
Qed.

(** The status of the routine is not reset from one message to the next:
    after one operation that is not known, every later message of the same run
    is answered with the status -EINVAL ([-MBOX_STATUS_EINVAL]), also those
    whose operation succeeds. *)
Theorem pf_status_sticks x tbl status src (m : mbox_msg) ins :
  table_wf tbl → Forall valid_msg ((src, m) :: ins) → mget hdr_ack m = 0 →
  mget hdr_op m ∉ [MBOX_OP_HELLO; MBOX_OP_BYE; MBOX_OP_FMAP; MBOX_OP_INTR_CTXT; MBOX_OP_QCTXT_WRT;
                   MBOX_OP_QCTXT_RD; MBOX_OP_QCTXT_CLR] →
  let '(s, outs) := pf_serve (PfSpec x tbl status) ((src, m) :: ins) in
  sp_status s = - MBOX_STATUS_EINVAL ∧ Forall (λ p, status_of p.2 = - MBOX_STATUS_EINVAL) outs ∧
  length outs = S (length (filter (λ p, mget hdr_ack p.2 = 0) ins)).
Proof.
  intros Ht Hval Hack Hop. apply Forall_cons in Hval as [(Hm & Hsrc & _) Hval]. cbn [fst snd] in *.
  cbn [pf_serve]. unfold pf_answer. set (m1 := mset hdr_src src m). cbn [sp_dev sp_ctxt sp_status].
  pose proof (proj1 Hm) as Hl.
  assert (mget hdr_ack m1 = 0) as -> by (unfold m1; by msg_fields). cbn [Z.eqb negb].
  assert (pf_effect x tbl m1 = (x, tbl, (0, m1, true))) as ->.
  { assert (mget hdr_op m1 = mget hdr_op m) as Eop by (unfold m1; by msg_fields).
    rewrite !not_elem_of_cons in Hop. destruct Hop as (H1 & H2 & H3 & H4 & H5 & H6 & H7 & _).
    unfold pf_effect. cbv zeta. rewrite Eop. by rewrite !(proj2 (Z.eqb_neq _ _)) by done. }
  change (next_status status 0 true) with (- MBOX_STATUS_EINVAL).
  pose proof (serve_sticks ins (PfSpec x tbl (- MBOX_STATUS_EINVAL)) Ht Hval eq_refl) as H.
  destruct (pf_serve _ ins) as [s outs]. destruct H as (Hs & Hf & Hlen).
  split; [done|]. split; [|cbn; by rewrite Hlen]. cbn [app]. constructor; [|done].
  assert (length m1 = 16%nat) as Hl1 by (unfold m1; msg_len).
  destruct (response_fields x (- MBOX_STATUS_EINVAL) m1 Hl1) as (_ & _ & Rs & _). exact Rs.
Qed.

(** ** The hypotheses hold: messages waiting on the simulated mailbox *)

Module SampleServe.

(** A hello of function 5, an unknown operation of it, and a clear of queue
    80 by function 6. *)
Definition hello : mbox_msg := mset hdr_op MBOX_OP_HELLO msg_zero.
Definition unknown : mbox_msg := mset hdr_op 9 msg_zero.
Definition clear : mbox_msg := mset qctxt_qid 80 (mset hdr_op MBOX_OP_QCTXT_CLR msg_zero).
Definition ins : list (Z * mbox_msg) := [(5, hello); (5, unknown); (6, clear)].

Lemma ins_valid : Forall valid_msg ins.
Proof.
  pose proof msg_zero_wf. assert (∀ src m, 0 <= src < 256 → msg_wf m → mget qctxt_qid m < 2048 → valid_msg (src, m))
    as Hv by (by intros src m).
  repeat (apply Forall_cons; split;
    [apply Hv; [lia|by repeat apply mset_wf|by vm_compute]|]). constructor.
Qed.

End SampleServe.

Lemma pf_mbox_proc_serves_witness : ∃ x' d',
  pf_mbox_proc 4 msg_zero (sample_pf, SimMbox.init SampleServe.ins) = Some (true, (x', d')) ∧
  map fst (mv_sent (mb_view d')) = [5; 5; 6].
Proof.
  destruct (pf_mbox_proc_serves SampleServe.ins msg_zero sample_pf (SimMbox.init SampleServe.ins))
    as (d' & H).
  - split; [apply SimMbox.mbox_init_idle|cbn; lia|done|done].
  - apply SampleServe.ins_valid.
  - done.
  - destruct (pf_serve _ _) as [s' outs] eqn:E. destruct H as (Er & _ & _ & Hs).
    exists (sp_dev s'), d'. split; [exact Er|]. rewrite Hs.
    replace outs with (pf_serve (PfSpec sample_pf (ctxts (SimMbox.init SampleServe.ins)) MBOX_STATUS_GOOD)
      SampleServe.ins).2 by (by rewrite E). by vm_compute.
Defined.

Lemma pf_status_sticks_witness : ∃ s outs,
  pf_serve (PfSpec sample_pf ∅ MBOX_STATUS_GOOD) [(5, SampleServe.unknown); (6, SampleServe.clear)]
    = (s, outs) ∧ Forall (λ p, status_of p.2 = -2) outs ∧ length outs = 2%nat.
Proof.
  pose proof (pf_status_sticks sample_pf ∅ MBOX_STATUS_GOOD 5 SampleServe.unknown [(6, SampleServe.clear)])
    as H.
  destruct (pf_serve _ _) as [s outs]. destruct H as (_ & Hf & Hl).
  - intros k w. by rewrite lookup_empty.
  - pose proof SampleServe.ins_valid as Hv. apply Forall_cons in Hv. apply Hv.
  - done.
  - apply (bool_decide_unpack _); by vm_compute.
  - exists s, outs. split; [done|]. split; [exact Hf|]. by rewrite Hl.
Defined.
