(* ===== verification/Vf.v ===== *)
(** * The virtual function's driver (qdma_context.c, qdma_device.c, qdma_sriov.c)

    The build with [__QDMA_VF__]: a virtual function has no access to the
    context registers, so its context operations, its queue range and its hello
    and goodbye are messages to the physical function.  The response to a
    request, which the timer routine puts in [xdev->m_req], is the argument
    [resp] of each call.  The theorems compose the calls with the physical
    function's answers ([pf_answer]). *)

From S2P Require Import Prelude Regs Types Context Sgl Descq RxQueue Thread Resource Intr Sriov Msg Mbox.
From S2P Require Import MboxHw MboxServe.

Section vf.
Context {D : Type} `{!RegIo D}.

(** ** Context operations *)

(** A request about the contexts of queue [qid]. *)
Definition qctxt_request (xdev : xlnx_dma_dev) (op qid : Z) (st c2h : bool) : mbox_msg :=
  mset qctxt_c2h (b2z c2h) (mset qctxt_st (b2z st) (mset qctxt_qid qid
    (mset hdr_op op (mset hdr_dst (func_id_parent xdev) (mset hdr_src (func_id xdev) msg_zero))))).

(** The code after [qdma_mbox_send_msg]: its own error, the status of an
    acknowledged message, or [-EINVAL]. *)
Definition ack_status (r : Z * mbox_msg) : Z :=
  if r.1 <? 0 then r.1 else if negb (mget hdr_ack r.2 =? 0) then status_of r.2 else - EINVAL.

Definition vf_descq_context_clear (xdev : xlnx_dma_dev) (qid : Z) (st c2h : bool) (resp : mbox_msg)
    : ST D Z :=
  r ← qdma_mbox_send_msg true (qctxt_request xdev MBOX_OP_QCTXT_CLR qid st c2h) true resp;
  mret (ack_status r).

(** The return code, and the context when it is 0. *)
Definition vf_descq_context_read (xdev : xlnx_dma_dev) (qid : Z) (st c2h : bool) (resp : mbox_msg)
    : ST D (Z * option hw_descq_context) :=
  r ← qdma_mbox_send_msg true (qctxt_request xdev MBOX_OP_QCTXT_RD qid st c2h) true resp;
  let rv := ack_status r in
  mret (rv, if rv =? 0 then Some (qctxt_context r.2) else None).

Definition setup_request (xdev : xlnx_dma_dev) (q : qdma_descq) : mbox_msg :=
  mset qctxt_qid (qidx_hw q) (mset qctxt_c2h (b2z (c2h (conf q))) (mset qctxt_st (b2z (st (conf q)))
    (mset qctxt_verify 1 (mset qctxt_clear 1
      (mset hdr_dst (func_id_parent xdev) (mset hdr_src (func_id xdev) (mset hdr_op MBOX_OP_QCTXT_WRT
        (set_context (descq_contexts xdev q) msg_zero)))))))).

Definition vf_descq_context_setup (xdev : xlnx_dma_dev) (q : qdma_descq) (resp : mbox_msg) : ST D Z :=
  r ← qdma_mbox_send_msg true (setup_request xdev q) true resp; mret (ack_status r).

(** The vectors' contexts, at most seven to a message: [memcpy] copies one
    word per vector. *)
Definition ictxt_request (xdev : xlnx_dma_dev) (i copy : Z) (data : list Z) : mbox_msg :=
  let m := mset ictxt_vec_cnt copy (mset ictxt_vec_base i (mset ictxt_clear 1
    (mset hdr_op MBOX_OP_INTR_CTXT (mset hdr_dst (func_id_parent xdev)
      (mset hdr_src (func_id xdev) msg_zero))))) in
  take 2 m ++ take (Z.to_nat copy) (drop (Z.to_nat (2 * i)) data) ++ drop (2 + Z.to_nat copy) m.

Fixpoint vf_intr_loop (fuel : nat) (xdev : xlnx_dma_dev) (i : Z) (data : list Z) (resps : list mbox_msg)
    : ST D (option Z) :=
  match fuel with
  | O => mret None
  | S fuel =>
      let copy := u8 (num_vecs xdev - i) in
      let copy := if MBOX_INTR_CTXT_VEC_MAX <? copy then MBOX_INTR_CTXT_VEC_MAX else copy in
      r ← qdma_mbox_send_msg true (ictxt_request xdev i copy data) true (hd msg_zero resps);
      let rv := ack_status r in
      if negb (rv =? 0) then mret (Some rv) else
      let i := i + copy in
      if i <? num_vecs xdev then vf_intr_loop fuel xdev i data (tail resps) else mret (Some 0)
  end.

Definition vf_intr_context_setup (xdev : xlnx_dma_dev) (resps : list mbox_msg) : ST D (option Z) :=
  if negb (intr_coal_en xdev) then mret (Some 0) else
  match make_intr_context xdev (Z.shiftl XDEV_NUM_IRQ_MAX 1) with
  | inl rv => mret (Some rv)
  | inr data => vf_intr_loop (S (Z.to_nat (num_vecs xdev))) xdev 0 data resps
  end.

(** ** Hello, goodbye and the queue range *)

Definition vf_notify (op : Z) : ST D Z :=
  r ← qdma_mbox_send_msg true (mset hdr_op op msg_zero) false msg_zero;
  mret (if r.1 <? 0 then r.1 else 0).

Definition vf_sriov_vf_offline : ST D Z := vf_notify MBOX_OP_BYE.
Definition vf_sriov_vf_online : ST D Z := vf_notify MBOX_OP_HELLO.

Definition fmap_request (qd : qdma_dev) : mbox_msg :=
  mset fmap_qmax (qmax qd) (mset fmap_qbase (qbase qd) (mset hdr_op MBOX_OP_FMAP msg_zero)).

(** The queues' hardware numbers move by the base. *)
Definition shift_queues (qb : Z) (l : list qdma_descq) : list qdma_descq :=
  map (λ q, q <| qidx_hw ::= λ n, u32 (n + qb) |>) l.

Definition vf_device_set_qrange (qd : qdma_dev) (xdev : xlnx_dma_dev) (resp : mbox_msg)
    : ST D (Z * (xlnx_dma_dev * qdma_dev)) :=
  r ← qdma_mbox_send_msg true (fmap_request qd) true resp;
  let '(rv, m) := r in
  if rv <? 0 then mret (rv, (xdev, qd)) else
  let xdev := xdev <| func_id := mget hdr_dst m |> <| func_id_parent := mget hdr_src m |> in
  let qb := u16 (mget fmap_qbase m) in
  let n := Z.to_nat (qmax qd) in
  let qd := qd <| qbase := qb |>
               <| h2c_descq ::= λ l, shift_queues qb (take n l) ++ drop n l |>
               <| c2h_descq ::= λ l, shift_queues qb (take n l) ++ drop n l |>
               <| init_qrange := true |> in
  mret (0, (xdev, qd)).

End vf.

(** ** Lemmas *)

(** The message as it leaves: the header a request is given on the way. *)
Definition sent_request (m : mbox_msg) : mbox_msg := mset hdr_sent 0 (mset hdr_wait 1 (mset hdr_ack 0 m)).

(** When [mbox_send] succeeds the message is the one given, marked as sent. *)
Lemma mbox_send_ret {D} `{!RegIo D} vf m wait (d d' : D) m' :
  mbox_send vf m wait d = ((0, m'), d') → m' = mset hdr_sent 1 (mset hdr_sent 0 m).
Proof.
  unfold mbox_send, mbind, ST_bind, mret, ST_ret. cbv zeta.
  destruct vf, wait;
    repeat match goal with
      | |- (let '(_, _) := ?e in _) = _ → _ => destruct e
      | |- (if ?b then _ else _) _ = _ → _ => destruct b
      end; by intros [= <- _].
Qed.

(** A request answered in kind: the call ends with the answer's status. *)
Lemma send_msg_answered {D} `{!RegIo D} m resp (d d' : D) m' :
  mbox_send true (mset hdr_wait 1 (mset hdr_ack 0 m)) true d = ((0, m'), d') → length m = 16%nat →
  mget hdr_op resp = mget hdr_op m → mget hdr_ack resp = 1 →
  qdma_mbox_send_msg true m true resp d = ((status_of resp, resp), d').
Proof.
  intros E Hm Hop Hack. pose proof (mbox_send_ret _ _ _ _ _ _ E) as ->.
  unfold qdma_mbox_send_msg. rewrite (st_bind_eq _ _ _ _ _ E). cbn [Z.ltb Z.compare orb negb].
  assert (mget hdr_op (mset hdr_sent 1 (mset hdr_sent 0 (mset hdr_wait 1 (mset hdr_ack 0 m)))) = mget hdr_op m)
    as -> by (by msg_fields).
  by rewrite Hop, Hack, Z.eqb_refl.
Qed.

Lemma b2z_mod b : b2z b mod 2 = b2z b.
Proof. by destruct b. Qed.

Lemma b2z_bit b : negb (b2z b =? 0) = b.
Proof. by destruct b. Qed.

Lemma descq_contexts_full xdev q :
  descq_fields_wf q → 0 <= func_id xdev < 256 → hw_ctxt_full (descq_contexts xdev q).
Proof.
  intros Hq Hf. destruct (descq_contexts_wf xdev q Hq Hf) as [Hs Hp Hw].
  split; [done..| |]; unfold descq_contexts;
    (destruct (st (conf q) && c2h (conf q)); cbn; (split; [done|]);
     repeat constructor; unfold word32; lia).
Qed.

(** What the physical function reads in a request that has arrived. *)
Ltac request_fields H :=
  msg_fields; rewrite ?b2z_mod, ?b2z_bit; cbn [mf_width];
  repeat (rewrite mget_set_context by (assumption || (cbn; lia) || reflexivity)).

(** A request about queue [qid] as the physical function reads it. *)
Lemma qctxt_request_fields xv op qid st c2h f :
  0 <= op < 16 → 0 <= qid < 2 ^ 16 → 0 <= f < 256 →
  let m := mset hdr_src f (sent_request (qctxt_request xv op qid st c2h)) in
  msg_wf m ∧ mget hdr_ack m = 0 ∧ mget hdr_op m = op ∧ mget qctxt_qid m = qid ∧
  negb (mget qctxt_st m =? 0) = st ∧ negb (mget qctxt_c2h m =? 0) = c2h ∧ mget hdr_src m = f.
Proof.
  intros Hop Hq Hf m. unfold m, sent_request, qctxt_request.
  pose proof msg_zero_wf as Hz. split; [by repeat apply mset_wf|].
  assert (length msg_zero = 16%nat) as Hl by done.
  msg_fields. cbn [mf_width hdr_op hdr_ack qctxt_qid qctxt_st qctxt_c2h hdr_src].
  change (2 ^ 1) with 2. rewrite !b2z_mod, !b2z_bit, !Z.mod_small by lia. by split_and!.
Qed.

(** The specification on each of the context operations. *)
Lemma pf_effect_wrt x tbl m :
  mget hdr_op m = MBOX_OP_QCTXT_WRT →
  pf_effect x tbl m =
    (x, programmed (mget qctxt_qid m) (negb (mget qctxt_st m =? 0)) (negb (mget qctxt_c2h m =? 0))
          (qctxt_context m)
          (cleared (mget qctxt_qid m) (negb (mget qctxt_st m =? 0)) (negb (mget qctxt_c2h m =? 0)) tbl),
     (0, m, false)).
Proof. unfold pf_effect. intros ->. reflexivity. Qed.

Lemma pf_effect_rd x tbl m :
  mget hdr_op m = MBOX_OP_QCTXT_RD →
  pf_effect x tbl m =
    (x, tbl, (0, set_context (table_context tbl (mget qctxt_qid m) (negb (mget qctxt_st m =? 0))
                                (negb (mget qctxt_c2h m =? 0))) m, false)).
Proof. unfold pf_effect. intros ->. reflexivity. Qed.

Lemma pf_effect_fmap x tbl m :
  mget hdr_op m = MBOX_OP_FMAP → mget fmap_qbase m = 0 →
  let m' := mset fmap_qbase (default_qbase (mget hdr_src m)) m in
  pf_effect x tbl m =
    ((xdev_sriov_vf_fmap (mget hdr_src m) (mget fmap_qbase m') (mget fmap_qmax m') x).2, tbl, (0, m', false)).
Proof. unfold pf_effect. intros -> ->. reflexivity. Qed.

Lemma setup_request_fields xv q f :
  descq_fields_wf q → 0 <= func_id xv < 256 → 0 <= qidx_hw q < 2 ^ 16 → 0 <= f < 256 →
  let m := mset hdr_src f (sent_request (setup_request xv q)) in
  msg_wf m ∧ mget hdr_ack m = 0 ∧ mget hdr_op m = MBOX_OP_QCTXT_WRT ∧ mget qctxt_qid m = qidx_hw q ∧
  negb (mget qctxt_st m =? 0) = st (conf q) ∧ negb (mget qctxt_c2h m =? 0) = c2h (conf q) ∧
  qctxt_context m = descq_contexts xv q.
Proof.
  intros Hwf Hxf Hq Hf m. pose proof (descq_contexts_full xv q Hwf Hxf) as Hc.
  pose proof (set_context_wf _ _ Hc msg_zero_wf) as Hz. pose proof (proj1 Hz) as Hl.
  unfold m, sent_request, setup_request. split; [by repeat apply mset_wf|].
  msg_fields. rewrite context_roundtrip by done.
  cbn [mf_width hdr_op hdr_ack qctxt_qid qctxt_st qctxt_c2h hdr_src].
  change (2 ^ 1) with 2. rewrite !b2z_mod, !b2z_bit, !Z.mod_small by (unfold MBOX_OP_QCTXT_WRT; lia). by split_and!.
Qed.

(** ** Properties *)

(** The request on the wire is one the physical function accepts. *)
Lemma setup_request_valid xv q :
  descq_fields_wf q → 0 <= func_id xv < 256 → 0 <= qidx_hw q < 2048 →
  valid_msg (func_id xv, sent_request (setup_request xv q)).
Proof.
  intros Hwf Hf Hq. pose proof (descq_contexts_full xv q Hwf Hf) as Hc.
  pose proof (set_context_wf _ _ Hc msg_zero_wf) as Hz. pose proof (proj1 Hz) as Hl.
  split; [|split; [done|]]; cbn [fst snd]; unfold sent_request, setup_request; [by repeat apply mset_wf|].
  msg_fields. cbn [mf_width qctxt_qid]. rewrite Z.mod_small; lia.
Qed.

(** Its effect and the answer. *)
Lemma setup_answer xv q s :
  descq_fields_wf q → 0 <= func_id xv < 256 → 0 <= qidx_hw q < 2048 →
  let req := setup_request xv q in
  ∃ resp, pf_answer s (func_id xv) (sent_request req) =
      (PfSpec (sp_dev s) (programmed (qidx_hw q) (st (conf q)) (c2h (conf q)) (descq_contexts xv q)
                   (cleared (qidx_hw q) (st (conf q)) (c2h (conf q)) (sp_ctxt s))) (sp_status s),
       [(func_id xv, resp)]) ∧
    mget hdr_op resp = mget hdr_op req ∧ mget hdr_ack resp = 1 ∧ status_of resp = s8 (u8 (sp_status s)).
Proof.
  intros Hwf Hf Hq req.
  destruct (setup_request_fields xv q (func_id xv)) as (Hm & Hack & Hop & Hqid & Hst & Hc2h & Hctx);
    [done|done|lia|done|]. unfold pf_answer. set (m := mset hdr_src _ _) in *.
  rewrite Hack, (pf_effect_wrt _ _ _ Hop), Hqid, Hst, Hc2h, Hctx. cbn [Z.eqb negb].
  change (next_status (sp_status s) 0 false) with (sp_status s).
  exists (mset hdr_sent 0 (respond (sp_dev s) (sp_status s) m)). split; [reflexivity|].
  destruct (response_fields (sp_dev s) (sp_status s) m (proj1 Hm)) as (Ro & Ra & Rs & _). cbv zeta in Ro, Ra, Rs.
  split_and!; [|done..]. rewrite Ro. pose proof (descq_contexts_full xv q Hwf Hf) as Hc.
  pose proof (proj1 (set_context_wf _ _ Hc msg_zero_wf)). unfold m, req, sent_request, setup_request.
  by msg_fields.
Qed.

(** C25: setting up a queue of a virtual function through the mailbox is
    the physical function's own [qdma_descq_context_setup]: when the request
    [vf_descq_context_setup] sends for queue [q] has been sent without error
    and has arrived, behind any other well-formed messages [pre] (with queue
    numbers the device has), one run of the timer routine of the physical
    function, which is not offline, leaves its device with the table of
    contexts that [qdma_descq_context_setup], for the same queue of the same
    function, leaves on a device with the table as the earlier messages left
    it, and the last message it sends is for the virtual function; with that
    message as the response the call returns the status the routine has by
    then: 0 when no earlier message of the run was refused, otherwise the error
    of that one ([pf_status_sticks]), although the contexts have been
    programmed. *)
Theorem vf_setup_programs {D DP} `{!RegIo D} `{HM : MboxHw DP} xv q (d d' : D) m' pre m0 x (dp : DP) :
  descq_fields_wf q → 0 <= func_id xv < 256 → 0 <= qidx_hw q < 2048 →
  let req := setup_request xv q in
  mbox_send true (mset hdr_wait 1 (mset hdr_ack 0 req)) true d = ((0, m'), d') →
  let waiting := pre ++ [(func_id xv, sent_request req)] in
  serving waiting dp → Forall valid_msg pre → Z.land (flags x) XDEV_FLAG_OFFLINE = 0 →
  let before := (pf_serve (PfSpec x (ctxts dp) MBOX_STATUS_GOOD) pre).1 in
  ∃ dp' resp, pf_mbox_proc (S (length waiting)) m0 (x, dp) = Some (true, (sp_dev before, dp')) ∧
    last (mv_sent (mb_view dp')) = Some (func_id xv, resp) ∧
    vf_descq_context_setup xv q resp d = (s8 (u8 (sp_status before)), d') ∧
    ∀ d0 : DP, ctxt_idle d0 → ctxts d0 = sp_ctxt before →
      ∃ d1, qdma_descq_context_setup xv q d0 = (0, d1) ∧ ctxts dp' = ctxts d1.
Proof.
  intros Hwf Hf Hq req Hsend waiting Hsv Hval Hoff before.
  destruct (proc_start waiting m0 x dp Hsv) as (dp1 & Hsv1 & Ht1 & Hv1 & Hproc).
  destruct (serve_loop waiting (S (length waiting)) m0 MBOX_STATUS_GOOD x dp1) as (dp' & H2); [lia|done| |done|].
  { apply Forall_app. split; [done|]. apply Forall_singleton. by apply setup_request_valid. }
  rewrite Ht1 in H2. unfold waiting in H2 at 1. rewrite pf_serve_snoc in H2. unfold before.
  destruct (pf_serve _ pre) as [s1 outs]. cbn [fst].
  destruct (setup_answer xv q s1) as (resp & Ea & Ro & Ra & Rs); [done..|]. fold req in Ea, Ro. rewrite Ea in H2.
  cbn [sp_dev sp_ctxt] in H2. destruct H2 as (E2 & _ & Ht & Hs & [Hfl _]).
  exists dp', resp. rewrite (Hproc _ _ E2), Hs, app_assoc, last_snoc. cbn [fst]. rewrite Hfl, Hoff.
  split; [done|]. split; [done|]. split.
  - assert (length req = 16%nat) as Hl.
    { pose proof (descq_contexts_full xv q Hwf Hf) as Hc.
      pose proof (proj1 (set_context_wf _ _ Hc msg_zero_wf)). unfold req, setup_request. msg_len. }
    pose proof (send_msg_answered req _ d d' m' Hsend Hl Ro Ra) as Er.
    unfold vf_descq_context_setup. fold req. rewrite (st_bind_eq _ _ _ _ _ Er). unfold ack_status. cbn [fst snd].
    rewrite Rs, Ra. by destruct (_ <? 0).
  - intros d0 Hi0 E0. destruct (context_setup_run d0 xv q) as (d1 & E1 & _ & Hc1); [done..|].
    exists d1. split; [done|]. by rewrite Ht, Hc1, E0.
Qed.

(** C35: reading a queue's contexts through the mailbox: the call returns 0
    and exactly the contexts the physical function's device holds for the
    queue, which are not changed. *)
Theorem vf_read_returns_contexts {D} `{!RegIo D} xv qid st c2h x tbl (d d' : D) m' :
  table_wf tbl → 0 <= func_id xv < 256 → 0 <= qid < 2048 →
  let req := qctxt_request xv MBOX_OP_QCTXT_RD qid st c2h in
  mbox_send true (mset hdr_wait 1 (mset hdr_ack 0 req)) true d = ((0, m'), d') →
  ∃ resp, pf_answer (PfSpec x tbl MBOX_STATUS_GOOD) (func_id xv) (sent_request req) =
      (PfSpec x tbl MBOX_STATUS_GOOD, [(func_id xv, resp)]) ∧
    vf_descq_context_read xv qid st c2h resp d = ((0, Some (table_context tbl qid st c2h)), d').
Proof.
  intros Ht Hf Hq req Hsend.
  destruct (qctxt_request_fields xv MBOX_OP_QCTXT_RD qid st c2h (func_id xv))
    as (Hm & Hack & Hop & Hqid & Hst & Hc2h & _); [done|lia|done|].
  unfold pf_answer. fold req in Hm, Hack, Hop, Hqid, Hst, Hc2h.
  set (m := mset hdr_src (func_id xv) (sent_request req)) in *.
  rewrite Hack, (pf_effect_rd _ _ _ Hop), Hqid, Hst, Hc2h. cbn [Z.eqb negb sp_dev sp_ctxt sp_status].
  change (next_status MBOX_STATUS_GOOD 0 false) with 0.
  pose proof (table_context_full tbl qid st c2h Ht) as Hc. set (m1 := set_context _ m).
  pose proof (set_context_wf _ _ Hc Hm : msg_wf m1) as Hm1.
  exists (mset hdr_sent 0 (respond x 0 m1)). split; [reflexivity|].
  destruct (response_fields x 0 m1 (proj1 Hm1)) as (Ro & Ra & Rs & Rc & _). cbv zeta in Ro, Ra, Rs, Rc.
  assert (length req = 16%nat) as Hl by (unfold req, qctxt_request; msg_len).
  assert (mget hdr_op m1 = mget hdr_op m) as Em1
    by (unfold m1; apply mget_set_context; [done|cbn; lia|apply Hm]).
  assert (mget hdr_op m = mget hdr_op req) as Em by (unfold m, sent_request; msg_fields; reflexivity).
  pose proof (send_msg_answered req _ d d' m' Hsend Hl (eq_trans Ro (eq_trans Em1 Em)) Ra) as Er.
  unfold vf_descq_context_read. fold req. rewrite (st_bind_eq _ _ _ _ _ Er). unfold ack_status. cbn [fst snd].
  rewrite Rs, Ra, Rc. unfold m1. rewrite context_roundtrip by (done || apply Hm). done.
Qed.

(** *** Queue ranges *)

Lemma fmap_request_fields qd f :
  0 <= f < 256 → 0 <= qmax qd < 2 ^ 32 → qbase qd = 0 →
  let m := mset hdr_src f (sent_request (fmap_request qd)) in
  msg_wf m ∧ mget hdr_ack m = 0 ∧ mget hdr_op m = MBOX_OP_FMAP ∧ mget hdr_src m = f ∧
  mget fmap_qbase m = 0 ∧ mget fmap_qmax m = qmax qd.
Proof.
  intros Hf Hqm Hqb m. unfold m, sent_request, fmap_request. rewrite Hqb.
  pose proof msg_zero_wf as Hz. split; [by repeat apply mset_wf|].
  assert (length msg_zero = 16%nat) as Hl by done.
  msg_fields. cbn [mf_width hdr_op hdr_ack hdr_src fmap_qbase fmap_qmax].
  rewrite !Z.mod_small by (unfold MBOX_OP_FMAP; lia). by split_and!.
Qed.

Lemma default_qbase_eq f : 2 <= f < 256 → default_qbase f = 64 + 8 * (f - 2).
Proof.
  intros Hf. unfold default_qbase, QDMA_Q_PER_PF_MAX, QDMA_PF_MAX, QDMA_Q_PER_VF_MAX, u32.
  rewrite Z.mod_small; lia.
Qed.

(** C36: the first range request of virtual function [f] (number 2 to 253):
    the physical function answers with the range of eight queues at
    [64 + 8 * (f - 2)], records it in the function's slot, and the virtual
    function then knows its number and its parent's and has moved the hardware
    numbers of all its queues into the range.  The ranges of two functions do
    not overlap each other nor the 64 queues of the physical functions; those
    of functions 250 and above are outside the 2048 queues of the device. *)
Theorem vf_queue_range {D} `{!RegIo D} f qd xv x tbl (d d' : D) m' :
  2 <= f < 254 → qbase qd = 0 → 0 <= qmax qd <= 8 →
  length (h2c_descq qd) = Z.to_nat (qmax qd) → length (c2h_descq qd) = Z.to_nat (qmax qd) →
  0 <= func_id x < 256 →
  mbox_send true (mset hdr_wait 1 (mset hdr_ack 0 (fmap_request qd))) true d = ((0, m'), d') →
  let qb := 64 + 8 * (f - 2) in
  (∃ resp, pf_answer (PfSpec x tbl MBOX_STATUS_GOOD) f (sent_request (fmap_request qd)) =
      (PfSpec (xdev_sriov_vf_fmap f qb (qmax qd) x).2 tbl MBOX_STATUS_GOOD, [(f, resp)]) ∧
    vf_device_set_qrange qd xv resp d =
      ((0, (xv <| func_id := f |> <| func_id_parent := func_id x |>,
            qd <| qbase := qb |> <| h2c_descq := shift_queues qb (h2c_descq qd) |>
               <| c2h_descq := shift_queues qb (c2h_descq qd) |> <| init_qrange := true |>)), d')) ∧
  (∀ f', 2 <= f' < 254 → f ≠ f' → qb + 8 <= 64 + 8 * (f' - 2) ∨ 64 + 8 * (f' - 2) + 8 <= qb) ∧
  64 <= qb ∧ (qb + 8 <= 2048 ↔ f < 250).
Proof.
  intros Hf Hqb Hqm Hlh Hlc Hfx Hsend qb. split; [|split; [|unfold qb; lia]].
  2: { intros f' Hf' Hne. unfold qb. lia. }
  destruct (fmap_request_fields qd f) as (Hm & Hack & Hop & Hsrc & Hb & Hx); [lia|lia|done|].
  unfold pf_answer. set (req := fmap_request qd) in *.
  set (m := mset hdr_src f (sent_request req)) in *.
  rewrite Hack, (pf_effect_fmap _ _ _ Hop Hb), Hsrc, default_qbase_eq by lia.
  set (m1 := mset fmap_qbase (64 + 8 * (f - 2)) m).
  assert (msg_wf m1) as Hm1 by (by apply mset_wf). pose proof (proj1 Hm) as Hlm.
  assert (mget fmap_qbase m1 = qb) as Eb
    by (unfold m1; msg_fields; cbn [mf_width fmap_qbase]; unfold qb; apply Z.mod_small; lia).
  assert (mget fmap_qmax m1 = qmax qd) as Ex by (unfold m1; msg_fields; done).
  rewrite Eb, Ex. cbn [Z.eqb negb sp_dev sp_ctxt sp_status].
  change (next_status MBOX_STATUS_GOOD 0 false) with 0.
  set (x' := (xdev_sriov_vf_fmap f qb (qmax qd) x).2).
  exists (mset hdr_sent 0 (respond x' 0 m1)). split; [reflexivity|].
  destruct (response_fields x' 0 m1 (proj1 Hm1)) as (Ro & Ra & Rs & _ & Rb & Rsrc & Rdst).
  cbv zeta in Ro, Ra, Rs, Rb, Rsrc, Rdst.
  assert (length req = 16%nat) as Hl by (unfold req, fmap_request; msg_len).
  assert (mget hdr_op m1 = mget hdr_op req) as Em by (unfold m1, m, sent_request; msg_fields; reflexivity).
  pose proof (send_msg_answered req _ d d' m' Hsend Hl (eq_trans Ro Em) Ra) as Er.
  unfold vf_device_set_qrange. fold req. rewrite (st_bind_eq _ _ _ _ _ Er), Rs.
  change (s8 (u8 0) <? 0) with false. cbn iota. rewrite Rb, Rsrc, Rdst, Eb.
  assert (mget hdr_src m1 = f) as -> by (unfold m1; msg_fields; exact Hsrc).
  destruct (fmap_same f qb (qmax qd) x) as [_ Hfi]. fold x' in Hfi. rewrite Hfi.
  rewrite !Z.mod_small by lia. assert (u16 qb = qb) as -> by (unfold u16; apply Z.mod_small; unfold qb; lia).
  cbn. by rewrite <- Hlh, take_ge, drop_ge, app_nil_r, Hlh, <- Hlc, take_ge, drop_ge, app_nil_r by lia.
Qed.

(** ** The hypotheses hold: a virtual function on the simulated registers *)

Module SampleVf.

(** Virtual function 6 of function 0. *)
Definition dev : xlnx_dma_dev := Sample.dev <| func_id := 6 |> <| func_id_parent := 0 |>.
Definition pf : xlnx_dma_dev :=
  sample_pf <| func_id := 0 |> <| vf_info := [VfInfo 6 0 0; VfInfo QDMA_FUNC_ID_INVALID 0 0] |>.
Definition qd : qdma_dev :=
  Qdev false 2 0 0 0 [qdma_descq_init 0 0 0; qdma_descq_init 0 1 1]
    [qdma_descq_init 0 0 0; qdma_descq_init 0 1 1].
Definition sent (req : mbox_msg) : (Z * mbox_msg) * SimHw.t :=
  mbox_send true (mset hdr_wait 1 (mset hdr_ack 0 req)) true (SimHw.init 0).

(** A hello of function 5, then the request of the virtual function. *)
Definition waiting : list (Z * mbox_msg) :=
  [(5, SampleServe.hello); (6, sent_request (setup_request dev (Sample.queue true true)))].

End SampleVf.

Lemma vf_setup_programs_witness : ∃ x' dp' resp d',
  pf_mbox_proc 3 msg_zero (SampleVf.pf, SimMbox.init SampleVf.waiting) = Some (true, (x', dp')) ∧
  last (mv_sent (mb_view dp')) = Some (6, resp) ∧
  vf_descq_context_setup SampleVf.dev (Sample.queue true true) resp (SimHw.init 0) = (0, d').
Proof.
  destruct (vf_setup_programs SampleVf.dev (Sample.queue true true) (SimHw.init 0)
    (SampleVf.sent (setup_request SampleVf.dev (Sample.queue true true))).2
    (SampleVf.sent (setup_request SampleVf.dev (Sample.queue true true))).1.2
    [(5, SampleServe.hello)] msg_zero SampleVf.pf (SimMbox.init SampleVf.waiting)) as (dp' & resp & E & Hl & Er & _).
  - apply Sample.queue_wf.
  - split; by vm_compute.
  - split; by vm_compute.
  - vm_compute. reflexivity.
  - split; [apply SimMbox.mbox_init_idle|cbn; lia|done|done].
  - pose proof SampleServe.ins_valid as [Hv _]%Forall_cons. by apply Forall_singleton.
  - done.
  - eexists _, dp', resp, _. split; [exact E|]. split; [exact Hl|].
    rewrite Er. replace (sp_status _) with MBOX_STATUS_GOOD by (by vm_compute). reflexivity.
Defined.

Lemma vf_read_returns_contexts_witness : ∃ resp d',
  vf_descq_context_read SampleVf.dev 98 true false resp (SimHw.init 0)
    = ((0, Some hw_ctxt_zero), d').
Proof.
  destruct (vf_read_returns_contexts SampleVf.dev 98 true false SampleVf.pf ∅ (SimHw.init 0)
    (SampleVf.sent (qctxt_request SampleVf.dev MBOX_OP_QCTXT_RD 98 true false)).2
    (SampleVf.sent (qctxt_request SampleVf.dev MBOX_OP_QCTXT_RD 98 true false)).1.2) as (resp & _ & E).
  - intros k w. by rewrite lookup_empty.
  - split; by vm_compute.
  - split; by vm_compute.
  - vm_compute. reflexivity.
  - eexists resp, _. rewrite E. reflexivity.
Defined.

Lemma vf_queue_range_witness : ∃ resp xv' qd' d',
  vf_device_set_qrange SampleVf.qd SampleVf.dev resp (SimHw.init 0) = ((0, (xv', qd')), d') ∧
  qbase qd' = 96 ∧ map qidx_hw (h2c_descq qd') = [96; 97].
Proof.
  destruct (vf_queue_range 6 SampleVf.qd SampleVf.dev SampleVf.pf ∅ (SimHw.init 0)
    (SampleVf.sent (fmap_request SampleVf.qd)).2 (SampleVf.sent (fmap_request SampleVf.qd)).1.2)
    as [(resp & _ & E) _].
  - lia.
  - reflexivity.
  - cbn. lia.
  - reflexivity.
  - reflexivity.
  - cbn. lia.
  - vm_compute. reflexivity.
  - eexists resp, _, _, _. split; [exact E|]. by split.
Defined.
