(* ===== verification/Copies.v ===== *)
(** * The second copy of the library (src/libqdma)

    src/libqdma repeats src/drv/libqdma file by file; only qdma_mbox.c
    differs.  Its [mbox_read] does not test for a device that has gone (a read
    of all ones); the other difference, the period of the timer, is not a
    matter of the model. *)

From S2P Require Import Prelude Regs Types Context Sgl Descq RxQueue Thread Resource Intr Queue Api Sriov Msg Mbox.
#[local] Open Scope Z_scope.

Section copies.
Context {D : Type} `{!RegIo D}.

(** The wait both copies start with. *)
Definition mbox_wait (vf wait : bool) : ST D Z :=
  if wait then hw_monitor_reg (MBOX_BASE vf + MBOX_FN_STATUS) F_MBOX_FN_STATUS_IN_MSG
                 F_MBOX_FN_STATUS_IN_MSG 1000 (5000 * 1000)
  else mret 0.

(** [mbox_read] of src/libqdma. *)
Definition mbox_read_copy (vf : bool) (m : mbox_msg) (wait : bool) : ST D (Z * mbox_msg) :=
  let m := mset hdr_rcv 0 m in
  rv ← mbox_wait vf wait;
  if rv <? 0 then mret (- EAGAIN, m) else
  v ← readl (MBOX_BASE vf + MBOX_FN_STATUS);
  if Z.land v F_MBOX_FN_STATUS_IN_MSG =? 0 then mret (- EAGAIN, m) else
  let from_id := G_MBOX_FN_STATUS_SRC v in
  _ ← (if vf then mret tt else writel (MBOX_BASE vf + MBOX_FN_TARGET) from_id);
  m ← read_regs (MBOX_BASE vf + MBOX_IN_MSG_BASE) MBOX_MSG_REG_MAX;
  let m := if vf || (from_id =? mget hdr_src m) then m else mset hdr_src from_id m in
  _ ← writel (MBOX_BASE vf + MBOX_FN_CMD) F_MBOX_FN_CMD_RCV;
  mret (0, m).

(** The two copies read the mailbox alike, step by step, unless the
    status reads as all ones, as it does when the device is gone: then the
    driver's copy gives up, and the other takes what it reads for a
    message. *)
Theorem mbox_read_copies vf m wait d :
  let '(rv, d1) := mbox_wait vf wait d in
  let '(v, d2) := readl (MBOX_BASE vf + MBOX_FN_STATUS) d1 in
  if (0 <=? rv) && (v =? 0xffffffff)
  then mbox_read vf m wait d = ((- EAGAIN, mset hdr_rcv 0 m), d2) ∧ (mbox_read_copy vf m wait d).1.1 = 0
  else mbox_read_copy vf m wait d = mbox_read vf m wait d.
Proof.
  unfold mbox_read, mbox_read_copy. fold (mbox_wait vf wait). unfold mbind, ST_bind.
  destruct (mbox_wait vf wait d) as [rv d1]. destruct (readl (MBOX_BASE vf + MBOX_FN_STATUS) d1) as [v d2] eqn:E.
  destruct (Z.ltb_spec rv 0); [by rewrite (proj2 (Z.leb_gt _ _))|]. rewrite (proj2 (Z.leb_le _ _)), E by done. cbn [andb].
  destruct (Z.eqb_spec v 0xffffffff) as [->|]; [|done]. split; [done|].
  change (Z.land 0xffffffff F_MBOX_FN_STATUS_IN_MSG =? 0) with false. cbn iota.
  repeat case_match; reflexivity.
Qed.

End copies.
