(* ===== verification/PciDev.v ===== *)
(** * Opening and closing a device (xdev.c)

    The library's list of devices, the mapping of the BARs, and the two calls
    that take a PCI function over and give it back.  The kernel's calls are
    parameters: their results are arguments, what they grant is a set of
    resources; giving back what is not held is a fault. *)

From stdpp Require Import gmap.
From S2P Require Import Prelude Regs Types Context Sgl Descq RxQueue Thread Resource Intr Queue Api Sriov Msg Mbox.
#[local] Open Scope Z_scope.

(** ** State *)

(** What the kernel grants to the driver for a function; [Mem] is the memory
    of [struct xlnx_dma_dev], [Timer] the armed mailbox timer. *)
Inductive pci_res := Regions | Enabled | Bar (i : nat) | Msix | Irq (i : nat) | Mem | Timer.
#[export] Instance pci_res_eq_dec : EqDecision pci_res.
Proof. solve_decision. Defined.

Definition res_code (r : pci_res) : nat * nat :=
  match r with
  | Regions => (0, 0) | Enabled => (1, 0) | Bar i => (2, i) | Msix => (3, 0) | Irq i => (4, i)
  | Mem => (5, 0) | Timer => (6, 0)
  end%nat.
#[export] Instance res_code_inj : Inj (=) (=) res_code.
Proof. intros [] [] [= ]; by subst. Qed.
#[export] Instance pci_res_countable : Countable pci_res := inj_countable' res_code
  (λ c, match c with
        | (0, _) => Regions | (1, _) => Enabled | (2, i) => Bar i | (3, _) => Msix | (4, i) => Irq i
        | (5, _) => Mem | _ => Timer
        end%nat) ltac:(by intros []).

(** A device of the list: the address of the structure, the function, the
    number, the BARs mapped and the number of vectors. *)
Record xnode := Xnode { n_id : nat; n_pdev : Z; n_idx : Z; n_bars : list nat; n_vecs : Z }.
#[export] Instance xnode_eta : Settable xnode := λ r,
  Xnode (n_id r) (n_pdev r) (n_idx r) (n_bars r) (n_vecs r).

(** [xdev_list]; the resources held, by function; the next address. *)
Record xlib := Xlib { xdev_list : list xnode; held : gset (Z * pci_res); next_id : nat }.
#[export] Instance xlib_eta : Settable xlib := λ r, Xlib (xdev_list r) (held r) (next_id r).

(** An action that may fault. *)
Definition LIB (A : Type) : Type := xlib → option (A * xlib).
#[export] Instance LIB_ret : MRet LIB := λ A a l, Some (a, l).
#[export] Instance LIB_bind : MBind LIB := λ A B f m l, '(a, l) ← m l; f a l.

Definition acquire (p : Z) (r : pci_res) : LIB unit := λ l, Some (tt, l <| held ::= λ h, {[(p, r)]} ∪ h |>).
Definition release (p : Z) (r : pci_res) : LIB unit := λ l,
  if bool_decide ((p, r) ∈ held l) then Some (tt, l <| held ::= λ h, h ∖ {[(p, r)]} |>) else None.

Fixpoint acquire_all (p : Z) (rs : list pci_res) : LIB unit :=
  match rs with [] => mret tt | r :: rs => _ ← acquire p r; acquire_all p rs end.
Fixpoint release_all (p : Z) (rs : list pci_res) : LIB unit :=
  match rs with [] => mret tt | r :: rs => _ ← release p r; release_all p rs end.

(** ** The list *)

(** [idx] is a [u8]. *)
Definition xdev_list_add (p : Z) : LIB xnode := λ l,
  let idx := match last (xdev_list l) with None => 0 | Some n => u8 (n_idx n + 1) end in
  let n := Xnode (next_id l) p idx [] 0 in
  Some (n, l <| xdev_list ::= λ ns, ns ++ [n] |> <| next_id ::= S |>).

Definition xdev_list_remove (id : nat) : LIB unit := λ l,
  Some (tt, l <| xdev_list ::= filter (λ n, n_id n ≠ id) |>).

Definition upd_node (id : nat) (f : xnode → xnode) : LIB unit := λ l,
  Some (tt, l <| xdev_list ::= fmap (λ n, if decide (n_id n = id) then f n else n) |>).

Definition xdev_find_by_pdev (p : Z) (l : xlib) : option xnode :=
  snd <$> list_find (λ n, n_pdev n = p) (xdev_list l).
Definition xdev_find_by_idx (idx : Z) (l : xlib) : option xnode :=
  snd <$> list_find (λ n, n_idx n = idx) (xdev_list l).

(** The function and the handle are not NULL. *)
Definition xdev_check_hndl (p : Z) (hndl : nat) (l : xlib) : Z :=
  match xdev_find_by_pdev p l with
  | None => - EINVAL
  | Some n => if negb (bool_decide (n_id n = hndl)) then - EINVAL else 0
  end.

(** ** BARs *)

Definition XDMA_MAX_BARS : nat := 6.

(** [ids]: for each BAR in turn, whether [pci_iomap] maps it, and the first
    word of a mapped one.  The loop ends at the first that is not mapped. *)
Fixpoint map_bars (p : Z) (n i : nat) (ids : list (option Z)) (cfg : Z) : LIB (Z * list nat) :=
  match n, ids with
  | S n, Some id :: ids =>
      _ ← acquire p (Bar i);
      let cfg := if (cfg <? 0) && (Z.land id 0xFFFF0000 =? 0x1FD30000) then Z.of_nat i else cfg in
      '(cfg, bs) ← map_bars p n (S i) ids cfg;
      mret (cfg, i :: bs)
  | _, _ => mret (cfg, [])
  end.

Definition xdev_unmap_bars (p : Z) (bs : list nat) : LIB unit := release_all p (Bar <$> bs).

(** The result, the configuration BAR and the BARs mapped. *)
Definition xdev_map_bars (p : Z) (ids : list (option Z)) : LIB (Z * Z * list nat) :=
  '(cfg, bs) ← map_bars p XDMA_MAX_BARS 0 ids (-1);
  if cfg <? 0 then _ ← xdev_unmap_bars p bs; mret (- EINVAL, cfg, []) else mret (0, cfg, bs).

(** ** Opening *)

(** The kernel's results: [pci_request_regions], [pci_enable_device],
    [pci_set_dma_mask] for 64 and for 32 bits, [kzalloc], the BARs, the number
    of vectors, [pci_enable_msix], [request_irq], the allocation of the queues
    and that of the table of virtual functions. *)
Record open_answers := OpenAns {
  a_regions : Z; a_enable : Z; a_mask64 : Z; a_mask32 : Z; a_alloc : bool; a_bars : list (option Z);
  a_vecs : Z; a_msix : Z; a_irqs : list Z; a_qdev : bool; a_vfmem : option (list qdma_vf_info) }.

Definition pci_dma_mask_set (a : open_answers) : Z :=
  if a_mask64 a =? 0 then 0 else if a_mask32 a =? 0 then 0 else - EINVAL.

(** [pci_disable_msix] and [free_irq] of [intr_teardown]. *)
Definition intr_res (vecs : Z) : list pci_res :=
  (Irq <$> reverse (seq 0 (Z.to_nat vecs))) ++ (if vecs =? 0 then [] else [Msix]).

Definition intr_teardown (p vecs : Z) : LIB unit := release_all p (intr_res vecs).

Section pcidev.
Context {D : Type} `{!RegIo D} {P : Type} `{!PciIov P}.

(** A device and the PCI core's side of its virtual functions. *)
Definition dstate : Type := sys D * P.

Definition xd_zero (conf : qdma_dev_conf) : xlnx_dma_dev := Xdev conf 0 0 0 [] 0 [] false [].

(** [xdev_alloc]: [env] has the threads, the memory, the allocators and the
    registers. *)
Definition xdev_alloc (conf : qdma_dev_conf) (env : sys D) : sys D :=
  let x := xd_zero (conf <| bar_num_config := -1 |> <| bar_num_user := -1 |>) in
  env <| s_is := IntrSys x [] [] (i_coh (s_is env)) (i_kzalloc (s_is env)) |>
      <| s_qd := Qdev false 0 0 0 0 [] [] |>.

Definition on_xd (f : xlnx_dma_dev → xlnx_dma_dev) (s : sys D) : sys D := s <| s_is ::= λ i, i <| i_xd ::= f |> |>.

(** [qdma_device_init] with the vectors it takes: granted when [intr_setup]
    succeeds, given back when the queues cannot be allocated. *)
Definition device_init (p : Z) (a : open_answers) (s : sys D) : LIB (Z * sys D) :=
  let '(rv, s) := qdma_device_init (a_vecs a) (a_msix a) (a_irqs a) (a_qdev a) s in
  if negb (Z.land (flags (s_xd s)) XDEV_FLAG_IRQ =? 0) then
    _ ← acquire_all p (intr_res (num_vecs (s_xd s)));
    if rv =? - ENOMEM then _ ← intr_teardown p (num_vecs (s_xd s)); mret (rv, s) else mret (rv, s)
  else mret (rv, s).

(** [qdma_device_cleanup] with the vectors it gives back. *)
Definition device_cleanup (p : Z) (s : sys D) : LIB (sys D) := λ l,
  s' ← qdma_device_cleanup s;
  if qmax (s_qd s) =? 0 then Some (s', l) else
  '(_, l) ← intr_teardown p (num_vecs (s_xd s)) l; Some (s', l).

(** The error exits, the last first. *)
Definition release_regions (p rv : Z) : LIB (Z * option (nat * dstate)) :=
  _ ← release p Regions; mret (rv, None).
Definition disable_device (p rv : Z) : LIB (Z * option (nat * dstate)) :=
  _ ← release p Enabled; release_regions p rv.
Definition unmap_bars (p : Z) (n : xnode) (bs : list nat) (rv : Z) : LIB (Z * option (nat * dstate)) :=
  _ ← xdev_unmap_bars p bs;
  _ ← xdev_list_remove (n_id n);
  _ ← release p Mem;
  disable_device p rv.

(** The end of [qdma_device_open]: the device goes online. *)
Definition open_online (p : Z) (n : xnode) (bs : list nat) (vf_max : Z) (a : open_answers) (s : sys D) (iov : P)
    : LIB (Z * option (nat * dstate)) :=
  let s := on_xd (λ x, x <| flags ::= λ f, Z.land f (Z.lnot XDEV_FLAG_OFFLINE) |>) s in
  let s := s <| s_hw := (mbox_timer_init false (s_hw s)).2 |> in
  _ ← acquire p Timer;
  _ ← upd_node (n_id n) (λ n, n <| n_bars := bs |> <| n_vecs := num_vecs (s_xd s) |>);
  let '(s, iov) :=
    if vf_max =? 0 then (s, iov)
    else let '(_, (x, iov)) := xdev_sriov_enable vf_max (a_vfmem a) (s_xd s, iov) in (on_xd (λ _, x) s, iov) in
  mret (0, Some (n_id n, (s, iov))).

(** The structure of a new device, with the number it has been given. *)
Definition xdev_new (conf : qdma_dev_conf) (env : sys D) (n : xnode) : sys D :=
  on_xd (λ x, x <| flags := XDEV_FLAG_OFFLINE |> <| dev_conf ::= λ c, c <| dev_idx := n_idx n |> |>)
    (xdev_alloc conf env).

(** The part of [qdma_device_open] from the allocation of the structure on. *)
Definition open_xdev (p : Z) (conf : qdma_dev_conf) (vf_max : Z) (a : open_answers) (env : sys D) (iov : P)
    : LIB (Z * option (nat * dstate)) :=
  if negb (a_alloc a) then disable_device p 0 else
  _ ← acquire p Mem;
  n ← xdev_list_add p;
  let s := xdev_new conf env n in
  '(rv, cfg, bs) ← xdev_map_bars p (a_bars a);
  if negb (rv =? 0) then unmap_bars p n bs rv else
  let s := on_xd (λ x, x <| dev_conf ::= λ c, c <| bar_num_config := cfg |> |>) s in
  '(rv, s) ← device_init p a s;
  if rv <? 0 then s ← device_cleanup p s; unmap_bars p n bs rv else
  open_online p n bs vf_max a s iov.

(** The result and the handle, with the device it stands for; no handle is the
    NULL handle. *)
Definition qdma_device_open (p : Z) (conf : qdma_dev_conf) (vf_max : Z) (a : open_answers) (env : sys D) (iov : P)
    : LIB (Z * option (nat * dstate)) := λ l,
  match xdev_find_by_pdev p l with
  | Some _ => Some ((- EINVAL, None), l)
  | None =>
      (if negb (a_regions a =? 0) then mret (a_regions a, None) else
       _ ← acquire p Regions;
       if negb (a_enable a =? 0) then release_regions p (a_enable a) else
       _ ← acquire p Enabled;
       if negb (pci_dma_mask_set a =? 0) then disable_device p (pci_dma_mask_set a) else
       open_xdev p conf vf_max a env iov) l
  end.

(** ** Closing *)

Definition sriov_off (d : dstate) : dstate :=
  let '(_, (x, iov)) := xdev_sriov_disable (s_xd d.1, d.2) in (on_xd (λ _, x) d.1, iov).

(** What follows the cleanup. *)
Definition close_rest (p : Z) (id : nat) (bs : list nat) : LIB unit :=
  _ ← (λ l, Some (tt, l <| held ::= λ h, h ∖ {[(p, Timer)]} |>));
  _ ← xdev_unmap_bars p bs;
  _ ← release p Regions;
  _ ← release p Enabled;
  _ ← xdev_list_remove id;
  release p Mem.

(** The BARs are those of the structure. *)
Definition qdma_device_close (p : Z) (hndl : option nat) (d : dstate) : LIB dstate := λ l,
  match hndl with
  | None => Some (d, l)
  | Some id =>
      if xdev_check_hndl p id l <? 0 then Some (d, l) else
      let bs := default [] (n_bars <$> xdev_find_by_pdev p l) in
      let d := sriov_off d in
      (s ← device_cleanup p d.1;
       _ ← close_rest p id bs;
       mret (s, d.2)) l
  end.

Definition qdma_device_read_config_register (p : Z) (hndl : nat) (reg : Z) (l : xlib) : ST (sys D) Z :=
  if xdev_check_hndl p hndl l <? 0 then mret (u32 (- EINVAL)) else on_hw (readl reg).

Definition qdma_device_write_config_register (p : Z) (hndl : nat) (reg v : Z) (l : xlib) : ST (sys D) unit :=
  if xdev_check_hndl p hndl l <? 0 then mret tt else on_hw (writel reg v).

End pcidev.

(** ** The invariant *)

Definition node_res (n : xnode) : list pci_res :=
  Regions :: Enabled :: Mem :: Timer :: (Bar <$> n_bars n) ++ intr_res (n_vecs n).

(** Every device of the list holds exactly its resources, and nothing else is
    held. *)
Record lib_inv (l : xlib) : Prop := {
  li_pdev : NoDup (n_pdev <$> xdev_list l);
  li_id : NoDup (n_id <$> xdev_list l);
  li_next : ∀ n, n ∈ xdev_list l → (n_id n < next_id l)%nat;
  li_bars : ∀ n, n ∈ xdev_list l → NoDup (n_bars n);
  li_held : ∀ p r, (p, r) ∈ held l ↔ ∃ n, n ∈ xdev_list l ∧ n_pdev n = p ∧ r ∈ node_res n }.

(** ** Lemmas on resources *)

Definition tok (p : Z) (rs : list pci_res) : gset (Z * pci_res) := list_to_set (pair p <$> rs).

Lemma elem_of_tok p q r rs : (q, r) ∈ tok p rs ↔ q = p ∧ r ∈ rs.
Proof.
  unfold tok. rewrite elem_of_list_to_set, list_elem_of_fmap. split; [intros (y & [= -> ->] & H); done|].
  intros [-> H]. by exists r.
Qed.

(** Resources in a state given by its parts. *)
Ltac held_solve :=
  apply set_eq; intros [? ?];
  repeat first [rewrite elem_of_union | rewrite elem_of_difference | rewrite elem_of_singleton | rewrite elem_of_tok
    | rewrite elem_of_cons | rewrite elem_of_app | rewrite pair_equal_spec];
  naive_solver.

Lemma acquire_all_spec p rs ns h k :
  acquire_all p rs (Xlib ns h k) = Some (tt, Xlib ns (tok p rs ∪ h) k).
Proof.
  revert h. induction rs as [|r rs IH]; intros h; cbn [acquire_all].
  - unfold mret, LIB_ret. do 3 f_equal. unfold tok. cbn. set_solver.
  - unfold mbind, LIB_bind, acquire. cbn [mbind option_bind held set eta xlib_eta xdev_list next_id].
    rewrite IH. do 3 f_equal. held_solve.
Qed.

Lemma release_all_spec p rs ns h k :
  NoDup rs → (∀ r, r ∈ rs → (p, r) ∈ h) →
  release_all p rs (Xlib ns h k) = Some (tt, Xlib ns (h ∖ tok p rs) k).
Proof.
  revert h. induction rs as [|r rs IH]; intros h Hnd Hin; cbn [release_all].
  - unfold mret, LIB_ret. do 3 f_equal. unfold tok. cbn. set_solver.
  - apply NoDup_cons in Hnd as [Hr Hnd]. unfold mbind, LIB_bind, release. cbn [held].
    rewrite bool_decide_eq_true_2 by (apply Hin; left). cbn [mbind option_bind held set eta xlib_eta xdev_list next_id].
    rewrite IH; [|done|].
    + do 3 f_equal. held_solve.
    + intros r' Hr'. apply elem_of_difference. split; [apply Hin; by right|].
      rewrite elem_of_singleton. by intros [= ->].
Qed.

Lemma intr_res_nodup v : NoDup (intr_res v).
Proof.
  unfold intr_res. apply NoDup_app. split_and!.
  - apply NoDup_fmap_2; [by intros ?? [=]|]. rewrite reverse_Permutation. apply NoDup_seq.
  - intros r (i & -> & _)%list_elem_of_fmap. destruct (v =? 0); [by intros ?%elem_of_nil|].
    rewrite list_elem_of_singleton. done.
  - destruct (v =? 0); repeat constructor. set_solver.
Qed.

Lemma elem_of_intr_res r v : r ∈ intr_res v → (∃ i, r = Irq i) ∨ r = Msix.
Proof.
  unfold intr_res. rewrite elem_of_app, list_elem_of_fmap. intros [(i & -> & _)|H]; [left; by exists i|].
  case_match; [by apply elem_of_nil in H|]. apply list_elem_of_singleton in H. by right.
Qed.

(** ** Lemmas on BARs *)

(** The BARs that are mapped: those before the first that cannot be; the
    configuration BAR shows its identifier. *)
Fixpoint leading (ids : list (option Z)) : list Z :=
  match ids with Some id :: ids => id :: leading ids | _ => [] end.
Definition is_cfg (id : Z) : bool := Z.land id 0xFFFF0000 =? 0x1FD30000.
Definition mapped (ids : list (option Z)) : list Z := leading (take XDMA_MAX_BARS ids).
Definition config_bar (ids : list (option Z)) : option nat := fst <$> list_find is_cfg (mapped ids).

Lemma map_bars_spec p n i ids cfg ns h c :
  let bs := seq i (length (leading (take n ids))) in
  let found := match list_find is_cfg (leading (take n ids)) with Some (j, _) => Z.of_nat (i + j) | None => -1 end in
  -1 <= cfg →
  map_bars p n i ids cfg (Xlib ns h c) =
  Some ((if cfg <? 0 then found else cfg, bs), Xlib ns (tok p (Bar <$> bs) ∪ h) c).
Proof.
  revert i ids cfg h. induction n as [|n IH]; intros i ids cfg h; cbv zeta; intros Hc;
    [rewrite take_0|destruct ids as [|[id|] ids]]; cbn [map_bars take leading list_find length seq fmap list_fmap].
  1, 2, 4: unfold mret, LIB_ret; unfold tok; cbn [fmap list_fmap list_to_set];
    replace (∅ ∪ h) with h by set_solver; destruct (Z.ltb_spec cfg 0); [|done]; by replace cfg with (-1) by lia.
  unfold mbind, LIB_bind, acquire. cbn [mbind option_bind held set eta xlib_eta xdev_list next_id].
  rewrite IH by (destruct (_ && _); lia). cbn [option_bind]. unfold mret, LIB_ret.
  replace (tok p (Bar <$> seq (S i) (length (leading (take n ids)))) ∪ ({[(p, Bar i)]} ∪ h))
    with (tok p (Bar i :: (Bar <$> seq (S i) (length (leading (take n ids))))) ∪ h) by held_solve.
  do 4 f_equal. fold (is_cfg id). destruct (Z.ltb_spec cfg 0); cbn [andb].
  - destruct (is_cfg id) eqn:E.
    + rewrite (proj2 (Z.ltb_ge _ _)) by lia. rewrite decide_True by done. by rewrite Nat.add_0_r.
    + rewrite (proj2 (Z.ltb_lt _ _)) by lia. rewrite decide_False by (by intros []).
      destruct (list_find is_cfg _) as [[j y]|]; [|done]. cbn. by rewrite Nat.add_succ_r.
  - by rewrite (proj2 (Z.ltb_ge _ _)) by lia.
Qed.

Lemma map_bars_outcome p ids ns h c :
  (∀ i, (p, Bar i) ∉ h) →
  xdev_map_bars p ids (Xlib ns h c) =
  match config_bar ids with
  | None => Some ((- EINVAL, -1, []), Xlib ns h c)
  | Some j =>
      let bs := seq 0 (length (mapped ids)) in
      Some ((0, Z.of_nat j, bs), Xlib ns (tok p (Bar <$> bs) ∪ h) c)
  end.
Proof.
  intros Hno. unfold xdev_map_bars, mbind, LIB_bind. rewrite map_bars_spec by done. cbn [mbind option_bind].
  fold (mapped ids). change (-1 <? 0) with true. cbn iota. unfold config_bar.
  set (bs := seq 0 (length (mapped ids))).
  destruct (list_find is_cfg (mapped ids)) as [[j y]|]; cbn [fmap option_fmap option_map fst].
  { by rewrite (proj2 (Z.ltb_ge _ _)) by lia. }
  change (-1 <? 0) with true. cbn iota. unfold xdev_unmap_bars. rewrite release_all_spec.
  - cbn [mbind option_bind]. unfold mret, LIB_ret. do 3 f_equal. apply set_eq. intros [q r].
    rewrite elem_of_difference, elem_of_union, elem_of_tok, list_elem_of_fmap.
    split; [naive_solver|]. intros Hin. split; [by right|]. intros [-> (i & -> & _)]. by apply (Hno i).
  - apply NoDup_fmap_2; [by intros ?? [=]|apply NoDup_seq].
  - intros r Hr. apply elem_of_union_l. by apply elem_of_tok.
Qed.

(** ** Lemmas on the steps of opening *)

Lemma acquire_spec p r ns h k : acquire p r (Xlib ns h k) = Some (tt, Xlib ns ({[(p, r)]} ∪ h) k).
Proof. done. Qed.

Lemma release_spec p r ns h k :
  (p, r) ∈ h → release p r (Xlib ns h k) = Some (tt, Xlib ns (h ∖ {[(p, r)]}) k).
Proof. intros Hin. unfold release. cbn [held]. by rewrite bool_decide_eq_true_2. Qed.

Lemma intr_setup_cases vc en rq x :
  num_vecs x = 0 →
  let '(rv, x') := intr_setup vc en rq x in
  dev_conf x' = dev_conf x ∧
  ((rv ≠ 0 ∧ flags x' = flags x) ∨ (rv = 0 ∧ flags x' = flags x ∧ num_vecs x' = 0) ∨
   (rv = 0 ∧ flags x' = Z.lor XDEV_FLAG_IRQ (flags x))).
Proof.
  intros Hv. pose proof (intr_setup_conf vc en rq x) as Hc. revert Hc. unfold intr_setup.
  destruct (poll_mode _); [by intros; split; [|naive_solver]|]. cbn [num_vecs set eta xdev_eta].
  destruct (Z.eqb_spec vc 0) as [E|E]; [by intros; split; [|naive_solver]|].
  match goal with |- context [if XDEV_NUM_IRQ_MAX <? ?a then ?b else ?b'] =>
    set (x1 := if XDEV_NUM_IRQ_MAX <? a then b else b') end.
  assert (flags x1 = flags x) as Ef by (unfold x1; by destruct (_ <? _)).
  destruct (Z.ltb_spec en 0); [intros Hc; split; [done|left; split; [lia|done]]|].
  destruct (Z.eqb_spec (request_irqs (Z.to_nat (num_vecs x1)) rq) 0); cbn [negb]; intros Hc; (split; [exact Hc|]).
  - right. right. split; [done|]. cbn [flags set eta xdev_eta]. by rewrite Ef.
  - by left.
Qed.

Section outcomes.
Context {D : Type} `{!RegIo D} {P : Type} `{!PciIov P}.

(** Queues that have just been initialised. *)
Definition fresh_queues (qd : qdma_dev) (n : Z) : Prop :=
  qmax qd = n ∧ qdev_inv qd ∧ ∀ d q, get_descq qd d = Some q → enabled q = false.

Lemma init_qdev_cases alloc (s : sys D) :
  0 < qsets_max (dev_conf (s_xd s)) < 2 ^ 15 →
  let '(rv, s') := init_qdev alloc s in
  s_is s' = s_is s ∧
  ((rv = - ENOMEM ∧ s_qd s' = s_qd s) ∨ (rv = 0 ∧ fresh_queues (s_qd s') (qsets_max (dev_conf (s_xd s))))).
Proof.
  intros Hm. destruct alloc.
  2: { unfold init_qdev. rewrite (proj2 (Z.eqb_neq _ _)) by lia. by split; [|left]. }
  destruct (init_qdev true s) as [rv s'] eqn:E.
  assert (rv = 0 ∧ s_is s' = s_is s ∧ qmax (s_qd s') = qsets_max (dev_conf (s_xd s)) ∧
    h2c_descq (s_qd s') = c2h_descq (s_qd s') ∧
    h2c_descq (s_qd s') = init_queues (Z.to_nat (qsets_max (dev_conf (s_xd s)))) (qbase (s_qd s')) 0)
    as (-> & Es & Eq & E1 & E2).
  { revert E. unfold init_qdev. rewrite (proj2 (Z.eqb_neq _ _)) by lia. cbn [negb].
    assert (u16 (qsets_max (dev_conf (s_xd s))) = qsets_max (dev_conf (s_xd s))) as -> by (apply Z.mod_small; lia).
    destruct (func_id (s_xd s) =? 0); [|by intros [= <- <-]].
    unfold mbind, ST_bind, on_hw, mret, ST_ret. cbn [s_hw set eta sys_eta].
    destruct (hw_set_global_csr _) as [u1 h1]. cbn [s_hw set eta sys_eta].
    destruct (enable_channels _ _ true _) as [u2 h2]. cbn [s_hw set eta sys_eta].
    destruct (enable_channels _ _ false _) as [u3 h3]. by intros [= <- <-]. }
  split; [done|]. right. split; [done|]. split; [done|]. split; [eapply init_qdev_inv, E; lia|].
  intros [[|] j] q; rewrite get_descq_dir; unfold dir_list; cbn [fst snd]; rewrite <- ?E1, E2;
    by intros ->%init_queues_lookup.
Qed.

Definition no_irq (s : sys D) : Prop := Z.land (flags (s_xd s)) XDEV_FLAG_IRQ = 0 ∧ num_vecs (s_xd s) = 0.

(** What stays of the configuration. *)
Definition conf_kept (c c' : qdma_dev_conf) : Prop :=
  qsets_max c' = qsets_max c ∧ dev_idx c' = dev_idx c ∧ bar_num_config c' = bar_num_config c.

Lemma find_user_bar_kept v f c : conf_kept c (find_user_bar v f c).
Proof.
  unfold find_user_bar, conf_kept. set (w := Z.land _ _). generalize (seqZ 0 6) c. intros l. clear.
  induction l as [|i l IH]; intros c; [done|]. cbn [foldl]. destruct (IH (if Z.testbit w i then c <| bar_num_user := i |> else c))
    as (-> & -> & ->). by destruct (Z.testbit w i).
Qed.

(** The outcomes of [qdma_device_init] by the vectors it keeps. *)
Lemma qdma_device_init_cases vc en rq alloc (s : sys D) :
  0 < qsets_max (dev_conf (s_xd s)) < 2 ^ 15 → no_irq s → s_qd s = Qdev false 0 0 0 0 [] [] →
  let '(rv, s') := qdma_device_init vc en rq alloc s in
  conf_kept (dev_conf (s_xd s)) (dev_conf (s_xd s')) ∧
  let irq := negb (Z.land (flags (s_xd s')) XDEV_FLAG_IRQ =? 0) in
  ((rv = - EINVAL ∧ irq = false ∧ qmax (s_qd s') = 0) ∨ (rv = - ENOMEM ∧ qmax (s_qd s') = 0) ∨
   (rv = 0 ∧ fresh_queues (s_qd s') (qsets_max (dev_conf (s_xd s))) ∧ (irq = false → num_vecs (s_xd s') = 0))).
Proof.
  intros Hm [Hf Hn] Hq. unfold qdma_device_init, on_hw, on_intr, mbind, ST_bind.
  destruct (readl QDMA_REG_FUNC_ID _) as [f h1]. cbn [s_is s_hw set eta sys_eta i_xd intr_sys_eta].
  destruct (readl 0x10C _) as [v h2]. cbn [s_is s_hw set eta sys_eta i_xd intr_sys_eta].
  match goal with |- context [intr_setup vc en rq ?x0] => set (x := x0) end.
  assert (num_vecs x = 0 ∧ flags x = flags (s_xd s) ∧ conf_kept (dev_conf (s_xd s)) (dev_conf x)) as (Hnx & Hfx & Hcx)
    by (split; [done|]; split; [done|]; apply find_user_bar_kept).
  pose proof (intr_setup_cases vc en rq x Hnx) as Hi. destruct (intr_setup vc en rq x) as [rv x'].
  destruct Hi as [Hc Hi]. cbn [s_is s_hw set eta sys_eta i_xd intr_sys_eta]. rewrite <- Hc in Hcx.
  destruct (Z.eqb_spec rv 0) as [E|E]; cbn [negb].
  - match goal with |- context [init_qdev alloc ?s0] => set (s1 := s0) end.
    pose proof (init_qdev_cases alloc s1) as Hd. destruct (init_qdev alloc s1) as [rv' s'].
    destruct Hcx as (Hc1 & Hc2). change (dev_conf (s_xd s1)) with (dev_conf x') in Hd.
    destruct Hd as [Es Hd]; [by rewrite Hc1|]. assert (s_xd s' = x') as -> by (unfold s_xd; by rewrite Es).
    split; [by split|]. cbv zeta. right. destruct Hd as [[-> Eq]|[-> Eq]]; [left|right].
    + split; [done|]. rewrite Eq. unfold s1. cbn [s_qd set eta sys_eta]. by rewrite Hq.
    + split; [done|]. split; [by rewrite <- Hc1|].
      destruct Hi as [[? _]|[(_ & _ & Hv)|(_ & Hv)]]; [done|done|]. rewrite Hv. intros Hfalse. exfalso.
      revert Hfalse. rewrite negb_false_iff, Z.eqb_eq. intros Hl. apply (f_equal (λ z, Z.testbit z 1)) in Hl.
      rewrite Z.land_spec, Z.lor_spec in Hl. change (Z.testbit XDEV_FLAG_IRQ 1) with true in Hl.
      cbn in Hl. done.
  - cbv zeta. cbn [s_qd set eta sys_eta]. split; [exact Hcx|]. left. split; [done|]. rewrite Hq. split; [|done].
    destruct Hi as [[_ Ef]|[[? _]|[? _]]]; [|done|done]. unfold s_xd. cbn [s_is i_xd]. by rewrite Ef, Hfx, Hf.
Qed.

Lemma device_init_outcome p a (s : sys D) ns h c :
  0 < qsets_max (dev_conf (s_xd s)) < 2 ^ 15 → no_irq s → s_qd s = Qdev false 0 0 0 0 [] [] →
  (∀ i, (p, Irq i) ∉ h) → (p, Msix) ∉ h →
  ∃ rv s', conf_kept (dev_conf (s_xd s)) (dev_conf (s_xd s')) ∧
    ((rv < 0 ∧ qmax (s_qd s') = 0 ∧ device_init p a s (Xlib ns h c) = Some ((rv, s'), Xlib ns h c)) ∨
     (rv = 0 ∧ fresh_queues (s_qd s') (qsets_max (dev_conf (s_xd s))) ∧
      device_init p a s (Xlib ns h c) = Some ((rv, s'), Xlib ns (tok p (intr_res (num_vecs (s_xd s'))) ∪ h) c))).
Proof.
  intros Hm Hn Hq Hi Hx. unfold device_init.
  pose proof (qdma_device_init_cases (a_vecs a) (a_msix a) (a_irqs a) (a_qdev a) s Hm Hn Hq) as H.
  destruct (qdma_device_init _ _ _ _ s) as [rv s']. destruct H as [Hc H]. exists rv, s'. split; [done|].
  set (irq := negb _) in *. set (rs := intr_res (num_vecs (s_xd s'))).
  assert (∀ r, r ∈ rs → (p, r) ∉ h) as Hno.
  { by intros r [[i ->]| ->]%elem_of_intr_res. }
  assert (acquire_all p rs (Xlib ns h c) = Some (tt, Xlib ns (tok p rs ∪ h) c)) as Ha by apply acquire_all_spec.
  assert (release_all p rs (Xlib ns (tok p rs ∪ h) c) = Some (tt, Xlib ns h c)) as Hr.
  { rewrite release_all_spec; [|apply intr_res_nodup|intros r Hr; apply elem_of_union_l; by apply elem_of_tok].
    do 3 f_equal. apply set_eq. intros [q r]. rewrite elem_of_difference, elem_of_union, !elem_of_tok.
    split; [naive_solver|]. intros Hin. split; [by right|]. intros [-> Hin']. by apply (Hno r). }
  destruct H as [(-> & -> & H)|[(-> & H)|(-> & Hq' & H)]].
  - left. unfold EINVAL. by split_and!.
  - left. split; [unfold ENOMEM; lia|]. split; [done|]. destruct irq; [|done].
    unfold mbind, LIB_bind. rewrite Ha. cbn [mbind option_bind]. rewrite Z.eqb_refl. unfold intr_teardown. fold rs.
    by rewrite Hr.
  - right. split; [done|]. split; [done|]. destruct irq.
    + unfold mbind, LIB_bind. by rewrite Ha.
    + unfold rs. rewrite H by done. unfold mret, LIB_ret. do 3 f_equal. unfold intr_res, tok. cbn. set_solver.
Qed.

End outcomes.

(** ** Opening and closing *)

Section open_close.
Context {D : Type} `{!RegIo D} {P : Type} `{!PciIov P}.

(** The number a new device gets. *)
Definition new_idx (ns : list xnode) : Z :=
  match last ns with None => 0 | Some n => u8 (n_idx n + 1) end.

Definition fresh_id (ns : list xnode) (c : nat) : Prop := ∀ n, n ∈ ns → (n_id n < c)%nat.
Definition none_held (p : Z) (h : gset (Z * pci_res)) : Prop := ∀ r, (p, r) ∉ h.

Lemma disable_exit p rv ns h c :
  none_held p h →
  disable_device (D := D) (P := P) p rv (Xlib ns ({[(p, Enabled)]} ∪ ({[(p, Regions)]} ∪ h)) c) =
  Some ((rv, None), Xlib ns h c).
Proof.
  intros Hno. unfold disable_device, release_regions, mbind, LIB_bind. rewrite release_spec by set_solver.
  cbn [mbind option_bind]. rewrite release_spec by set_solver. cbn [mbind option_bind].
  unfold mret, LIB_ret. do 3 f_equal. specialize (Hno Enabled) as H1. specialize (Hno Regions) as H2. set_solver.
Qed.

Lemma filter_same (Q : xnode → Prop) `{!∀ n, Decision (Q n)} (ns : list xnode) : (∀ n, n ∈ ns → Q n) → filter Q ns = ns.
Proof.
  intros HQ. induction ns as [|n ns IH]; [done|]. rewrite filter_cons_True by (apply HQ; left).
  f_equal. apply IH. intros m Hm. apply HQ. by right.
Qed.

Lemma remove_last ns n : fresh_id ns (n_id n) → filter (λ m, n_id m ≠ n_id n) (ns ++ [n]) = ns.
Proof.
  intros Hid. rewrite filter_app, filter_cons_False by (by intros []). rewrite filter_nil, app_nil_r.
  apply filter_same. intros m Hm. pose proof (Hid m Hm). lia.
Qed.

Lemma unmap_exit p n bs rv ns h c :
  fresh_id ns (n_id n) → NoDup bs → none_held p h →
  unmap_bars (D := D) (P := P) p n bs rv (Xlib (ns ++ [n])
    (tok p (Bar <$> bs) ∪ ({[(p, Mem)]} ∪ ({[(p, Enabled)]} ∪ ({[(p, Regions)]} ∪ h)))) c) =
  Some ((rv, None), Xlib ns h c).
Proof.
  intros Hid Hnd Hno. unfold unmap_bars, mbind, LIB_bind, xdev_unmap_bars. rewrite release_all_spec.
  - cbn [mbind option_bind]. unfold xdev_list_remove. cbn [xdev_list set eta xlib_eta mbind option_bind held next_id].
    rewrite remove_last by done. rewrite release_spec.
    + cbn [mbind option_bind]. rewrite <- (disable_exit p rv ns h c) by done. do 2 f_equal.
      apply set_eq. intros [q r]. rewrite !elem_of_difference, !elem_of_union, !elem_of_singleton, !elem_of_tok.
      rewrite list_elem_of_fmap. specialize (Hno Mem) as Hm. split; [naive_solver|].
      intros [H|[H|H]]; (split; [split|]); try naive_solver.
      intros [-> (i & -> & _)]. by apply (Hno (Bar i)).
    + rewrite elem_of_difference, elem_of_tok, list_elem_of_fmap. split; [set_solver|]. naive_solver.
  - apply NoDup_fmap_2; [by intros ?? [=]|done].
  - intros r Hr. apply elem_of_union_l. by apply elem_of_tok.
Qed.

Lemma sriov_enable_kept n mem x (iov : P) :
  let '(_, (x', _)) := xdev_sriov_enable n mem (x, iov) in ∃ l, x' = x <| vf_info := l |>.
Proof.
  unfold xdev_sriov_enable. destruct (negb _); [by exists (vf_info x); destruct x|].
  destruct mem as [vf|]; [|by exists (vf_info x); destruct x].
  destruct (pci_enable_sriov _ _) as [rv iov']. destruct (negb _); [|by eexists].
  cbn. destruct (pci_disable_sriov _) as [u i]. by eexists.
Qed.

(** The device a successful call gives. *)
Record opened (p : Z) (conf : qdma_dev_conf) (a : open_answers) (ns : list xnode) (c : nat)
    (n : xnode) (s : sys D) : Prop := {
  op_id : n_id n = c;
  op_pdev : n_pdev n = p;
  op_idx : n_idx n = new_idx ns ∧ dev_idx (dev_conf (s_xd s)) = new_idx ns;
  op_bars : n_bars n = seq 0 (length (mapped (a_bars a)));
  op_cfg : Z.of_nat <$> config_bar (a_bars a) = Some (bar_num_config (dev_conf (s_xd s)));
  op_vecs : n_vecs n = num_vecs (s_xd s);
  op_qsets : qsets_max (dev_conf (s_xd s)) = qsets_max conf;
  op_queues : fresh_queues (s_qd s) (qsets_max conf) }.

Lemma upd_node_last ns n f h c :
  fresh_id ns (n_id n) → upd_node (n_id n) f (Xlib (ns ++ [n]) h c) = Some (tt, Xlib (ns ++ [f n]) h c).
Proof.
  intros Hid. unfold upd_node. do 2 f_equal. unfold set. cbn [eta xlib_eta xdev_list held next_id].
  rewrite fmap_app. cbn [fmap list_fmap]. rewrite decide_True by done. do 2 f_equal.
  rewrite <- (list_fmap_id ns) at 2. apply list_fmap_ext. intros i m Hm. rewrite decide_False; [done|].
  pose proof (Hid m ltac:(by eapply list_elem_of_lookup_2)). lia.
Qed.

Lemma open_online_spec p n bs vf_max a s iov ns h c :
  fresh_id ns (n_id n) →
  ∃ s' iov', open_online (D := D) p n bs vf_max a s iov (Xlib (ns ++ [n]) h c) =
    Some ((0, Some (n_id n, (s', iov'))),
          Xlib (ns ++ [n <| n_bars := bs |> <| n_vecs := num_vecs (s_xd s) |>]) ({[(p, Timer)]} ∪ h) c) ∧
    num_vecs (s_xd s') = num_vecs (s_xd s) ∧ dev_conf (s_xd s') = dev_conf (s_xd s) ∧ s_qd s' = s_qd s.
Proof.
  intros Hid. unfold open_online, mbind, LIB_bind. rewrite acquire_spec. cbn [mbind option_bind].
  set (s1 := (on_xd _ s) <| s_hw := _ |>).
  assert (num_vecs (s_xd s1) = num_vecs (s_xd s) ∧ dev_conf (s_xd s1) = dev_conf (s_xd s) ∧ s_qd s1 = s_qd s)
    as (Hv & Hc & Hq) by done.
  rewrite upd_node_last by done. cbn [mbind option_bind]. rewrite Hv.
  destruct (vf_max =? 0); [by exists s1, iov|].
  pose proof (sriov_enable_kept vf_max (a_vfmem a) (s_xd s1) iov) as Hk.
  destruct (xdev_sriov_enable _ _ _) as [rv [x iov']]. destruct Hk as [l ->].
  exists (on_xd (λ _, (s_xd s1) <| vf_info := l |>) s1), iov'. by split_and!.
Qed.

Lemma open_xdev_outcome p conf vf_max a (env : sys D) (iov : P) ns h c :
  0 < qsets_max conf < 2 ^ 15 → fresh_id ns c → none_held p h →
  let l := Xlib ns ({[(p, Enabled)]} ∪ ({[(p, Regions)]} ∪ h)) c in
  (∃ rv c', open_xdev p conf vf_max a env iov l = Some ((rv, None), Xlib ns h c') ∧ (c <= c')%nat ∧
     rv <= 0 ∧ (rv = 0 → a_alloc a = false)) ∨
  (∃ s iov' n, open_xdev p conf vf_max a env iov l =
     Some ((0, Some (c, (s, iov'))), Xlib (ns ++ [n]) (tok p (node_res n) ∪ h) (S c)) ∧
     opened p conf a ns c n s).
Proof.
  intros Hq Hid Hno l. subst l. unfold open_xdev.
  destruct (a_alloc a); cbn [negb]; [|left; exists 0, c; rewrite disable_exit by done; by split_and!].
  unfold mbind, LIB_bind. rewrite acquire_spec. cbn [mbind option_bind].
  unfold xdev_list_add. cbn [mbind option_bind held set eta xlib_eta xdev_list next_id].
  fold (new_idx ns). set (n := Xnode c p (new_idx ns) [] 0).
  set (h1 := {[(p, Mem)]} ∪ ({[(p, Enabled)]} ∪ ({[(p, Regions)]} ∪ h))).
  assert (∀ i, (p, Bar i) ∉ h1) as Hb1 by (intros i; specialize (Hno (Bar i)); unfold h1; set_solver).
  rewrite map_bars_outcome by done. set (bs := seq 0 (length (mapped (a_bars a)))).
  destruct (config_bar (a_bars a)) as [j|] eqn:Ej; cbn [mbind option_bind].
  2: { left. exists (- EINVAL), (S c). change (negb (- EINVAL =? 0)) with true. cbn iota.
    split; [|by split_and!; [lia|..]]. rewrite <- (unmap_exit p n [] (- EINVAL) ns h (S c)) by (done || constructor).
    f_equal. f_equal. unfold h1, tok. cbn. set_solver. }
  cbn [negb Z.eqb]. set (s0 := on_xd _ (xdev_new _ _ _)).
  destruct (device_init_outcome p a s0 (ns ++ [n]) (tok p (Bar <$> bs) ∪ h1) (S c)) as (rv & s1 & Hc & Ho).
  { exact Hq. } { done. } { done. }
  { intros i. rewrite elem_of_union, elem_of_tok, list_elem_of_fmap. specialize (Hno (Irq i)). unfold h1. set_solver. }
  { rewrite elem_of_union, elem_of_tok, list_elem_of_fmap. specialize (Hno Msix). unfold h1. set_solver. }
  destruct Ho as [(Hrv & Hz & ->)|(-> & Hz & ->)]; cbn [mbind option_bind].
  { left. exists rv, (S c). rewrite (proj2 (Z.ltb_lt _ _)) by done. split; [|by split_and!; lia].
    unfold device_cleanup, qdma_device_cleanup. rewrite Hz, Z.eqb_refl. cbn [mbind option_bind].
    apply unmap_exit; [done|apply NoDup_seq|done]. }
  right. cbn [Z.ltb Z.compare].
  destruct (open_online_spec p n bs vf_max a s1 iov ns
    (tok p (intr_res (num_vecs (s_xd s1))) ∪ (tok p (Bar <$> bs) ∪ h1)) (S c) Hid) as (s2 & iov2 & -> & Ev & Ec & Eq).
  exists s2, iov2, (n <| n_bars := bs |> <| n_vecs := num_vecs (s_xd s1) |>). destruct Hc as (Hc1 & Hc2 & Hc3).
  split.
  - do 3 f_equal. unfold h1, node_res. cbn [n_bars n_vecs set eta xnode_eta]. held_solve.
  - split; try done.
    + split; [done|]. by rewrite Ec, Hc2.
    + by rewrite Ej, Ec, Hc3.
    + by rewrite Ec, Hc1.
    + by rewrite Eq.
Qed.

(** ** The list *)

Lemma find_pdev_none p l : xdev_find_by_pdev p l = None ↔ ∀ n, n ∈ xdev_list l → n_pdev n ≠ p.
Proof.
  unfold xdev_find_by_pdev. destruct (list_find _ _) as [[i n]|] eqn:E; cbn.
  - split; [done|]. apply list_find_Some in E as (E & Hp & _). intros H. by destruct (H n); [eapply list_elem_of_lookup_2|].
  - split; [|done]. intros _ n Hn. apply list_find_None in E. by rewrite Forall_forall in E; apply E.
Qed.

Lemma find_pdev_some l n :
  lib_inv l → n ∈ xdev_list l → xdev_find_by_pdev (n_pdev n) l = Some n.
Proof.
  intros Hi Hn. destruct (xdev_find_by_pdev (n_pdev n) l) as [m|] eqn:E.
  - f_equal. unfold xdev_find_by_pdev in E. destruct (list_find _ _) as [[i m']|] eqn:Ef; [|done].
    injection E as ->. apply list_find_Some in Ef as (Em & Hp & _).
    apply list_elem_of_lookup in Hn as [j Hj].
    assert (i = j) as ->; [|congruence].
    eapply (NoDup_lookup _ _ _ (n_pdev n) (li_pdev _ Hi)); rewrite list_lookup_fmap; [by rewrite Em, <- Hp|by rewrite Hj].
  - by destruct (proj1 (find_pdev_none _ _) E n Hn).
Qed.

(** A device of its own is added: its resources are those it holds. *)
Lemma add_inv l n h :
  lib_inv l → (∀ m, m ∈ xdev_list l → n_pdev m ≠ n_pdev n) → n_id n = next_id l → NoDup (n_bars n) →
  h = tok (n_pdev n) (node_res n) ∪ held l → lib_inv (Xlib (xdev_list l ++ [n]) h (S (next_id l))).
Proof.
  intros Hi Hp Hid Hb ->. split; cbn [xdev_list next_id held].
  - rewrite fmap_app. apply NoDup_app. split_and!; [apply (li_pdev _ Hi)| |apply NoDup_singleton].
    intros q (m & -> & Hm)%list_elem_of_fmap. cbn. rewrite list_elem_of_singleton. by apply Hp.
  - rewrite fmap_app. apply NoDup_app. split_and!; [apply (li_id _ Hi)| |apply NoDup_singleton].
    intros q (m & -> & Hm)%list_elem_of_fmap. cbn. rewrite list_elem_of_singleton. pose proof (li_next _ Hi m Hm). lia.
  - intros m. rewrite elem_of_app, list_elem_of_singleton. intros [Hm| ->]; [pose proof (li_next _ Hi m Hm)|]; lia.
  - intros m. rewrite elem_of_app, list_elem_of_singleton. intros [Hm| ->]; [by apply (li_bars _ Hi)|done].
  - intros q r. rewrite elem_of_union, elem_of_tok, (li_held _ Hi). setoid_rewrite elem_of_app.
    setoid_rewrite list_elem_of_singleton. naive_solver.
Qed.

Lemma nodup_filter {B} (f : xnode → B) (Q : xnode → Prop) `{!∀ n, Decision (Q n)} (ns : list xnode) :
  NoDup (f <$> ns) → NoDup (f <$> filter Q ns).
Proof.
  induction ns as [|n ns IH]; [done|]. rewrite fmap_cons. intros [Hn Hnd]%NoDup_cons.
  destruct (decide (Q n)); [rewrite filter_cons_True by done|rewrite filter_cons_False by done; by apply IH].
  rewrite fmap_cons. apply NoDup_cons. split; [|by apply IH]. contradict Hn.
  apply list_elem_of_fmap in Hn as (m & -> & Hm). apply list_elem_of_filter in Hm as [_ Hm].
  by apply list_elem_of_fmap_2.
Qed.

(** A device is removed with all it holds. *)
Lemma remove_inv l n h :
  lib_inv l → n ∈ xdev_list l → (∀ q r, (q, r) ∈ h ↔ (q, r) ∈ held l ∧ q ≠ n_pdev n) →
  lib_inv (Xlib (filter (λ m, n_id m ≠ n_id n) (xdev_list l)) h (next_id l)).
Proof.
  intros Hi Hn Hh. set (ns := filter _ _).
  assert (∀ m, m ∈ ns ↔ m ∈ xdev_list l ∧ n_pdev m ≠ n_pdev n) as Hns.
  { intros m. unfold ns. rewrite list_elem_of_filter. split; intros [H1 H2]; (split; try done).
    - intros E. pose proof (find_pdev_some l m Hi H2) as Em. rewrite E, (find_pdev_some l n Hi Hn) in Em. congruence.
    - intros E. apply H2. apply list_elem_of_lookup in H1 as [i Em]. apply list_elem_of_lookup in Hn as [j En].
      assert (i = j) as ->; [|congruence].
      eapply (NoDup_lookup _ _ _ (n_id n) (li_id _ Hi)); rewrite list_lookup_fmap; [by rewrite Em, <- E|by rewrite En]. }
  split; cbn [xdev_list next_id held].
  - apply nodup_filter, (li_pdev _ Hi).
  - apply nodup_filter, (li_id _ Hi).
  - intros m [Hm _]%Hns. by apply (li_next _ Hi).
  - intros m [Hm _]%Hns. by apply (li_bars _ Hi).
  - intros q r. rewrite Hh, (li_held _ Hi). setoid_rewrite Hns. naive_solver.
Qed.

Lemma close_rest_spec p id bs ns h c :
  NoDup bs → (∀ r, r ∈ Regions :: Enabled :: Mem :: (Bar <$> bs) → (p, r) ∈ h) →
  ∃ h', close_rest p id bs (Xlib ns h c) = Some (tt, Xlib (filter (λ m, n_id m ≠ id) ns) h' c) ∧
    ∀ q r, (q, r) ∈ h' ↔ (q, r) ∈ h ∧ ¬ (q = p ∧ r ∈ Regions :: Enabled :: Mem :: Timer :: (Bar <$> bs)).
Proof.
  intros Hnd Hh. assert (∀ r, r ∈ Bar <$> bs → ∃ i, r = Bar i) as Hb
    by (intros r (i & -> & _)%list_elem_of_fmap; by exists i).
  unfold close_rest, xdev_unmap_bars, mbind, LIB_bind.
  cbn [mbind option_bind xdev_list held next_id set eta xlib_eta].
  rewrite release_all_spec; [|by apply NoDup_fmap_2; [intros ?? [=]|]|].
  2: { intros r Hr. apply elem_of_difference. split; [apply Hh; set_solver|]. destruct (Hb r Hr) as [i ->]. set_solver. }
  cbn [mbind option_bind]. set (bars := tok p (Bar <$> bs)).
  assert (∀ q r, (q, r) ∈ bars ↔ q = p ∧ r ∈ Bar <$> bs) as Hbars by (intros q r; apply elem_of_tok).
  assert (∀ r, r ∈ [Regions; Enabled; Mem] → (p, r) ∈ h ∖ {[(p, Timer)]} ∖ bars) as Hin.
  { intros r Hr. rewrite !elem_of_difference, elem_of_singleton, Hbars.
    split; [split; [apply Hh; set_solver|intros [= ->]; set_solver]|].
    intros [_ Hr']. destruct (Hb r Hr') as [i ->]. set_solver. }
  rewrite release_spec by (apply Hin; set_solver). cbn [mbind option_bind].
  rewrite release_spec by (apply elem_of_difference; split; [apply Hin|]; set_solver).
  cbn [mbind option_bind]. unfold xdev_list_remove. cbn [mbind option_bind xdev_list held next_id set eta xlib_eta].
  rewrite release_spec by (apply elem_of_difference; split; [apply elem_of_difference; split; [apply Hin|]|]; set_solver).
  eexists. split; [done|]. intros q r. rewrite !elem_of_difference, !elem_of_singleton, Hbars, !elem_of_cons. naive_solver.
Qed.

(** Opening, with the sign of the result. *)
Lemma open_spec p conf vf_max a (env : sys D) (iov : P) l :
  lib_inv l → 0 < qsets_max conf < 2 ^ 15 →
  ∃ rv hndl l', qdma_device_open p conf vf_max a env iov l = Some ((rv, hndl), l') ∧ lib_inv l' ∧
    match hndl with
    | None => xdev_list l' = xdev_list l ∧ held l' = held l ∧ (rv = 0 → a_alloc a = false) ∧
      (a_regions a <= 0 → a_enable a <= 0 → rv <= 0)
    | Some (id, (s, _)) => rv = 0 ∧ ∃ n, xdev_list l' = xdev_list l ++ [n] ∧ opened p conf a (xdev_list l) id n s
    end.
Proof.
  intros Hi Hq. unfold qdma_device_open. destruct (xdev_find_by_pdev p l) as [n|] eqn:Ef.
  { exists (- EINVAL), None, l. by split_and!. }
  pose proof (proj1 (find_pdev_none _ _) Ef) as Hp.
  assert (none_held p (held l)) as Hno.
  { intros r (n & Hn & Hpn & _)%(li_held _ Hi). by apply (Hp n). }
  destruct l as [ns h c]. cbn [xdev_list held] in *.
  destruct (Z.eqb_spec (a_regions a) 0) as [_|E]; cbn [negb].
  2: { exists (a_regions a), None, (Xlib ns h c). by split_and!. }
  unfold mbind, LIB_bind. rewrite acquire_spec. cbn [mbind option_bind].
  destruct (Z.eqb_spec (a_enable a) 0) as [_|E]; cbn [negb].
  2: { exists (a_enable a), None, (Xlib ns h c). split; [|by split_and!].
    unfold release_regions, mbind, LIB_bind. rewrite release_spec by set_solver. cbn [mbind option_bind].
    unfold mret, LIB_ret. do 3 f_equal. specialize (Hno Regions). set_solver. }
  rewrite acquire_spec. cbn [mbind option_bind].
  destruct (Z.eqb_spec (pci_dma_mask_set a) 0) as [_|E]; cbn [negb].
  2: { exists (pci_dma_mask_set a), None, (Xlib ns h c). rewrite disable_exit by done. split_and!; try done.
    intros _ _. unfold pci_dma_mask_set. repeat case_match; done. }
  destruct (open_xdev_outcome p conf vf_max a env iov ns h c Hq)
    as [(rv & c' & -> & Hc & Hle & Hr)|(s & iov' & n & -> & Ho)].
  - intros m Hm. apply (li_next _ Hi m Hm).
  - done.
  - exists rv, None, (Xlib ns h c'). split; [done|]. split; [|done]. destruct Hi as [H1 H2 H3 H4 H5].
    split; try done. intros m Hm. pose proof (H3 m Hm). cbn in *. lia.
  - eexists _, _, _. split; [done|]. split; [|split; [done|by exists n]].
    eapply (add_inv (Xlib ns h c) n); [done|by rewrite (op_pdev _ _ _ _ _ _ _ Ho)|apply (op_id _ _ _ _ _ _ _ Ho)| |].
    + rewrite (op_bars _ _ _ _ _ _ _ Ho). apply NoDup_seq.
    + by rewrite (op_pdev _ _ _ _ _ _ _ Ho).
Qed.

(** Closing. *)
Lemma close_spec n (d : dstate) s' l :
  lib_inv l → n ∈ xdev_list l → num_vecs (s_xd d.1) = n_vecs n → qmax (s_qd d.1) ≠ 0 →
  qdma_device_cleanup (sriov_off d).1 = Some s' →
  ∃ l', qdma_device_close (n_pdev n) (Some (n_id n)) d l = Some ((s', (sriov_off d).2), l') ∧ lib_inv l' ∧
    xdev_list l' = filter (λ m, n_id m ≠ n_id n) (xdev_list l) ∧
    ∀ q r, (q, r) ∈ held l' ↔ (q, r) ∈ held l ∧ q ≠ n_pdev n.
Proof.
  intros Hi Hn Hv Hq Hs. pose proof (find_pdev_some l n Hi Hn) as Ef.
  unfold qdma_device_close, xdev_check_hndl. rewrite Ef, bool_decide_eq_true_2 by done. cbn [negb Z.ltb Z.compare].
  assert (s_qd (sriov_off d).1 = s_qd d.1 ∧ num_vecs (s_xd (sriov_off d).1) = num_vecs (s_xd d.1)) as [Eq Ev].
  { unfold sriov_off, xdev_sriov_disable. by destruct (pci_disable_sriov _). }
  assert (∀ r, r ∈ node_res n → (n_pdev n, r) ∈ held l) as Hh by (intros r Hr; apply (li_held _ Hi); by exists n).
  set (d' := sriov_off d) in *. cbn [fmap option_fmap option_map default].
  unfold device_cleanup, intr_teardown, mbind, LIB_bind. rewrite Hs, Eq, Ev, Hv, (proj2 (Z.eqb_neq _ _)) by done.
  destruct l as [ns h c]. cbn [mbind option_bind xdev_list held next_id id] in *.
  rewrite release_all_spec; [|apply intr_res_nodup|intros r Hr; apply Hh; unfold node_res; set_solver].
  cbn [mbind option_bind].
  destruct (close_rest_spec (n_pdev n) (n_id n) (n_bars n) ns (h ∖ tok (n_pdev n) (intr_res (n_vecs n))) c)
    as (h' & -> & Hh'); [by apply (li_bars _ Hi)| |].
  { intros r Hr. apply elem_of_difference. split; [apply Hh; unfold node_res; set_solver|]. rewrite elem_of_tok.
    intros [_ [[i ->]| ->]%elem_of_intr_res]; rewrite !elem_of_cons, list_elem_of_fmap in Hr; naive_solver. }
  cbn [mbind option_bind]. unfold mret, LIB_ret. eexists. split; [done|]. cbn [xdev_list held].
  assert (∀ q r, (q, r) ∈ h' ↔ (q, r) ∈ h ∧ q ≠ n_pdev n) as Hfin.
  { intros q r. rewrite Hh', elem_of_difference, elem_of_tok. split.
    - intros [[Hin H1] H2]. split; [done|]. intros ->. apply (li_held _ Hi) in Hin as (m & Hm & Hp & Hr).
      assert (m = n) as -> by (apply (find_pdev_some _ _ Hi) in Hm; rewrite Hp in Hm; cbn in *; congruence).
      unfold node_res in Hr. rewrite !elem_of_cons, elem_of_app in Hr. rewrite !elem_of_cons in H2. naive_solver.
    - naive_solver. }
  split; [|split; [done|exact Hfin]]. by apply (remove_inv (Xlib ns h c) n).
Qed.

(** Queues that have not been added need no stopping. *)
Lemma stop_fresh n i b (s : sys D) :
  (∀ d q, get_descq (s_qd s) d = Some q → enabled q = false) → stop_queues n i b s = Some s.
Proof.
  intros H. revert i. induction n as [|n IH]; intros i; [done|]. cbn [stop_queues].
  assert (enabled (queue_of s (b, i)) = false) as ->; [|apply IH].
  unfold queue_of. destruct (get_descq (s_qd s) (b, i)) eqn:E; [by eapply H|done].
Qed.

Lemma cleanup_fresh (s : sys D) n : fresh_queues (s_qd s) n → is_Some (qdma_device_cleanup s).
Proof.
  intros (_ & _ & H). unfold qdma_device_cleanup. destruct (_ =? 0); [by eexists|].
  rewrite stop_fresh by done. cbn [mbind option_bind]. rewrite stop_fresh by done. by eexists.
Qed.

(** ** Properties *)

(** C17: opening a device either takes everything it needs or nothing: on a
    failure, at whatever step, every resource taken on the way has been given
    back, none twice, and the list of devices is the one before; on success
    the device is the last of the list with the number after its
    predecessor's, its configuration BAR is the first of the mapped BARs that
    shows the identifier, and it holds exactly its own resources.  (When the
    structure cannot be allocated the call gives everything back, but
    reports success.) *)
Theorem device_open_balanced p conf vf_max a (env : sys D) (iov : P) l :
  lib_inv l → 0 < qsets_max conf < 2 ^ 15 →
  ∃ rv hndl l', qdma_device_open p conf vf_max a env iov l = Some ((rv, hndl), l') ∧ lib_inv l' ∧
    match hndl with
    | None => xdev_list l' = xdev_list l ∧ held l' = held l ∧ (rv = 0 → a_alloc a = false)
    | Some (id, (s, _)) => rv = 0 ∧ ∃ n, xdev_list l' = xdev_list l ++ [n] ∧ opened p conf a (xdev_list l) id n s
    end.
Proof.
  intros Hi Hq. destruct (open_spec p conf vf_max a env iov l Hi Hq) as (rv & h & l' & E & Hi' & H).
  exists rv, h, l'. split; [done|]. split; [done|]. destruct h as [[id [s iov']]|]; [done|]. naive_solver.
Qed.

(** Closing a device whose queues can be stopped gives back everything it
    holds, once, and nothing of any other device, and takes it off the list. *)
Theorem device_close_releases n (d : dstate) s' l :
  lib_inv l → n ∈ xdev_list l → num_vecs (s_xd d.1) = n_vecs n → qmax (s_qd d.1) ≠ 0 →
  qdma_device_cleanup (sriov_off d).1 = Some s' →
  ∃ l', qdma_device_close (n_pdev n) (Some (n_id n)) d l = Some ((s', (sriov_off d).2), l') ∧ lib_inv l' ∧
    xdev_list l' = filter (λ m, n_id m ≠ n_id n) (xdev_list l) ∧
    ∀ q r, (q, r) ∈ held l' ↔ (q, r) ∈ held l ∧ q ≠ n_pdev n.
Proof. apply close_spec. Qed.

End open_close.

(** One function with three BARs, the second of which is the configuration
    BAR; no virtual functions. *)
Module SamplePci.
#[global] Instance iov : PciIov nat := {
  pci_num_vf p := Z.of_nat p; pci_enable_sriov n p := (0, Z.to_nat n); pci_disable_sriov p := (tt, 0%nat) }.

Definition ans : open_answers :=
  OpenAns 0 0 0 0 true [Some 5; Some 0x1FD30001; Some 7; None; Some 9; Some 11] 0 0 [] true None.
Definition conf : qdma_dev_conf := dev_conf (s_xd fresh_sys).
Definition l0 : xlib := Xlib [] ∅ 0.

Lemma pci_inv0 : lib_inv l0.
Proof.
  split; cbn; [constructor|constructor|by intros ? ?%elem_of_nil..|].
  intros p r. split; [set_solver|]. by intros (n & ?%elem_of_nil & _).
Qed.

(** Opened on an empty list. *)
Notation opened_at p := (qdma_device_open (D := SimHw.t) (P := nat) p conf 0 ans fresh_sys 0%nat l0).

Lemma opened_ok : (λ r, (r.1.1, bool_decide (is_Some r.1.2))) <$> opened_at 8 = Some (0, true).
Proof. by vm_compute. Qed.

(** A device that is open, and what it stands for. *)
Definition n1 : xnode := Xnode 0 8 0 [0; 1; 2]%nat 2.
Definition l1 : xlib := Xlib [n1] (tok 8 (node_res n1)) 1.
Definition d1 : dstate := (on_xd (λ x, x <| num_vecs := 2 |>) init_sys, 0%nat).

Lemma cleanup_ok : bool_decide (is_Some (qdma_device_cleanup (sriov_off d1).1)) = true.
Proof. by vm_compute. Qed.

Lemma pci_inv1 : lib_inv l1.
Proof.
  apply (add_inv l0 n1); [exact pci_inv0|by intros ? ?%elem_of_nil|done| |].
  - cbn. repeat constructor; set_solver.
  - cbn. by rewrite union_empty_r_L.
Qed.
End SamplePci.

Lemma device_open_balanced_witness : ∃ rv h l',
  SamplePci.opened_at 8 = Some ((rv, h), l') ∧ lib_inv l' ∧ rv = 0 ∧ is_Some h.
Proof.
  destruct (device_open_balanced 8 SamplePci.conf 0 SamplePci.ans fresh_sys 0%nat SamplePci.l0)
    as (rv & h & l' & E & Hi & _); [exact SamplePci.pci_inv0|by vm_compute|].
  pose proof SamplePci.opened_ok as Hs. rewrite E in Hs.
  cbn [fmap option_fmap option_map fst snd] in Hs. exists rv, h, l'. split; [exact E|]. split; [exact Hi|].
  destruct h as [h|]; [|done]. split; [congruence|by eexists].
Defined.

Lemma device_close_releases_witness : ∃ s' l',
  qdma_device_close 8 (Some 0%nat) SamplePci.d1 SamplePci.l1 = Some ((s', 0%nat), l') ∧
  xdev_list l' = [] ∧ lib_inv l' ∧ (8, Irq 1) ∈ held SamplePci.l1 ∧ (8, Irq 1) ∉ held l'.
Proof.
  destruct (qdma_device_cleanup (sriov_off SamplePci.d1).1) as [s'|] eqn:E.
  2: { pose proof SamplePci.cleanup_ok as H. by rewrite E in H. }
  destruct (device_close_releases SamplePci.n1 SamplePci.d1 s' SamplePci.l1) as (l' & Ec & Hi & Hl & Hh).
  - exact SamplePci.pci_inv1.
  - left.
  - done.
  - by vm_compute.
  - exact E.
  - exists s', l'. split; [exact Ec|]. split; [by rewrite Hl|]. split; [exact Hi|]. split.
    + apply elem_of_tok. split; [done|]. apply (bool_decide_eq_true_1 _). by vm_compute.
    + intros [_ Hn]%Hh. exact (Hn eq_refl).
Defined.
