(* ===== verification/Cstring.v ===== *)
(** * C strings: the number parsers of the tools (cmd_parse.c, dma_utils.c)

    The functions of the C library the user tools call on their arguments, as
    the C standard defines them: [strtoul] with base 0 and the [sscanf]
    conversions, on strings without their terminating NUL.  A pointer into a
    string is the rest of the string from there on. *)

From stdpp Require Import strings.
From Stdlib Require Import Ascii.
From S2P Require Import Prelude.
#[local] Open Scope Z_scope.

Notation "s =s t" := (String.eqb s t) (at level 70).

(** ** Characters *)

Definition code (c : ascii) : Z := Z.of_nat (nat_of_ascii c).
Definition isspace (c : ascii) : bool := (code c =? 32) || ((9 <=? code c) && (code c <=? 13)).
Definition isdigit (c : ascii) : bool := (48 <=? code c) && (code c <=? 57).

Definition digit_val (c : ascii) : option Z :=
  let n := code c in
  if (48 <=? n) && (n <=? 57) then Some (n - 48)
  else if (97 <=? n) && (n <=? 122) then Some (n - 87)
  else if (65 <=? n) && (n <=? 90) then Some (n - 55)
  else None.

Fixpoint forall_chars (f : ascii → bool) (s : string) : bool :=
  match s with
  | EmptyString => true
  | String c s => f c && forall_chars f s
  end.

(** [s + n] for a pointer [s] to a string of at least [n] characters. *)
Fixpoint str_drop (n : nat) (s : string) : string :=
  match n, s with
  | S n, String _ s => str_drop n s
  | _, _ => s
  end.

(** ** Numbers *)

Fixpoint skip_space (s : string) : string :=
  match s with
  | String c r => if isspace c then skip_space r else s
  | EmptyString => s
  end.

(** An optional sign: whether it is a minus, and what follows. *)
Definition sign (s : string) : bool * string :=
  if String.prefix "-" s then (true, str_drop 1 s)
  else if String.prefix "+" s then (false, str_drop 1 s) else (false, s).

Definition starts_digit (base : Z) (s : string) : bool :=
  match s with
  | String c _ => match digit_val c with Some d => d <? base | None => false end
  | EmptyString => false
  end.

(** The digits at the head of [s], added to [acc]. *)
Fixpoint digits (base acc : Z) (s : string) : Z * string :=
  match s with
  | String c r =>
      match digit_val c with
      | Some d => if d <? base then digits base (acc * base + d) r else (acc, s)
      | None => (acc, s)
      end
  | EmptyString => (acc, s)
  end.

(** The base a prefix asks for: [0x] followed by a digit, [0], or none. *)
Definition radix (s : string) : Z * string :=
  if (String.prefix "0x" s || String.prefix "0X" s) && starts_digit 16 (str_drop 2 s)
  then (16, str_drop 2 s)
  else if String.prefix "0" s then (8, s) else (10, s).

(** The value of the digits of [s] as an [unsigned long]: saturated, then
    negated modulo 2^64. *)
Definition ulong (base : Z) (neg : bool) (s : string) : Z * string :=
  let '(v, p) := digits base 0 s in
  (if 2 ^ 64 <=? v then 2 ^ 64 - 1 else if neg then (- v) mod 2 ^ 64 else v, p).

(** [strtoul(s, &p, 0)]: the value and [p]. *)
Definition strtoul (s : string) : Z * string :=
  let '(neg, s1) := sign (skip_space s) in
  let '(base, s2) := radix s1 in
  if starts_digit base s2 then ulong base neg s2 else (0, s).

(** The conversion [%lu] (and [%hhu], before the store) of [sscanf]: the
    number, when there is one. *)
Definition scan_lu (s : string) : option Z :=
  let '(neg, s1) := sign (skip_space s) in
  if starts_digit 10 s1 then Some (ulong 10 neg s1).1 else None.

(** The conversion [%lx]: an [0x] is optional. *)
Definition scan_lx (s : string) : option Z :=
  let '(neg, s1) := sign (skip_space s) in
  let s2 := if (String.prefix "0x" s1 || String.prefix "0X" s1) then str_drop 2 s1 else s1 in
  if starts_digit 16 s2 then Some (ulong 16 neg s2).1 else None.

(** ** Printing *)

Definition digit (d : Z) : ascii := ascii_of_nat (48 + Z.to_nat d).

(** The last [fuel] decimal digits of [n] in front of [s], without leading
    zeros. *)
Fixpoint show_go (fuel : nat) (n : Z) (s : string) : string :=
  match fuel with
  | O => s
  | S fuel => let s := String (digit (n mod 10)) s in
              if n / 10 =? 0 then s else show_go fuel (n / 10) s
  end.

(** [%u] for a 32-bit number. *)
Definition show (n : Z) : string := show_go 10 n EmptyString.

Definition hex_digit (d : Z) : ascii := ascii_of_nat (Z.to_nat (if d <? 10 then 48 + d else 87 + d)).

(** The hexadecimal digits of [n] in front of [s], likewise. *)
Fixpoint hex_go (fuel : nat) (n : Z) (s : string) : string :=
  match fuel with
  | O => s
  | S fuel => let s := String (hex_digit (n mod 16)) s in
              if n / 16 =? 0 then s else hex_go fuel (n / 16) s
  end.

(** [%x], up to 64 bits. *)
Definition show_hex (n : Z) : string := hex_go 16 n EmptyString.

(** [%0nx] *)
Fixpoint zeros (n : nat) : string := match n with O => EmptyString | S n => String "0" (zeros n) end.
Definition hex_pad (n : nat) (v : Z) : string := zeros (n - String.length (show_hex v)) +:+ show_hex v.

(** [%d] of an [int]. *)
Definition show_int (n : Z) : string := if n <? 0 then String "-" (show (- n)) else show n.

(** ** Lemmas *)

(** Evaluate the code of a literal character. *)
Ltac code_lit :=
  match goal with |- context [code ?c] => let v := eval vm_compute in (code c) in change (code c) with v end; lia.

Lemma digit_code d : 0 <= d < 10 → code (digit d) = 48 + d.
Proof.
  intros Hd. unfold code, digit. rewrite nat_ascii_embedding by lia. lia.
Qed.

Lemma digit_val_digit d : 0 <= d < 10 → digit_val (digit d) = Some d.
Proof.
  intros Hd. unfold digit_val. rewrite digit_code by done.
  rewrite (proj2 (Z.leb_le 48 _)), (proj2 (Z.leb_le _ 57)) by lia. cbn [andb]. f_equal. lia.
Qed.

Lemma digit_not_space d : 0 <= d < 10 → isspace (digit d) = false.
Proof.
  intros Hd. unfold isspace. rewrite digit_code by done.
  apply orb_false_iff. split; [by apply Z.eqb_neq; lia|]. apply andb_false_iff. right. apply Z.leb_gt. lia.
Qed.

(** The digits [show_go] writes read back as the number, whatever follows. *)
Lemma digits_show fuel n s acc :
  0 <= n < 10 ^ Z.of_nat fuel → (0 < fuel)%nat →
  ∃ k, 0 <= k ∧ digits 10 acc (show_go fuel n s) = digits 10 (acc * 10 ^ k + n) s.
Proof.
  revert n s acc. induction fuel as [|fuel IH]; intros n s acc Hn Hf; [lia|].
  assert (∀ a, digits 10 a (String (digit (n mod 10)) s) = digits 10 (a * 10 + n mod 10) s) as Hd.
  { intros a. cbn [digits]. rewrite digit_val_digit by (apply Z.mod_pos_bound; lia).
    by rewrite (proj2 (Z.ltb_lt _ _)) by (apply Z.mod_pos_bound; lia). }
  cbn [show_go]. pose proof (Z.div_mod n 10 ltac:(lia)) as Hm.
  destruct (Z.eqb_spec (n / 10) 0) as [E|E].
  - exists 1. split; [lia|]. rewrite Hd. f_equal. lia.
  - assert (0 <= n / 10 < 10 ^ Z.of_nat fuel) as Hn'.
    { split; [apply Z.div_pos; lia|]. apply Z.div_lt_upper_bound; [lia|].
      rewrite <- Z.pow_succ_r by lia. rewrite <- Nat2Z.inj_succ. lia. }
    destruct fuel as [|fuel]; [cbn in Hn'; lia|].
    destruct (IH (n / 10) (String (digit (n mod 10)) s) acc Hn' ltac:(lia)) as (k & Hk & ->).
    exists (k + 1). split; [lia|]. rewrite Hd. f_equal.
    rewrite Z.pow_add_r by lia. lia.
Qed.

(** The first character [show_go] writes: a digit, zero only for zero. *)
Lemma show_head fuel n s :
  0 <= n < 10 ^ Z.of_nat fuel → (0 < fuel)%nat →
  ∃ d r, 0 <= d < 10 ∧ show_go fuel n s = String (digit d) r ∧ (d = 0 → n = 0 ∧ r = s).
Proof.
  revert n s. induction fuel as [|fuel IH]; intros n s Hn Hf; [lia|]. cbn [show_go].
  pose proof (Z.div_mod n 10 ltac:(lia)) as Hm. pose proof (Z.mod_pos_bound n 10 ltac:(lia)) as Hb.
  destruct (Z.eqb_spec (n / 10) 0) as [E|E].
  - exists (n mod 10), s. split_and!; [lia..|done|]. intros H. split; [lia|done].
  - assert (0 <= n / 10 < 10 ^ Z.of_nat fuel) as Hn'.
    { split; [apply Z.div_pos; lia|]. apply Z.div_lt_upper_bound; [lia|].
      rewrite <- Z.pow_succ_r by lia. rewrite <- Nat2Z.inj_succ. lia. }
    destruct fuel as [|fuel]; [cbn in Hn'; lia|].
    destruct (IH (n / 10) (String (digit (n mod 10)) s) Hn' ltac:(lia)) as (d & r & Hd & Er & H0).
    exists d, r. split_and!; [lia..|done|]. intros H. destruct (H0 H). lia.
Qed.

Lemma digit_inj_ascii d c : 0 <= d < 10 → digit d = c → code c = 48 + d.
Proof. intros Hd <-. by apply digit_code. Qed.

Lemma prefix_digit d c r :
  0 <= d < 10 → code c ≠ 48 + d → String.prefix (String c EmptyString) (String (digit d) r) = false.
Proof.
  intros Hd Hc. cbn. destruct (ascii_dec c (digit d)) as [E|E]; [|done].
  exfalso. apply Hc. symmetry in E. by apply digit_inj_ascii in E.
Qed.

Lemma prefix_head a b c s t : a ≠ c → String.prefix (String a (String b s)) (String c t) = false.
Proof. intros H. cbn. by destruct (ascii_dec a c). Qed.

(** A printed number has no white space and no sign in front of it. *)
Lemma sign_digit d r :
  0 <= d < 10 → sign (skip_space (String (digit d) r)) = (false, String (digit d) r).
Proof.
  intros Hd. cbn [skip_space]. rewrite digit_not_space by done. unfold sign.
  rewrite (prefix_digit d "-"%char), (prefix_digit d "+"%char) by (done || code_lit). done.
Qed.

Lemma show_parts n :
  0 <= n < 10 ^ 10 →
  ∃ d r, 0 <= d < 10 ∧ show n = String (digit d) r ∧ (d = 0 → n = 0 ∧ r = EmptyString) ∧
    digits 10 0 (show n) = (n, EmptyString).
Proof.
  intros Hn. unfold show. destruct (show_head 10 n EmptyString) as (d & r & Hd & Er & H0); [done|lia|].
  destruct (digits_show 10 n EmptyString 0) as (k & _ & Ek); [done|lia|].
  exists d, r. split_and!; [lia..|done|done|]. rewrite Ek. cbn [digits]. done.
Qed.

(** Reading back a printed number. *)
Lemma strtoul_show n : 0 <= n < 10 ^ 10 → strtoul (show n) = (n, EmptyString).
Proof.
  intros Hn. destruct (show_parts n Hn) as (d & r & Hd & Er & H0 & Ed).
  destruct (Z.eqb_spec d 0) as [->|Hnz].
  { destruct (H0 eq_refl) as [-> _]. by vm_compute. }
  assert (digit d ≠ "0"%char) as Hn0.
  { intros E. apply digit_inj_ascii in E; [|done]. change (code "0"%char) with 48 in E. lia. }
  unfold strtoul. rewrite Er, sign_digit by done. unfold radix.
  rewrite !prefix_head by done. cbn [orb andb].
  rewrite (prefix_digit d "0"%char) by (done || code_lit).
  unfold starts_digit. rewrite digit_val_digit by done. rewrite (proj2 (Z.ltb_lt _ _)) by lia.
  unfold ulong. rewrite <- Er, Ed. rewrite (proj2 (Z.leb_gt _ _)) by lia. done.
Qed.

Lemma scan_lu_show n : 0 <= n < 10 ^ 10 → scan_lu (show n) = Some n.
Proof.
  intros Hn. destruct (show_parts n Hn) as (d & r & Hd & Er & _ & Ed).
  unfold scan_lu. rewrite Er, sign_digit by done.
  unfold starts_digit. rewrite digit_val_digit by done. rewrite (proj2 (Z.ltb_lt _ _)) by lia.
  unfold ulong. rewrite <- Er, Ed. rewrite (proj2 (Z.leb_gt _ _)) by lia. done.
Qed.

Lemma digits_nonneg base acc s : 0 <= acc → 0 <= base → 0 <= (digits base acc s).1.
Proof.
  revert acc. induction s as [|c s IH]; intros acc Ha Hb; cbn [digits]; [done|].
  destruct (digit_val c) as [d|] eqn:E; [|done]. destruct (d <? base); [|done]. apply IH; [|done].
  assert (0 <= d); [|nia]. revert E. unfold digit_val.
  repeat case_match; intros; simplify_eq;
    repeat match goal with H : _ && _ = true |- _ => apply andb_true_iff in H as [?%Z.leb_le ?%Z.leb_le] end; lia.
Qed.

(** ** Printed numbers as words *)

Lemma append_length s t : String.length (String.append s t) = (String.length s + String.length t)%nat.
Proof. induction s as [|c s IH]; [done|]. exact (f_equal S IH). Qed.

Lemma show_go_length fuel k n s :
  0 <= n < 10 ^ Z.of_nat k → (0 < k)%nat →
  (String.length (show_go fuel n s) <= k + String.length s)%nat.
Proof.
  revert k n s. induction fuel as [|fuel IH]; intros k n s Hn Hk; cbn [show_go]; [lia|].
  destruct (Z.eqb_spec (n / 10) 0) as [E|E]; [cbn; lia|].
  assert (0 <= n / 10 < 10 ^ Z.of_nat (k - 1)) as Hn'.
  { split; [apply Z.div_pos; lia|]. apply Z.div_lt_upper_bound; [lia|].
    rewrite <- Z.pow_succ_r by lia. replace (Z.succ (Z.of_nat (k - 1))) with (Z.of_nat k) by lia. lia. }
  destruct (Nat.eq_dec k 1) as [->|Hk1]; [cbn in Hn'; lia|].
  specialize (IH (k - 1)%nat _ (String (digit (n mod 10)) s) Hn' ltac:(lia)). cbn in IH. lia.
Qed.

Lemma show_length n k : 0 <= n < 10 ^ Z.of_nat k → (0 < k)%nat → (String.length (show n) <= k)%nat.
Proof. intros Hn Hk. pose proof (show_go_length 10 k n EmptyString Hn Hk) as H. cbn [String.length] in H. unfold show. lia. Qed.

Lemma hex_go_length fuel k n s :
  0 <= n < 16 ^ Z.of_nat k → (0 < k)%nat →
  (String.length (hex_go fuel n s) <= k + String.length s)%nat.
Proof.
  revert k n s. induction fuel as [|fuel IH]; intros k n s Hn Hk; cbn [hex_go]; [lia|].
  destruct (Z.eqb_spec (n / 16) 0) as [E|E]; [cbn; lia|].
  assert (0 <= n / 16 < 16 ^ Z.of_nat (k - 1)) as Hn'.
  { split; [apply Z.div_pos; lia|]. apply Z.div_lt_upper_bound; [lia|].
    rewrite <- Z.pow_succ_r by lia. replace (Z.succ (Z.of_nat (k - 1))) with (Z.of_nat k) by lia. lia. }
  destruct (Nat.eq_dec k 1) as [->|Hk1]; [cbn in Hn'; lia|].
  specialize (IH (k - 1)%nat _ (String (hex_digit (n mod 16)) s) Hn' ltac:(lia)). cbn in IH. lia.
Qed.

Lemma show_hex_length n k : 0 <= n < 16 ^ Z.of_nat k → (0 < k)%nat → (String.length (show_hex n) <= k)%nat.
Proof.
  intros Hn Hk. pose proof (hex_go_length 16 k n EmptyString Hn Hk) as H. cbn [String.length] in H.
  unfold show_hex. lia.
Qed.

Lemma show_go_digits fuel n s :
  forall_chars isdigit s = true → forall_chars isdigit (show_go fuel n s) = true.
Proof.
  revert n s. induction fuel as [|fuel IH]; intros n s Hs; cbn [show_go]; [done|].
  assert (forall_chars isdigit (String (digit (n mod 10)) s) = true) as Hs'.
  { cbn. rewrite Hs, andb_true_r. unfold isdigit. pose proof (Z.mod_pos_bound n 10 ltac:(lia)).
    rewrite digit_code by done. apply andb_true_iff. split; apply Z.leb_le; lia. }
  destruct (n / 10 =? 0); [done|]. by apply IH.
Qed.

Lemma show_digits n : forall_chars isdigit (show n) = true.
Proof. by apply show_go_digits. Qed.

(** A printed number is no word. *)
Lemma show_not_word n c w :
  0 <= n < 10 ^ 10 → isdigit c = false → (show n =s String c w) = false.
Proof.
  intros Hn Hc. destruct (show_parts n Hn) as (d & r & Hd & -> & _). cbn.
  destruct (Ascii.eqb_spec (digit d) c) as [<-|]; [|done]. exfalso. revert Hc.
  unfold isdigit. rewrite digit_code by done. rewrite !(proj2 (Z.leb_le _ _)) by lia. done.
Qed.

Lemma show_not_prefix n c w :
  0 <= n < 10 ^ 10 → isdigit c = false → String.prefix (String c w) (show n) = false.
Proof.
  intros Hn Hc. destruct (show_parts n Hn) as (d & r & Hd & -> & _). cbn.
  destruct (ascii_dec c (digit d)) as [->|]; [|done]. exfalso. revert Hc.
  unfold isdigit. rewrite digit_code by done. rewrite !(proj2 (Z.leb_le _ _)) by lia. done.
Qed.
