(* ===== verification/Xnl.v ===== *)
(** * The control interface between the tool and the driver (nl.h)

    The constants [src/include/nl.h] shares between the user tool and the
    driver: commands, attributes, queue parameters and flags; and the netlink
    layout of an attribute, which both sides write and read. *)

From S2P Require Import Prelude.

(** ** Constants *)

Definition XNL_VERSION : Z := 0x1.
Definition XNL_RESP_BUFLEN_MIN : Z := 256.
Definition XNL_RESP_BUFLEN_MAX : Z := 1024.

Definition XNL_QIDX_INVALID : Z := 0xFFFF.

(** [enum q_parm_type] *)
Definition QPARM_IDX : Z := 0.
Definition QPARM_MODE : Z := 1.
Definition QPARM_DIR : Z := 2.
Definition QPARM_RNGSZ : Z := 3.
Definition QPARM_BUFSZ : Z := 4.
Definition QPARM_CDEV : Z := 5.
Definition QPARM_DESC : Z := 6.
Definition QPARM_WRB : Z := 7.
Definition QPARM_WRBSZ : Z := 8.
Definition QPARM_MAX : Z := 9.

Definition XNL_F_QMODE_ST : Z := 0x1.
Definition XNL_F_QMODE_MM : Z := 0x2.
Definition XNL_F_QDIR_H2C : Z := 0x4.
Definition XNL_F_QDIR_C2H : Z := 0x8.
Definition XNL_F_CDEV : Z := 0x10.

Inductive xnl_attr_t :=
  | XNL_ATTR_GENMSG | XNL_ATTR_DRV_INFO | XNL_ATTR_DEV_IDX
  | XNL_ATTR_PCI_BUS | XNL_ATTR_PCI_DEV | XNL_ATTR_PCI_FUNC
  | XNL_ATTR_DEV_CFG_BAR | XNL_ATTR_DEV_USR_BAR | XNL_ATTR_DEV_QSET_MAX
  | XNL_ATTR_REG_BAR_NUM | XNL_ATTR_REG_ADDR | XNL_ATTR_REG_VAL
  | XNL_ATTR_QIDX | XNL_ATTR_QFLAG | XNL_ATTR_QRNGSZ | XNL_ATTR_QBUFSZ
  | XNL_ATTR_WRB_DESC_SIZE | XNL_ATTR_RANGE_START | XNL_ATTR_RANGE_END.

Definition attr_z (a : xnl_attr_t) : Z :=
  match a with
  | XNL_ATTR_GENMSG => 0 | XNL_ATTR_DRV_INFO => 1 | XNL_ATTR_DEV_IDX => 2
  | XNL_ATTR_PCI_BUS => 3 | XNL_ATTR_PCI_DEV => 4 | XNL_ATTR_PCI_FUNC => 5
  | XNL_ATTR_DEV_CFG_BAR => 6 | XNL_ATTR_DEV_USR_BAR => 7 | XNL_ATTR_DEV_QSET_MAX => 8
  | XNL_ATTR_REG_BAR_NUM => 9 | XNL_ATTR_REG_ADDR => 10 | XNL_ATTR_REG_VAL => 11
  | XNL_ATTR_QIDX => 12 | XNL_ATTR_QFLAG => 13 | XNL_ATTR_QRNGSZ => 14 | XNL_ATTR_QBUFSZ => 15
  | XNL_ATTR_WRB_DESC_SIZE => 16 | XNL_ATTR_RANGE_START => 17 | XNL_ATTR_RANGE_END => 18
  end.
Definition XNL_ATTR_MAX : Z := 19.

Inductive xnl_op_t :=
  | XNL_CMD_DEV_LIST | XNL_CMD_DEV_INFO | XNL_CMD_REG_DUMP | XNL_CMD_REG_RD | XNL_CMD_REG_WRT
  | XNL_CMD_Q_LIST | XNL_CMD_Q_ADD | XNL_CMD_Q_START | XNL_CMD_Q_STOP | XNL_CMD_Q_DEL
  | XNL_CMD_Q_DUMP | XNL_CMD_Q_DESC | XNL_CMD_Q_WRB.

Definition op_z (o : xnl_op_t) : Z :=
  match o with
  | XNL_CMD_DEV_LIST => 0 | XNL_CMD_DEV_INFO => 1 | XNL_CMD_REG_DUMP => 2 | XNL_CMD_REG_RD => 3
  | XNL_CMD_REG_WRT => 4 | XNL_CMD_Q_LIST => 5 | XNL_CMD_Q_ADD => 6 | XNL_CMD_Q_START => 7
  | XNL_CMD_Q_STOP => 8 | XNL_CMD_Q_DEL => 9 | XNL_CMD_Q_DUMP => 10 | XNL_CMD_Q_DESC => 11
  | XNL_CMD_Q_WRB => 12
  end.

#[export] Instance attr_eq_dec : EqDecision xnl_attr_t.
Proof. solve_decision. Defined.
#[export] Instance op_eq_dec : EqDecision xnl_op_t.
Proof. solve_decision. Defined.

Lemma attr_z_inj a b : attr_z a = attr_z b → a = b.
Proof. by destruct a, b. Qed.

Lemma attr_z_range a : 0 <= attr_z a < XNL_ATTR_MAX.
Proof. unfold XNL_ATTR_MAX. by destruct a; cbn. Qed.

Lemma op_z_inj a b : op_z a = op_z b → a = b.
Proof. by destruct a, b. Qed.

(** ** The layout of an attribute

    Bytes of a message are [Z]s; the machine is little-endian. *)

Fixpoint le_bytes (n : nat) (v : Z) : list Z :=
  match n with
  | O => []
  | S n => v mod 2 ^ 8 :: le_bytes n (v / 2 ^ 8)
  end.

Definition NLA_HDRLEN : Z := 4.
Definition NLA_ALIGN (len : Z) : Z := Z.land (len + 3) (Z.lnot 3).

(** An attribute: its type and its payload. *)
Record nlattr := Nlattr { nla_type : Z; nla_data : list Z }.
Definition nla_len (a : nlattr) : Z := NLA_HDRLEN + Z.of_nat (length (nla_data a)).

(** Its bytes, with the padding that follows. *)
Definition nla_bytes (a : nlattr) : list Z :=
  le_bytes 2 (nla_len a) ++ le_bytes 2 (nla_type a) ++ nla_data a ++
  replicate (Z.to_nat (NLA_ALIGN (nla_len a) - nla_len a)) 0.

Definition nla_u32 (t : xnl_attr_t) (v : Z) : nlattr := Nlattr (attr_z t) (le_bytes 4 v).

(** [nla_get_u32], [nla_get_u8]: the head of the payload. *)
Definition nla_get_u32 (a : nlattr) : Z := le_get (firstn 4 (nla_data a)).
Definition nla_get_u8 (a : nlattr) : Z := le_get (firstn 1 (nla_data a)).

(** ** Lemmas *)

Lemma le_get_bytes n v : 0 <= v < 2 ^ (8 * Z.of_nat n) → le_get (le_bytes n v) = v.
Proof.
  revert v. induction n as [|n IH]; intros v Hv; [cbn in *; lia|].
  cbn [le_bytes le_get]. rewrite IH.
  - pose proof (Z.div_mod v (2 ^ 8) ltac:(lia)). lia.
  - split; [apply Z.div_pos; lia|]. apply Z.div_lt_upper_bound; [lia|].
    rewrite <- Z.pow_add_r by lia. replace (8 + 8 * Z.of_nat n) with (8 * Z.of_nat (S n)) by lia. lia.
Qed.

Lemma le_bytes_length n v : length (le_bytes n v) = n.
Proof. revert v. induction n as [|n IH]; intros v; cbn; [done|]. by rewrite IH. Qed.

Lemma NLA_ALIGN_bounds n : 0 <= n → n <= NLA_ALIGN n < n + 4 ∧ NLA_ALIGN n mod 4 = 0.
Proof.
  intros Hn. assert (NLA_ALIGN n = (n + 3) / 4 * 4) as E.
  { unfold NLA_ALIGN. change 3 with (Z.ones 2) at 2. rewrite <- Z.ldiff_land, Z.ldiff_ones_r by lia.
    rewrite Z.shiftr_div_pow2, Z.shiftl_mul_pow2 by lia. done. }
  rewrite E. pose proof (Z.div_mod (n + 3) 4 ltac:(lia)) as Hd.
  pose proof (Z.mod_pos_bound (n + 3) 4 ltac:(lia)) as Hb. split; [lia|apply Z.mod_mul; lia].
Qed.

Lemma nla_bytes_length a : Z.of_nat (length (nla_bytes a)) = NLA_ALIGN (nla_len a).
Proof.
  unfold nla_bytes. rewrite !length_app, !le_bytes_length, length_replicate.
  pose proof (NLA_ALIGN_bounds (nla_len a)) as Hb. unfold nla_len, NLA_HDRLEN in *. lia.
Qed.

Lemma nla_get_u32_u32 t v : 0 <= v < 2 ^ 32 → nla_get_u32 (nla_u32 t v) = v.
Proof.
  intros Hv. unfold nla_get_u32, nla_u32. cbn [nla_data].
  rewrite firstn_all2 by (by rewrite le_bytes_length). by apply le_get_bytes.
Qed.

Lemma nla_get_u8_u32 t v : nla_get_u8 (nla_u32 t v) = u8 v.
Proof. unfold nla_get_u8, nla_u32, u8. cbn [nla_data le_bytes firstn le_get]. lia. Qed.
