(* ===== verification/Cli.v ===== *)
(** * The command line of the tool (cmd_parse.c)

    [parse_cmd] turns [argv] into a command for the driver.  A position [i] of
    [argv] is the list of the arguments from [argv[i]] on: [argv[argc]] is
    NULL, which the empty list stands for. *)

From stdpp Require Import strings.
From S2P Require Import Prelude Cstring Xnl.
#[local] Open Scope Z_scope.

(** ** Data (nl_user.h) *)

Record xcmd_reg := XcmdReg { r_sflags : Z; bar : Z; reg : Z; val : Z }.
Record xcmd_q_parm := XcmdQ {
  sflags : Z; flags : Z; ringsz : Z; bufsz : Z; idx : Z;
  range_start : Z; range_end : Z; entry_size : Z }.

(** The union of [struct xcmd_info]: a command has one of the two. *)
Inductive xcmd_u := U_reg (r : xcmd_reg) | U_qparm (q : xcmd_q_parm).

(** [attrs] has [XNL_ATTR_MAX] entries. *)
Record xcmd_info := Xcmd {
  vf : bool; op : xnl_op_t; if_idx : Z; config_bar : Z; user_bar : Z; qmax : Z;
  u : xcmd_u; attr_mask : Z; attrs : list Z }.

#[export] Instance xcmd_reg_eta : Settable xcmd_reg := λ r, XcmdReg (r_sflags r) (bar r) (reg r) (val r).
#[export] Instance xcmd_q_eta : Settable xcmd_q_parm := λ r,
  XcmdQ (sflags r) (flags r) (ringsz r) (bufsz r) (idx r) (range_start r) (range_end r) (entry_size r).
#[export] Instance xcmd_eta : Settable xcmd_info := λ r,
  Xcmd (vf r) (op r) (if_idx r) (config_bar r) (user_bar r) (qmax r) (u r) (attr_mask r) (attrs r).

Definition reg_zero : xcmd_reg := XcmdReg 0 0 0 0.
Definition q_zero : xcmd_q_parm := XcmdQ 0 0 0 0 0 0 0 0.
Definition xcmd_zero : xcmd_info :=
  Xcmd false XNL_CMD_DEV_LIST 0 0 0 0 (U_qparm q_zero) 0 (replicate (Z.to_nat XNL_ATTR_MAX) 0).

Definition XCMD_REG_F_BAR_SET : Z := 0x1.
Definition XCMD_REG_F_REG_SET : Z := 0x2.
Definition XCMD_REG_F_VAL_SET : Z := 0x4.

(** Offsets in [struct xcmd_q_parm]. *)
Definition offsetof_range_start : Z := 20.
Definition offsetof_range_end : Z := 24.

(** ** Results

    A parser returns a value, or [-EINVAL] ([Bad]: the caller drops the
    command), or calls [exit], or its behaviour is undefined ([Crash]: a NULL
    string is compared, an uninitialised variable is used). *)

Inductive parsed (A : Type) := Ok (a : A) | Bad | Exit (code : Z) | Crash.
Arguments Ok {A}.
Arguments Bad {A}.
Arguments Exit {A}.
Arguments Crash {A}.

#[export] Instance parsed_ret : MRet parsed := λ A a, Ok a.
#[export] Instance parsed_bind : MBind parsed := λ A B f m,
  match m with Ok a => f a | Bad => Bad | Exit c => Exit c | Crash => Crash end.

(** ** Arguments *)

Definition arg_read_int (s : string) : parsed Z :=
  let '(v, p) := strtoul s in
  if p =s EmptyString then Ok (u32 v) else Bad.

(** [strcmp(argv[i], ..)] reads the string at position [i]. *)
Definition argv_at (i : list string) : parsed string :=
  match i with a :: _ => Ok a | [] => Crash end.

(** [++i], which must stay below [argc]. *)
Definition get_next_arg (i : list string) : parsed (list string) :=
  match tail i with [] => Bad | i' => Ok i' end.

(** The number after position [i], and its position. *)
Definition next_arg_read_int (i : list string) : parsed (list string * Z) :=
  i ← get_next_arg i; a ← argv_at i; v ← arg_read_int a; mret (i, v).

(** The interface name: [qdma<N>] or [qdmavf<N>]. *)
Definition parse_ifname (name : string) (x : xcmd_info) : parsed xcmd_info :=
  if 10 <=? Z.of_nat (String.length name) then Bad else
  if negb (String.prefix "qdma" name) then Bad else
  let is_vf := String.prefix "vf" (str_drop 4 name) in
  let num := str_drop (if is_vf then 6 else 4) name in
  if negb (forall_chars isdigit num) then Bad else
  v ← arg_read_int num;
  mret (x <| vf := is_vf |> <| if_idx := u8 v |>).

(** ** Register commands *)

(** [[bar <N>] <addr>] after position [i]: the position of the address. *)
Definition reg_addr (i : list string) (r : xcmd_reg) : parsed (list string * xcmd_reg) :=
  i ← get_next_arg i; a ← argv_at i;
  '(i, r) ← (if a =s "bar" then
               '(i, v) ← next_arg_read_int i;
               let r := r <| bar := v |> <| r_sflags ::= Z.lor XCMD_REG_F_BAR_SET |> in
               i ← get_next_arg i; mret (i, r)
             else mret (i, r));
  a ← argv_at i; v ← arg_read_int a;
  mret (i, r <| reg := v |> <| r_sflags ::= Z.lor XCMD_REG_F_REG_SET |>).

Definition parse_reg_cmd (i : list string) (x : xcmd_info) : parsed (list string * xcmd_info) :=
  let r := reg_zero in
  a ← argv_at i;
  if a =s "dump" then mret (tail i, x <| u := U_reg r |> <| op := XNL_CMD_REG_DUMP |>)
  else if a =s "read" then
    '(i, r) ← reg_addr i r;
    mret (tail i, x <| u := U_reg r |> <| op := XNL_CMD_REG_RD |>)
  else if a =s "write" then
    '(i, r) ← reg_addr i r;
    '(i, v) ← next_arg_read_int i;
    mret (tail i, x <| u := U_reg (r <| val := v |> <| r_sflags ::= Z.lor XCMD_REG_F_VAL_SET |>) |>
                    <| op := XNL_CMD_REG_WRT |>)
  else mret (i, x <| u := U_reg r |>).

(** ** Queue parameters *)

(** Two numbers from position [i] on.  The test [v2 < v1] compares the
    addresses the numbers are stored at. *)
Definition read_range (i : list string) : parsed (list string * (Z * Z)) :=
  a ← argv_at i; v1 ← arg_read_int a;
  '(i, v2) ← next_arg_read_int i;
  if offsetof_range_end <? offsetof_range_start then Bad else mret (tail i, (v1, v2)).

Definition set_bit (b : Z) : Z → Z := Z.lor (Z.shiftl 1 b).
Definition has_bit (v b : Z) : bool := negb (Z.land v (Z.shiftl 1 b) =? 0).

(** One turn of the loop of [read_qparm]: the parameter at [i] and what
    follows it.  [f_arg_set] is kept in [sflags] on the way. *)
Definition read_one (i : list string) (q : xcmd_q_parm) : parsed (list string * xcmd_q_parm) :=
  let seen b q := q <| sflags ::= set_bit b |> in
  a ← argv_at i;
  if a =s "idx" then
    '(i, v) ← next_arg_read_int i; mret (tail i, seen QPARM_IDX (q <| idx := v |>))
  else if a =s "mode" then
    i ← get_next_arg i; m ← argv_at i;
    if m =s "mm" then mret (tail i, seen QPARM_MODE (q <| flags ::= Z.lor XNL_F_QMODE_MM |>))
    else if m =s "st" then mret (tail i, seen QPARM_MODE (q <| flags ::= Z.lor XNL_F_QMODE_ST |>))
    else Bad
  else if a =s "dir" then
    i ← get_next_arg i; m ← argv_at i;
    if m =s "h2c" then mret (tail i, seen QPARM_DIR (q <| flags ::= Z.lor XNL_F_QDIR_H2C |>))
    else if m =s "c2h" then mret (tail i, seen QPARM_DIR (q <| flags ::= Z.lor XNL_F_QDIR_C2H |>))
    else Bad
  else if a =s "cdev" then
    '(i, v) ← next_arg_read_int i;
    if negb (v =? 0) && negb (v =? 1) then Bad else
    mret (tail i, seen QPARM_CDEV (if v =? 0 then q else q <| flags ::= Z.lor XNL_F_CDEV |>))
  else if a =s "bufsz" then
    '(i, v) ← next_arg_read_int i; mret (tail i, seen QPARM_BUFSZ (q <| bufsz := v |>))
  else if a =s "ringsz" then
    '(i, v) ← next_arg_read_int i; mret (tail i, seen QPARM_RNGSZ (q <| ringsz := v |>))
  else if a =s "desc" then
    i ← get_next_arg i; '(i, (v1, v2)) ← read_range i;
    mret (i, seen QPARM_DESC (q <| range_start := v1 |> <| range_end := v2 |>))
  else if a =s "wrb" then
    i ← get_next_arg i; '(i, (v1, v2)) ← read_range i;
    mret (i, seen QPARM_WRB (q <| range_start := v1 |> <| range_end := v2 |>))
  else if a =s "wrbsz" then
    i ← get_next_arg i; m ← argv_at i;
    mret (tail i, seen QPARM_WRBSZ (match scan_lu m with Some v => q <| entry_size := u8 v |> | None => q end))
  else Bad.

(** The loop: each turn uses up at least one argument, [fuel] of them are left. *)
Fixpoint read_loop (fuel : nat) (i : list string) (q : xcmd_q_parm) : parsed xcmd_q_parm :=
  match i, fuel with
  | [], _ => mret q
  | _, O => Crash
  | _, S fuel => '(i, q) ← read_one i q; read_loop fuel i q
  end.

(** The report of a missing parameter: the first bit of [required]. *)
Definition missing_reported (required : Z) : bool :=
  existsb (λ b, has_bit required (Z.of_nat b)) (seq 0 (Z.to_nat QPARM_MAX)).

(** A choice of one of two flags: not both; [dflt] when the parameter was not given. *)
Definition one_of (parm f1 f2 dflt : Z) (q : xcmd_q_parm) : parsed xcmd_q_parm :=
  if has_bit (sflags q) parm then
    if Z.land (flags q) (Z.lor f1 f2) =? Z.lor f1 f2 then Bad else mret q
  else mret (q <| sflags ::= set_bit parm |> <| flags ::= Z.lor dflt |>).

(** On success [i] is [argc]. *)
Definition read_qparm (i : list string) (q : xcmd_q_parm) (f_arg_required : Z) : parsed xcmd_q_parm :=
  q ← read_loop (length i) i (q <| idx := XNL_QIDX_INVALID |>);
  if negb (Z.land (sflags q) f_arg_required =? f_arg_required) && missing_reported f_arg_required
  then Bad else
  q ← one_of QPARM_MODE XNL_F_QMODE_MM XNL_F_QMODE_ST XNL_F_QMODE_MM q;
  one_of QPARM_DIR XNL_F_QDIR_H2C XNL_F_QDIR_C2H XNL_F_QDIR_H2C q.

(** ** Queue commands *)

(** The default writeback entry size of [q add].  [==] binds tighter than [&]:
    the test is [flags & 1], the streaming flag, in either direction. *)
Definition default_wrbsz (q : xcmd_q_parm) : xcmd_q_parm :=
  let eq := b2z (Z.lor XNL_F_QDIR_C2H XNL_F_QMODE_ST =? Z.lor XNL_F_QDIR_C2H XNL_F_QMODE_ST) in
  if negb (Z.land (flags q) eq =? 0) && negb (has_bit (sflags q) QPARM_WRBSZ)
  then q <| entry_size := 3 |> <| sflags ::= set_bit QPARM_WRBSZ |> else q.

(** A dump of the queue, of its descriptors or of its writebacks. *)
Definition dump_op (q : xcmd_q_parm) : parsed xnl_op_t :=
  if has_bit (sflags q) QPARM_DESC && has_bit (sflags q) QPARM_WRB then Bad
  else mret (if has_bit (sflags q) QPARM_DESC then XNL_CMD_Q_DESC
             else if has_bit (sflags q) QPARM_WRB then XNL_CMD_Q_WRB else XNL_CMD_Q_DUMP).

(** With an unknown word, [rv] is used uninitialised. *)
Definition parse_q_cmd (i : list string) (x : xcmd_info) : parsed (list string * xcmd_info) :=
  let with_idx o :=
    i ← get_next_arg i;
    q ← read_qparm i q_zero (Z.shiftl 1 QPARM_IDX);
    mret ([], x <| op := o |> <| u := U_qparm q |>) in
  a ← argv_at i;
  if a =s "list" then mret (tail i, x <| op := XNL_CMD_Q_LIST |>)
  else if a =s "add" then
    i ← get_next_arg i;
    q ← read_qparm i q_zero 0;
    mret ([], x <| op := XNL_CMD_Q_ADD |> <| u := U_qparm (default_wrbsz q) |>)
  else if a =s "start" then with_idx XNL_CMD_Q_START
  else if a =s "stop" then with_idx XNL_CMD_Q_STOP
  else if a =s "del" then with_idx XNL_CMD_Q_DEL
  else if a =s "dump" then
    i ← get_next_arg i;
    q ← read_qparm i q_zero (Z.shiftl 1 QPARM_IDX);
    o ← dump_op q;
    mret ([], x <| op := o |> <| u := U_qparm q |>)
  else Crash.

Definition parse_dev_cmd (i : list string) (x : xcmd_info) : parsed (list string * xcmd_info) :=
  a ← argv_at i;
  if a =s "list" then mret (tail i, x <| op := XNL_CMD_DEV_LIST |>) else mret (i, x).

(** ** The command line *)

(** What follows the interface name, [argc] being at least 2. *)
Definition parse_if_cmd (i : list string) (x : xcmd_info) : parsed (list string * xcmd_info) :=
  match i with
  | [] => mret ([], x <| op := XNL_CMD_DEV_INFO |>)
  | a :: i =>
      if a =s "reg" then parse_reg_cmd i x
      else if a =s "q" then parse_q_cmd i x
      else Bad
  end.

Definition is_help (a : string) : bool :=
  (a =s "?") || (a =s "-h") || (a =s "help") || (a =s "--help").
Definition is_version (a : string) : bool := (a =s "-v") || (a =s "--version").

Definition parse_cmd (argv : list string) : parsed xcmd_info :=
  let x := xcmd_zero in
  match argv with
  | [] => Crash
  | [_] => Exit 1
  | _ :: a1 :: i =>
      if bool_decide (i = []) && (is_help a1 || is_version a1) then Exit 0 else
      '(i, x) ← (if a1 =s "dev" then parse_dev_cmd i x
                 else x ← parse_ifname a1 x; parse_if_cmd i x);
      match i with [] => mret x | _ => Bad end
  end.

(** ** Well-formed commands *)

Definition is_u32 (v : Z) : Prop := 0 <= v < 2 ^ 32.

(** The ranges of the fields. *)
Record q_ranges (q : xcmd_q_parm) : Prop := {
  qr_flags : 0 <= flags q < 2 ^ 5;
  qr_idx : is_u32 (idx q); qr_ringsz : is_u32 (ringsz q); qr_bufsz : is_u32 (bufsz q);
  qr_start : is_u32 (range_start q); qr_end : is_u32 (range_end q);
  qr_entry : 0 <= entry_size q < 2 ^ 8 }.

(** In the loop, the mode and the direction have been seen when one of their
    flags is set. *)
Record loop_ok (q : xcmd_q_parm) : Prop := {
  lo_ranges : q_ranges q;
  lo_mode : Z.testbit (sflags q) QPARM_MODE = Z.testbit (flags q) 0 || Z.testbit (flags q) 1;
  lo_dir : Z.testbit (sflags q) QPARM_DIR = Z.testbit (flags q) 2 || Z.testbit (flags q) 3 }.

(** A complete set of parameters: one mode and one direction. *)
Record q_wf (q : xcmd_q_parm) : Prop := {
  qw_ranges : q_ranges q;
  qw_mode : Z.testbit (flags q) 1 = negb (Z.testbit (flags q) 0);
  qw_dir : Z.testbit (flags q) 3 = negb (Z.testbit (flags q) 2) }.

Definition reg_wf (r : xcmd_reg) : Prop := is_u32 (bar r) ∧ is_u32 (reg r) ∧ is_u32 (val r).

(** What a command carries, by its operation. *)
Definition u_wf (o : xnl_op_t) (w : xcmd_u) : Prop :=
  match o, w with
  | (XNL_CMD_REG_DUMP | XNL_CMD_REG_RD | XNL_CMD_REG_WRT), U_reg r =>
      reg_wf r ∧
      Z.testbit (r_sflags r) 1 = bool_decide (o ≠ XNL_CMD_REG_DUMP) ∧
      Z.testbit (r_sflags r) 2 = bool_decide (o = XNL_CMD_REG_WRT)
  | XNL_CMD_Q_ADD, U_qparm q =>
      q_wf q ∧ (Z.testbit (flags q) 0 = true → has_bit (sflags q) QPARM_WRBSZ = true)
  | (XNL_CMD_Q_START | XNL_CMD_Q_STOP | XNL_CMD_Q_DEL | XNL_CMD_Q_DUMP), U_qparm q =>
      q_wf q ∧ has_bit (sflags q) QPARM_IDX = true
  | XNL_CMD_Q_DESC, U_qparm q =>
      q_wf q ∧ has_bit (sflags q) QPARM_IDX = true ∧ has_bit (sflags q) QPARM_DESC = true ∧
      has_bit (sflags q) QPARM_WRB = false
  | XNL_CMD_Q_WRB, U_qparm q =>
      q_wf q ∧ has_bit (sflags q) QPARM_IDX = true ∧ has_bit (sflags q) QPARM_WRB = true ∧
      has_bit (sflags q) QPARM_DESC = false
  | (XNL_CMD_DEV_LIST | XNL_CMD_DEV_INFO | XNL_CMD_Q_LIST), U_qparm q => q = q_zero
  | _, _ => False
  end.

Definition xcmd_wf (x : xcmd_info) : Prop :=
  0 <= if_idx x < 2 ^ 8 ∧ u_wf (op x) (u x) ∧
  attr_mask x = 0 ∧ attrs x = replicate (Z.to_nat XNL_ATTR_MAX) 0.

(** ** A logic of parsers *)

(** [m] has no undefined behaviour and does not exit; its value satisfies [P]. *)
Definition yields {A} (m : parsed A) (P : A → Prop) : Prop :=
  match m with Ok a => P a | Bad => True | Exit _ | Crash => False end.

Lemma yields_bind {A B} (m : parsed A) (f : A → parsed B) P Q :
  yields m P → (∀ a, P a → yields (f a) Q) → yields (m ≫= f) Q.
Proof. intros Hm Hf. destruct m; cbn in *; auto. Qed.

Lemma yields_weaken {A} (m : parsed A) (P Q : A → Prop) : yields m P → (∀ a, P a → Q a) → yields m Q.
Proof. destruct m; cbn; auto. Qed.

(** The arguments left are fewer than [i], and not none. *)
Definition next_of (i i' : list string) : Prop := i' ≠ [] ∧ (length i' < length i)%nat.

Lemma get_next_arg_ok i : yields (get_next_arg i) (next_of i).
Proof. destruct i as [|a [|b i]]; cbn; [done..|]. split; [done|]. cbn. lia. Qed.

Lemma argv_at_ok i : i ≠ [] → yields (argv_at i) (λ _, True).
Proof. by destruct i. Qed.

Lemma u32_is v : is_u32 (u32 v).
Proof. apply Z.mod_pos_bound. lia. Qed.
Lemma u8_range v : 0 <= u8 v < 2 ^ 8.
Proof. apply Z.mod_pos_bound. lia. Qed.

Lemma arg_read_int_ok s : yields (arg_read_int s) is_u32.
Proof. unfold arg_read_int. destruct (strtoul s) as [v p]. destruct (p =s _); [apply u32_is|done]. Qed.

Lemma next_arg_read_int_ok i :
  yields (next_arg_read_int i) (λ r, next_of i r.1 ∧ is_u32 r.2).
Proof.
  unfold next_arg_read_int. eapply yields_bind; [apply get_next_arg_ok|]. intros i' Hi.
  eapply yields_bind; [apply argv_at_ok, Hi|]. intros a _.
  eapply yields_bind; [apply arg_read_int_ok|]. by intros v Hv.
Qed.

Lemma tail_shorter {A} (i : list A) : (length (tail i) <= length i)%nat.
Proof. destruct i; cbn; lia. Qed.

Lemma next_of_tail i i' : next_of i i' → (length (tail i') < length i)%nat.
Proof. intros [_ H]. pose proof (tail_shorter i'). lia. Qed.

Lemma read_range_ok i :
  i ≠ [] → yields (read_range i) (λ r, (length r.1 < length i)%nat ∧ is_u32 r.2.1 ∧ is_u32 r.2.2).
Proof.
  intros Hi. unfold read_range. eapply yields_bind; [by apply argv_at_ok|]. intros a _.
  eapply yields_bind; [apply arg_read_int_ok|]. intros v1 H1.
  eapply yields_bind; [apply next_arg_read_int_ok|]. intros [i' v2] [Hi' H2]. cbn.
  split; [by apply next_of_tail|done].
Qed.

(** ** The loop over the parameters *)

Lemma has_bit_spec v b : 0 <= b → has_bit v b = Z.testbit v b.
Proof.
  intros Hb. unfold has_bit. rewrite Z.shiftl_1_l. destruct (Z.testbit v b) eqn:E.
  - apply negb_true_iff, Z.eqb_neq. intros H. apply (f_equal (λ x, Z.testbit x b)) in H.
    by rewrite Z.land_spec, E, Z.pow2_bits_true, Z.bits_0 in H.
  - apply negb_false_iff, Z.eqb_eq. apply Z.bits_inj'. intros n Hn.
    rewrite Z.land_spec, Z.bits_0. destruct (Z.eq_dec b n) as [->|Hne]; [by rewrite E|].
    by rewrite Z.pow2_bits_false, andb_false_r.
Qed.

Lemma set_bit_spec b v n : 0 <= b → 0 <= n → Z.testbit (set_bit b v) n = (b =? n) || Z.testbit v n.
Proof. intros Hb Hn. unfold set_bit. by rewrite Z.lor_spec, Z.shiftl_1_l, Z.pow2_bits_eqb. Qed.

(** Evaluate the bits and the comparisons of constants. *)
Ltac const_bits :=
  repeat match goal with
  | |- context [Z.testbit ?c ?n] =>
      let v := eval vm_compute in (Z.testbit c n) in
      lazymatch v with
      | true => change (Z.testbit c n) with true
      | false => change (Z.testbit c n) with false
      end
  | |- context [?a =? ?b] =>
      let v := eval vm_compute in (a =? b) in
      lazymatch v with
      | true => change (a =? b) with true
      | false => change (a =? b) with false
      end
  end; cbn [orb andb negb].

(** The fields after an update. *)
Ltac q_fields :=
  cbn [set eta xcmd_q_eta sflags flags ringsz bufsz idx range_start range_end entry_size fst snd].

(** Updates that keep [loop_ok]. *)
Ltac loop_ok_step :=
  match goal with
  | H : loop_ok ?q |- loop_ok _ =>
      destruct H as [[? ? ? ? ? ? ?] ? ?];
      split; [split; q_fields; try done; try (apply lor_bound; first [lia|split; by vm_compute]);
        try apply u8_range|..];
      q_fields; rewrite ?set_bit_spec, ?Z.lor_spec by (vm_compute; done); const_bits;
      rewrite ?orb_true_r; done
  end.

Lemma read_one_ok i q :
  i ≠ [] → loop_ok q → yields (read_one i q) (λ r, (length r.1 < length i)%nat ∧ loop_ok r.2).
Proof.
  intros Hi Hq. unfold read_one. eapply yields_bind; [by apply argv_at_ok|]. intros a _.
  assert (∀ (f : Z → xcmd_q_parm), (∀ v, is_u32 v → loop_ok (f v)) →
    yields ('(i', v) ← next_arg_read_int i; mret (tail i', f v))
      (λ r, (length r.1 < length i)%nat ∧ loop_ok r.2)) as Hint.
  { intros f Hf. eapply yields_bind; [apply next_arg_read_int_ok|]. intros [i' v] [Hn Hv].
    split; [by apply next_of_tail|by apply Hf]. }
  assert (∀ b, b = QPARM_DESC ∨ b = QPARM_WRB →
    yields (i ← get_next_arg i; '(i, (v1, v2)) ← read_range i;
            mret (i, q <| range_start := v1 |> <| range_end := v2 |> <| sflags ::= set_bit b |>))
      (λ r, (length r.1 < length i)%nat ∧ loop_ok r.2)) as Hrange.
  { intros b Hb. eapply yields_bind; [apply get_next_arg_ok|]. intros i' [Hn Hl].
    eapply yields_bind; [by apply read_range_ok|]. intros [i2 [v1 v2]] (Hl2 & H1 & H2). cbn in *.
    split; [lia|]. destruct Hb as [-> | ->]; loop_ok_step. }
  assert (∀ (k : list string → string → parsed (list string * xcmd_q_parm)),
    (∀ i' m, next_of i i' → yields (k i' m) (λ r, (length r.1 < length i)%nat ∧ loop_ok r.2)) →
    yields (i' ← get_next_arg i; m ← argv_at i'; k i' m)
      (λ r, (length r.1 < length i)%nat ∧ loop_ok r.2)) as Hword.
  { intros k Hk. eapply yields_bind; [apply get_next_arg_ok|]. intros i' Hn.
    eapply yields_bind; [apply argv_at_ok, Hn|]. intros m _. by apply Hk. }
  repeat case_match; try done; try (by apply Hrange; auto).
  all: try (apply Hint; intros v Hv; loop_ok_step).
  all: try (apply Hword; intros i' m Hn; repeat case_match; try done;
            (split; [by apply next_of_tail|loop_ok_step])).
  eapply yields_bind; [apply next_arg_read_int_ok|]. intros [i' v] [Hn Hv].
  destruct (v =? 0); cbn [negb andb]; [|destruct (v =? 1); cbn [negb]; [|done]];
    (split; [by apply next_of_tail|loop_ok_step]).
Qed.

(** The fuel is enough: every turn uses up an argument. *)
Lemma read_loop_ok fuel i q :
  (length i <= fuel)%nat → loop_ok q → yields (read_loop fuel i q) loop_ok.
Proof.
  revert i q. induction fuel as [|fuel IH]; intros [|a i] q Hl Hq; cbn in Hl; try done; [lia|].
  cbn [read_loop]. eapply yields_bind; [by apply read_one_ok|]. intros [i' q'] [Hl' Hq'].
  apply IH; [cbn in *; lia|done].
Qed.

(** Both flags of a choice, by their bits. *)
Lemma both_bits f b1 b2 :
  0 <= b1 → 0 <= b2 → b1 ≠ b2 →
  Z.land f (Z.lor (Z.shiftl 1 b1) (Z.shiftl 1 b2)) = Z.lor (Z.shiftl 1 b1) (Z.shiftl 1 b2) ↔
  Z.testbit f b1 = true ∧ Z.testbit f b2 = true.
Proof.
  intros H1 H2 Hne. rewrite !Z.shiftl_1_l. split.
  - intros E. assert (∀ n, n = b1 ∨ n = b2 → Z.testbit f n = true) as Hb.
    { intros n Hn. apply (f_equal (λ x, Z.testbit x n)) in E.
      rewrite Z.land_spec, Z.lor_spec, !Z.pow2_bits_eqb in E by done.
      destruct Hn as [-> | ->]; rewrite Z.eqb_refl, ?orb_true_r in E; cbn [orb] in E;
        by rewrite andb_true_r in E. }
    auto.
  - intros [E1 E2]. apply Z.bits_inj'. intros n Hn.
    rewrite Z.land_spec, Z.lor_spec, !Z.pow2_bits_eqb by done.
    destruct (Z.eqb_spec b1 n) as [<-|]; [by rewrite E1|].
    destruct (Z.eqb_spec b2 n) as [<-|]; [by rewrite E2|]. by rewrite andb_false_r.
Qed.

(** A choice leaves exactly one of its flags, and the rest as it is. *)
Lemma one_of_ok parm b1 b2 q :
  0 <= parm → 0 <= b1 < 5 → 0 <= b2 < 5 → b1 ≠ b2 → q_ranges q →
  Z.testbit (sflags q) parm = Z.testbit (flags q) b1 || Z.testbit (flags q) b2 →
  yields (one_of parm (Z.shiftl 1 b1) (Z.shiftl 1 b2) (Z.shiftl 1 b1) q) (λ q',
    q_ranges q' ∧ Z.testbit (flags q') b2 = negb (Z.testbit (flags q') b1) ∧
    (∀ n, 0 <= n → n ≠ b1 → Z.testbit (flags q') n = Z.testbit (flags q) n) ∧
    (∀ n, 0 <= n → n ≠ parm → Z.testbit (sflags q') n = Z.testbit (sflags q) n)).
Proof.
  intros Hp H1 H2 Hne Hr Es. unfold one_of. rewrite has_bit_spec, Es by done.
  destruct (Z.testbit (flags q) b1 || Z.testbit (flags q) b2) eqn:E.
  - destruct (Z.eqb_spec (Z.land (flags q) (Z.lor (Z.shiftl 1 b1) (Z.shiftl 1 b2)))
      (Z.lor (Z.shiftl 1 b1) (Z.shiftl 1 b2))) as [Eb|Eb]; [done|].
    split_and!; [done| |done..]. rewrite both_bits in Eb by lia.
    destruct (Z.testbit (flags q) b1), (Z.testbit (flags q) b2); try done. by destruct Eb.
  - apply orb_false_iff in E as [E1 E2]. cbn [yields mret parsed_ret]. split_and!; q_fields.
    + destruct Hr. split; q_fields; try done. rewrite Z.shiftl_1_l. apply lor_bound; [lia| |done].
      split; [apply Z.pow_nonneg; lia|apply Z.pow_lt_mono_r; lia].
    + rewrite !Z.lor_spec, Z.shiftl_1_l, !Z.pow2_bits_eqb, E1, E2, Z.eqb_refl by lia.
      by rewrite (proj2 (Z.eqb_neq b1 b2)).
    + intros n Hn Hne'. rewrite Z.lor_spec, Z.shiftl_1_l, Z.pow2_bits_eqb by lia.
      by rewrite (proj2 (Z.eqb_neq b1 n)).
    + intros n Hn Hne'. rewrite set_bit_spec by lia. by rewrite (proj2 (Z.eqb_neq parm n)).
Qed.

Lemma read_qparm_ok i f_arg_required :
  f_arg_required = 0 ∨ f_arg_required = Z.shiftl 1 QPARM_IDX →
  yields (read_qparm i q_zero f_arg_required) (λ q,
    q_wf q ∧ (f_arg_required ≠ 0 → has_bit (sflags q) QPARM_IDX = true)).
Proof.
  intros Hreq. unfold read_qparm. eapply yields_bind.
  { apply read_loop_ok; [done|]. split; [split; cbn; unfold is_u32, XNL_QIDX_INVALID; lia|done..]. }
  intros q [Hr Hm Hd].
  destruct (negb _ && _) eqn:Emiss; [done|].
  eapply yields_bind.
  { apply (one_of_ok QPARM_MODE 1 0 q); try done. by rewrite Hm, orb_comm. }
  intros q1 (Hr1 & Hm1 & Hf1 & Hs1). eapply yields_weaken.
  { apply (one_of_ok QPARM_DIR 2 3 q1); try done. rewrite Hs1, !Hf1 by done. done. }
  cbn beta. intros q2 (Hr2 & Hd2 & Hf2 & Hs2). split.
  - split; [done| |done]. rewrite !Hf2 by done. rewrite Hm1. by rewrite negb_involutive.
  - intros Hn. destruct Hreq as [->| ->]; [done|]. rewrite has_bit_spec, Hs2, Hs1 by done.
    change (missing_reported (Z.shiftl 1 QPARM_IDX)) with true in Emiss. rewrite andb_true_r in Emiss.
    apply negb_false_iff, Z.eqb_eq in Emiss. apply (f_equal (λ x, Z.testbit x QPARM_IDX)) in Emiss.
    rewrite Z.land_spec in Emiss. by rewrite andb_true_r in Emiss.
Qed.

(** ** Commands *)

Lemma default_wrbsz_ok q :
  q_wf q → q_wf (default_wrbsz q) ∧
  (Z.testbit (flags (default_wrbsz q)) 0 = true → has_bit (sflags (default_wrbsz q)) QPARM_WRBSZ = true).
Proof.
  intros Hq. unfold default_wrbsz. change (b2z _) with (Z.shiftl 1 0).
  change (negb (Z.land (flags q) (Z.shiftl 1 0) =? 0)) with (has_bit (flags q) 0).
  rewrite (has_bit_spec (flags q)) by done.
  destruct (Z.testbit (flags q) 0) eqn:E0, (has_bit (sflags q) QPARM_WRBSZ) eqn:E8; cbn [negb andb];
    try (by rewrite ?E0).
  split; [|intros _; q_fields; by rewrite has_bit_spec, set_bit_spec].
  destruct Hq as [[] ? ?]. by split; [split; q_fields| |].
Qed.

Lemma reg_addr_ok i :
  yields (reg_addr i reg_zero) (λ r, next_of i r.1 ∧ is_u32 (bar r.2) ∧ is_u32 (reg r.2) ∧ val r.2 = 0 ∧
    Z.testbit (r_sflags r.2) 1 = true ∧ Z.testbit (r_sflags r.2) 2 = false).
Proof.
  unfold reg_addr. eapply yields_bind; [apply get_next_arg_ok|]. intros i1 [Hn Hl].
  eapply yields_bind; [by apply argv_at_ok|]. intros a _.
  eapply (yields_bind _ _ (λ r, next_of i r.1 ∧ is_u32 (bar r.2) ∧ val r.2 = 0 ∧
    Z.testbit (r_sflags r.2) 1 = false ∧ Z.testbit (r_sflags r.2) 2 = false)).
  - destruct (a =s "bar"); [|done]. eapply yields_bind; [apply next_arg_read_int_ok|].
    intros [i2 v] [[Hn2 Hl2] Hv]. eapply yields_bind; [apply get_next_arg_ok|]. intros i3 [Hn3 Hl3].
    cbn in *. split; [by split; [|lia]|done].
  - intros [i2 r] (Hi2 & Hb & Hv & Hs1 & Hs2). eapply yields_bind; [apply argv_at_ok, Hi2|]. intros a2 _.
    eapply yields_bind; [apply arg_read_int_ok|]. intros v Hr.
    cbn [yields mret parsed_ret fst snd set eta xcmd_reg_eta bar reg val r_sflags] in *.
    rewrite !Z.lor_spec, Hs1, Hs2. done.
Qed.

Definition clean (x : xcmd_info) : Prop :=
  0 <= if_idx x < 2 ^ 8 ∧ u x = U_qparm q_zero ∧
  attr_mask x = 0 ∧ attrs x = replicate (Z.to_nat XNL_ATTR_MAX) 0.

(** A register command; with an unknown word the position is left where it is. *)
Lemma parse_reg_cmd_ok i x :
  i ≠ [] → clean x → yields (parse_reg_cmd i x) (λ r, r.1 = [] → xcmd_wf r.2).
Proof.
  intros Hi (Hx & _ & Ha). unfold parse_reg_cmd. eapply yields_bind; [by apply argv_at_ok|]. intros a _.
  destruct (a =s "dump").
  { intros _. split; [done|]. split; [|done]. cbn. by unfold reg_wf, is_u32. }
  destruct (a =s "read").
  { eapply yields_bind; [apply reg_addr_ok|]. intros [i1 r] (_ & Hb & Hr & Hv & H1 & H2) _.
    split; [done|]. split; [|done].
    cbn [fst snd set eta xcmd_eta op u u_wf] in *. unfold reg_wf. by rewrite H1, H2, Hv. }
  destruct (a =s "write").
  { eapply yields_bind; [apply reg_addr_ok|]. intros [i1 r] (_ & Hb & Hr & Hv & H1 & H2).
    eapply yields_bind; [apply next_arg_read_int_ok|]. intros [i2 v] [_ Hv2] _.
    split; [done|]. split; [|done].
    cbn [fst snd set eta xcmd_eta xcmd_reg_eta op u u_wf bar reg val r_sflags] in *.
    unfold reg_wf. by rewrite !Z.lor_spec, H1, H2. }
  by destruct i.
Qed.

Definition is_q_word (w : string) : bool :=
  (w =s "list") || (w =s "add") || (w =s "start") || (w =s "stop") || (w =s "del") || (w =s "dump").

Lemma with_qparm_ok i (f : xcmd_q_parm → parsed (list string * xcmd_info)) f_arg_required :
  f_arg_required = 0 ∨ f_arg_required = Z.shiftl 1 QPARM_IDX →
  (∀ q, q_wf q → (f_arg_required ≠ 0 → has_bit (sflags q) QPARM_IDX = true) →
    yields (f q) (λ r, xcmd_wf r.2)) →
  yields (i ← get_next_arg i; q ← read_qparm i q_zero f_arg_required; f q) (λ r, r.1 = [] → xcmd_wf r.2).
Proof.
  intros Hreq Hf. eapply yields_bind; [apply get_next_arg_ok|]. intros i' _.
  eapply yields_bind; [by apply read_qparm_ok|]. intros q [Hq Hb].
  eapply yields_weaken; [by apply Hf|done].
Qed.

Lemma parse_q_cmd_ok w i x :
  is_q_word w = true → clean x → yields (parse_q_cmd (w :: i) x) (λ r, r.1 = [] → xcmd_wf r.2).
Proof.
  intros Hw (Hx & Hu & Ha). unfold parse_q_cmd. cbn [argv_at mbind parsed_bind].
  assert (∀ o q, u_wf o (U_qparm q) → xcmd_wf (x <| op := o |> <| u := U_qparm q |>)) as Hwf by done.
  destruct (w =s "list") eqn:E1.
  { intros _. split; [done|]. split; [|done]. cbn. by rewrite Hu. }
  destruct (w =s "add") eqn:E2.
  { apply with_qparm_ok; [by left|]. intros q Hq _. apply Hwf. by apply default_wrbsz_ok. }
  destruct (w =s "start") eqn:E3; [|destruct (w =s "stop") eqn:E4; [|destruct (w =s "del") eqn:E5]].
  1-3: apply with_qparm_ok; [by right|]; intros q Hq Hb; apply Hwf; split; [done|by apply Hb].
  destruct (w =s "dump") eqn:E6.
  2: { revert Hw. unfold is_q_word. by rewrite E1, E2, E3, E4, E5, E6. }
  apply with_qparm_ok; [by right|]. intros q Hq Hb. specialize (Hb ltac:(done)). unfold dump_op.
  destruct (has_bit (sflags q) QPARM_DESC) eqn:Ed, (has_bit (sflags q) QPARM_WRB) eqn:Ew; cbn [andb];
    [done|..]; by apply Hwf.
Qed.

(** ** Properties *)

(** The behaviour of a command line is not defined: a word is missing after
    [dev], [reg] or [q], or the word after [q] is unknown. *)
Definition undefined_if (i : list string) : bool :=
  match i with
  | [] => false
  | a :: i =>
      if a =s "reg" then bool_decide (i = [])
      else if a =s "q" then match i with [] => true | w :: _ => negb (is_q_word w) end
      else false
  end.

Lemma parse_if_cmd_ok i x :
  undefined_if i = false → clean x → yields (parse_if_cmd i x) (λ r, r.1 = [] → xcmd_wf r.2).
Proof.
  intros Hi Hx. destruct i as [|a i].
  { destruct Hx as (Hx & Hu & Ha). intros _. split; [done|]. split; [|done]. cbn. by rewrite Hu. }
  cbn [parse_if_cmd undefined_if] in *. destruct (a =s "reg").
  { apply bool_decide_eq_false in Hi. by apply parse_reg_cmd_ok. }
  destruct (a =s "q"); [|done]. destruct i as [|w i]; [done|].
  apply parse_q_cmd_ok; [by apply negb_false_iff|done].
Qed.

Lemma parse_if_cmd_crash i x : undefined_if i = true → parse_if_cmd i x = Crash.
Proof.
  destruct i as [|a i]; [done|]. cbn [parse_if_cmd undefined_if]. destruct (a =s "reg").
  { intros Hi%bool_decide_eq_true. by subst i. }
  destruct (a =s "q"); [|done]. destruct i as [|w i]; [done|]. intros Hw%negb_true_iff.
  unfold is_q_word in Hw. repeat apply orb_false_iff in Hw as [Hw ?].
  unfold parse_q_cmd. cbn [argv_at mbind parsed_bind]. by repeat case_match.
Qed.

Lemma parse_ifname_ok a : yields (parse_ifname a xcmd_zero) clean.
Proof.
  unfold parse_ifname. repeat case_match; try done; (eapply yields_bind; [apply arg_read_int_ok|]);
    intros v _; split; try done; apply u8_range.
Qed.

Definition undefined_line (argv : list string) : Prop :=
  match argv with
  | [] => True
  | [_] => False
  | _ :: a1 :: i =>
      if a1 =s "dev" then i = []
      else (∃ x, parse_ifname a1 xcmd_zero = Ok x) ∧ undefined_if i = true
  end.

Lemma is_help_not_ifname a : is_help a || is_version a = true → parse_ifname a xcmd_zero = Bad ∧ (a =s "dev") = false.
Proof.
  unfold is_help, is_version. intros H.
  repeat (apply orb_true_iff in H as [H|H]); apply String.eqb_eq in H; by subst a.
Qed.

(** The three kinds of lines. *)
Lemma parse_cmd_cases argv :
  (undefined_line argv ∧ parse_cmd argv = Crash) ∨
  (¬ undefined_line argv ∧ (yields (parse_cmd argv) xcmd_wf ∨ ∃ c, parse_cmd argv = Exit c)).
Proof.
  destruct argv as [|p [|a i]]; [by left|right; split; [by intros []|right; by exists 1]|]. cbn [parse_cmd undefined_line].
  destruct (bool_decide (i = []) && _) eqn:Eh.
  { right. apply andb_true_iff in Eh as [_ Eh]. destruct (is_help_not_ifname a Eh) as [Ei ->].
    split; [|right; by exists 0]. rewrite Ei. by intros [[x E] _]. }
  destruct (a =s "dev").
  - unfold parse_dev_cmd. destruct i as [|w i]; [by left|right]. split; [done|left].
    cbn [argv_at mbind parsed_bind]. destruct (w =s "list"); cbn; [|done]. by destruct i.
  - pose proof (parse_ifname_ok a) as Hn. destruct (parse_ifname a xcmd_zero) as [x| | |] eqn:Ei; try done.
    2: { right. split; [by intros [[x E] _]|by left]. }
    cbn [mbind parsed_bind yields] in *. destruct (undefined_if i) eqn:Eu.
    + left. split; [by eauto|]. by rewrite parse_if_cmd_crash.
    + right. split; [by intros [_ ?]|left]. pose proof (parse_if_cmd_ok i x Eu Hn) as Hy.
      destruct (parse_if_cmd i x) as [[i' x']| | |]; cbn in *; try done. destruct i'; [by apply Hy|done].
Qed.

(** C29: every command the parser accepts is well formed: exactly one of the
    memory-mapped and streaming modes and exactly one of the two directions
    are set, every number is in the range of its field, and the operation
    carries the parameters it needs (the queue index for everything but an
    addition, the range of a ring dump, address and value of a register
    write). *)
Theorem parse_cmd_wf argv x : parse_cmd argv = Ok x → xcmd_wf x.
Proof.
  intros E. destruct (parse_cmd_cases argv) as [[_ Ec]|[_ [Hy|[c Ec]]]]; [congruence| |congruence].
  by rewrite E in Hy.
Qed.

(** C40: the lines on which the parser's behaviour is undefined are exactly
    these: nothing after [dev], nothing after [reg] or [q], or an unknown word
    after [q]. *)
Theorem parse_cmd_undefined argv : parse_cmd argv = Crash ↔ undefined_line argv.
Proof.
  destruct (parse_cmd_cases argv) as [[Hu Ec]|[Hn Hy]]; [done|]. split; [|done]. intros Ec.
  exfalso. rewrite Ec in Hy. by destruct Hy as [|[c E]].
Qed.

(** ** The documented syntax

    The commands of [usage] and the command lines that ask for them, numbers
    in decimal.  A parameter in brackets is an option. *)

Inductive q_mode := ModeMM | ModeST.
Inductive q_dir := DirH2C | DirC2H.
Inductive q_verb := Start | Stop | Del | Dump | DumpDesc (x y : Z) | DumpWrb (x y : Z).

Inductive command :=
  | DevInfo
  | RegDump
  | RegRead (b : option Z) (addr : Z)
  | RegWrite (b : option Z) (addr v : Z)
  | QList
  | QAdd (n : Z) (m : option q_mode) (d : option q_dir) (c : option bool) (w : option Z)
  | QDo (v : q_verb) (n : Z) (d : option q_dir).

Definition opt {A} (k : string) (f : A → string) (o : option A) : list string :=
  match o with Some a => [k; f a] | None => [] end.
Definition show_mode (m : q_mode) : string := match m with ModeMM => "mm" | ModeST => "st" end.
Definition show_dir (d : q_dir) : string := match d with DirH2C => "h2c" | DirC2H => "c2h" end.

(** The words of a command, after the interface name. *)
Definition render (c : command) : list string :=
  match c with
  | DevInfo => []
  | RegDump => ["reg"; "dump"]
  | RegRead b a => ["reg"; "read"] ++ opt "bar" show b ++ [show a]
  | RegWrite b a v => ["reg"; "write"] ++ opt "bar" show b ++ [show a; show v]
  | QList => ["q"; "list"]
  | QAdd n m d c w =>
      ["q"; "add"; "idx"; show n] ++ opt "mode" show_mode m ++ opt "dir" show_dir d ++
      opt "cdev" (λ b : bool, if b then "1" else "0") c ++ opt "wrbsz" show w
  | QDo v n d =>
      ["q"; match v with Start => "start" | Stop => "stop" | Del => "del" | _ => "dump" end;
       "idx"; show n] ++ opt "dir" show_dir d ++
      match v with
      | DumpDesc x y => ["desc"; show x; show y]
      | DumpWrb x y => ["wrb"; show x; show y]
      | _ => []
      end
  end.

Definition ifname (is_vf : bool) (n : Z) : string := String.append (if is_vf then "qdmavf" else "qdma") (show n).

(** What the command asks for. *)
Definition want_st (m : option q_mode) : bool := match m with Some ModeST => true | _ => false end.
Definition want_c2h (d : option q_dir) : bool := match d with Some DirC2H => true | _ => false end.
Definition given {A} (b : Z) (o : option A) : Z := match o with Some _ => Z.shiftl 1 b | None => 0 end.

Definition q_flags (m : option q_mode) (d : option q_dir) (c : option bool) : Z :=
  (if want_st m then XNL_F_QMODE_ST else XNL_F_QMODE_MM) +
  (if want_c2h d then XNL_F_QDIR_C2H else XNL_F_QDIR_H2C) +
  (if default false c then XNL_F_CDEV else 0).

(** Mode and direction always end up set. *)
Definition q_sflags : Z := 2 ^ QPARM_IDX + 2 ^ QPARM_MODE + 2 ^ QPARM_DIR.

(** The writeback entry size: the one given, 3 for a streaming queue without. *)
Definition want_wrbsz (m : option q_mode) (w : option Z) : option Z :=
  match w with Some w => Some w | None => if want_st m then Some 3 else None end.

Definition want_op (v : q_verb) : xnl_op_t :=
  match v with
  | Start => XNL_CMD_Q_START | Stop => XNL_CMD_Q_STOP | Del => XNL_CMD_Q_DEL | Dump => XNL_CMD_Q_DUMP
  | DumpDesc _ _ => XNL_CMD_Q_DESC | DumpWrb _ _ => XNL_CMD_Q_WRB
  end.
Definition want_range (v : q_verb) : option (Z * Z) :=
  match v with DumpDesc x y | DumpWrb x y => Some (x, y) | _ => None end.

Definition intended_u (c : command) : xcmd_u :=
  match c with
  | DevInfo | QList => U_qparm q_zero
  | RegDump => U_reg reg_zero
  | RegRead b a => U_reg (XcmdReg (given 0 b + XCMD_REG_F_REG_SET) (default 0 b) a 0)
  | RegWrite b a v =>
      U_reg (XcmdReg (given 0 b + XCMD_REG_F_REG_SET + XCMD_REG_F_VAL_SET) (default 0 b) a v)
  | QAdd n m d c w =>
      let w := want_wrbsz m w in
      U_qparm (XcmdQ (q_sflags + given QPARM_CDEV c + given QPARM_WRBSZ w)
        (q_flags m d c) 0 0 n 0 0 (default 0 w))
  | QDo v n d =>
      let r := want_range v in
      U_qparm (XcmdQ (q_sflags + match v with DumpDesc _ _ => 2 ^ QPARM_DESC
                                 | DumpWrb _ _ => 2 ^ QPARM_WRB | _ => 0 end)
        (q_flags None d None) 0 0 n (default (0, 0) r).1 (default (0, 0) r).2 0)
  end.

Definition intended (is_vf : bool) (n : Z) (c : command) : xcmd_info :=
  xcmd_zero <| vf := is_vf |> <| if_idx := n |> <| u := intended_u c |>
    <| op := match c with
             | DevInfo => XNL_CMD_DEV_INFO | RegDump => XNL_CMD_REG_DUMP | RegRead _ _ => XNL_CMD_REG_RD
             | RegWrite _ _ _ => XNL_CMD_REG_WRT | QList => XNL_CMD_Q_LIST
             | QAdd _ _ _ _ _ => XNL_CMD_Q_ADD | QDo v _ _ => want_op v
             end |>.

(** Numbers that fit. *)
Definition opt_all (P : Z → Prop) (o : option Z) : Prop := match o with Some v => P v | None => True end.
Definition command_ok (c : command) : Prop :=
  match c with
  | DevInfo | RegDump | QList => True
  | RegRead b a => opt_all is_u32 b ∧ is_u32 a
  | RegWrite b a v => opt_all is_u32 b ∧ is_u32 a ∧ is_u32 v
  | QAdd n _ _ _ w => is_u32 n ∧ opt_all (λ w, 0 <= w < 2 ^ 8) w
  | QDo v n _ => is_u32 n ∧ match want_range v with Some (x, y) => is_u32 x ∧ is_u32 y | None => True end
  end.

Lemma arg_read_show n : is_u32 n → arg_read_int (show n) = Ok n.
Proof.
  intros Hn. unfold is_u32 in Hn. unfold arg_read_int. rewrite strtoul_show by lia.
  cbn [String.eqb]. unfold u32. by rewrite Z.mod_small.
Qed.

Lemma parse_ifname_show is_vf n x :
  0 <= n < 1000 → parse_ifname (ifname is_vf n) x = Ok (x <| vf := is_vf |> <| if_idx := u8 n |>).
Proof.
  intros Hn. pose proof (show_go_length 10 3 n EmptyString ltac:(lia) ltac:(lia)) as Hl.
  change (show_go 10 n EmptyString) with (show n) in Hl. change (String.length EmptyString) with 0%nat in Hl.
  unfold parse_ifname, ifname. assert (String.length (String.append (if is_vf then "qdmavf" else "qdma") (show n)) < 10)%nat.
  { rewrite append_length. assert (String.length (if is_vf then "qdmavf" else "qdma") <= 6)%nat by (destruct is_vf; vm_compute; lia). lia. }
  rewrite (proj2 (Z.leb_gt _ _)) by lia.
  assert (String.prefix "vf" (show n) = false) as Hp by (by apply show_not_prefix; [lia|]).
  set (name := (λ b : bool, String.append (if b then "qdmavf" else "qdma") (show n))).
  change (String.append (if is_vf then "qdmavf" else "qdma") (show n)) with (name is_vf) in *.
  assert (String.prefix "qdma" (name is_vf) = true) as ->.
  { unfold name. by destruct is_vf, (show n). }
  assert (String.prefix "vf" (str_drop 4 (name is_vf)) = is_vf) as ->.
  { unfold name. destruct is_vf; [by destruct (show n)|]. exact Hp. }
  assert (str_drop (if is_vf then 6 else 4) (name is_vf) = show n) as -> by (by destruct is_vf).
  rewrite show_digits, arg_read_show by (unfold is_u32; lia). done.
Qed.

(** The loop, step by step: more fuel makes no difference. *)
Definition read_all (i : list string) (q : xcmd_q_parm) : parsed xcmd_q_parm := read_loop (length i) i q.

Lemma read_one_shorter i q i' q' : read_one i q = Ok (i', q') → (length i' < length i)%nat.
Proof.
  intros E. destruct i as [|a i]; [done|].
  assert (yields (read_one (a :: i) q) (λ r, (length r.1 < length (a :: i))%nat)) as H; [|by rewrite E in H].
  clear E. unfold read_one. cbn [argv_at mbind parsed_bind].
  repeat case_match; try done;
    (eapply yields_bind; [first [apply next_arg_read_int_ok|apply get_next_arg_ok]|]).
  all: try (intros [i1 v] [Hn _]; repeat case_match; try done; by apply next_of_tail).
  all: intros i1 Hn; eapply yields_bind; [first [apply argv_at_ok, Hn|apply read_range_ok, Hn]|].
  all: try (intros m _; repeat case_match; try done; by apply next_of_tail).
  all: intros [i2 [v1 v2]] [Hl _]; destruct Hn; cbn in *; lia.
Qed.

Lemma read_loop_fuel fuel i q : (length i <= fuel)%nat → read_loop fuel i q = read_all i q.
Proof.
  unfold read_all. remember (length i) as n eqn:En. assert (length i <= n)%nat as Hl by lia. clear En.
  revert fuel i q Hl. induction n as [|n IH]; intros [|fuel] [|a i] q Hl Hf; cbn in Hl; try done; try lia.
  cbn [read_loop]. destruct (read_one (a :: i) q) as [[i' q']| | |] eqn:E; cbn [mbind parsed_bind]; try done.
  apply read_one_shorter in E. cbn in E. rewrite !IH by lia. done.
Qed.

Lemma read_all_step a i q i' q' : read_one (a :: i) q = Ok (i', q') → read_all (a :: i) q = read_all i' q'.
Proof.
  intros E. unfold read_all at 1. cbn [length read_loop]. rewrite E. cbn [mbind parsed_bind].
  apply read_one_shorter in E. apply read_loop_fuel. cbn in E. lia.
Qed.

(** The parameter [b] has been read. *)
Definition seen (b : Z) (q : xcmd_q_parm) : xcmd_q_parm := q <| sflags ::= set_bit b |>.

Definition with_opt {A} (f : A → xcmd_q_parm → xcmd_q_parm) (o : option A) (q : xcmd_q_parm) : xcmd_q_parm :=
  match o with Some a => f a q | None => q end.

Lemma read_opt {A} k (sh : A → string) (f : A → xcmd_q_parm → xcmd_q_parm) o r q :
  (∀ a, o = Some a → read_one (k :: sh a :: r) q = Ok (r, f a q)) →
  read_all (opt k sh o ++ r) q = read_all r (with_opt f o q).
Proof. intros H. destruct o as [a|]; [|done]. cbn [opt app with_opt]. apply read_all_step. by apply H. Qed.

Lemma next_show a n r : is_u32 n → next_arg_read_int (a :: show n :: r) = Ok (show n :: r, n).
Proof. intros Hn. unfold next_arg_read_int. cbn [get_next_arg tail mbind parsed_bind argv_at]. by rewrite arg_read_show. Qed.

Lemma read_idx n r q :
  is_u32 n → read_all ("idx" :: show n :: r) q = read_all r (seen QPARM_IDX (q <| idx := n |>)).
Proof. intros Hn. apply read_all_step. unfold read_one. cbn [argv_at mbind parsed_bind String.eqb]. by rewrite next_show. Qed.

Lemma read_ranges k b x y r q :
  (k = "desc" ∧ b = QPARM_DESC) ∨ (k = "wrb" ∧ b = QPARM_WRB) → is_u32 x → is_u32 y →
  read_all (k :: show x :: show y :: r) q =
  read_all r (seen b (q <| range_start := x |> <| range_end := y |>)).
Proof.
  intros Hk Hx Hy. apply read_all_step.
  assert (read_range (show x :: show y :: r) = Ok (r, (x, y))) as Hr.
  { unfold read_range. cbn [argv_at mbind parsed_bind]. rewrite arg_read_show by done.
    cbn [mbind parsed_bind]. by rewrite next_show. }
  destruct Hk as [[-> ->]|[-> ->]]; unfold read_one; cbn [argv_at mbind parsed_bind get_next_arg tail];
    by rewrite Hr.
Qed.

(** The effect of the options of [q add]. *)
Definition add_opts (m : option q_mode) (d : option q_dir) (c : option bool) (w : option Z) (q : xcmd_q_parm) :=
  with_opt (λ w q, seen QPARM_WRBSZ (q <| entry_size := w |>)) w
    (with_opt (λ (c : bool) q, seen QPARM_CDEV (if c then q <| flags ::= Z.lor XNL_F_CDEV |> else q)) c
      (with_opt (λ d q, seen QPARM_DIR (q <| flags ::= Z.lor (if want_c2h (Some d) then XNL_F_QDIR_C2H
                                                             else XNL_F_QDIR_H2C) |>)) d
        (with_opt (λ m q, seen QPARM_MODE (q <| flags ::= Z.lor (if want_st (Some m) then XNL_F_QMODE_ST
                                                                else XNL_F_QMODE_MM) |>)) m q))).

Lemma read_dir d r q :
  read_all (opt "dir" show_dir d ++ r) q = read_all r (add_opts None d None None q).
Proof.
  unfold add_opts. cbn [with_opt].
  apply (read_opt "dir" show_dir (λ d q, seen QPARM_DIR (q <| flags ::= Z.lor (if want_c2h (Some d)
    then XNL_F_QDIR_C2H else XNL_F_QDIR_H2C) |>))). by intros [] _.
Qed.

Lemma read_add_opts m d c w q :
  opt_all (λ w, 0 <= w < 2 ^ 8) w →
  read_all (opt "mode" show_mode m ++ opt "dir" show_dir d ++
      opt "cdev" (λ b : bool, if b then "1" else "0") c ++ opt "wrbsz" show w) q = Ok (add_opts m d c w q).
Proof.
  intros Hw.
  rewrite (read_opt "mode" show_mode (λ m q, seen QPARM_MODE (q <| flags ::= Z.lor (if want_st (Some m)
    then XNL_F_QMODE_ST else XNL_F_QMODE_MM) |>))) by (by intros [] _).
  rewrite read_dir.
  rewrite (read_opt "cdev" _ (λ (c : bool) q, seen QPARM_CDEV (if c then q <| flags ::= Z.lor XNL_F_CDEV |> else q)))
    by (by intros [] _).
  rewrite <- (app_nil_r (opt "wrbsz" show w)).
  rewrite (read_opt "wrbsz" show (λ w q, seen QPARM_WRBSZ (q <| entry_size := w |>))); [done|].
  intros v ->. cbn [opt_all] in Hw. unfold read_one. cbn [argv_at mbind parsed_bind get_next_arg tail].
  rewrite scan_lu_show by lia. unfold u8. by rewrite Z.mod_small.
Qed.

(** The checks after the loop, on the parameters of a command. *)
Lemma read_qparm_all i q f_arg_required :
  read_all i (q_zero <| idx := XNL_QIDX_INVALID |>) = Ok q →
  Z.land (sflags q) f_arg_required = f_arg_required →
  read_qparm i q_zero f_arg_required =
    (q ← one_of QPARM_MODE XNL_F_QMODE_MM XNL_F_QMODE_ST XNL_F_QMODE_MM q;
     one_of QPARM_DIR XNL_F_QDIR_H2C XNL_F_QDIR_C2H XNL_F_QDIR_H2C q).
Proof.
  intros E Hreq. unfold read_qparm. unfold read_all in E. rewrite E. cbn [mbind parsed_bind].
  by rewrite Hreq, Z.eqb_refl.
Qed.

Lemma parse_q_add n m d c w x :
  is_u32 n → opt_all (λ w, 0 <= w < 2 ^ 8) w →
  parse_q_cmd (tail (render (QAdd n m d c w))) x =
    Ok ([], x <| op := XNL_CMD_Q_ADD |> <| u := intended_u (QAdd n m d c w) |>).
Proof.
  intros Hn Hw. unfold parse_q_cmd. cbn [render app tail argv_at mbind parsed_bind get_next_arg].
  rewrite (read_qparm_all _ (add_opts m d c w (seen QPARM_IDX (q_zero <| idx := n |>)))).
  - destruct m as [[]|], d as [[]|], c as [[]|], w as [w|]; reflexivity.
  - rewrite read_idx by done. by apply read_add_opts.
  - by rewrite Z.land_0_r.
Qed.

Lemma parse_q_do v n d x :
  command_ok (QDo v n d) →
  parse_q_cmd (tail (render (QDo v n d))) x =
    Ok ([], x <| op := want_op v |> <| u := intended_u (QDo v n d) |>).
Proof.
  intros [Hn Hv]. set (q0 := add_opts None d None None (seen QPARM_IDX (q_zero <| idx := n |>))).
  assert (∀ r q, read_all r q0 = Ok q → Z.land (sflags q) (Z.shiftl 1 QPARM_IDX) = Z.shiftl 1 QPARM_IDX →
    read_qparm ("idx" :: show n :: opt "dir" show_dir d ++ r) q_zero (Z.shiftl 1 QPARM_IDX) =
    (q ← one_of QPARM_MODE XNL_F_QMODE_MM XNL_F_QMODE_ST XNL_F_QMODE_MM q;
     one_of QPARM_DIR XNL_F_QDIR_H2C XNL_F_QDIR_C2H XNL_F_QDIR_H2C q)) as Hq.
  { intros r q E Es. apply read_qparm_all; [|done]. rewrite read_idx by done. by rewrite read_dir. }
  unfold parse_q_cmd. destruct v as [| | | |y z|y z]; cbn [render app tail argv_at mbind parsed_bind get_next_arg].
  1-4: rewrite (Hq [] q0); [|done|by destruct d]; by destruct d as [[]|].
  - destruct Hv as [Hy Hz].
    rewrite (Hq ["desc"; show y; show z] (seen QPARM_DESC (q0 <| range_start := y |> <| range_end := z |>)));
      [by destruct d as [[]|]| |by destruct d as [[]|]].
    by rewrite (read_ranges "desc" QPARM_DESC) by (done || by left).
  - destruct Hv as [Hy Hz].
    rewrite (Hq ["wrb"; show y; show z] (seen QPARM_WRB (q0 <| range_start := y |> <| range_end := z |>)));
      [by destruct d as [[]|]| |by destruct d as [[]|]].
    by rewrite (read_ranges "wrb" QPARM_WRB) by (done || by right).
Qed.

Lemma reg_addr_show w b a r :
  opt_all is_u32 b → is_u32 a →
  reg_addr (w :: opt "bar" show b ++ show a :: r) reg_zero =
    Ok (show a :: r, XcmdReg (given 0 b + XCMD_REG_F_REG_SET) (default 0 b) a 0).
Proof.
  intros Hb Ha. unfold reg_addr. destruct b as [b|]; cbn [opt app get_next_arg tail mbind parsed_bind argv_at opt_all] in *.
  - change ("bar" =s "bar") with true. cbn [negb]. rewrite next_show by done.
    cbn [mbind parsed_bind mret parsed_ret get_next_arg tail argv_at]. by rewrite arg_read_show.
  - rewrite (show_not_word a) by (unfold is_u32 in Ha; (lia || done)).
    cbn [mbind parsed_bind mret parsed_ret argv_at]. by rewrite arg_read_show.
Qed.

(** C28: parsing undoes printing: every command of the documented syntax, for
    all 32-bit numbers, is understood as what it asks for, defaults filled in;
    the interface number is taken modulo 256 ([qdma256] is [qdma0]), a range
    may end before it starts, and a streaming queue gets a writeback entry
    size in either direction. *)
Theorem parse_render prog is_vf n c :
  0 <= n < 1000 → command_ok c →
  parse_cmd (prog :: ifname is_vf n :: render c) = Ok (intended is_vf (u8 n) c).
Proof.
  intros Hn Hc. unfold parse_cmd.
  assert ((is_help (ifname is_vf n) || is_version (ifname is_vf n)) = false ∧ (ifname is_vf n =s "dev") = false)
    as [-> ->] by (by destruct is_vf).
  rewrite andb_false_r, parse_ifname_show by done. cbn [mbind parsed_bind].
  destruct c as [| |b a|b a v| |m q d c w|v m d]; try done; cbn [command_ok] in Hc.
  - unfold parse_if_cmd. cbn [render app]. unfold parse_reg_cmd.
    cbn [argv_at mbind parsed_bind]. rewrite reg_addr_show by apply Hc. by destruct b.
  - destruct Hc as (Hb & Ha & Hv). unfold parse_if_cmd. cbn [render app]. unfold parse_reg_cmd.
    cbn [argv_at mbind parsed_bind]. rewrite reg_addr_show by done. cbn [mbind parsed_bind].
    rewrite next_show by done. by destruct b.
  - pose proof (parse_q_add m q d c w (xcmd_zero <| vf := is_vf |> <| if_idx := u8 n |>)
      (proj1 Hc) (proj2 Hc)) as E.
    change (parse_if_cmd _ _) with (parse_q_cmd (tail (render (QAdd m q d c w)))
      (xcmd_zero <| vf := is_vf |> <| if_idx := u8 n |>)). by rewrite E.
  - pose proof (parse_q_do v m d (xcmd_zero <| vf := is_vf |> <| if_idx := u8 n |>) Hc) as E.
    change (parse_if_cmd _ _) with (parse_q_cmd (tail (render (QDo v m d)))
      (xcmd_zero <| vf := is_vf |> <| if_idx := u8 n |>)). by rewrite E.
Qed.

Lemma parse_cmd_wf_witness :
  parse_cmd ["dmactl"; "qdma0"; "q"; "add"; "idx"; "0x10"; "dir"; "c2h"] =
    Ok (intended false 0 (QAdd 16 None (Some DirC2H) None None)) ∧
  xcmd_wf (intended false 0 (QAdd 16 None (Some DirC2H) None None)).
Proof.
  split; [by vm_compute|].
  apply (parse_cmd_wf ["dmactl"; "qdma0"; "q"; "add"; "idx"; "0x10"; "dir"; "c2h"]). by vm_compute.
Defined.

Lemma parse_render_witness :
  render (QDo (DumpDesc 9 4) 3 (Some DirC2H)) =
    ["q"; "dump"; "idx"; "3"; "dir"; "c2h"; "desc"; "9"; "4"] ∧ ifname false 256 = "qdma256" ∧
  parse_cmd ("dmactl" :: ifname false 256 :: render (QDo (DumpDesc 9 4) 3 (Some DirC2H))) =
    Ok (intended false (u8 256) (QDo (DumpDesc 9 4) 3 (Some DirC2H))).
Proof.
  split_and!; [by vm_compute..|]. apply (parse_render "dmactl" false 256 (QDo (DumpDesc 9 4) 3 (Some DirC2H))).
  - lia.
  - by vm_compute.
Defined.
