(* ===== verification/NlUser.v ===== *)
(** * The tool's side of the control interface (nl_user.c)

    Requests and replies as the bytes of netlink messages, over a socket that
    is a parameter ([Socket]): the header, the attributes, the exchange of one
    command, and the tool's [main]. *)

From S2P Require Import Prelude Xnl Cli.
#[local] Open Scope Z_scope.

(** ** Messages *)

Definition NLMSG_HDRLEN : Z := 16.
Definition NLMSG_ERROR : Z := 2.
Definition NLM_F_REQUEST : Z := 1.
Definition GENL_ID_CTRL : Z := 16.
Definition CTRL_CMD_GETFAMILY : Z := 3.
Definition CTRL_ATTR_FAMILY_ID : Z := 1.
Definition CTRL_ATTR_FAMILY_NAME : Z := 2.

(** [sizeof(struct xnl_hdr)], also [NLMSG_LENGTH(GENL_HDRLEN)]. *)
Definition XNL_HDRLEN : Z := 20.

(** The two headers, and the bytes written behind them ([msg->data]). *)
Record xnl_msg := XnlMsg {
  nlmsg_len : Z; nlmsg_type : Z; nlmsg_flags : Z; nlmsg_seq : Z; nlmsg_pid : Z;
  g_cmd : Z; g_version : Z; msg_data : list Z }.
#[export] Instance xnl_msg_eta : Settable xnl_msg := λ r,
  XnlMsg (nlmsg_len r) (nlmsg_type r) (nlmsg_flags r) (nlmsg_seq r) (nlmsg_pid r)
    (g_cmd r) (g_version r) (msg_data r).

Definition xnl_msg_zero : xnl_msg := XnlMsg 0 0 0 0 0 0 0 [].

Definition hdr_bytes (m : xnl_msg) : list Z :=
  le_bytes 4 (nlmsg_len m) ++ le_bytes 2 (nlmsg_type m) ++ le_bytes 2 (nlmsg_flags m) ++
  le_bytes 4 (nlmsg_seq m) ++ le_bytes 4 (nlmsg_pid m) ++
  le_bytes 1 (g_cmd m) ++ le_bytes 1 (g_version m) ++ le_bytes 2 0.

Definition msg_bytes (m : xnl_msg) : list Z := hdr_bytes m ++ msg_data m.

(** [getpid()] is an argument. *)
Definition xnl_msg_set_hdr (pid family : Z) (op : xnl_op_t) (m : xnl_msg) : xnl_msg :=
  m <| nlmsg_len := XNL_HDRLEN |> <| nlmsg_type := family |> <| nlmsg_flags := NLM_F_REQUEST |>
    <| nlmsg_pid := pid |> <| g_cmd := op_z op |>.

(** An attribute is written at [nlmsg_len], which is where the data end. *)
Definition add_attr (a : nlattr) (m : xnl_msg) : xnl_msg :=
  m <| msg_data ::= λ d, d ++ nla_bytes a |> <| nlmsg_len ::= λ n, n + NLA_ALIGN (nla_len a) |>.

Definition xnl_msg_add_int_attr (t : xnl_attr_t) (v : Z) : xnl_msg → xnl_msg := add_attr (nla_u32 t v).

(** A string attribute: the characters and a NUL. *)
Definition xnl_msg_add_str_attr (t : Z) (s : list Z) : xnl_msg → xnl_msg := add_attr (Nlattr t (s ++ [0])).

(** ** Building a request *)

(** [xcmd->u.qparm]: the two structs of the union start at the same address. *)
Definition u_qparm (w : xcmd_u) : xcmd_q_parm :=
  match w with
  | U_qparm q => q
  | U_reg r => XcmdQ (r_sflags r) (bar r) (reg r) (val r) 0 0 0 0
  end.

(** [xcmd->u.reg] *)
Definition u_reg (w : xcmd_u) : xcmd_reg :=
  match w with
  | U_reg r => r
  | U_qparm q => XcmdReg (sflags q) (flags q) (ringsz q) (bufsz q)
  end.

(** The attributes of a command, the interface first. *)
Definition request_attrs (x : xcmd_info) : list (xnl_attr_t * Z) :=
  let q := u_qparm (u x) in
  (XNL_ATTR_DEV_IDX, if_idx x) ::
  match op x with
  | XNL_CMD_Q_ADD =>
      [(XNL_ATTR_QIDX, idx q); (XNL_ATTR_QFLAG, flags q); (XNL_ATTR_QRNGSZ, ringsz q);
       (XNL_ATTR_QBUFSZ, bufsz q)] ++
      (if has_bit (sflags q) QPARM_WRBSZ then [(XNL_ATTR_WRB_DESC_SIZE, entry_size q)] else [])
  | XNL_CMD_Q_START | XNL_CMD_Q_STOP | XNL_CMD_Q_DEL | XNL_CMD_Q_DUMP =>
      [(XNL_ATTR_QIDX, idx q); (XNL_ATTR_QFLAG, flags q)]
  | XNL_CMD_Q_DESC | XNL_CMD_Q_WRB =>
      [(XNL_ATTR_QIDX, idx q); (XNL_ATTR_QFLAG, flags q);
       (XNL_ATTR_RANGE_START, range_start q); (XNL_ATTR_RANGE_END, range_end q)]
  | _ => []
  end.

Definition add_attrs (l : list (xnl_attr_t * Z)) (m : xnl_msg) : xnl_msg :=
  foldl (λ m tv, xnl_msg_add_int_attr tv.1 tv.2 m) m l.

(** The size of the buffer behind the header. *)
Definition request_dlen (o : xnl_op_t) : Z :=
  match o with
  | XNL_CMD_DEV_LIST | XNL_CMD_Q_LIST | XNL_CMD_Q_DUMP | XNL_CMD_Q_DESC | XNL_CMD_Q_WRB => XNL_RESP_BUFLEN_MAX
  | _ => XNL_RESP_BUFLEN_MIN
  end.

Definition request (pid family : Z) (x : xcmd_info) : xnl_msg :=
  add_attrs (request_attrs x) (xnl_msg_set_hdr pid family (op x) xnl_msg_zero).

(** ** Reading a reply *)

(** [n] bytes at offset [off] of the buffer; reading beyond it has no result. *)
Definition buf_get (off n : nat) (buf : list Z) : option Z :=
  if (off + n <=? length buf)%nat then Some (le_get (firstn n (skipn off buf))) else None.

(** What an attribute does to the command: the text attributes are printed
    or copied ([drv_str], which nothing reads). *)
Definition take_attr (ty v : Z) (x : xcmd_info) : xcmd_info :=
  let x := x <| attr_mask ::= Z.lor (Z.shiftl 1 ty) |> in
  if (ty =? attr_z XNL_ATTR_GENMSG) || (ty =? attr_z XNL_ATTR_DRV_INFO) then x
  else x <| attrs ::= <[Z.to_nat ty := v]> |>.

(** The loop of [recv_attrs]; [buf] is what is left of the buffer from [p] on.
    [None]: a read beyond the buffer, or more than [fuel] turns. *)
Fixpoint recv_loop (fuel : nat) (buf : list Z) (maxlen : Z) (x : xcmd_info) : option (Z * xcmd_info) :=
  if maxlen <=? 0 then Some (0, x) else
  match fuel with
  | O => None
  | S fuel =>
      len ← buf_get 0 2 buf;
      ty ← buf_get 2 2 buf;
      if XNL_ATTR_MAX <=? ty then Some (- EINVAL, x) else
      x ← (if (ty =? attr_z XNL_ATTR_GENMSG) || (ty =? attr_z XNL_ATTR_DRV_INFO) then Some (take_attr ty 0 x)
           else v ← buf_get 4 4 buf; Some (take_attr ty v x));
      recv_loop fuel (skipn (Z.to_nat (NLA_ALIGN len)) buf) (maxlen - NLA_ALIGN len) x
  end.

(** [buf]: the whole message buffer.  [hdr->n.nlmsg_len] is unsigned, its
    difference with the header length goes to an [int]. *)
Definition recv_attrs (fuel : nat) (buf : list Z) (x : xcmd_info) : option (Z * xcmd_info) :=
  recv_loop fuel (skipn (Z.to_nat XNL_HDRLEN) buf) (s32 (le_get (firstn 4 buf) - XNL_HDRLEN))
    (x <| attr_mask := 0 |>).

(** The result of [recv_attrs] is not looked at. *)
Definition recv_nl_msg (fuel : nat) (buf : list Z) (x : xcmd_info) : option (Z * xcmd_info) :=
  '(_, x) ← recv_attrs fuel buf x;
  Some (0, if le_get (firstn 1 (skipn 16 buf)) =? op_z XNL_CMD_DEV_INFO
    then x <| config_bar := u8 (array (attrs x) (Z.to_nat (attr_z XNL_ATTR_DEV_CFG_BAR))) |>
           <| user_bar := u8 (array (attrs x) (Z.to_nat (attr_z XNL_ATTR_DEV_USR_BAR))) |>
           <| qmax := u16 (array (attrs x) (Z.to_nat (attr_z XNL_ATTR_DEV_QSET_MAX))) |>
    else x).

(** ** The socket *)

(** A netlink socket: the results of [socket] and [bind], what [sendto]
    returns for the bytes of a message, the datagram [recv] gives (none on an
    error), [close], in a world [W].  The tool has one socket at a time; only
    [close] is told which. *)
Class Socket (W : Type) := {
  sk_open : W → Z * W;
  sk_bind : W → Z * W;
  sk_send : list Z → W → Z * W;
  sk_recv : W → option (list Z) * W;
  sk_close : Z → W → unit * W }.

(** [struct xnl_cb]: the socket, the family and the next sequence number. *)
Record xnl_cb := XnlCb { cb_fd : Z; family : Z; snd_seq : Z }.
#[export] Instance xnl_cb_eta : Settable xnl_cb := λ r, XnlCb (cb_fd r) (family r) (snd_seq r).

Section socket.
Context {W : Type} `{!Socket W}.

Definition xnl_send (m : xnl_msg) (cb : xnl_cb) : ST W (Z * xnl_cb) :=
  let m := m <| nlmsg_seq := snd_seq cb |> in
  let cb := cb <| snd_seq ::= λ n, u32 (n + 1) |> in
  rv ← sk_send (msg_bytes m);
  mret (if negb (rv =? nlmsg_len m) then - 1 else 0, cb).

(** The buffer of [XNL_HDRLEN + dlen] bytes after [recv]: zeroed, then at most
    [dlen] bytes of the datagram.  The header is tested as [NLMSG_OK] does,
    for a datagram of no more than a header. *)
Definition xnl_recv (dlen : Z) : ST W (Z * list Z) :=
  d ← sk_recv;
  let zeros n := replicate n 0 in
  let size := Z.to_nat (XNL_HDRLEN + dlen) in
  mret match d with
  | None => (- 1, zeros size)
  | Some d =>
      let d := firstn (Z.to_nat dlen) d in
      let rv := Z.of_nat (length d) in
      let buf := d ++ zeros (size - length d)%nat in
      let len := le_get (firstn 4 buf) in
      let ok := (NLMSG_HDRLEN <=? rv) && (NLMSG_HDRLEN <=? len) && (len <=? rv) in
      if negb ok && (rv <=? XNL_HDRLEN) then (- 1, buf)
      else if le_get (firstn 2 (skipn 4 buf)) =? NLMSG_ERROR then (- 1, buf)
      else (0, buf)
  end.

(** The bytes of [XNL_NAME_PF] and [XNL_NAME_VF]. *)
Definition xnl_name (is_vf : bool) : list Z := [120; 110; 108; 95; if is_vf then 118 else 112; 102].

Definition family_request (pid : Z) (is_vf : bool) : xnl_msg :=
  xnl_msg_add_str_attr CTRL_ATTR_FAMILY_NAME (xnl_name is_vf)
    (xnl_msg_zero <| nlmsg_type := GENL_ID_CTRL |> <| nlmsg_flags := NLM_F_REQUEST |>
       <| nlmsg_pid := pid |> <| nlmsg_len := XNL_HDRLEN |> <| g_cmd := CTRL_CMD_GETFAMILY |>
       <| g_version := XNL_VERSION |>).

(** The family in the second attribute of the reply, if that is what it is.
    [None]: the first attribute's length leads out of the buffer. *)
Definition reply_family (buf : list Z) (cb : xnl_cb) : option xnl_cb :=
  let data := skipn (Z.to_nat XNL_HDRLEN) buf in
  len ← buf_get 0 2 data;
  let attr := skipn (Z.to_nat (NLA_ALIGN len)) data in
  ty ← buf_get 2 2 attr;
  if ty =? CTRL_ATTR_FAMILY_ID then v ← buf_get 4 2 attr; Some (cb <| family := v |>) else Some cb.

(** The tool's calls give no result when it reads outside its buffer.  The
    allocation of the message does not fail. *)
Definition xnl_connect (pid : Z) (is_vf : bool) (cb : xnl_cb) : ST W (option (Z * xnl_cb)) :=
  fd ← sk_open;
  if fd <? 0 then mret (Some (fd, cb)) else
  let cb := cb <| cb_fd := fd |> in
  rv ← sk_bind;
  if rv <? 0 then mret (Some (rv, cb)) else
  '(rv, cb) ← xnl_send (family_request pid is_vf) cb;
  if rv <? 0 then mret (Some (rv, cb)) else
  '(rv, buf) ← xnl_recv XNL_RESP_BUFLEN_MIN;
  if rv <? 0 then mret (Some (rv, cb)) else
  mret (cb ← reply_family buf cb; Some (0, cb)).

Definition xnl_close (cb : xnl_cb) : ST W unit := sk_close (cb_fd cb).

(** Enough turns for attributes that each take four bytes at least. *)
Definition recv_fuel (buf : list Z) : nat := S (length buf).

Definition xnl_send_cmd (pid : Z) (cb : xnl_cb) (x : xcmd_info)
    : ST W (option (Z * xnl_cb * xcmd_info)) :=
  '(rv, cb) ← xnl_send (request pid (family cb) x) cb;
  if rv <? 0 then mret (Some (rv, cb, x)) else
  '(rv, buf) ← xnl_recv (request_dlen (op x));
  if rv <? 0 then mret (Some (rv, cb, x)) else
  mret ('(rv, x) ← recv_nl_msg (recv_fuel buf) buf x; Some (rv, cb, x)).

End socket.

(** ** Reading attributes *)

Definition attr_wf (a : nlattr) : Prop := nla_len a < 2 ^ 16 ∧ 0 <= nla_type a < 2 ^ 16.

Lemma take_app_exact {A} (l k : list A) n : n = length l → firstn n (l ++ k) = l.
Proof. intros ->. by rewrite firstn_app, Nat.sub_diag, firstn_O, app_nil_r, firstn_all. Qed.

Lemma skip_app_exact {A} (l k : list A) n : n = length l → skipn n (l ++ k) = k.
Proof. intros ->. by rewrite skipn_app, Nat.sub_diag, skipn_all. Qed.

(** A field of [n] bytes behind [l]. *)
Lemma buf_get_field (l r : list Z) off n v :
  off = length l → 0 <= v < 2 ^ (8 * Z.of_nat n) → buf_get off n (l ++ le_bytes n v ++ r) = Some v.
Proof.
  intros -> Hv. unfold buf_get. rewrite skip_app_exact by done.
  rewrite take_app_exact by (by rewrite le_bytes_length). rewrite le_get_bytes by done.
  rewrite (proj2 (Nat.leb_le _ _)); [done|]. rewrite !length_app, le_bytes_length. lia.
Qed.

Lemma attr_head a r :
  attr_wf a →
  buf_get 0 2 (nla_bytes a ++ r) = Some (nla_len a) ∧ buf_get 2 2 (nla_bytes a ++ r) = Some (nla_type a) ∧
  skipn (Z.to_nat (NLA_ALIGN (nla_len a))) (nla_bytes a ++ r) = r.
Proof.
  intros [Hl Ht]. assert (4 <= nla_len a) by (unfold nla_len, NLA_HDRLEN; lia). split; [|split].
  - unfold nla_bytes. rewrite <- !app_assoc. by apply (buf_get_field []); [|cbn; lia].
  - unfold nla_bytes. rewrite <- !app_assoc. apply (buf_get_field (le_bytes 2 (nla_len a))); [done|cbn; lia].
  - apply skip_app_exact. pose proof (nla_bytes_length a). lia.
Qed.

Lemma attr_value a r :
  attr_wf a → (4 <= length (nla_data a))%nat → buf_get 4 4 (nla_bytes a ++ r) = Some (nla_get_u32 a).
Proof.
  intros [Hl Ht] Hd. unfold buf_get, nla_get_u32, nla_bytes. rewrite <- !app_assoc.
  rewrite (proj2 (Nat.leb_le _ _)) by (rewrite !length_app, !le_bytes_length; lia).
  rewrite (app_assoc (le_bytes 2 _)), skip_app_exact by done. rewrite firstn_app.
  replace (4 - length (nla_data a))%nat with 0%nat by lia. by rewrite firstn_O, app_nil_r.
Qed.

(** An attribute the tool understands: a known type, a number unless it is text. *)
Definition known_attr (a : nlattr) : Prop :=
  attr_wf a ∧ nla_type a < XNL_ATTR_MAX ∧
  (nla_type a = attr_z XNL_ATTR_GENMSG ∨ nla_type a = attr_z XNL_ATTR_DRV_INFO ∨ (4 <= length (nla_data a))%nat).

Definition attrs_bytes (l : list nlattr) : list Z := concat (nla_bytes <$> l).

Lemma nla_bytes_pos a : 4 <= Z.of_nat (length (nla_bytes a)).
Proof.
  rewrite nla_bytes_length. pose proof (NLA_ALIGN_bounds (nla_len a)) as H. unfold nla_len, NLA_HDRLEN in *. lia.
Qed.

(** The loop reads the attributes one by one, whatever lies behind them. *)
Lemma recv_loop_reads fuel l rest x :
  Forall known_attr l → (length l <= fuel)%nat →
  recv_loop fuel (attrs_bytes l ++ rest) (Z.of_nat (length (attrs_bytes l))) x =
  Some (0, foldl (λ x a, take_attr (nla_type a) (nla_get_u32 a) x) x l).
Proof.
  revert fuel x. induction l as [|a l IH]; intros fuel x Hl Hf; [by destruct fuel|].
  apply Forall_cons in Hl as [[Hwf [Hty Hv]] Hl]. destruct fuel as [|fuel]; [cbn in Hf; lia|].
  pose proof (nla_bytes_pos a) as Hpos. unfold attrs_bytes in *. cbn [fmap list_fmap concat foldl recv_loop].
  rewrite length_app, Nat2Z.inj_add, (proj2 (Z.leb_gt _ _)) by lia.
  rewrite <- app_assoc. destruct (attr_head a (concat (nla_bytes <$> l) ++ rest) Hwf) as (E1 & E2 & E3).
  rewrite E1. cbn [mbind option_bind]. rewrite E2. cbn [mbind option_bind].
  rewrite (proj2 (Z.leb_gt _ _)) by lia.
  assert (∀ v, (nla_type a =? attr_z XNL_ATTR_GENMSG) || (nla_type a =? attr_z XNL_ATTR_DRV_INFO) = true →
    take_attr (nla_type a) 0 x = take_attr (nla_type a) v x) as Htext by (intros v E; unfold take_attr; by rewrite E).
  rewrite E3, nla_bytes_length.
  replace (NLA_ALIGN (nla_len a) + Z.of_nat (length (concat (nla_bytes <$> l))) - NLA_ALIGN (nla_len a))
    with (Z.of_nat (length (concat (nla_bytes <$> l)))) by lia.
  destruct (_ || _) eqn:Et.
  - cbn [mbind option_bind]. rewrite (Htext (nla_get_u32 a) eq_refl). apply IH; [done|cbn in Hf; lia].
  - rewrite attr_value; [cbn [mbind option_bind]; apply IH; [done|cbn in Hf; lia]|done|].
    apply orb_false_iff in Et as [?%Z.eqb_neq ?%Z.eqb_neq]. by destruct Hv as [?|[?|?]].
Qed.

Lemma attrs_length l : (4 * length l <= length (attrs_bytes l))%nat.
Proof.
  unfold attrs_bytes. induction l as [|a l IH]; cbn; [lia|]. rewrite length_app. pose proof (nla_bytes_pos a). lia.
Qed.

(** The attributes of a whole message. *)
Lemma recv_attrs_all m l rest x :
  Forall known_attr l → nlmsg_len m = XNL_HDRLEN + Z.of_nat (length (attrs_bytes l)) → nlmsg_len m < 2 ^ 31 →
  let buf := hdr_bytes m ++ attrs_bytes l ++ rest in
  recv_attrs (recv_fuel buf) buf x =
  Some (0, foldl (λ x a, take_attr (nla_type a) (nla_get_u32 a) x) (x <| attr_mask := 0 |>) l).
Proof.
  intros Hl Hlen Hmax buf. unfold recv_attrs.
  assert (length (hdr_bytes m) = 20%nat) as Hh by (unfold hdr_bytes; by rewrite !length_app, !le_bytes_length).
  assert (skipn (Z.to_nat XNL_HDRLEN) buf = attrs_bytes l ++ rest) as -> by (by apply skip_app_exact).
  assert (le_get (firstn 4 buf) = nlmsg_len m) as ->.
  { unfold buf, hdr_bytes. rewrite <- !app_assoc, take_app_exact by done. apply le_get_bytes.
    unfold XNL_HDRLEN in *. change (8 * Z.of_nat 4) with 32. lia. }
  assert (s32 (nlmsg_len m - XNL_HDRLEN) = Z.of_nat (length (attrs_bytes l))) as ->.
  { unfold XNL_HDRLEN in *. unfold s32. rewrite Z.mod_small by lia. lia. }
  apply recv_loop_reads; [done|]. unfold recv_fuel, buf. rewrite !length_app. pose proof (attrs_length l). lia.
Qed.

(** ** Properties *)

(** Reading back: from a reply whose header gives the length of well-formed
    attributes, the tool takes exactly these attributes, each value into its
    place, whatever follows in the buffer. *)
Theorem recv_attrs_reads m l rest x :
  Forall known_attr l → nlmsg_len m = XNL_HDRLEN + Z.of_nat (length (attrs_bytes l)) → nlmsg_len m < 2 ^ 31 →
  let buf := hdr_bytes m ++ attrs_bytes l ++ rest in
  recv_attrs (recv_fuel buf) buf x =
  Some (0, foldl (λ x a, take_attr (nla_type a) (nla_get_u32 a) x) (x <| attr_mask := 0 |>) l).
Proof. apply recv_attrs_all. Qed.

(** The reader never ends on an attribute of length zero: no number of turns
    is enough. *)
Theorem recv_zero_length_diverges fuel buf maxlen x v :
  0 < maxlen → buf_get 0 2 buf = Some 0 → buf_get 2 2 buf = Some (attr_z XNL_ATTR_PCI_BUS) →
  buf_get 4 4 buf = Some v → recv_loop fuel buf maxlen x = None.
Proof.
  intros Hm H0 Ht Hv. revert x. induction fuel as [|fuel IH]; intros x; cbn [recv_loop];
    rewrite (proj2 (Z.leb_gt _ _)) by lia; [done|].
  rewrite H0. cbn [mbind option_bind]. rewrite Ht. cbn [mbind option_bind].
  change (XNL_ATTR_MAX <=? attr_z XNL_ATTR_PCI_BUS) with false. cbn iota.
  change ((attr_z XNL_ATTR_PCI_BUS =? attr_z XNL_ATTR_GENMSG) || (attr_z XNL_ATTR_PCI_BUS =? attr_z XNL_ATTR_DRV_INFO))
    with false. cbn iota. rewrite Hv. cbn [mbind option_bind].
  change (NLA_ALIGN 0) with 0. cbn [skipn Z.to_nat]. rewrite Z.sub_0_r. apply IH.
Qed.

(** ** Requests *)

Lemma add_attrs_spec l m :
  nlmsg_len m = XNL_HDRLEN + Z.of_nat (length (msg_data m)) →
  let m' := add_attrs l m in
  msg_data m' = msg_data m ++ attrs_bytes ((λ tv, nla_u32 tv.1 tv.2) <$> l) ∧
  nlmsg_len m' = XNL_HDRLEN + Z.of_nat (length (msg_data m')) ∧
  m' = m <| msg_data := msg_data m' |> <| nlmsg_len := nlmsg_len m' |>.
Proof.
  revert m. induction l as [|[t v] l IH]; intros m Hm; cbv zeta.
  { unfold attrs_bytes. cbn. rewrite app_nil_r. split_and!; [done..|by destruct m]. }
  cbn [add_attrs foldl]. change (foldl _ ?m0 l) with (add_attrs l m0).
  destruct (IH (xnl_msg_add_int_attr t v m)) as (E1 & E2 & E3).
  { unfold xnl_msg_add_int_attr, add_attr. cbn [nlmsg_len msg_data set eta xnl_msg_eta]. rewrite length_app, Nat2Z.inj_add, nla_bytes_length. lia. }
  cbn [fst snd] in *. set (m' := add_attrs l _) in *. split; [|split; [done|]].
  - rewrite E1. unfold attrs_bytes. cbn [fmap list_fmap concat fst snd]. by rewrite app_assoc.
  - rewrite E3 at 1. reflexivity.
Qed.

(** A reply with two numbers, and one whose attribute has length 0. *)
Module SampleReply.
Definition l : list nlattr := [nla_u32 XNL_ATTR_PCI_BUS 5; nla_u32 XNL_ATTR_DEV_QSET_MAX 2048].
Definition m : xnl_msg := xnl_msg_zero <| nlmsg_len := 36 |> <| g_cmd := op_z XNL_CMD_DEV_INFO |>.
Definition bad : list Z := le_bytes 2 0 ++ le_bytes 2 (attr_z XNL_ATTR_PCI_BUS) ++ le_bytes 4 7.
End SampleReply.

Lemma recv_attrs_reads_witness :
  let buf := hdr_bytes SampleReply.m ++ attrs_bytes SampleReply.l ++ [1; 2; 3] in
  ∃ x, recv_attrs (recv_fuel buf) buf xcmd_zero = Some (0, x) ∧ array (attrs x) 8 = 2048 ∧ array (attrs x) 3 = 5.
Proof.
  eexists. split; [apply (recv_attrs_reads SampleReply.m SampleReply.l [1; 2; 3] xcmd_zero)|].
  - repeat constructor; vm_compute; intuition congruence.
  - done.
  - done.
  - split; by vm_compute.
Defined.

Lemma recv_zero_length_diverges_witness : ∀ fuel, recv_loop fuel SampleReply.bad 8 xcmd_zero = None.
Proof. intros fuel. apply (recv_zero_length_diverges fuel SampleReply.bad 8 xcmd_zero 7); done. Defined.
