(* ===== verification/Cdev.v ===== *)
(** * Character devices (cdev.c)

    The device file of a queue: its creation and removal, and a read or write
    call, which pins the caller's pages, describes them by a scatter-gather
    table, submits a request and releases everything.  The kernel's calls are
    parameters: their results are part of the state. *)

From S2P Require Import Prelude Regs Types Sgl Descq.

(** ** Devices of a PCI function *)

Definition QDMA_MINOR_MAX : Z := 255.

(** [struct qdma_cdev_cb] *)
Record qdma_cdev_cb := CdevCb { cdev_major : Z; cdev_minor_cnt : Z }.
#[export] Instance cdev_cb_eta : Settable qdma_cdev_cb := λ r, CdevCb (cdev_major r) (cdev_minor_cnt r).

(** [struct qdma_cdev]: [cdevno] also identifies the structure. *)
Record qdma_cdev := Cdev { minor : Z; cdevno : Z; priv_data : Z; sys_device : bool; fp_rw : bool }.

(** What the kernel has registered for the driver, whether [qdma_class] is
    set, and the results of the kernel's next calls (0 when none is left). *)
Record cdev_os := CdevOs {
  qdma_class : bool; live : list Z; sysdevs : list Z; regions : list Z; answers : list Z }.
#[export] Instance cdev_os_eta : Settable cdev_os := λ r,
  CdevOs (qdma_class r) (live r) (sysdevs r) (regions r) (answers r).

Definition answer : ST cdev_os Z := λ o,
  match answers o with [] => (0, o) | a :: l => (a, o <| answers := l |>) end.

Definition remove_one (x : Z) (l : list Z) : list Z :=
  match list_find (λ y, y = x) l with Some (i, _) => delete i l | None => l end.

Definition MKDEV (major minor : Z) : Z := Z.lor (Z.shiftl major 20) minor.

Definition qdma_cdev_destroy (c : option qdma_cdev) : ST cdev_os unit := λ o,
  match c with
  | None => (tt, o)
  | Some c =>
      let o := if sys_device c then o <| sysdevs ::= remove_one (cdevno c) |> else o in
      (tt, o <| live ::= remove_one (cdevno c) |>)
  end.

(** The result, and what is stored through [xcdev_pp]: nothing on a failure. *)
Definition qdma_cdev_create (xcb : qdma_cdev_cb) (mnr qhndl : Z) : ST cdev_os (Z * option qdma_cdev) :=
  a ← answer;                                          (* kzalloc *)
  if a <? 0 then mret (- ENOMEM, None) else
  let mnr := s32 mnr in
  if cdev_minor_cnt xcb <=? mnr then mret (- ENOSPC, None) else
  let c := Cdev mnr (MKDEV (cdev_major xcb) mnr) qhndl false false in
  rv ← answer;                                         (* cdev_add *)
  if rv <? 0 then mret (rv, None) else
  _ ← st_modify (λ o, o <| live ::= cons (cdevno c) |>);
  o ← st_get;
  if qdma_class o then
    rv ← answer;                                       (* device_create *)
    if rv <? 0 then
      _ ← st_modify (λ o, o <| live ::= remove_one (cdevno c) |>);
      mret (rv, None)
    else
      _ ← st_modify (λ o, o <| sysdevs ::= cons (cdevno c) |>);
      mret (0, Some (Cdev (minor c) (cdevno c) (priv_data c) true true))
  else mret (0, Some (Cdev (minor c) (cdevno c) (priv_data c) false true)).

(** [major]: the one [alloc_chrdev_region] gives. *)
Definition qdma_cdev_device_init (major : Z) (xcb : qdma_cdev_cb) : ST cdev_os (Z * qdma_cdev_cb) :=
  let xcb := xcb <| cdev_minor_cnt := QDMA_MINOR_MAX |> in
  if negb (cdev_major xcb =? 0) then mret (- EINVAL, xcb) else
  rv ← answer;
  if negb (rv =? 0) then mret (rv, xcb) else
  _ ← st_modify (λ o, o <| regions ::= cons major |>);
  mret (0, xcb <| cdev_major := major |>).

Definition qdma_cdev_device_cleanup (xcb : qdma_cdev_cb) : ST cdev_os qdma_cdev_cb :=
  if cdev_major xcb =? 0 then mret xcb else
  _ ← st_modify (λ o, o <| regions ::= remove_one (cdev_major xcb) |>);
  mret (xcb <| cdev_major := 0 |>).

Definition qdma_cdev_init : ST cdev_os Z :=
  a ← answer;                                          (* class_create *)
  if a <? 0 then _ ← st_modify (λ o, o <| qdma_class := false |>); mret (- 1)
  else _ ← st_modify (λ o, o <| qdma_class := true |>); mret 0.

(** The class is destroyed; the variable keeps the pointer. *)
Definition qdma_cdev_cleanup : ST cdev_os unit := mret tt.

(** ** File operations *)

Definition UINT_MAX : Z := 2 ^ 32 - 1.
Definition s64 (x : Z) : Z := (x + 2 ^ 63) mod 2 ^ 64 - 2 ^ 63.

(** The result and the new position. *)
Definition cdev_gen_llseek (f_pos off whence : Z) : Z * Z :=
  let newpos :=
    if whence =? 0 then Some off
    else if whence =? 1 then Some (s64 (f_pos + off))
    else if whence =? 2 then Some (s64 (UINT_MAX + off))
    else None in
  match newpos with
  | None => (- EINVAL, f_pos)
  | Some p => if p <? 0 then (- EINVAL, f_pos) else (p, p)
  end.

(** ** The pages of a call *)

(** An entry of a scatter-gather table before it is mapped. *)
Record page_entry := PageEntry { pe_page : nat; pe_offset : Z; pe_len : Z }.

(** Pages that are pinned or have been made dirty; live scatter-gather tables
    and page arrays. *)
Record page_os := PageOs { pinned : list nat; dirty : list nat; tables : Z; arrays : Z }.
#[export] Instance page_os_eta : Settable page_os := λ r, PageOs (pinned r) (dirty r) (tables r) (arrays r).

(** [struct qdma_io_cb] *)
Record qdma_io_cb := IoCb {
  io_buf : Z; io_len : Z; pages_nr : Z;
  io_sgt : option (list page_entry); io_pages : option (list (option nat)) }.
#[export] Instance io_cb_eta : Settable qdma_io_cb := λ r,
  IoCb (io_buf r) (io_len r) (pages_nr r) (io_sgt r) (io_pages r).

(** What the kernel answers to one mapping: the table and the array are
    allocated or not, [get_user_pages_fast] fails or pins these pages. *)
Record map_answer := MapAnswer { sg_ok : bool; array_ok : bool; gup : Z + list nat }.

(** [sg_free_table]: nothing for a table that has been freed. *)
Definition sg_free_table (io : qdma_io_cb) : ST page_os qdma_io_cb := λ o,
  match io_sgt io with
  | None => (io, o)
  | Some _ => (io <| io_sgt := None |>, o <| tables ::= λ n, n - 1 |>)
  end.

Definition iocb_release (io : qdma_io_cb) : ST page_os qdma_io_cb := λ o,
  let '(io, o) := sg_free_table io o in
  match io_pages io with
  | None => (io, o)
  | Some _ => (io <| io_pages := None |>, o <| arrays ::= λ n, n - 1 |>)
  end.

Definition put_page (p : nat) (l : list nat) : list nat :=
  match list_find (λ y, y = p) l with Some (i, _) => delete i l | None => l end.

(** The pages [unmap_user_buf] visits: up to the first NULL.  [None]: the array
    is read beyond its end. *)
Fixpoint pages_until (n : Z) (l : list (option nat)) : option (list nat) :=
  if n <=? 0 then Some [] else
  match l with
  | [] => None
  | None :: _ => Some []
  | Some p :: l => cons p <$> pages_until (n - 1) l
  end.

Definition unmap_user_buf (io : qdma_io_cb) (write : bool) (o : page_os) : option (qdma_io_cb * page_os) :=
  let '(io, o) := sg_free_table io o in
  match io_pages io with
  | None => Some (io, o)
  | Some l =>
      if pages_nr io =? 0 then Some (io, o) else
      ps ← pages_until (pages_nr io) l;
      let o := o <| pinned ::= λ q, foldl (λ q p, put_page p q) q ps |> in
      let o := if write then o else o <| dirty ::= λ d, ps ++ d |> in
      Some (io <| pages_nr := 0 |>, o)
  end.

Definition PAGE_SHIFT : Z := 12.

(** The pages the [len] bytes at [buf] touch, an [unsigned int]. *)
Definition pages_of (buf len : Z) : Z :=
  u32 (Z.shiftr (u64 (u64 (buf + len + PAGE_SIZE - 1) - Z.land buf (Z.lnot (PAGE_SIZE - 1)))) PAGE_SHIFT).

Fixpoint has_duplicates (l : list nat) : bool :=
  match l with
  | p :: ((q :: _) as l) => bool_decide (p = q) || has_duplicates l
  | _ => false
  end.

(** The loop that fills the table. *)
Fixpoint fill_sgl (pages : list nat) (buf len : Z) : list page_entry :=
  match pages with
  | [] => []
  | p :: pages =>
      let offset := Z.land buf (PAGE_SIZE - 1) in
      let nbytes := Z.min (u32 (PAGE_SIZE - offset)) (u32 len) in
      PageEntry p offset nbytes :: fill_sgl pages (u64 (buf + nbytes)) (u64 (len - nbytes))
  end.

(** The result; [None] as for [unmap_user_buf]. *)
Definition map_user_buf_to_sgl (ans : map_answer) (io : qdma_io_cb) (write : bool) (o : page_os)
    : option (Z * qdma_io_cb * page_os) :=
  let n := pages_of (io_buf io) (io_len io) in
  let err_out rv io o := '(io, o) ← unmap_user_buf io write o; Some (rv, io, o) in
  if n =? 0 then Some (- EINVAL, io, o) else
  if negb (sg_ok ans) then Some (- ENOMEM, io, o) else
  let io := io <| io_sgt := Some [] |> in
  let o := o <| tables ::= λ n, n + 1 |> in
  if negb (array_ok ans) then err_out (- ENOMEM) io o else
  let o := o <| arrays ::= λ n, n + 1 |> in
  let nulls k := replicate k (@None nat) in
  match gup ans with
  | inl rv => err_out rv (io <| io_pages := Some (nulls (Z.to_nat n)) |>) o
  | inr l =>
      let io := io <| io_pages := Some ((Some <$> l) ++ nulls (Z.to_nat n - length l)%nat) |> in
      let o := o <| pinned ::= λ q, l ++ q |> in
      if negb (Z.of_nat (length l) =? n) then err_out (- EFAULT) (io <| pages_nr := u32 (- EFAULT) |>) o else
      if has_duplicates l then err_out (- EFAULT) (io <| pages_nr := n |>) o else
      Some (0, io <| io_sgt := Some (fill_sgl l (io_buf io) (io_len io)) |> <| pages_nr := n |>, o)
  end.

(** ** Reading and writing *)

Section read_write.
(** [fp_rw], which is [qdma_sg_req_submit] of the device and the queue. *)
Context {S : Type} (submit : list page_entry → qdma_sg_req → ST S Z).

(** The request of a call, its table not yet mapped. *)
Definition rw_request (write : bool) (count pos : Z) : qdma_sg_req :=
  null_req <| req_write := write |> <| dma_mapped := false |> <| ep_addr := u64 pos |>
    <| Descq.count := u32 count |> <| timeout_ms := 10 * 1000 |> <| nonblock := false |>.

Definition cdev_gen_read_write (xcdev : option qdma_cdev) (ans : map_answer) (buf count pos : Z) (write : bool)
    (o : page_os) (s : S) : option (Z * page_os * S) :=
  match xcdev with
  | None => Some (- EINVAL, o, s)
  | Some c =>
      if negb (fp_rw c) then Some (- EINVAL, o, s) else
      '(rv, io, o) ← map_user_buf_to_sgl ans (IoCb buf count 0 None None) write o;
      if rv <? 0 then Some (rv, o, s) else
      let '(res, s) := submit (default [] (io_sgt io)) (rw_request write count pos) s in
      '(io, o) ← unmap_user_buf io write o;
      let '(_, o) := iocb_release io o in
      Some (res, o, s)
  end.

End read_write.

(** ** Lemmas: pages *)

Definition page_of_addr (buf : Z) : Z := buf / PAGE_SIZE.

(** The number of pages [len] bytes at [buf] touch. *)
Definition npages (buf len : Z) : Z := (buf mod PAGE_SIZE + len + PAGE_SIZE - 1) / PAGE_SIZE.

Lemma land_page x : Z.land x (PAGE_SIZE - 1) = x mod PAGE_SIZE.
Proof. change (PAGE_SIZE - 1) with (Z.ones 12). by rewrite Z.land_ones. Qed.

Lemma pages_of_npages buf len :
  0 <= buf → 0 <= len < 2 ^ 31 → buf + len <= 2 ^ 63 → pages_of buf len = npages buf len.
Proof.
  intros Hb Hl Hs. unfold pages_of, npages, PAGE_SHIFT.
  assert (Z.land buf (Z.lnot (PAGE_SIZE - 1)) = buf - buf mod PAGE_SIZE) as ->.
  { change (PAGE_SIZE - 1) with (Z.ones 12). rewrite <- Z.ldiff_land, Z.ldiff_ones_r by done.
    rewrite Z.shiftr_div_pow2, Z.shiftl_mul_pow2 by done.
    pose proof (Z.div_mod buf (2 ^ 12) ltac:(lia)). change PAGE_SIZE with (2 ^ 12). lia. }
  pose proof (Z.mod_pos_bound buf PAGE_SIZE ltac:(done)) as Hm. change PAGE_SIZE with 4096 in *.
  assert (buf mod 4096 <= buf) by (apply Z.mod_le; lia).
  unfold u64. rewrite (Z.mod_small (buf + len + 4096 - 1)) by lia.
  rewrite Z.mod_small by lia. rewrite Z.shiftr_div_pow2 by done. change (2 ^ 12) with 4096.
  replace (buf + len + 4096 - 1 - (buf - buf mod 4096)) with (buf mod 4096 + len + 4096 - 1) by lia.
  unfold u32. apply Z.mod_small. split; [apply Z.div_pos; lia|apply Z.div_lt_upper_bound; lia].
Qed.

(** The bytes of a table, as positions in pages; the bytes of the caller's
    buffer, the pages that hold it being [l]. *)
Definition entry_bytes (e : page_entry) : list (nat * Z) :=
  (λ j, (pe_page e, pe_offset e + j)) <$> seqZ 0 (pe_len e).
Definition table_bytes (sg : list page_entry) : list (nat * Z) := concat (entry_bytes <$> sg).
Definition buffer_bytes (l : list nat) (buf len : Z) : list (nat * Z) :=
  (λ k, (nth (Z.to_nat ((buf + k) / PAGE_SIZE - buf / PAGE_SIZE)) l 0%nat, (buf + k) mod PAGE_SIZE)) <$> seqZ 0 len.

Definition entry_in_page (e : page_entry) : Prop :=
  0 <= pe_offset e ∧ 0 < pe_len e ∧ pe_offset e + pe_len e <= PAGE_SIZE.

(** The bytes of the first page. *)
Lemma buffer_first p l buf n :
  0 <= buf → 0 <= n → buf mod PAGE_SIZE + n <= PAGE_SIZE →
  buffer_bytes (p :: l) buf n = entry_bytes (PageEntry p (buf mod PAGE_SIZE) n).
Proof.
  intros Hb Hn Hs. unfold buffer_bytes, entry_bytes. cbn [pe_page pe_offset pe_len].
  apply list_fmap_ext. intros i k [-> Hk]%lookup_seqZ.
  pose proof (Z.div_mod buf PAGE_SIZE ltac:(done)) as Hd.
  pose proof (Z.mod_pos_bound buf PAGE_SIZE ltac:(done)) as Hm.
  assert (buf + (0 + Z.of_nat i) = PAGE_SIZE * (buf / PAGE_SIZE) + (buf mod PAGE_SIZE + (0 + Z.of_nat i))) as E by lia.
  assert ((buf + (0 + Z.of_nat i)) / PAGE_SIZE = buf / PAGE_SIZE) as ->
    by (symmetry; eapply Z.div_unique_pos; [|exact E]; lia).
  assert ((buf + (0 + Z.of_nat i)) mod PAGE_SIZE = buf mod PAGE_SIZE + (0 + Z.of_nat i)) as ->
    by (symmetry; eapply Z.mod_unique_pos; [|exact E]; lia).
  by rewrite Z.sub_diag.
Qed.

(** A buffer that goes on after its first page. *)
Lemma buffer_split p l buf len :
  let n := PAGE_SIZE - buf mod PAGE_SIZE in
  0 <= buf → n <= len →
  buffer_bytes (p :: l) buf len = buffer_bytes (p :: l) buf n ++ buffer_bytes l (buf + n) (len - n).
Proof.
  intros n Hb Hl. pose proof (Z.mod_pos_bound buf PAGE_SIZE ltac:(done)) as Hm.
  unfold buffer_bytes. replace len with (n + (len - n)) at 1 by lia. rewrite seqZ_app, fmap_app by lia. f_equal.
  replace (seqZ (0 + n) (len - n)) with (Z.add n <$> seqZ 0 (len - n)) by (rewrite fmap_add_seqZ; f_equal; lia).
  rewrite <- list_fmap_compose. apply list_fmap_ext. intros i k [-> Hk]%lookup_seqZ.
  unfold compose. pose proof (Z.div_mod buf PAGE_SIZE ltac:(done)) as Hd.
  assert (buf + n = (buf / PAGE_SIZE + 1) * PAGE_SIZE) as En by (unfold n; lia).
  replace (buf + (n + (0 + Z.of_nat i))) with (buf + n + (0 + Z.of_nat i)) by lia.
  rewrite En, (Z.div_add_l (buf / PAGE_SIZE + 1)), Z.div_mul by done. f_equal.
  replace (buf / PAGE_SIZE + 1 + (0 + Z.of_nat i) / PAGE_SIZE - buf / PAGE_SIZE)
    with (1 + (0 + Z.of_nat i) / PAGE_SIZE) by lia.
  replace (buf / PAGE_SIZE + 1 + (0 + Z.of_nat i) / PAGE_SIZE - (buf / PAGE_SIZE + 1))
    with ((0 + Z.of_nat i) / PAGE_SIZE) by lia.
  rewrite Z2Nat.inj_add by (try apply Z.div_pos; lia). done.
Qed.

Lemma buffer_nil l buf : buffer_bytes l buf 0 = [].
Proof. done. Qed.

(** The number of pages after the first. *)
Lemma npages_next buf len :
  0 <= buf → PAGE_SIZE - buf mod PAGE_SIZE < len →
  npages (buf + (PAGE_SIZE - buf mod PAGE_SIZE)) (len - (PAGE_SIZE - buf mod PAGE_SIZE)) = npages buf len - 1.
Proof.
  intros Hb Hl. unfold npages. pose proof (Z.div_mod buf PAGE_SIZE ltac:(done)) as Hd.
  set (n := PAGE_SIZE - buf mod PAGE_SIZE) in *.
  assert ((buf + n) mod PAGE_SIZE = 0) as ->.
  { replace (buf + n) with ((buf / PAGE_SIZE + 1) * PAGE_SIZE) by (unfold n; lia). by apply Z.mod_mul. }
  replace (buf mod PAGE_SIZE + len + PAGE_SIZE - 1) with (0 + (len - n) + PAGE_SIZE - 1 + 1 * PAGE_SIZE)
    by (unfold n; lia).
  rewrite Z.div_add by done. lia.
Qed.

Lemma npages_one buf len :
  0 < len → buf mod PAGE_SIZE + len <= PAGE_SIZE → npages buf len = 1.
Proof.
  intros Hl Hs. pose proof (Z.mod_pos_bound buf PAGE_SIZE ltac:(done)) as Hm. unfold npages.
  symmetry. apply (Z.div_unique_pos _ _ 1 (buf mod PAGE_SIZE + len - 1)); lia.
Qed.

Lemma npages_pos buf len : 0 < len → 1 <= npages buf len.
Proof.
  intros Hl. pose proof (Z.mod_pos_bound buf PAGE_SIZE ltac:(done)) as Hm. unfold npages.
  apply Z.div_le_lower_bound; [done|]. lia.
Qed.

(** The table covers the buffer, byte for byte. *)
Lemma fill_sgl_covers l buf len :
  0 <= buf → 0 < len < 2 ^ 31 → buf + len <= 2 ^ 63 → Z.of_nat (length l) = npages buf len →
  table_bytes (fill_sgl l buf len) = buffer_bytes l buf len ∧
  Forall entry_in_page (fill_sgl l buf len) ∧ sumZ (pe_len <$> fill_sgl l buf len) = len.
Proof.
  revert buf len. induction l as [|p l IH]; intros buf len Hb Hl Hs Hn.
  { pose proof (npages_pos buf len). cbn in Hn. lia. }
  cbn [fill_sgl]. rewrite land_page. pose proof (Z.mod_pos_bound buf PAGE_SIZE ltac:(done)) as Hm.
  assert (u32 (PAGE_SIZE - buf mod PAGE_SIZE) = PAGE_SIZE - buf mod PAGE_SIZE) as ->
    by (apply Z.mod_small; change PAGE_SIZE with 4096 in *; lia).
  assert (u32 len = len) as -> by (apply Z.mod_small; lia).
  set (n := PAGE_SIZE - buf mod PAGE_SIZE) in *.
  destruct (Z.leb_spec len n) as [Hle|Hgt].
  - rewrite Z.min_r by lia. rewrite npages_one in Hn by lia. destruct l as [|]; [|cbn in Hn; lia]. cbn [fill_sgl].
    unfold table_bytes. cbn. rewrite app_nil_r. split; [symmetry; apply buffer_first; lia|].
    split; [|lia]. constructor; [|constructor]. unfold entry_in_page. cbn. lia.
  - rewrite Z.min_l by lia.
    assert (u64 (buf + n) = buf + n) as -> by (apply Z.mod_small; lia).
    assert (u64 (len - n) = len - n) as -> by (apply Z.mod_small; lia).
    destruct (IH (buf + n) (len - n)) as (E & Hf & Hsum); [lia..| |].
    { rewrite npages_next by (done || lia). cbn in Hn. lia. }
    cbn [fmap list_fmap sumZ foldr pe_len]. unfold table_bytes in *. cbn [fmap list_fmap concat].
    rewrite E, buffer_split, buffer_first by lia. fold n. split; [done|]. split.
    + constructor; [|done]. unfold entry_in_page. cbn. unfold n. lia.
    + unfold sumZ in Hsum. rewrite Hsum. lia.
Qed.

(** ** Lemmas: releasing *)

Lemma put_head p l : put_page p (p :: l) = l.
Proof. unfold put_page. cbn. by rewrite decide_True. Qed.

Lemma put_all ps q : foldl (λ q p, put_page p q) (ps ++ q) ps = q.
Proof. induction ps as [|p ps IH]; cbn [app foldl]; [done|]. by rewrite put_head. Qed.

(** The loop stops at the first page that is not there, or at the count. *)
Lemma pages_until_all l k n :
  Z.of_nat (length l) < n → pages_until n ((Some <$> l) ++ replicate (S k) None) = Some l.
Proof.
  revert n. induction l as [|p l IH]; intros n Hn; cbn [fmap list_fmap app pages_until replicate length] in *;
    rewrite (proj2 (Z.leb_gt _ _)) by lia; [done|]. by rewrite IH by lia.
Qed.

Lemma pages_until_full l k :
  pages_until (Z.of_nat (length l)) ((Some <$> l) ++ replicate k None) = Some l.
Proof.
  induction l as [|p l IH]; [by destruct k|]. cbn [fmap list_fmap app pages_until length].
  rewrite (proj2 (Z.leb_gt _ _)) by lia. replace (Z.of_nat (S (length l)) - 1) with (Z.of_nat (length l)) by lia.
  by rewrite IH.
Qed.

(** ** Mapping *)

Definition fresh_io (buf len : Z) : qdma_io_cb := IoCb buf len 0 None None.

(** An answer the kernel can give for [n] pages. *)
Definition answer_wf (n : Z) (ans : map_answer) : Prop :=
  match gup ans with inl rv => rv < 0 | inr l => Z.of_nat (length l) <= n end.

(** All the pages have been pinned, and no page follows itself. *)
Definition pages_ok (n : Z) (ans : map_answer) : option (list nat) :=
  if sg_ok ans && array_ok ans then
    match gup ans with
    | inr l => if (Z.of_nat (length l) =? n) && negb (has_duplicates l) then Some l else None
    | inl _ => None
    end
  else None.

(** The page array has been allocated, and the mapping failed. *)
Definition array_leaked (n : Z) (ans : map_answer) : bool :=
  negb (n =? 0) && sg_ok ans && array_ok ans && bool_decide (pages_ok n ans = None).

Lemma map_failed ans buf len write o :
  0 <= pages_of buf len < 2 ^ 32 - 2 ^ 8 →
  answer_wf (pages_of buf len) ans → pages_of buf len = 0 ∨ pages_ok (pages_of buf len) ans = None →
  ∃ rv io o', map_user_buf_to_sgl ans (fresh_io buf len) write o = Some (rv, io, o') ∧ rv < 0 ∧
    pinned o' = pinned o ∧ tables o' = tables o ∧
    arrays o' = arrays o + b2z (array_leaked (pages_of buf len) ans).
Proof.
  set (n := pages_of buf len). intros Hn Hwf Hbad. unfold map_user_buf_to_sgl, array_leaked, fresh_io.
  cbn [io_buf io_len]. fold n. destruct (Z.eqb_spec n 0) as [E0|Hn0].
  { eexists _, _, _. split; [reflexivity|]. cbn. split_and!; (done || lia). }
  destruct Hbad as [?|Hbad]; [done|]. rewrite Hbad, bool_decide_true by done.
  unfold pages_ok in Hbad. cbn [negb andb].
  destruct (sg_ok ans); cbn [negb andb].
  2: { eexists _, _, _. split; [reflexivity|]. split_and!; (done || (cbn; lia)). }
  destruct (array_ok ans); cbn [negb andb] in *.
  2: { eexists _, _, _. split; [reflexivity|]. cbn. split_and!; (done || lia). }
  unfold answer_wf in Hwf. destruct (gup ans) as [rv|l].
  { eexists _, _, _. split; [reflexivity|]. cbn. split_and!; (done || lia). }
  destruct (Z.eqb_spec (Z.of_nat (length l)) n) as [El|El]; cbn [negb andb] in *.
  - destruct (has_duplicates l); [|done]. unfold unmap_user_buf, sg_free_table. cbn [io_sgt set eta io_cb_eta io_pages pages_nr].
    rewrite (proj2 (Z.eqb_neq _ _)) by done. rewrite <- El, pages_until_full. cbn [mbind option_bind].
    eexists _, _, _. split; [reflexivity|]. destruct write; cbn; rewrite put_all; split_and!; (done || lia).
  - unfold unmap_user_buf, sg_free_table. cbn [io_sgt set eta io_cb_eta io_pages pages_nr].
    change (u32 (- EFAULT)) with (2 ^ 32 - 14). cbn [Z.eqb].
    replace (Z.to_nat n - length l)%nat with (S (Z.to_nat n - length l - 1)) by lia.
    rewrite pages_until_all by lia. cbn [mbind option_bind].
    eexists _, _, _. split; [reflexivity|]. destruct write; cbn; rewrite put_all; split_and!; (done || lia).
Qed.

(** A successful mapping, with the release that ends the call. *)
Lemma map_done ans buf len write o l :
  pages_of buf len ≠ 0 → pages_ok (pages_of buf len) ans = Some l →
  ∃ io o1, map_user_buf_to_sgl ans (fresh_io buf len) write o = Some (0, io, o1) ∧
    io_sgt io = Some (fill_sgl l buf len) ∧
    ∃ io' o2, unmap_user_buf io write o1 = Some (io', o2) ∧
      let o3 := (iocb_release io' o2).2 in
      pinned o3 = pinned o ∧ tables o3 = tables o ∧ arrays o3 = arrays o.
Proof.
  set (n := pages_of buf len). intros Hn Hok. unfold pages_ok in Hok.
  destruct (sg_ok ans) eqn:Es; [|done]. destruct (array_ok ans) eqn:Ea; [|done]. cbn [andb] in Hok.
  destruct (gup ans) as [|l'] eqn:Eg; [done|].
  destruct (Z.eqb_spec (Z.of_nat (length l')) n) as [El|]; [|done]. cbn [andb] in Hok.
  destruct (has_duplicates l') eqn:Ed; [done|]. injection Hok as ->.
  unfold map_user_buf_to_sgl, fresh_io. cbn [io_buf io_len]. fold n.
  rewrite (proj2 (Z.eqb_neq n 0)) by done. rewrite Es, Ea, Eg, El, Z.eqb_refl, Ed. cbn [negb].
  eexists _, _. split; [reflexivity|]. split; [reflexivity|].
  unfold unmap_user_buf, sg_free_table. cbn [io_sgt set eta io_cb_eta io_pages pages_nr].
  rewrite (proj2 (Z.eqb_neq n 0)) by done. rewrite <- El, pages_until_full. cbn [mbind option_bind].
  eexists _, _. split; [reflexivity|]. destruct write; cbn; rewrite put_all; split_and!; (done || lia).
Qed.

(** ** Properties *)

Section properties.
Context {S : Type} (submit : list page_entry → qdma_sg_req → ST S Z).

(** C26: a read or write call on a queue's device file hands the queue exactly
    the caller's buffer: when the kernel pins its pages, one request is
    submitted, whose table lists the bytes of the buffer in order, each entry
    inside one page; the call's result is the queue's, and afterwards nothing
    of what was pinned or allocated is left. *)
Theorem cdev_rw_buffer c ans buf count pos write o (s : S) l :
  fp_rw c = true → 0 <= buf → 0 < count < 2 ^ 31 → buf + count <= 2 ^ 63 →
  pages_ok (npages buf count) ans = Some l →
  ∃ sg o', let '(res, s') := submit sg (rw_request write count pos) s in
    cdev_gen_read_write submit (Some c) ans buf count pos write o s = Some (res, o', s') ∧
    table_bytes sg = buffer_bytes l buf count ∧ Forall entry_in_page sg ∧ sumZ (pe_len <$> sg) = count ∧
    pinned o' = pinned o ∧ tables o' = tables o ∧ arrays o' = arrays o.
Proof.
  intros Hc Hb Hl Hs Hok. rewrite <- pages_of_npages in Hok by lia.
  assert (pages_of buf count ≠ 0) as Hn0.
  { rewrite pages_of_npages by lia. pose proof (npages_pos buf count). lia. }
  assert (Z.of_nat (length l) = npages buf count) as Hlen.
  { rewrite <- pages_of_npages by lia. unfold pages_ok in Hok. destruct (_ && _); [|done].
    destruct (gup ans); [done|]. destruct (Z.eqb_spec (Z.of_nat (length l0)) (pages_of buf count)); [|done].
    cbn [andb] in Hok. destruct (negb _); [|done]. by injection Hok as <-. }
  destruct (map_done ans buf count write o l Hn0 Hok) as (io & o1 & Em & Esg & io' & o2 & Eu & Hp & Ht & Ha).
  destruct (fill_sgl_covers l buf count Hb Hl Hs Hlen) as (Hbytes & Hin & Hsum).
  exists (fill_sgl l buf count), (iocb_release io' o2).2. destruct (submit _ _ s) as [res s'] eqn:E.
  split; [|done]. unfold cdev_gen_read_write. rewrite Hc. fold (fresh_io buf count). rewrite Em.
  cbn [negb mbind option_bind Z.ltb]. rewrite Esg. change (0 <? 0) with false. cbn [from_option id].
  rewrite E, Eu. cbn [mbind option_bind]. by destruct (iocb_release io' o2).
Qed.

(** A call whose buffer cannot be mapped, for whatever reason, submits
    nothing, fails with a negative result and leaves no page pinned and no
    table behind: but the array of pages, once allocated, is leaked. *)
Theorem cdev_rw_map_fails c ans buf count pos write o (s : S) :
  fp_rw c = true → 0 <= buf → 0 <= count < 2 ^ 31 → buf + count <= 2 ^ 63 →
  answer_wf (npages buf count) ans → npages buf count = 0 ∨ pages_ok (npages buf count) ans = None →
  ∃ rv o', cdev_gen_read_write submit (Some c) ans buf count pos write o s = Some (rv, o', s) ∧ rv < 0 ∧
    pinned o' = pinned o ∧ tables o' = tables o ∧
    arrays o' = arrays o + b2z (array_leaked (npages buf count) ans).
Proof.
  intros Hc Hb Hl Hs Hwf Hbad. rewrite <- pages_of_npages in * by lia.
  assert (0 <= pages_of buf count < 2 ^ 32 - 2 ^ 8) as Hr.
  { rewrite pages_of_npages by lia. unfold npages. pose proof (Z.mod_pos_bound buf PAGE_SIZE ltac:(done)) as Hm.
    change PAGE_SIZE with 4096 in *. split; [apply Z.div_pos; lia|apply Z.div_lt_upper_bound; lia]. }
  destruct (map_failed ans buf count write o Hr Hwf Hbad) as (rv & io & o' & Em & Hrv & H).
  exists rv, o'. split; [|done]. unfold cdev_gen_read_write. rewrite Hc. fold (fresh_io buf count). rewrite Em.
  cbn [negb mbind option_bind]. by rewrite (proj2 (Z.ltb_lt _ _)) by done.
Qed.

End properties.

(** ** A concrete call: 200 bytes over two pages, on a queue that takes all *)

Module SampleCdev.
Definition dev : qdma_cdev := Cdev 0 (MKDEV 240 0) 0 true true.
Definition submit (sg : list page_entry) (r : qdma_sg_req) : ST nat Z := λ n, (Descq.count r, S n).
Definition os : page_os := PageOs [3%nat] [] 0 0.
Definition good : map_answer := MapAnswer true true (inr [7%nat; 9%nat]).
Definition short : map_answer := MapAnswer true true (inr [7%nat]).
End SampleCdev.

Lemma cdev_rw_buffer_witness : ∃ sg o',
  cdev_gen_read_write SampleCdev.submit (Some SampleCdev.dev) SampleCdev.good 4000 200 0 false SampleCdev.os 0%nat =
    Some (200, o', 1%nat) ∧ table_bytes sg = buffer_bytes [7%nat; 9%nat] 4000 200 ∧ arrays o' = 0.
Proof.
  destruct (cdev_rw_buffer SampleCdev.submit SampleCdev.dev SampleCdev.good 4000 200 0 false SampleCdev.os 0%nat
    [7%nat; 9%nat]) as (sg & o' & H).
  - reflexivity.
  - lia.
  - lia.
  - lia.
  - by vm_compute.
  - destruct H as (E & Hb & _ & _ & _ & _ & Ha). exists sg, o'. split; [exact E|]. split; [exact Hb|exact Ha].
Defined.

Lemma cdev_rw_map_fails_witness : ∃ rv o',
  cdev_gen_read_write SampleCdev.submit (Some SampleCdev.dev) SampleCdev.short 4000 200 0 true SampleCdev.os 0%nat =
    Some (rv, o', 0%nat) ∧ pinned o' = [3%nat] ∧ arrays o' = 1.
Proof.
  destruct (cdev_rw_map_fails SampleCdev.submit SampleCdev.dev SampleCdev.short 4000 200 0 true SampleCdev.os 0%nat)
    as (rv & o' & E & _ & Hp & _ & Ha).
  - reflexivity.
  - lia.
  - lia.
  - lia.
  - by vm_compute.
  - right. by vm_compute.
  - exists rv, o'. split; [exact E|]. split; [exact Hp|exact Ha].
Defined.
