(* ===== verification/Xpdev.v ===== *)
(** * The driver module's table of queues (qdma_mod.c)

    The module keeps, for every queue of a PCI function, its handle and its
    character device.  The calls here compose the library's [qdma_queue_add]
    and [qdma_queue_remove] with [qdma_cdev_create] and [qdma_cdev_destroy];
    the theorems relate the table to the library's queues. *)

From S2P Require Import Prelude Regs Types Context Sgl Descq RxQueue Thread Resource Intr Queue Api Cdev.

(** ** Data (qdma_mod.h) *)

(** A pointer to a character device: NULL, a device, or the value of a
    variable that was never set. *)
Inductive cdev_ptr := NullDev | Dev (c : qdma_cdev) | Garbage.

Record xlnx_qdata := Qdata { qhndl : Z; xcdev : cdev_ptr }.
Definition qdata_zero : xlnx_qdata := Qdata 0 NullDev.

(** Where the function is on the bus. *)
Record pci_id := PciId { pci_bus : Z; pci_slot : Z; pci_func : Z }.

(** [struct xlnx_pci_dev]; [xp_sys] is the device [dev_hndl] stands for.  The
    table has [2 * xp_qmax] entries, the H2C queues first. *)
Record xlnx_pci_dev (D : Type) := Xpdev {
  pdev : pci_id; xp_idx : Z; xp_qmax : Z; xp_qdata : list xlnx_qdata; cdev_cb : qdma_cdev_cb; xp_sys : sys D }.
Arguments Xpdev {D}.
Arguments pdev {D}.
Arguments xp_idx {D}.
Arguments xp_qmax {D}.
Arguments xp_qdata {D}.
Arguments cdev_cb {D}.
Arguments xp_sys {D}.
#[export] Instance xpdev_eta {D} : Settable (xlnx_pci_dev D) := λ r,
  Xpdev (pdev r) (xp_idx r) (xp_qmax r) (xp_qdata r) (cdev_cb r) (xp_sys r).

(** One PCI function and the kernel's character devices. *)
Record xst (D : Type) := Xst { xp : xlnx_pci_dev D; xos : cdev_os }.
Arguments Xst {D}.
Arguments xp {D}.
Arguments xos {D}.
#[export] Instance xst_eta {D} : Settable (xst D) := λ r, Xst (xp r) (xos r).

(** ** Operations

    A result [None] is the use of a pointer that was never set. *)

Section xpdev.
Context {D : Type} `{!RegIo D}.
Implicit Types x : xst D.

Definition is_null (p : cdev_ptr) : option bool :=
  match p with NullDev => Some true | Dev _ => Some false | Garbage => None end.

(** The entry of a queue, when there is one: its index in the table. *)
Definition xpdev_queue_get (p : xlnx_pci_dev D) (qidx : Z) (c2h check_qhndl : bool) : option (option nat) :=
  if xp_qmax p <=? qidx then Some None else
  let i := (Z.to_nat qidx + if c2h then Z.to_nat (xp_qmax p) else 0)%nat in
  let e := default qdata_zero (xp_qdata p !! i) in
  if check_qhndl && (qhndl e =? 0) then
    null ← is_null (xcdev e);
    Some (if null : bool then None else Some i)
  else Some (Some i).

(** An action of the library on the function's device. *)
Definition on_lib {A} (m : ST (sys D) A) (x : xst D) : A * xst D :=
  let '(a, s) := m (xp_sys (xp x)) in (a, x <| xp ::= λ p, p <| xp_sys := s |> |>).

Definition set_qdata (i : nat) (e : xlnx_qdata) (x : xst D) : xst D :=
  x <| xp ::= λ p, p <| xp_qdata ::= <[i := e]> |> |>.

Definition destroy_ptr (p : cdev_ptr) (o : cdev_os) : option cdev_os :=
  match p with
  | NullDev => Some o
  | Dev c => Some (qdma_cdev_destroy (Some c) o).2
  | Garbage => None
  end.

Definition xpdev_queue_delete (qidx : Z) (c2h : bool) (x : xst D) : option (Z * xst D) :=
  g ← xpdev_queue_get (xp x) qidx c2h true;
  match g with
  | None => Some (- EINVAL, x)
  | Some i =>
      let e := default qdata_zero (xp_qdata (xp x) !! i) in
      o ← destroy_ptr (xcdev e) (xos x);
      let x := x <| xos := o |> in
      let '(rv, x) := if negb (qhndl e =? QDMA_QUEUE_IDX_INVALID)
                      then on_lib (qdma_queue_remove (qhndl e)) x else (0, x) in
      Some (rv, set_qdata i qdata_zero x)
  end.

(** [qconf] is updated by [qdma_queue_add]; the pointer [qdma_cdev_create]
    does not set on a failure is stored all the same. *)
Definition xpdev_queue_add (qconf : qdma_queue_conf) (x : xst D) : option (Z * xst D) :=
  let '(r, x) := on_lib (qdma_queue_add qconf false) x in
  if add_rv r <? 0 then Some (add_rv r, x) else
  let qconf := default qconf (add_conf r) in
  let hndl := default 0 (add_hndl r) in
  g ← xpdev_queue_get (xp x) (qidx qconf) (c2h qconf) false;
  match g with
  | None => Some (add_rv r, x)
  | Some i =>
      let '((rv, c), o) := qdma_cdev_create (cdev_cb (xp x)) (u32 hndl) hndl (xos x) in
      let ptr := match c with Some c => Dev c | None => Garbage end in
      Some (rv, set_qdata i (Qdata hndl ptr) (x <| xos := o |>))
  end.

(** The loop of [xpdev_device_cleanup] over the whole table. *)
Fixpoint cleanup_entries (l : list xlnx_qdata) (o : cdev_os) : option cdev_os :=
  match l with
  | [] => Some o
  | e :: l => o ← destroy_ptr (xcdev e) o; cleanup_entries l o
  end.

Definition xpdev_device_cleanup (x : xst D) : option (xst D) :=
  o ← cleanup_entries (xp_qdata (xp x)) (xos x);
  Some (x <| xos := o |> <| xp ::= λ p, p <| xp_qdata ::= fmap (λ _, qdata_zero) |> |>).

(** [sriov_config]'s bound on the number of functions. *)
Definition clamp_vfs (num_vfs : Z) : Z := if QDMA_VF_PER_PF_MAX <? num_vfs then QDMA_VF_PER_PF_MAX else num_vfs.

(** [xpdev_alloc]: an empty table. *)
Definition xpdev_alloc (p : pci_id) (qmax : Z) (s : sys D) : xlnx_pci_dev D :=
  Xpdev p 0xFF qmax (replicate (Z.to_nat (2 * qmax)) qdata_zero) (CdevCb 0 0) s.

End xpdev.

(** The list of functions. *)
Definition xpdev_find_by_idx {D} (idx : Z) (l : list (xlnx_pci_dev D)) : option (nat * xlnx_pci_dev D) :=
  list_find (λ p, xp_idx p = idx) l.

(** ** Adding a queue: what the library promises *)

Section library.
Context {D : Type} `{!RegIo D}.
Implicit Types s : sys D.

Lemma set_cnt_qmax b f qd : qmax (set_cnt b f qd) = qmax qd.
Proof. unfold set_cnt. by destruct b. Qed.

Lemma prep_qd s :
  let qd' := s_qd (qdma_device_prep_q_resource s).2 in
  qd' = s_qd s ∨ qd' = (s_qd s) <| init_qrange := true |>.
Proof.
  cbv zeta. unfold qdma_device_prep_q_resource. destruct (init_qrange (s_qd s)); [by left|]. right.
  unfold or_fail, device_set_qrange, prep_intr, prep_intr_context, on_hw, on_qd, on_intr.
  unfold mbind, ST_bind, mret, ST_ret. cbn.
  destruct (hw_set_fmap _ _ _ _) as [u h]. cbn.
  destruct (intr_ring_setup _ _) as [rv i]. destruct (negb _); cbn; [done|].
  destruct (intr_coal_en _); cbn; [|done]. by destruct (qdma_intr_context_setup _ _).
Qed.

(** The queue that was added. *)
Record added (qconf : qdma_queue_conf) (s s' : sys D) (r : add_result) (d : descq_id) : Prop := {
  ad_rv : add_rv r = 0;
  ad_dir : d.1 = c2h qconf;
  ad_range : (d.2 < Z.to_nat (qmax (s_qd s)))%nat;
  ad_hndl : add_hndl r = Some (Z.of_nat d.2 + if d.1 then qmax (s_qd s) else 0);
  ad_conf : ∃ c, add_conf r = Some c ∧ qidx c = Z.of_nat d.2 ∧ c2h c = d.1 ∧ st c = st qconf;
  ad_idx : qidx qconf ≠ QDMA_QUEUE_IDX_INVALID → d.2 = Z.to_nat (qidx qconf);
  ad_free : ∃ q, get_descq (s_qd s) d = Some q ∧ enabled q = false;
  ad_queue : ∃ q, get_descq (s_qd s') d = Some q ∧ enabled q = true;
  ad_others : ∀ d', d' ≠ d → get_descq (s_qd s') d' = get_descq (s_qd s) d' }.

(** Taking a free queue in [add_take]. *)
Lemma take_added s qconf j q :
  qdev_inv (s_qd s) → get_descq (s_qd s) (c2h qconf, j) = Some q → enabled q = false →
  (qidx qconf ≠ QDMA_QUEUE_IDX_INVALID → j = Z.to_nat (qidx qconf)) →
  let d := (c2h qconf, j) in
  let s1 := (on_qd (set_cnt (c2h qconf) (λ n, u16 (n + 1))) s).2 in
  let s2 := (upd_queue d (λ q, q <| enabled := true |>) s1).2 in
  let s3 := (upd_queue d (qdma_descq_config (s_xd s2) qconf false) s2).2 in
  let c := conf (queue_of s3 d) in
  added qconf s s3 (AddResult 0 (Some (qidx c + (if c2h qconf then qmax (s_qd s3) else 0))) (Some c)) d ∧
  qmax (s_qd s3) = qmax (s_qd s).
Proof.
  intros Hi Hq He Hx d s1 s2 s3 c.
  destruct (take_queue s qconf j q Hi Hq He) as (E3 & Eq & Hi3). cbv zeta in E3, Eq, Hi3.
  fold d s1 in E3, Eq, Hi3. fold s2 in E3, Eq, Hi3.
  assert (s_xd s2 = s_xd s) as Ex by (unfold s2; by rewrite upd_queue_xd).
  rewrite <- Ex in E3, Eq, Hi3. fold s3 in E3, Eq, Hi3. set (q' := qdma_descq_config _ _ _ _) in *.
  assert (get_descq (s_qd s3) d = Some q') as Hg.
  { rewrite E3. cbn [s_qd set eta sys_eta]. by rewrite get_descq_cnt, get_set_same by (by exists q). }
  assert (qmax (s_qd s3) = qmax (s_qd s)) as Em.
  { rewrite E3. cbn [s_qd set eta sys_eta]. by rewrite set_cnt_qmax, set_descq_qmax. }
  assert (qidx (conf q') = Z.of_nat j) as Ej by exact (qo_idx _ _ (qi_ok _ Hi3 _ _ Hg)).
  pose proof Hq as Hj. rewrite get_descq_dir in Hj. apply lookup_lt_Some in Hj.
  rewrite (qi_len _ Hi) in Hj. split; [|done]. unfold c. rewrite Eq, Ej, Em. split; try done.
  - exists (conf q'). split_and!; done.
  - by exists q.
  - exists q'. split; [done|]. done.
  - intros d' Hd'. rewrite E3. cbn [s_qd set eta sys_eta]. by rewrite get_descq_cnt, get_set_other.
Qed.

Lemma added_from s s1 qconf s' r d :
  qmax (s_qd s1) = qmax (s_qd s) → (∀ d, get_descq (s_qd s1) d = get_descq (s_qd s) d) →
  added qconf s1 s' r d → added qconf s s' r d.
Proof.
  intros Em Eg [? ? ? ? ? ? Hf ? Ho]. split; rewrite <- ?Em; try done; [by rewrite <- Eg|].
  intros d' Hd'. by rewrite <- Eg, Ho.
Qed.

(** The two outcomes of [qdma_queue_add]. *)
Lemma add_outcome s qconf :
  qdev_inv (s_qd s) → 0 <= qidx qconf →
  let '(r, s') := qdma_queue_add qconf false s in
  qdev_inv (s_qd s') ∧ qmax (s_qd s') = qmax (s_qd s) ∧
  ((add_rv r < 0 ∧ ∀ d, get_descq (s_qd s') d = get_descq (s_qd s) d) ∨ ∃ d, added qconf s s' r d).
Proof.
  intros Hi H0. pose proof (queue_add_inv qconf false s Hi H0) as Hinv'.
  destruct (qdma_queue_add qconf false s) as [r s'] eqn:E. split; [exact Hinv'|]. clear Hinv'. revert E.
  unfold qdma_queue_add. pose proof (prep_qd s) as Hp. pose proof (init_qrange_inv s Hi) as Hi1.
  destruct (qdma_device_prep_q_resource s) as [rv s1]. cbn [snd] in *. cbv zeta in Hp.
  assert (qmax (s_qd s1) = qmax (s_qd s) ∧ ∀ d, get_descq (s_qd s1) d = get_descq (s_qd s) d) as [Em Eg]
    by (by destruct Hp as [-> | ->]).
  clear Hp. destruct (Z.ltb_spec rv 0); [intros [= <- <-]; split; [done|left; split; [done|exact Eg]]|].
  destruct (Z.leb_spec (qmax (s_qd s1)) (cnt_of (c2h qconf) (s_qd s1)));
    [intros [= <- <-]; split; [done|left; by split]|].
  assert (∀ rv s2, rv < 0 → s2 = s1 →
    (AddResult rv (Some QDMA_QUEUE_IDX_INVALID) None, s2) = (r, s') →
    qmax (s_qd s') = qmax (s_qd s) ∧
    ((add_rv r < 0 ∧ ∀ d, get_descq (s_qd s') d = get_descq (s_qd s) d) ∨ ∃ d, added qconf s s' r d)) as Hfail.
  { intros rv' s2 Hrv -> [= <- <-]. split; [done|]. by left. }
  assert (∀ j q, get_descq (s_qd s1) (c2h qconf, j) = Some q → enabled q = false →
    (qidx qconf ≠ QDMA_QUEUE_IDX_INVALID → j = Z.to_nat (qidx qconf)) →
    let d := (c2h qconf, j) in
    let s2 := (on_qd (set_cnt (c2h qconf) (λ n, u16 (n + 1))) s1).2 in
    let s3 := (upd_queue d (λ q, q <| enabled := true |>) s2).2 in
    let s4 := (upd_queue d (qdma_descq_config (s_xd s3) qconf false) s3).2 in
    let c := conf (queue_of s4 d) in
    (AddResult 0 (Some (qidx c + (if c2h qconf then qmax (s_qd s4) else 0))) (Some c), s4) = (r, s') →
    qmax (s_qd s') = qmax (s_qd s) ∧
    ((add_rv r < 0 ∧ ∀ d, get_descq (s_qd s') d = get_descq (s_qd s) d) ∨ ∃ d, added qconf s s' r d)) as Htake.
  { intros j q Hq He Hx. destruct (take_added s1 qconf j q Hi1 Hq He Hx) as [Ha Hm].
    cbv zeta in *. intros E. apply pair_equal_spec in E as [<- <-]. split; [by rewrite Hm|].
    right. exists (c2h qconf, j). by apply (added_from s s1). }
  destruct (Z.eqb_spec (qidx qconf) QDMA_QUEUE_IDX_INVALID) as [Ex|Ex]; cbn [negb andb].
  - unfold add_take. rewrite Ex, Z.eqb_refl. set (s2 := (on_qd _ s1).2).
    change (if c2h qconf then c2h_descq (s_qd s2) else h2c_descq (s_qd s2)) with (dir_list (c2h qconf) (s_qd s2)).
    assert (dir_list (c2h qconf) (s_qd s2) = dir_list (c2h qconf) (s_qd s1) ∧ qmax (s_qd s2) = qmax (s_qd s1))
      as [El Em2] by (unfold s2, dir_list, set_cnt; cbn; by destruct (c2h qconf)).
    rewrite El, Em2, firstn_all2 by (rewrite (qi_len _ Hi1); lia).
    pose proof (first_free_spec (dir_list (c2h qconf) (s_qd s1)) 0) as Hff.
    destruct (first_free _ 0) as [i|].
    + destruct Hff as (j & q & -> & Hq & He & _). by apply (Htake j q).
    + apply Hfail; [done|by apply count_up_down].
  - destruct (Z.leb_spec (qmax (s_qd s1)) (qidx qconf)); [by apply Hfail|].
    unfold add_take. rewrite (proj2 (Z.eqb_neq _ _)) by done. set (s2 := (on_qd _ s1).2).
    destruct (enabled (queue_of s2 _)) eqn:Een; [apply Hfail; [done|by apply count_up_down]|].
    destruct (get_descq_lt (s_qd s1) (c2h qconf) (Z.to_nat (qidx qconf)) Hi1) as [q Hq]; [lia|].
    apply (Htake _ q Hq); [|done].
    unfold queue_of, s2 in Een. cbn [s_qd set eta sys_eta on_qd snd] in Een. by rewrite get_descq_cnt, Hq in Een.
Qed.

End library.

(** ** The table and the library agree *)

(** The index of a queue in the table: also its handle and its minor number. *)
Definition slot (qm : Z) (d : descq_id) : nat := (d.2 + if d.1 then Z.to_nat qm else 0)%nat.
Definition in_range (qm : Z) (d : descq_id) : Prop := (d.2 < Z.to_nat qm)%nat.

(** The queue has been added. *)
Definition used {D} (s : sys D) (d : descq_id) : bool := default false (enabled <$> get_descq (s_qd s) d).

Definition the_cdev (cb : qdma_cdev_cb) (cls : bool) (k : nat) : qdma_cdev :=
  Cdev (Z.of_nat k) (MKDEV (cdev_major cb) (Z.of_nat k)) (Z.of_nat k) cls true.

Definition the_entry {D} (x : xst D) (d : descq_id) : xlnx_qdata :=
  let k := slot (xp_qmax (xp x)) d in
  if used (xp_sys (xp x)) d then Qdata (Z.of_nat k) (Dev (the_cdev (cdev_cb (xp x)) (qdma_class (xos x)) k))
  else qdata_zero.

Definition MAJOR (no : Z) : Z := Z.shiftr no 20.

(** Every queue the library has added has its handle and its character device
    in the table, every other entry is empty, and the devices of the function's
    major number registered with the kernel are those of the table.  Other
    functions have other numbers. *)
Record mod_inv {D} (x : xst D) : Prop := {
  mi_lib : qdev_inv (s_qd (xp_sys (xp x)));
  mi_qmax : qmax (s_qd (xp_sys (xp x))) = xp_qmax (xp x);
  mi_cnt : 2 * xp_qmax (xp x) <= cdev_minor_cnt (cdev_cb (xp x)) <= QDMA_MINOR_MAX;
  mi_len : length (xp_qdata (xp x)) = Z.to_nat (2 * xp_qmax (xp x));
  mi_entry : ∀ d, in_range (xp_qmax (xp x)) d →
    xp_qdata (xp x) !! slot (xp_qmax (xp x)) d = Some (the_entry x d);
  mi_live: ∀ no, no ∈ live (xos x) ∧ MAJOR no = cdev_major (cdev_cb (xp x)) ↔ ∃ d, in_range (xp_qmax (xp x)) d ∧ used (xp_sys (xp x)) d = true ∧
    no = MKDEV (cdev_major (cdev_cb (xp x))) (Z.of_nat (slot (xp_qmax (xp x)) d));
  mi_nodup: NoDup (live (xos x)) }.

(** What other functions see of a call on [x]: its numbers and the class are
    kept, and so are the devices of other major numbers. *)
Definition beside {D} (x x' : xst D) : Prop :=
  cdev_cb (xp x') = cdev_cb (xp x) ∧ qdma_class (xos x') = qdma_class (xos x) ∧
  ∀ no, MAJOR no ≠ cdev_major (cdev_cb (xp x)) → (no ∈ live (xos x') ↔ no ∈ live (xos x)).

Lemma beside_refl {D} (x x' : xst D) : cdev_cb (xp x') = cdev_cb (xp x) → xos x' = xos x → beside x x'.
Proof. intros E E'. unfold beside. by rewrite E, E'. Qed.

(** Another function's table stays in step. *)
Lemma mod_inv_beside {D} (x x' : xst D) (p : xlnx_pci_dev D) :
  beside x x' → NoDup (live (xos x')) → cdev_major (cdev_cb p) ≠ cdev_major (cdev_cb (xp x)) →
  mod_inv (Xst p (xos x)) → mod_inv (Xst p (xos x')).
Proof.
  intros (_ & Ek & Hl) Hn Hne Hi. split; try apply Hi; [| |exact Hn].
  - intros d Hd. pose proof (mi_entry _ Hi d Hd) as E. unfold the_entry in *. cbn [xp xos] in *. by rewrite Ek.
  - intros no. cbn [xp xos] in *. pose proof (mi_live _ Hi no) as Hlive. cbn [xp xos] in Hlive. rewrite <- Hlive.
    split; (intros [Hin Hm]; split; [apply Hl; [congruence|done]|done]).
Qed.

(** ** Lemmas *)

Lemma slot_inj qm d d' : in_range qm d → in_range qm d' → slot qm d = slot qm d' → d = d'.
Proof.
  unfold slot, in_range. destruct d as [b i], d' as [b' i']. cbn. intros H H' E.
  destruct b, b'; f_equal; lia.
Qed.

Lemma slot_lt qm d : in_range qm d → 0 < qm → (slot qm d < Z.to_nat (2 * qm))%nat.
Proof. unfold slot, in_range. destruct (d.1); lia. Qed.

Lemma MKDEV_inj major k k' : 0 <= k < 2 ^ 20 → 0 <= k' < 2 ^ 20 → MKDEV major k = MKDEV major k' → k = k'.
Proof.
  intros Hk Hk' E. apply (f_equal (bits_get 0 20)) in E. revert E. unfold MKDEV.
  rewrite !bits_get_lor, !(bits_get_above 0 20 20 major) by lia.
  rewrite !Z.lor_0_l. unfold bits_get. by rewrite !Z.shiftr_0_r, !Z.land_ones, !Z.mod_small by lia.
Qed.

Lemma MAJOR_MKDEV major k : 0 <= k < 2 ^ 20 → MAJOR (MKDEV major k) = major.
Proof.
  intros Hk. unfold MAJOR, MKDEV. rewrite Z.shiftr_lor, Z.shiftr_shiftl_l, Z.sub_diag, Z.shiftl_0_r by lia.
  by rewrite (Z.shiftr_div_pow2 k), Z.div_small, Z.lor_0_r by lia.
Qed.

Lemma remove_one_spec x l :
  NoDup l → x ∈ l → NoDup (remove_one x l) ∧ ∀ y, y ∈ remove_one x l ↔ y ∈ l ∧ y ≠ x.
Proof.
  intros Hn Hx. unfold remove_one. destruct (list_find (λ y, y = x) l) as [[i y]|] eqn:E.
  2: { apply list_find_None in E. rewrite Forall_forall in E. by destruct (E x Hx). }
  apply list_find_Some in E as (Hi & -> & _). rewrite delete_take_drop.
  rewrite <- (take_drop_middle _ _ _ Hi) in Hn. apply NoDup_app in Hn as (H1 & H2 & H3).
  apply NoDup_cons in H3 as [H3 H4]. split.
  - apply NoDup_app. split_and!; [done| |done]. intros z Hz1 Hz2. apply (H2 z); [done|by right].
  - intros y. rewrite <- (take_drop_middle _ _ _ Hi) at 3. rewrite !elem_of_app, elem_of_cons. split.
    + intros [Hy|Hy]; (split; [by auto|]); intros ->; [|done]. by apply (H2 x); [|left].
    + intros [[?|[?|?]] ?]; auto; done.
Qed.

Section table.
Context {D : Type} `{!RegIo D}.
Implicit Types x : xst D.

(** A queue's handle leads back to it. *)
Lemma by_id_slot (s : sys D) d :
  in_range (qmax (s_qd s)) d → used s d = true →
  qdma_device_get_descq_by_id (s_qd s) (Z.of_nat (slot (qmax (s_qd s)) d)) true = Some d.
Proof.
  unfold in_range, slot, used, qdma_device_get_descq_by_id. destruct d as [[|] i]; cbn [fst snd]; intros Hi Hu.
  - rewrite (proj2 (Z.leb_le _ _)) by lia. rewrite (proj2 (Z.leb_gt _ _)) by lia. cbn [mbind option_bind].
    replace (Z.to_nat (Z.of_nat (i + Z.to_nat (qmax (s_qd s))) - qmax (s_qd s))) with i by lia. by rewrite Hu.
  - rewrite (proj2 (Z.leb_gt _ _)) by lia. cbn [mbind option_bind].
    replace (Z.to_nat (Z.of_nat (i + 0))) with i by lia. by rewrite Hu.
Qed.

Lemma mi_pos x : mod_inv x → 0 < xp_qmax (xp x) < 2 ^ 7.
Proof.
  intros Hi. pose proof (qi_qmax _ (mi_lib _ Hi)). rewrite (mi_qmax _ Hi) in *.
  pose proof (mi_cnt _ Hi). unfold QDMA_MINOR_MAX in *. lia.
Qed.

(** Looking up the entry of a queue: there when the queue has been added. *)
Lemma get_spec x d :
  mod_inv x → in_range (xp_qmax (xp x)) d →
  xpdev_queue_get (xp x) (Z.of_nat d.2) d.1 false = Some (Some (slot (xp_qmax (xp x)) d)) ∧
  xpdev_queue_get (xp x) (Z.of_nat d.2) d.1 true =
    Some (if used (xp_sys (xp x)) d then Some (slot (xp_qmax (xp x)) d) else None).
Proof.
  intros Hi Hd. unfold xpdev_queue_get. rewrite Nat2Z.id, (proj2 (Z.leb_gt _ _)) by (unfold in_range in Hd; lia).
  fold (slot (xp_qmax (xp x)) d). split; [done|]. rewrite (mi_entry _ Hi) by done. unfold the_entry.
  cbn [from_option id andb]. destruct (used _ _); cbn; [|done]. by destruct (_ =? 0).
Qed.

(** Replacing the entry of one queue, when only that queue's use changes. *)
Lemma update_entry x x' d :
  mod_inv x → in_range (xp_qmax (xp x)) d →
  xp_qmax (xp x') = xp_qmax (xp x) → cdev_cb (xp x') = cdev_cb (xp x) →
  qdma_class (xos x') = qdma_class (xos x) →
  qdev_inv (s_qd (xp_sys (xp x'))) → qmax (s_qd (xp_sys (xp x'))) = xp_qmax (xp x) →
  (∀ d', d' ≠ d → used (xp_sys (xp x')) d' = used (xp_sys (xp x)) d') →
  xp_qdata (xp x') = <[slot (xp_qmax (xp x)) d := the_entry x' d]> (xp_qdata (xp x)) →
  NoDup (live (xos x')) →
  (∀ no, no ∈ live (xos x') ↔
    if used (xp_sys (xp x')) d
    then no = MKDEV (cdev_major (cdev_cb (xp x))) (Z.of_nat (slot (xp_qmax (xp x)) d)) ∨ no ∈ live (xos x)
    else no ∈ live (xos x) ∧ no ≠ MKDEV (cdev_major (cdev_cb (xp x))) (Z.of_nat (slot (xp_qmax (xp x)) d))) →
  mod_inv x'.
Proof.
  intros Hi Hd Eq Ec Ek Hl Em Hu Ed Hn Hlive. pose proof (mi_pos _ Hi) as Hpos. split; rewrite ?Eq, ?Ec; try done.
  - apply (mi_cnt _ Hi).
  - rewrite Ed, length_insert. apply (mi_len _ Hi).
  - intros d' Hd'. rewrite Ed. destruct (decide (d' = d)) as [->|Hne].
    + rewrite list_lookup_insert_eq; [done|]. rewrite (mi_len _ Hi). apply slot_lt; [done|lia].
    + rewrite list_lookup_insert_ne by (intros E; apply Hne; symmetry; by apply (slot_inj (xp_qmax (xp x)))).
      rewrite (mi_entry _ Hi) by done. unfold the_entry. by rewrite Eq, Ec, Ek, Hu.
  - intros no. rewrite Hlive. clear Hlive.
    assert (∀ d', in_range (xp_qmax (xp x)) d' →
      MKDEV (cdev_major (cdev_cb (xp x))) (Z.of_nat (slot (xp_qmax (xp x)) d')) =
      MKDEV (cdev_major (cdev_cb (xp x))) (Z.of_nat (slot (xp_qmax (xp x)) d)) → d' = d) as Hinj.
    { intros d' Hd' E. pose proof (slot_lt _ d Hd ltac:(lia)). pose proof (slot_lt _ d' Hd' ltac:(lia)).
      apply MKDEV_inj in E; [|lia..]. apply (slot_inj (xp_qmax (xp x))); [done..|lia]. }
    assert (MAJOR (MKDEV (cdev_major (cdev_cb (xp x))) (Z.of_nat (slot (xp_qmax (xp x)) d))) =
      cdev_major (cdev_cb (xp x))) as Hmaj by (pose proof (slot_lt _ d Hd ltac:(lia)); apply MAJOR_MKDEV; lia).
    pose proof (mi_live _ Hi no) as Hl0.
    destruct (used (xp_sys (xp x')) d) eqn:E;
      [transitivity (no = MKDEV (cdev_major (cdev_cb (xp x))) (Z.of_nat (slot (xp_qmax (xp x)) d)) ∨
         (no ∈ live (xos x) ∧ MAJOR no = cdev_major (cdev_cb (xp x)))); [naive_solver|]
      |transitivity ((no ∈ live (xos x) ∧ MAJOR no = cdev_major (cdev_cb (xp x))) ∧
         no ≠ MKDEV (cdev_major (cdev_cb (xp x))) (Z.of_nat (slot (xp_qmax (xp x)) d))); [tauto|]];
      rewrite Hl0; split.
    + intros [->|(d' & Hd' & Hu' & ->)]; [by exists d|]. exists d'. split_and!; try done.
      destruct (decide (d' = d)) as [->|Hne]; [done|by rewrite Hu].
    + intros (d' & Hd' & Hu' & ->). destruct (decide (d' = d)) as [->|Hne]; [by left|right].
      exists d'. by rewrite <- Hu.
    + intros [(d' & Hd' & Hu' & ->) Hne]. exists d'. split_and!; try done.
      rewrite Hu; [done|]. by intros ->.
    + intros (d' & Hd' & Hu' & ->). assert (d' ≠ d) by congruence. split.
      * exists d'. by rewrite <- Hu.
      * intros E'. by apply Hinj in E'.
Qed.

(** The kernel's next calls succeed. *)
Definition calls_succeed (o : cdev_os) : Prop := Forall (λ a, 0 <= a) (answers o).

Lemma answer_ok o :
  calls_succeed o → ∃ a l, answer o = (a, o <| answers := l |>) ∧ 0 <= a ∧
    ∀ o', answers o' = l → calls_succeed o'.
Proof.
  intros Ho. unfold answer, calls_succeed in *. destruct (answers o) as [|a l] eqn:E.
  - exists 0, []. split_and!; [|lia|by intros o' ->]. f_equal. rewrite <- E. by destruct o.
  - apply Forall_cons in Ho as [Ha Hl]. exists a, l. split_and!; [done..|]. by intros o' ->.
Qed.

Lemma create_ok cb k o :
  calls_succeed o → Z.of_nat k < cdev_minor_cnt cb <= QDMA_MINOR_MAX →
  ∃ o', qdma_cdev_create cb (u32 (Z.of_nat k)) (Z.of_nat k) o = ((0, Some (the_cdev cb (qdma_class o) k)), o') ∧
    live o' = MKDEV (cdev_major cb) (Z.of_nat k) :: live o ∧ qdma_class o' = qdma_class o ∧ calls_succeed o'.
Proof.
  intros Ho Hk. unfold QDMA_MINOR_MAX in Hk. unfold qdma_cdev_create.
  assert (s32 (u32 (Z.of_nat k)) = Z.of_nat k) as E.
  { unfold s32, u32. rewrite (Z.mod_small (Z.of_nat k)) by lia. rewrite Z.mod_small by lia. lia. }
  destruct (answer_ok o Ho) as (a1 & l1 & E1 & H1 & Ho1). rewrite (st_bind_eq _ _ _ _ _ E1).
  rewrite (proj2 (Z.ltb_ge _ _)) by lia. rewrite E, (proj2 (Z.leb_gt _ _)) by lia.
  assert (calls_succeed (o <| answers := l1 |>)) as Ho1' by (by apply Ho1).
  destruct (answer_ok (o <| answers := l1 |>) Ho1') as (a2 & l2 & E2 & H2 & Ho2).
  rewrite (st_bind_eq _ _ _ _ _ E2). rewrite (proj2 (Z.ltb_ge _ _)) by lia.
  unfold mbind, ST_bind, st_modify, st_get, mret, ST_ret. cbn [fst snd].
  set (o2 := ((o <| answers := l1 |>) <| answers := l2 |>) <| live ::= _ |>).
  change (qdma_class o2) with (qdma_class o). destruct (qdma_class o) eqn:Ek.
  - assert (calls_succeed o2) as Ho2' by (by apply Ho2).
    destruct (answer_ok o2 Ho2') as (a3 & l3 & E3 & H3 & Ho3). rewrite E3. cbn [fst snd].
    rewrite (proj2 (Z.ltb_ge _ _)) by lia. eexists. split; [reflexivity|]. split_and!; try done. by apply Ho3.
  - eexists. split; [reflexivity|]. split_and!; try done. by apply Ho2.
Qed.

Lemma destroy_live c o :
  NoDup (live o) → cdevno c ∈ live o →
  let o' := (qdma_cdev_destroy (Some c) o).2 in
  NoDup (live o') ∧ (∀ no, no ∈ live o' ↔ no ∈ live o ∧ no ≠ cdevno c) ∧
  qdma_class o' = qdma_class o ∧ answers o' = answers o.
Proof.
  intros Hn Hin. destruct (remove_one_spec (cdevno c) (live o) Hn Hin) as [H1 H2].
  unfold qdma_cdev_destroy. by destruct (sys_device c).
Qed.

Lemma used_descq (s s' : sys D) d : get_descq (s_qd s') d = get_descq (s_qd s) d → used s' d = used s d.
Proof. intros E. unfold used. by rewrite E. Qed.

(** The rest of an addition, once the library has added queue [d]. *)
Lemma add_entered x qconf r s' d :
  mod_inv x → calls_succeed (xos x) →
  qdma_queue_add qconf false (xp_sys (xp x)) = (r, s') → added qconf (xp_sys (xp x)) s' r d →
  qdev_inv (s_qd s') → qmax (s_qd s') = xp_qmax (xp x) →
  ∃ x', xpdev_queue_add qconf x = Some (0, x') ∧ mod_inv x' ∧ in_range (xp_qmax (xp x)) d ∧
    used (xp_sys (xp x)) d = false ∧ used (xp_sys (xp x')) d = true ∧
    (∀ d', d' ≠ d → used (xp_sys (xp x')) d' = used (xp_sys (xp x)) d') ∧ calls_succeed (xos x') ∧
    beside x x'.
Proof.
  intros Hi Ho E Hd Hl Em. pose proof (mi_pos _ Hi) as Hpos. pose proof (mi_cnt _ Hi) as Hcnt.
  unfold xpdev_queue_add, on_lib. rewrite E.
  destruct Hd as [Erv _ Erange Eh (c & Ec & Ecx & Ecd & _) _ (q & Hq & Hen) (q' & Hq' & Hen') Hoth].
  rewrite (mi_qmax _ Hi) in Erange, Eh. assert (in_range (xp_qmax (xp x)) d) as Hd by done.
  assert (Z.of_nat d.2 + (if d.1 then xp_qmax (xp x) else 0) = Z.of_nat (slot (xp_qmax (xp x)) d)) as Es
    by (unfold slot; destruct (d.1); lia).
  rewrite Es in Eh. rewrite Erv, Eh, Ec. cbn [from_option id Z.ltb Z.compare]. rewrite Ecx, Ecd.
  pose proof (slot_lt _ _ Hd ltac:(lia)) as Hslot.
  assert (xpdev_queue_get (xp (x <| xp ::= λ p, p <| xp_sys := s' |> |>)) (Z.of_nat d.2) d.1 false =
    Some (Some (slot (xp_qmax (xp x)) d))) as -> by apply (get_spec x d Hi Hd).
  cbn [mbind option_bind].
  destruct (create_ok (cdev_cb (xp x)) (slot (xp_qmax (xp x)) d) (xos x) Ho) as (o' & Eo & Hlive & Hk & Ho'); [lia|].
  cbn [xp xos cdev_cb set eta xst_eta xpdev_eta]. rewrite Eo. eexists. split; [reflexivity|].
  set (x' := set_qdata _ _ _).
  assert (∀ d', d' ≠ d → used (xp_sys (xp x')) d' = used (xp_sys (xp x)) d') as Hu
    by (intros d' Hd'; apply used_descq; cbn; by apply Hoth).
  assert (used (xp_sys (xp x)) d = false) as Hu0 by (unfold used; rewrite Hq; exact Hen).
  assert (used (xp_sys (xp x')) d = true) as Hu1 by (unfold used; cbn; rewrite Hq'; exact Hen').
  pose proof (MAJOR_MKDEV (cdev_major (cdev_cb (xp x))) (Z.of_nat (slot (xp_qmax (xp x)) d)) ltac:(lia)) as Hmaj.
  split.
  2: { split_and!; try done. split; [done|]. split; [exact Hk|]. intros no Hno. cbn. rewrite Hlive, elem_of_cons. split; [intros [->|?]; [by destruct Hno|done]|by right]. }
  assert (MKDEV (cdev_major (cdev_cb (xp x))) (Z.of_nat (slot (xp_qmax (xp x)) d)) ∉ live (xos x)) as Hnew.
  { intros Hin. destruct (proj1 (mi_live _ Hi _) (conj Hin Hmaj)) as (d' & Hd' & Hu' & Eno). apply MKDEV_inj in Eno.
    - assert (d = d') as <- by (apply (slot_inj (xp_qmax (xp x))); [done..|lia]). congruence.
    - lia.
    - pose proof (slot_lt _ _ Hd' ltac:(lia)). lia. }
  apply (update_entry x x' d); try done.
  - unfold the_entry. rewrite Hu1. cbn. by rewrite Hk.
  - cbn. rewrite Hlive. apply NoDup_cons. split; [done|apply (mi_nodup _ Hi)].
  - intros no. rewrite Hu1. cbn. rewrite Hlive. apply elem_of_cons.
Qed.

(** An addition the library refuses. *)
Lemma add_refused x qconf r s' :
  mod_inv x → qdma_queue_add qconf false (xp_sys (xp x)) = (r, s') → add_rv r < 0 →
  (∀ d, get_descq (s_qd s') d = get_descq (s_qd (xp_sys (xp x))) d) →
  qdev_inv (s_qd s') → qmax (s_qd s') = xp_qmax (xp x) →
  ∃ x', xpdev_queue_add qconf x = Some (add_rv r, x') ∧ mod_inv x' ∧
    (∀ d, used (xp_sys (xp x')) d = used (xp_sys (xp x)) d) ∧ xos x' = xos x ∧ beside x x'.
Proof.
  intros Hi E Hrv Hg Hl Em. unfold xpdev_queue_add, on_lib. rewrite E, (proj2 (Z.ltb_lt _ _)) by done.
  eexists. split; [reflexivity|].
  assert (∀ d, used s' d = used (xp_sys (xp x)) d) as Hu by (intros d; by apply used_descq).
  split; [|done]. split; cbn; try apply Hi; try done.
  - intros d Hd. rewrite (mi_entry _ Hi) by done. unfold the_entry. cbn. by rewrite Hu.
  - intros no. rewrite (mi_live _ Hi). by setoid_rewrite Hu.
Qed.

(** C33: adding a queue through the module keeps its table in step with the
    library: when the kernel's calls succeed, the call either fails and no
    queue changes its use, or exactly one queue of the direction asked for
    (the one asked for, if one was) comes into use, with its handle in the
    table and a character device of its own; in both cases the invariant
    holds afterwards and the devices of other functions are the same. *)
Theorem xpdev_add_tracks x qconf :
  mod_inv x → 0 <= qidx qconf → calls_succeed (xos x) →
  ∃ rv x', xpdev_queue_add qconf x = Some (rv, x') ∧ mod_inv x' ∧
    beside x x' ∧
    ((rv < 0 ∧ ∀ d, used (xp_sys (xp x')) d = used (xp_sys (xp x)) d) ∨
     (rv = 0 ∧ ∃ d, d.1 = c2h qconf ∧ in_range (xp_qmax (xp x)) d ∧
        (qidx qconf ≠ QDMA_QUEUE_IDX_INVALID → d.2 = Z.to_nat (qidx qconf)) ∧
        used (xp_sys (xp x)) d = false ∧ used (xp_sys (xp x')) d = true ∧
        ∀ d', d' ≠ d → used (xp_sys (xp x')) d' = used (xp_sys (xp x)) d')).
Proof.
  intros Hi H0 Ho. pose proof (add_outcome (xp_sys (xp x)) qconf (mi_lib _ Hi) H0) as Hadd.
  destruct (qdma_queue_add qconf false (xp_sys (xp x))) as [r s'] eqn:E.
  destruct Hadd as (Hl & Em & [[Hrv Hg]|[d Hd]]); rewrite (mi_qmax _ Hi) in Em.
  - destruct (add_refused x qconf r s' Hi E Hrv Hg Hl Em) as (x' & E' & Hi' & Hu & Eo). exists (add_rv r), x'.
    split; [done|]. split; [done|]. split; [apply Eo|auto].
  - destruct (add_entered x qconf r s' d Hi Ho E Hd Hl Em) as (x' & E' & Hi' & Hr & Hu0 & Hu1 & Hoth & _ & Ho').
    destruct Hd. exists 0, x'. split; [done|]. split; [done|]. split; [done|]. right. split; [done|]. by exists d.
Qed.

(** Deleting a queue in use. *)
Lemma delete_used x d :
  mod_inv x → in_range (xp_qmax (xp x)) d → used (xp_sys (xp x)) d = true →
  ∃ x', xpdev_queue_delete (Z.of_nat d.2) d.1 x = Some (0, x') ∧ mod_inv x' ∧
    used (xp_sys (xp x')) d = false ∧
    (∀ d', d' ≠ d → used (xp_sys (xp x')) d' = used (xp_sys (xp x)) d') ∧ answers (xos x') = answers (xos x) ∧
    beside x x'.
Proof.
  intros Hi Hd Hu. pose proof (mi_pos _ Hi) as Hpos. unfold xpdev_queue_delete.
  destruct (get_spec x d Hi Hd) as [_ ->]. cbn [mbind option_bind].
  rewrite Hu.
  rewrite (mi_entry _ Hi) by done. unfold the_entry at 1 2 3. rewrite Hu. cbn [from_option id xcdev qhndl destroy_ptr].
  pose proof (slot_lt _ _ Hd ltac:(lia)) as Hslot. set (k := slot (xp_qmax (xp x)) d) in *.
  set (c := the_cdev _ _ k).
  destruct (destroy_live c (xos x)) as (Hn & Hlive & Hk & Ha); [apply (mi_nodup _ Hi)| |].
  { apply (mi_live _ Hi (cdevno c)). by exists d. }
  cbn [mbind option_bind]. set (o' := (qdma_cdev_destroy (Some c) (xos x)).2) in *.
  rewrite (proj2 (Z.eqb_neq _ _)) by (unfold QDMA_QUEUE_IDX_INVALID; lia). cbn [negb].
  assert (qdma_device_get_descq_by_id (s_qd (xp_sys (xp x))) (Z.of_nat k) true = Some d) as Hid.
  { unfold k. rewrite <- (mi_qmax _ Hi). apply by_id_slot; [by rewrite (mi_qmax _ Hi)|done]. }
  destruct (by_id_exists _ _ _ Hid) as (q & Hq & _).
  destruct (queue_remove_run _ _ _ _ Hid Hq) as (s' & E & Eqd & _).
  pose proof (queue_remove_inv (Z.of_nat k) _ (mi_lib _ Hi)) as Hl'.
  unfold on_lib. cbn [xp xp_sys set eta xst_eta]. rewrite E in *. cbn [snd] in Hl'.
  eexists. split; [reflexivity|]. set (x' := set_qdata _ _ _).
  assert (used (xp_sys (xp x')) d = false) as Hu1.
  { unfold used. cbn [x' set_qdata xp xp_sys set eta xst_eta xpdev_eta]. rewrite Eqd, get_descq_cnt, get_set_same by eauto. done. }
  assert (∀ d', d' ≠ d → used (xp_sys (xp x')) d' = used (xp_sys (xp x)) d') as Hoth.
  { intros d' Hd'. apply used_descq. cbn [x' set_qdata xp xp_sys set eta xst_eta xpdev_eta].
    rewrite Eqd, get_descq_cnt. by apply get_set_other. }
  split.
  2: { split_and!; try done. split; [done|]. split; [exact Hk|]. intros no Hno. change (xos x') with o'. rewrite Hlive. split; [by intros []|]. intros Hin. split; [done|].
    intros ->. apply Hno. cbn. pose proof (mi_cnt _ Hi). unfold QDMA_MINOR_MAX in *. apply MAJOR_MKDEV. lia. }
  apply (update_entry x x' d); try done.
  - cbn. rewrite Eqd, set_cnt_qmax, set_descq_qmax. apply (mi_qmax _ Hi).
  - unfold the_entry. by rewrite Hu1.
  - intros no. rewrite Hu1. apply Hlive.
Qed.

(** A queue not in use, or beyond the table, is not found. *)
Lemma get_unused x qidx (c2h : bool) :
  mod_inv x → 0 <= qidx → used (xp_sys (xp x)) (c2h, Z.to_nat qidx) = false →
  xpdev_queue_get (xp x) qidx c2h true = Some None.
Proof.
  intros Hi H0 Hu. destruct (Z.leb_spec (xp_qmax (xp x)) qidx) as [Hle|Hlt].
  { unfold xpdev_queue_get. by rewrite (proj2 (Z.leb_le _ _)). }
  destruct (get_spec x (c2h, Z.to_nat qidx) Hi) as [_ E]; [unfold in_range; cbn; lia|].
  cbn [fst snd] in E. rewrite Z2Nat.id in E by lia. by rewrite E, Hu.
Qed.

(** Deleting a queue through the module: a queue in use is removed from
    the library, its character device is unregistered and its entry emptied,
    and the invariant holds afterwards; a queue not in use is refused with
    -EINVAL and nothing changes. *)
Theorem xpdev_delete_tracks x d :
  mod_inv x → in_range (xp_qmax (xp x)) d →
  if used (xp_sys (xp x)) d then
    ∃ x', xpdev_queue_delete (Z.of_nat d.2) d.1 x = Some (0, x') ∧ mod_inv x' ∧
      used (xp_sys (xp x')) d = false ∧
      (∀ d', d' ≠ d → used (xp_sys (xp x')) d' = used (xp_sys (xp x)) d') ∧
      beside x x'
  else xpdev_queue_delete (Z.of_nat d.2) d.1 x = Some (- EINVAL, x).
Proof.
  intros Hi Hd. destruct (used (xp_sys (xp x)) d) eqn:Hu.
  - destruct (delete_used x d Hi Hd Hu) as (x' & E & Hi' & Hf & Hoth & _ & Hos). by exists x'.
  - unfold xpdev_queue_delete. by rewrite (proj2 (get_spec x d Hi Hd)), Hu.
Qed.

(** When the character device cannot be made (here: no memory), the queue
    stays added: an unset pointer goes to the table. *)
Theorem xpdev_add_garbage x qconf a l :
  mod_inv x → 0 <= qidx qconf → answers (xos x) = a :: l → a < 0 →
  ∃ rv x', xpdev_queue_add qconf x = Some (rv, x') ∧ rv < 0 ∧
    ((∀ d, used (xp_sys (xp x')) d = used (xp_sys (xp x)) d) ∨
     (rv = - ENOMEM ∧ ∃ d, used (xp_sys (xp x)) d = false ∧ used (xp_sys (xp x')) d = true ∧
       xpdev_queue_delete (Z.of_nat d.2) d.1 x' = None)).
Proof.
  intros Hi H0 Ea Hneg. pose proof (mi_pos _ Hi) as Hpos. unfold xpdev_queue_add, on_lib.
  pose proof (add_outcome (xp_sys (xp x)) qconf (mi_lib _ Hi) H0) as Hadd.
  destruct (qdma_queue_add qconf false (xp_sys (xp x))) as [r s'].
  destruct Hadd as (Hl & Em & [[Hrv Hg]|[d Hd]]).
  { rewrite (proj2 (Z.ltb_lt _ _)) by done. eexists _, _. split; [reflexivity|]. split; [done|]. left.
    intros d. by apply used_descq. }
  destruct Hd as [Erv _ Erange Eh (c & Ec & Ecx & Ecd & _) _ (q & Hq & Hen) (q' & Hq' & Hen') _].
  rewrite (mi_qmax _ Hi) in Erange, Eh. assert (in_range (xp_qmax (xp x)) d) as Hd by done.
  rewrite Erv, Eh, Ec. cbn [from_option id Z.ltb Z.compare]. rewrite Ecx, Ecd.
  assert (xpdev_queue_get (xp (x <| xp ::= λ p, p <| xp_sys := s' |> |>)) (Z.of_nat d.2) d.1 false =
    Some (Some (slot (xp_qmax (xp x)) d))) as -> by apply (get_spec x d Hi Hd).
  cbn [mbind option_bind]. cbn [xp xos cdev_cb set eta xst_eta xpdev_eta].
  unfold qdma_cdev_create, answer, mbind, ST_bind. cbn [fst snd]. rewrite Ea. rewrite (proj2 (Z.ltb_lt _ _)) by done.
  eexists _, _. split; [reflexivity|]. split; [done|]. right. split; [done|]. exists d.
  split; [unfold used; rewrite Hq; exact Hen|]. split; [unfold used; cbn; rewrite Hq'; exact Hen'|].
  pose proof (slot_lt _ _ Hd ltac:(lia)) as Hslot. rewrite <- (mi_len _ Hi) in Hslot.
  unfold xpdev_queue_delete, xpdev_queue_get.
  cbn [set_qdata xp xp_qmax xp_qdata set eta xst_eta xpdev_eta].
  unfold in_range in Hd. rewrite Nat2Z.id, (proj2 (Z.leb_gt _ _)) by lia.
  fold (slot (xp_qmax (xp x)) d). rewrite list_lookup_insert_eq by done. cbn [from_option id qhndl xcdev andb is_null].
  destruct (_ =? 0); cbn [mbind option_bind]; [done|]. by rewrite list_lookup_insert_eq.
Qed.

(** Calls of the library that change no queue's use. *)
Lemma mod_inv_after x s' :
  mod_inv x → after (s_qd (xp_sys (xp x))) (s_qd s') → mod_inv (x <| xp ::= λ p, p <| xp_sys := s' |> |>).
Proof.
  intros Hi [Hl [Em Hs]].
  assert (∀ d, used s' d = used (xp_sys (xp x)) d) as Hu.
  { intros d. unfold used. specialize (Hs d).
    destruct (get_descq (s_qd s') d), (get_descq (s_qd (xp_sys (xp x))) d); cbn in *; congruence. }
  split; cbn; try apply Hi; try done.
  - by rewrite Em, (mi_qmax _ Hi).
  - intros d Hd. rewrite (mi_entry _ Hi) by done. unfold the_entry. cbn. by rewrite Hu.
  - intros no. rewrite (mi_live _ Hi). by setoid_rewrite Hu.
Qed.

End table.

(** The state after a function has been probed. *)
Lemma probe_inv {D} p (s : sys D) major os :
  qdev_inv (s_qd s) → (∀ d, used s d = false) → 2 * qmax (s_qd s) <= QDMA_MINOR_MAX →
  NoDup (live os) → (∀ no, no ∈ live os → MAJOR no ≠ major) →
  mod_inv (Xst ((xpdev_alloc p (qmax (s_qd s)) s) <| cdev_cb := CdevCb major QDMA_MINOR_MAX |>) os).
Proof.
  intros Hi Hu Hm Hn Hl. pose proof (qi_qmax _ Hi). split; cbn; try done.
  - by rewrite length_replicate.
  - intros d Hd. unfold the_entry. cbn. rewrite Hu. apply lookup_replicate. split; [done|].
    apply slot_lt; [done|lia].
  - intros no. split; [by intros [?%Hl ?]|]. intros (d & _ & Hd & _). by rewrite Hu in Hd.
Qed.

(** ** A concrete function: two queues in each direction *)

Module SampleX.
Definition pci : pci_id := PciId 1 0 0.
Definition os : cdev_os := CdevOs true [] [] [240] [].
Definition x0 : xst SimHw.t :=
  Xst ((xpdev_alloc pci 2 init_sys) <| cdev_cb := CdevCb 240 QDMA_MINOR_MAX |>) os.

Lemma inv0 : mod_inv x0.
Proof.
  assert (qdev_inv (s_qd init_sys)) as Hi.
  { apply (device_init_inv 0 0 [] fresh_sys); [split; by vm_compute|]. by vm_compute. }
  change x0 with (Xst ((xpdev_alloc pci (qmax (s_qd init_sys)) init_sys) <| cdev_cb := CdevCb 240 QDMA_MINOR_MAX |>) os).
  apply probe_inv; [done| |by vm_compute|constructor|by intros no ?%elem_of_nil].
  intros [[|] i]; destruct i as [|[|i]]; vm_compute; done.
Qed.

(** An H2C queue has been added. *)
Definition x1 : xst SimHw.t := (default (0, x0) (xpdev_queue_add (SampleSys.conf_new true false) x0)).2.

Lemma inv1 : mod_inv x1.
Proof.
  pose proof (add_outcome (xp_sys (xp x0)) (SampleSys.conf_new true false) (mi_lib _ inv0) ltac:(by vm_compute)) as H.
  destruct (qdma_queue_add (SampleSys.conf_new true false) false (xp_sys (xp x0))) as [r s'] eqn:E.
  destruct H as (Hl & Em & [[Hrv _]|[d Hd]]).
  - assert (add_rv (qdma_queue_add (SampleSys.conf_new true false) false (xp_sys (xp x0))).1 = 0) as H0
      by (by vm_compute). rewrite E in H0. cbn [fst] in H0. lia.
  - destruct (add_entered x0 _ r s' d inv0 ltac:(constructor) E Hd Hl Em) as (x' & E' & Hi & _).
    unfold x1. by rewrite E'.
Qed.
End SampleX.

Lemma xpdev_add_tracks_witness : ∃ rv x',
  xpdev_queue_add (SampleSys.conf_new true false) SampleX.x0 = Some (rv, x') ∧ mod_inv x'.
Proof.
  destruct (xpdev_add_tracks SampleX.x0 (SampleSys.conf_new true false)) as (rv & x' & E & Hi & _).
  - apply SampleX.inv0.
  - by vm_compute.
  - constructor.
  - exists rv, x'. split; [exact E|exact Hi].
Defined.

Lemma xpdev_delete_tracks_witness :
  used (xp_sys (xp SampleX.x1)) (false, 0%nat) = true ∧
  ∃ x', xpdev_queue_delete 0 false SampleX.x1 = Some (0, x') ∧ live (xos SampleX.x1) = [MKDEV 240 0] ∧
    used (xp_sys (xp x')) (false, 0%nat) = false.
Proof.
  assert (used (xp_sys (xp SampleX.x1)) (false, 0%nat) = true) as Hu by (by vm_compute).
  assert (xp_qmax (xp SampleX.x1) = 2) as Hm by (by vm_compute).
  assert (in_range (xp_qmax (xp SampleX.x1)) (false, 0%nat)) as Hd by (rewrite Hm; unfold in_range; cbn; lia).
  split; [exact Hu|].
  pose proof (xpdev_delete_tracks SampleX.x1 (false, 0%nat) SampleX.inv1 Hd) as H.
  rewrite Hu in H. destruct H as (x' & E & _ & Hf & _). exists x'. split; [exact E|]. split; [by vm_compute|exact Hf].
Defined.

Lemma xpdev_add_garbage_witness :
  let x := SampleX.x0 <| xos ::= λ o, o <| answers := [-1] |> |> in
  ∃ rv x', xpdev_queue_add (SampleSys.conf_new true false) x = Some (rv, x') ∧ rv < 0.
Proof.
  destruct (xpdev_add_garbage (SampleX.x0 <| xos ::= λ o, o <| answers := [-1] |> |>)
    (SampleSys.conf_new true false) (-1) []) as (rv & x' & E & Hrv & _).
  - destruct SampleX.inv0. by split.
  - by vm_compute.
  - reflexivity.
  - lia.
  - exists rv, x'. split; [exact E|exact Hrv].
Defined.
