(* ===== verification/Probe.v ===== *)
(** * Probing and removing a function (qdma_mod.c)

    The module's side of the PCI core's calls: a function is probed, opened by
    the library, entered in the module's list and given a region of device
    numbers; removed, all of that is undone.  Also the module's own start and
    end. *)

From stdpp Require Import gmap.
From S2P Require Import Prelude Regs Types Context Sgl Descq RxQueue Thread Resource Intr Queue Api Sriov Msg Mbox.
From S2P Require Import PciDev Cdev Xpdev.
#[local] Open Scope Z_scope.

(** ** State *)

(** An entry of the module's list: the function it is the driver data of, the
    handle ([None]: NULL, then [xp_sys] means nothing), the structure, the PCI
    core's side. *)
Record mdev (D P : Type) := Mdev { md_pdev : Z; md_hndl : option nat; md_xp : xlnx_pci_dev D; md_iov : P }.
Arguments Mdev {D P}.
Arguments md_pdev {D P}.
Arguments md_hndl {D P}.
Arguments md_xp {D P}.
Arguments md_iov {D P}.

(** The library's devices, the module's list and the kernel's character
    devices. *)
Record mst (D P : Type) := Mst { m_lib : xlib; m_devs : list (mdev D P); m_os : cdev_os }.
Arguments Mst {D P}.
Arguments m_lib {D P}.
Arguments m_devs {D P}.
Arguments m_os {D P}.
#[export] Instance mst_eta {D P} : Settable (mst D P) := λ r, Mst (m_lib r) (m_devs r) (m_os r).

(** The module parameters. *)
Record mod_params := ModParams { poll_mode_en : Z; pftch_en_p : Z; ind_intr_mode : Z }.

Definition QDMA_MM_ENGINE_MAX : Z := 1.

(** ** Probing *)

Section probe.
Context {D : Type} `{!RegIo D} {P : Type} `{!PciIov P}.
Implicit Types m : mst D P.

(** An action that may fault. *)
Definition MOD (A : Type) : Type := mst D P → option (A * mst D P).
#[export] Instance MOD_ret : MRet MOD := λ A a m, Some (a, m).
#[export] Instance MOD_bind : MBind MOD := λ A B f k m, '(a, m) ← k m; f a m.

Definition on_xlib {A} (k : LIB A) : MOD A := λ m, '(a, l) ← k (m_lib m); Some (a, m <| m_lib := l |>).
Definition on_cdev {A} (k : ST cdev_os A) : MOD A := λ m, let '(a, o) := k (m_os m) in Some (a, m <| m_os := o |>).

(** The configuration [probe_one] asks for; a module parameter goes to a
    [u8]. *)
Definition probe_conf (w : mod_params) : qdma_dev_conf :=
  DevConf (u8 (pftch_en_p w)) (negb (u8 (poll_mode_en w) =? 0)) (negb (u8 (ind_intr_mode w) =? 0))
    QDMA_Q_PER_PF_MAX QDMA_MM_ENGINE_MAX QDMA_MM_ENGINE_MAX 0 0 0.

(** [close_device]; the module's structure is freed, it has no other state. *)
Definition probe_close (p : Z) (hndl : option nat) (d : dstate) (rv : Z) : MOD Z :=
  _ ← on_xlib (qdma_device_close p hndl d); mret rv.

(** After the device has been opened.  [alloc]: the answer of [kzalloc] or
    [vmalloc] in [xpdev_alloc]; [major]: the number [alloc_chrdev_region]
    gives. *)
Definition probe_attach (p : Z) (id : pci_id) (alloc : bool) (major : Z) (conf : qdma_dev_conf)
    (hndl : option nat) (d : dstate) : MOD Z :=
  if negb alloc then probe_close p hndl d (- EINVAL) else
  let x := xpdev_alloc id (qsets_max conf) d.1 in
  '(rv, cb) ← on_cdev (qdma_cdev_device_init major (cdev_cb x));
  if rv <? 0 then probe_close p hndl d rv else
  let x := x <| xp_idx := dev_idx conf |> <| cdev_cb := cb |> in
  λ m, Some (0, m <| m_devs ::= λ l, l ++ [Mdev p hndl x d.2] |>).

(** [conf] is updated by [qdma_device_open]. *)
Definition probe_one (w : mod_params) (p : Z) (id : pci_id) (a : open_answers) (alloc : bool) (major : Z)
    (env : sys D) (iov : P) : MOD Z :=
  let conf := probe_conf w in
  '(rv, h) ← on_xlib (qdma_device_open p conf 0 a env iov);
  if rv <? 0 then mret rv else
  match h with
  | Some (hndl, d) => probe_attach p id alloc major (dev_conf (s_xd d.1)) (Some hndl) d
  | None => probe_attach p id alloc major conf None (env, iov)
  end.

(** ** Removing *)

(** [dev_get_drvdata]. *)
Definition find_mdev (p : Z) (m : mst D P) : option (nat * mdev D P) := list_find (λ d, md_pdev d = p) (m_devs m).

Definition remove_one (p : Z) : MOD unit := λ m,
  match find_mdev p m with
  | None => Some (tt, m)
  | Some (i, d) =>
      x ← xpdev_device_cleanup (Xst (md_xp d) (m_os m));
      '(_, l) ← qdma_device_close p (md_hndl d) (xp_sys (xp x), md_iov d) (m_lib m);
      Some (tt, Mst l (delete i (m_devs m)) (xos x))
  end.

(** [mem] as for [xdev_sriov_enable]. *)
Definition sriov_config (p num_vfs : Z) (mem : option (list qdma_vf_info)) : MOD Z := λ m,
  match find_mdev p m with
  | None => Some (- EINVAL, m)
  | Some (i, d) =>
      match md_hndl d with
      | None => Some (- EINVAL, m)
      | Some h =>
          let '(rv, (x, iov)) := qdma_device_sriov_config (xdev_check_hndl p h (m_lib m)) (clamp_vfs num_vfs) mem
                                   (s_xd (xp_sys (md_xp d)), md_iov d) in
          let d := Mdev (md_pdev d) (md_hndl d)
                     ((md_xp d) <| xp_sys ::= λ s, s <| s_is ::= λ i, i <| i_xd := x |> |> |>) iov in
          Some (rv, m <| m_devs ::= <[i := d]> |>)
      end
  end.

End probe.

(** ** The module *)

(** Whether the threads run, the netlink family, the device class and the PCI
    driver are registered. *)
Record mod_st := ModSt { g_threads : bool; g_family : bool; g_class : bool; g_driver : bool }.
#[export] Instance mod_st_eta : Settable mod_st := λ r, ModSt (g_threads r) (g_family r) (g_class r) (g_driver r).

(** [libqdma_init]'s result, [genl_register_family]'s, whether [class_create]
    succeeds, [pci_register_driver]'s result. *)
Definition qdma_mod_init (lib nl : Z) (cls : bool) (drv : Z) : ST mod_st Z :=
  if lib <? 0 then mret lib else
  _ ← st_modify (λ g, g <| g_threads := true |>);
  _ ← st_modify (λ g, if nl =? 0 then g <| g_family := true |> else g);
  if nl <? 0 then mret nl else
  _ ← st_modify (λ g, g <| g_class := cls |>);
  if negb cls then mret (- 1) else
  _ ← st_modify (λ g, if drv =? 0 then g <| g_driver := true |> else g);
  mret drv.

Definition qdma_mod_exit : ST mod_st unit :=
  _ ← st_modify (λ g, g <| g_driver := false |>);
  _ ← st_modify (λ g, g <| g_family := false |>);
  _ ← st_modify (λ g, g <| g_class := false |>);
  st_modify (λ g, g <| g_threads := false |>).

(** ** Lemmas on the character devices *)

Lemma remove_other x l : x ∉ l → Cdev.remove_one x l = l.
Proof.
  intros Hx. unfold Cdev.remove_one. destruct (list_find (λ y, y = x) l) as [[i y]|] eqn:E; [|done].
  apply list_find_Some in E as (E & -> & _). by apply list_elem_of_lookup_2 in E.
Qed.

Lemma remove_any x l : NoDup l → NoDup (Cdev.remove_one x l) ∧ ∀ y, y ∈ Cdev.remove_one x l ↔ y ∈ l ∧ y ≠ x.
Proof.
  intros Hn. destruct (decide (x ∈ l)) as [Hx|Hx]; [by apply remove_one_spec|].
  rewrite remove_other by done. split; [done|]. intros y. split; [|by intros []]. intros Hy. split; [done|by intros ->].
Qed.

(** Emptying a table unregisters its devices and no other. *)
Lemma cleanup_entries_spec l o :
  NoDup (live o) → Forall (λ e, xcdev e ≠ Garbage) l →
  ∃ o', cleanup_entries l o = Some o' ∧ (regions o' = regions o ∧ qdma_class o' = qdma_class o) ∧ NoDup (live o') ∧
    ∀ no, no ∈ live o' ↔ no ∈ live o ∧ Forall (λ e, ∀ c, xcdev e = Dev c → cdevno c ≠ no) l.
Proof.
  revert o. induction l as [|e l IH]; intros o Hn Hg.
  { exists o. split; [done|]. split; [done|]. split; [done|]. intros no. split; [|by intros [? _]].
    intros Hno. by split. }
  apply Forall_cons in Hg as [He Hg]. cbn [cleanup_entries].
  destruct (xcdev e) as [|c|] eqn:Ee; [| |done]; cbn [destroy_ptr mbind option_bind].
  - destruct (IH o Hn Hg) as (o' & -> & Hr & Hn' & Hl). exists o'. split; [done|]. split; [exact Hr|]. split; [done|].
    intros no. rewrite Hl, Forall_cons, Ee. split; [intros [? ?]|intros (? & _ & ?)]; by split_and!.
  - set (o1 := (qdma_cdev_destroy (Some c) o).2).
    assert (live o1 = Cdev.remove_one (cdevno c) (live o) ∧
      (regions o1 = regions o ∧ qdma_class o1 = qdma_class o)) as [E1 [E2 E3]]
      by (unfold o1, qdma_cdev_destroy; by destruct (sys_device c)).
    destruct (remove_any (cdevno c) (live o) Hn) as [Hn1 Hm]. rewrite <- E1 in Hn1, Hm.
    destruct (IH o1 Hn1 Hg) as (o' & -> & Hr & Hn' & Hl). exists o'. split; [done|]. rewrite <- E2, <- E3.
    split; [exact Hr|]. split; [done|]. intros no. rewrite Hl, Hm, Forall_cons, Ee. split.
    + intros [[? Hne] ?]. split; [done|]. split; [|done]. by intros c' [= <-] ?.
    + intros (? & Hc & ?). split; [split; [done|]|done]. intros ->. by apply (Hc c).
Qed.

(** Emptying a function's table unregisters the function's devices and no
    other. *)
Lemma device_cleanup_spec {D} (x : xst D) :
  mod_inv x → ∃ x', xpdev_device_cleanup x = Some x' ∧
    (∀ no, no ∈ live (xos x') ↔ no ∈ live (xos x) ∧ MAJOR no ≠ cdev_major (cdev_cb (xp x))) ∧
    NoDup (live (xos x')) ∧ regions (xos x') = regions (xos x) ∧ beside x x' ∧ xp_sys (xp x') = xp_sys (xp x).
Proof.
  intros Hi. pose proof (qi_qmax _ (mi_lib _ Hi)) as Hpos. rewrite (mi_qmax _ Hi) in Hpos.
  pose proof (mi_cnt _ Hi) as Hcnt. unfold QDMA_MINOR_MAX in Hcnt.
  set (qm := xp_qmax (xp x)) in *. set (major := cdev_major (cdev_cb (xp x))).
  assert (∀ e, e ∈ xp_qdata (xp x) → ∃ d, in_range qm d ∧ e = the_entry x d) as He.
  { intros e (i & Ei)%list_elem_of_lookup. pose proof (lookup_lt_Some _ _ _ Ei) as Hlt. rewrite (mi_len _ Hi) in Hlt.
    destruct (decide (i < Z.to_nat qm)%nat) as [Hb|Hb].
    - exists (false, i). split; [done|]. pose proof (mi_entry _ Hi (false, i) Hb) as E. unfold slot in E. cbn [fst snd] in E.
      rewrite Nat.add_0_r in E. congruence.
    - assert (in_range qm (true, (i - Z.to_nat qm)%nat)) as Hr by (unfold in_range, qm in *; cbn; lia).
      exists (true, (i - Z.to_nat qm)%nat). split; [done|].
      pose proof (mi_entry _ Hi _ Hr) as E. unfold slot in E. cbn [fst snd] in E.
      fold qm in E. replace (i - Z.to_nat qm + Z.to_nat qm)%nat with i in E by lia. congruence. }
  destruct (cleanup_entries_spec (xp_qdata (xp x)) (xos x)) as (o & E & [Hr Hk] & Hn & Hl); [apply (mi_nodup _ Hi)| |].
  { apply Forall_forall. intros e (d & _ & ->)%He. unfold the_entry. by destruct (used _ _). }
  assert (∀ no, no ∈ live o ↔ no ∈ live (xos x) ∧ MAJOR no ≠ major) as Hlive.
  { intros no. rewrite Hl, Forall_forall. split; intros [Hno H]; (split; [done|]).
    - intros Hm. destruct (proj1 (mi_live _ Hi no) (conj Hno Hm)) as (d & Hd & Hu & ->).
      pose proof (mi_entry _ Hi d Hd) as Ed. unfold the_entry in Ed. rewrite Hu in Ed.
      apply list_elem_of_lookup_2 in Ed. by apply (H _ Ed _ eq_refl).
    - intros e (d & Hd & ->)%He c Hc <-. unfold the_entry in Hc. destruct (used _ _); [|done]. injection Hc as <-.
      apply H. cbn [the_cdev cdevno]. pose proof (slot_lt _ _ Hd ltac:(lia)). fold qm. apply MAJOR_MKDEV. lia. }
  unfold xpdev_device_cleanup. rewrite E. cbn [mbind option_bind]. eexists. split; [done|].
  cbn [xos xp xp_sys set eta xst_eta xpdev_eta]. split_and!; try done. split; [done|]. split; [exact Hk|].
  intros no Hno. cbn. rewrite Hlive. by split; [intros []|].
Qed.

(** ** Probing and removing *)

Section probing.
Context {D : Type} `{!RegIo D} {P : Type} `{!PciIov P}.
Implicit Types m : mst D P.

(** A device that has just been opened is closed again: nothing is left. *)
Lemma close_fresh p conf a id (s : sys D) (iov : P) n l l' :
  lib_inv l → lib_inv l' → xdev_list l' = xdev_list l ++ [n] →
  0 < qsets_max conf → opened p conf a (xdev_list l) id n s →
  ∃ d l'', qdma_device_close p (Some id) (s, iov) l' = Some (d, l'') ∧ lib_inv l'' ∧
    xdev_list l'' = xdev_list l ∧ held l'' = held l.
Proof.
  intros Hi Hi' El Hq Ho. assert (fresh_queues (s_qd (sriov_off (s, iov)).1) (qsets_max conf)) as Hf.
  { pose proof (op_queues _ _ _ _ _ _ _ Ho). unfold sriov_off, xdev_sriov_disable. by destruct (pci_disable_sriov _). }
  destruct (cleanup_fresh _ _ Hf) as [s' Hs]. destruct (op_queues _ _ _ _ _ _ _ Ho) as [Em _].
  assert (∀ m : xnode, m ∈ xdev_list l → n_id m ≠ n_id n ∧ n_pdev m ≠ n_pdev n) as Hdiff.
  { pose proof (li_id _ Hi') as H1. pose proof (li_pdev _ Hi') as H2. rewrite El, fmap_app in H1. rewrite El, fmap_app in H2.
    apply NoDup_app in H1 as (_ & H1 & _). apply NoDup_app in H2 as (_ & H2 & _). intros m Hm.
    split; intros E; [apply (H1 (n_id m))|apply (H2 (n_pdev m))]; first [by apply list_elem_of_fmap_2|rewrite E; left]. }
  destruct (close_spec n (s, iov) s' l') as (l'' & E & Hi'' & Exl & Hh); try done.
  - rewrite El. apply elem_of_app. right. by left.
  - symmetry. apply (op_vecs _ _ _ _ _ _ _ Ho).
  - cbn. rewrite Em. lia.
  - rewrite (op_pdev _ _ _ _ _ _ _ Ho), (op_id _ _ _ _ _ _ _ Ho) in E.
    eexists _, l''. split; [exact E|]. split; [done|]. split.
    + rewrite Exl, El, filter_app, filter_cons_False by (by intros []). rewrite filter_nil, app_nil_r.
      apply filter_same. intros m Hm. by apply Hdiff.
    + apply set_eq. intros [q r]. rewrite Hh, (li_held _ Hi), (li_held _ Hi'), El.
      setoid_rewrite elem_of_app. setoid_rewrite list_elem_of_singleton. split.
      * intros [(m & [Hm| ->] & <- & Hr) Hne]; [by exists m|done].
      * intros (m & Hm & <- & Hr). split; [exists m; by split_and!; [left|..]|by apply Hdiff].
Qed.

(** Registering the region of device numbers. *)
Lemma cdev_device_init_spec major o :
  let '(rv, cb, o') := qdma_cdev_device_init major (CdevCb 0 0) o in
  (live o' = live o ∧ qdma_class o' = qdma_class o) ∧ (Forall (λ a, a <= 0) (answers o) → rv <= 0) ∧
  ((rv ≠ 0 ∧ regions o' = regions o) ∨
   (rv = 0 ∧ regions o' = major :: regions o ∧ cb = CdevCb major QDMA_MINOR_MAX)).
Proof.
  unfold qdma_cdev_device_init, mbind, ST_bind, answer, st_modify, mret, ST_ret. cbn [cdev_major set eta cdev_cb_eta].
  cbn [Z.eqb negb]. destruct (answers o) as [|rv l]; cbn; [by split_and!; [..|right]|].
  destruct (Z.eqb_spec rv 0) as [->|E]; cbn; (split; [done|]; split; [by intros [? _]%Forall_cons|]); [by right|by left].
Qed.

Lemma mod_inv_idx (x : xlnx_pci_dev D) os k : mod_inv (Xst x os) → mod_inv (Xst (x <| xp_idx := k |>) os).
Proof. intros []. by split. Qed.

Definition fn_major (d : mdev D P) : Z := cdev_major (cdev_cb (md_xp d)).

(** A function of the module's list: it has a region of device numbers; its
    handle is one of the library's devices, on the same bus function, and its
    table is in step. *)
Definition attached m (d : mdev D P) : Prop :=
  fn_major d ∈ regions (m_os m) ∧
  ∀ id, md_hndl d = Some id → mod_inv (Xst (md_xp d) (m_os m)) ∧
    ∃ n, n ∈ xdev_list (m_lib m) ∧ n_id n = id ∧ n_pdev n = md_pdev d ∧ n_vecs n = num_vecs (s_xd (xp_sys (md_xp d))).

(** The state of the driver, with all its functions. *)
Record mods_inv m : Prop := {
  mo_lib : lib_inv (m_lib m);
  mo_dev : ∀ d, d ∈ m_devs m → attached m d;
  mo_hndl : NoDup (omap md_hndl (m_devs m));
  mo_majors : NoDup (fn_major <$> m_devs m);
  mo_live : ∀ no, no ∈ live (m_os m) → MAJOR no ∈ regions (m_os m);
  mo_nodup : NoDup (live (m_os m)) }.

(** What a function that has been probed looks like: the module's structure
    has the number of its region, an empty table and the library's number. *)
Record probed (w : mod_params) (p : Z) (id : pci_id) (a : open_answers) (major : Z) m m' (d : mdev D P) : Prop := {
  pr_devs : m_devs m' = m_devs m ++ [d];
  pr_pdev : md_pdev d = p ∧ pdev (md_xp d) = id;
  pr_region : regions (m_os m') = major :: regions (m_os m);
  pr_live : live (m_os m') = live (m_os m) ∧ qdma_class (m_os m') = qdma_class (m_os m);
  pr_cb : cdev_cb (md_xp d) = CdevCb major QDMA_MINOR_MAX;
  pr_table : xp_qmax (md_xp d) = QDMA_Q_PER_PF_MAX ∧
    xp_qdata (md_xp d) = replicate (Z.to_nat (2 * QDMA_Q_PER_PF_MAX)) qdata_zero;
  pr_hndl : match md_hndl d with
    | None => a_alloc a = false ∧ xdev_list (m_lib m') = xdev_list (m_lib m) ∧ held (m_lib m') = held (m_lib m)
    | Some h => (∀ q, used (xp_sys (md_xp d)) q = false) ∧
        ∃ n, xdev_list (m_lib m') = xdev_list (m_lib m) ++ [n] ∧
          opened p (probe_conf w) a (xdev_list (m_lib m)) h n (xp_sys (md_xp d)) ∧ xp_idx (md_xp d) = n_idx n
    end }.

(** Nothing but the answers the kernel has given has changed. *)
Definition as_before m m' : Prop :=
  m_devs m' = m_devs m ∧ xdev_list (m_lib m') = xdev_list (m_lib m) ∧ held (m_lib m') = held (m_lib m) ∧
  live (m_os m') = live (m_os m) ∧ qdma_class (m_os m') = qdma_class (m_os m) ∧ regions (m_os m') = regions (m_os m).

(** The table looks at the devices and the class only. *)
Lemma mod_inv_os (x : xlnx_pci_dev D) os os' :
  live os' = live os → qdma_class os' = qdma_class os → mod_inv (Xst x os) → mod_inv (Xst x os').
Proof.
  intros El Ek Hi. split; try apply Hi; cbn [xos]; [|rewrite El; apply (mi_live _ Hi)|rewrite El; apply (mi_nodup _ Hi)].
  intros d Hd. pose proof (mi_entry _ Hi d Hd) as E. unfold the_entry in *. cbn [xp xos] in *. by rewrite Ek.
Qed.

(** What a function needs of the rest of the state. *)
Lemma attached_ext m m' d :
  live (m_os m') = live (m_os m) → qdma_class (m_os m') = qdma_class (m_os m) →
  regions (m_os m) ⊆ regions (m_os m') → xdev_list (m_lib m) ⊆ xdev_list (m_lib m') →
  attached m d → attached m' d.
Proof.
  intros El Ek Hr Hx [Hm H]. split; [by apply Hr|]. intros id E. destruct (H id E) as (Hi & n & Hn & ?).
  split; [by apply (mod_inv_os _ (m_os m))|]. exists n. split; [by apply Hx|done].
Qed.

Lemma mods_before m m' : mods_inv m → lib_inv (m_lib m') → as_before m m' → mods_inv m'.
Proof.
  intros Hm Hi (Ed & Ex & Eh & El & Ek & Er). split; rewrite ?Ed, ?El, ?Er; try apply Hm; [done|].
  intros d Hd. apply (attached_ext m); [done..| | |by apply (mo_dev _ Hm)]; by rewrite ?Er, ?Ex.
Qed.

(** A function that has just been probed joins the others. *)
Lemma mods_probed w p id a major m m' d :
  mods_inv m → major ∉ regions (m_os m) → lib_inv (m_lib m') → probed w p id a major m m' d → mods_inv m'.
Proof.
  intros Hm Hmaj Hi' [Ed [Ep _] Er [El Ek] Ecb [Eq Et] Eh].
  assert (regions (m_os m) ⊆ regions (m_os m')) as Hr by (rewrite Er; intros y; by right).
  assert (xdev_list (m_lib m) ⊆ xdev_list (m_lib m')) as Hx.
  { intros n Hn. destruct (md_hndl d); [|by destruct Eh as (_ & -> & _)].
    destruct Eh as (_ & n' & -> & _). apply elem_of_app. by left. }
  assert (fn_major d = major) as Efn by (unfold fn_major; by rewrite Ecb).
  split; [done|..|].
  - intros d'. rewrite Ed, elem_of_app, list_elem_of_singleton. intros [Hd'| ->].
    { apply (attached_ext m); [done..|]. by apply (mo_dev _ Hm). }
    split; [rewrite Efn, Er; by left|]. intros h Eh'. rewrite Eh' in Eh. destruct Eh as (Hu & n & Exl & Ho & _). split.
    + destruct (op_queues _ _ _ _ _ _ _ Ho) as (Em & Hq & _). cbn [probe_conf qsets_max] in Em.
      destruct (md_xp d) as [x1 x2 x3 x4 x5 x6]. cbn [xp_qmax xp_qdata cdev_cb xp_sys] in *. subst x3 x4 x5.
      pose proof (probe_inv x1 x6 major (m_os m') Hq Hu) as H. rewrite Em, El in H. 
      specialize (H ltac:(done) (mo_nodup _ Hm)). destruct H as []; [|by split].
      intros no Hno E. apply Hmaj. rewrite <- E. by apply (mo_live _ Hm).
    + exists n. rewrite Exl, (op_id _ _ _ _ _ _ _ Ho), (op_pdev _ _ _ _ _ _ _ Ho), (op_vecs _ _ _ _ _ _ _ Ho), Ep.
      split; [|done]. apply elem_of_app. right. by left.
  - rewrite Ed, omap_app. cbn [omap list_omap]. destruct (md_hndl d) as [h|] eqn:E; [|rewrite app_nil_r; apply (mo_hndl _ Hm)].
    destruct Eh as (_ & n & Exl & Ho & _). apply NoDup_app. split_and!; [apply (mo_hndl _ Hm)| |apply NoDup_singleton].
    intros h' (d' & Hd' & E')%list_elem_of_omap ->%list_elem_of_singleton.
    destruct (proj2 (mo_dev _ Hm d' Hd') _ E') as (_ & n' & Hn' & En' & _).
    pose proof (li_id _ Hi') as Hid. rewrite Exl, fmap_app in Hid. apply NoDup_app in Hid as (_ & Hid & _).
    apply (Hid h); [rewrite <- En'; by apply list_elem_of_fmap_2|].
    rewrite <- (op_id _ _ _ _ _ _ _ Ho). by left.
  - rewrite Ed, fmap_app. apply NoDup_app. split_and!; [apply (mo_majors _ Hm)| |apply NoDup_singleton].
    intros k (d' & -> & Hd')%list_elem_of_fmap E. apply list_elem_of_singleton in E. apply Hmaj.
    rewrite <- Efn, <- E. apply (mo_dev _ Hm d' Hd').
  - intros no. rewrite El. intros Hno. by apply Hr, (mo_live _ Hm).
  - rewrite El. apply (mo_nodup _ Hm).
Qed.

Lemma on_xlib_eq {A} (k : LIB A) (f : A → MOD (D := D) (P := P) Z) r l m :
  k (m_lib m) = Some (r, l) → (on_xlib k ≫= f) m = f r (m <| m_lib := l |>).
Proof. intros E. unfold on_xlib, mbind, MOD_bind. by rewrite E. Qed.

(** The end of a probe: the function is attached, or it is closed. *)
Lemma attach_outcome p id alloc major conf hndl (d : dstate) m d' l' :
  qdma_device_close (D := D) (P := P) p hndl d (m_lib m) = Some (d', l') → Forall (λ r, r <= 0) (answers (m_os m)) →
  ∃ rv m', probe_attach p id alloc major conf hndl d m = Some (rv, m') ∧
    (live (m_os m') = live (m_os m) ∧ qdma_class (m_os m') = qdma_class (m_os m)) ∧
    ((rv < 0 ∧ m_lib m' = l' ∧ m_devs m' = m_devs m ∧ regions (m_os m') = regions (m_os m)) ∨
     (rv = 0 ∧ m_lib m' = m_lib m ∧ regions (m_os m') = major :: regions (m_os m) ∧
      m_devs m' = m_devs m ++ [Mdev p hndl ((xpdev_alloc id (qsets_max conf) d.1) <| xp_idx := dev_idx conf |>
        <| cdev_cb := CdevCb major QDMA_MINOR_MAX |>) d.2])).
Proof.
  intros E Ha. assert (∀ rv os, probe_close p hndl d rv (m <| m_os := os |>) = Some (rv, Mst l' (m_devs m) os)) as Hc.
  { intros rv os. unfold probe_close. by rewrite (on_xlib_eq _ _ (d') l'). }
  unfold probe_attach. destruct alloc; cbn [negb].
  2: { specialize (Hc (- EINVAL) (m_os m)). replace (m <| m_os := m_os m |>) with m in Hc by (by destruct m).
    eexists _, _. split; [exact Hc|]. split; [done|]. by left. }
  pose proof (cdev_device_init_spec major (m_os m)) as Hd. unfold on_cdev, mbind, MOD_bind.
  cbn [cdev_cb xpdev_alloc]. destruct (qdma_cdev_device_init _ _ _) as [[rv cb] os].
  destruct Hd as (El & Hle & Hd). specialize (Hle Ha). cbn [mbind option_bind].
  destruct (Z.ltb_spec rv 0) as [Hlt|Hge].
  - rewrite Hc. eexists _, _. split; [done|]. split; [exact El|]. left. destruct Hd as [[_ Er]|[? _]]; [done|lia].
  - assert (rv = 0) as -> by lia. destruct Hd as [[? _]|(_ & Er & ->)]; [lia|].
    eexists _, _. split; [done|]. split; [exact El|]. by right.
Qed.

(** C18: probing a function either leaves it attached or nothing at all,
    whatever other functions there are: when the call fails - the device
    cannot be opened, the module's structure cannot be allocated, or there is
    no region of device numbers - the function is not in the module's list,
    the library's list and every resource are as before and no device number
    is kept; otherwise the function is the module's last, with the region that
    has been allocated for it as the region of its character devices, the
    number of the device the library has opened for it, and an empty table.
    Either way the invariant of the driver holds afterwards: every function's
    table is in step with the library and with the kernel's devices.  The
    kernel's calls give 0 or an error, and the region is one that is not
    taken.  A library that could not allocate its structure is not noticed:
    the function is attached to the NULL handle. *)
Theorem probe_balanced (w : mod_params) p id a alloc major (env : sys D) (iov : P) m :
  mods_inv m → major ∉ regions (m_os m) →
  a_regions a <= 0 → a_enable a <= 0 → Forall (λ r, r <= 0) (answers (m_os m)) →
  ∃ rv m', probe_one w p id a alloc major env iov m = Some (rv, m') ∧ mods_inv m' ∧
    ((rv < 0 ∧ as_before m m') ∨ (rv = 0 ∧ ∃ d, probed w p id a major m m' d)).
Proof.
  intros Hm Hmaj Hr He Ha. pose proof (mo_lib _ Hm) as Hi.
  assert (∃ rv m', probe_one w p id a alloc major env iov m = Some (rv, m') ∧ lib_inv (m_lib m') ∧
    ((rv < 0 ∧ as_before m m') ∨ (rv = 0 ∧ ∃ d, probed w p id a major m m' d))) as (rv & m' & E & Hi' & H).
  2: { exists rv, m'. split; [done|]. split; [|done].
    destruct H as [[_ H]|(_ & d & H)]; [by apply (mods_before m)|by apply (mods_probed w p id a major m m' d)]. }
  unfold probe_one.
  destruct (open_spec p (probe_conf w) 0 a env iov (m_lib m) Hi) as (rv & h & l' & E & Hi' & H); [done|].
  rewrite (on_xlib_eq _ _ _ _ _ E). cbn beta iota. set (m1 := m <| m_lib := l' |>).
  destruct h as [[i [s iov']]|]; cbn beta iota.
  - destruct H as (-> & n & El & Ho). cbn [Z.ltb Z.compare].
    destruct (close_fresh p (probe_conf w) a i s iov' n (m_lib m) l' Hi Hi' El) as (d & l2 & Ec & Hi2 & Ex & Eh); [done..|].
    cbn [fst].
    destruct (attach_outcome p id alloc major (dev_conf (s_xd s)) (Some i) (s, iov') m1 _ _ Ec Ha)
      as (rv & m' & -> & [Elv Ek] & [(Hrv & El' & Ed & Er)|(-> & El' & Er & Ed)]); eexists _, _; (split; [done|]); rewrite El'.
    + split; [done|]. left. split; [done|].
      split_and!; [exact Ed|by rewrite El'|by rewrite El'|exact Elv|exact Ek|exact Er].
    + split; [done|]. right. split; [done|]. pose proof (op_queues _ _ _ _ _ _ _ Ho) as (Em & Hq & Hu).
      pose proof (op_qsets _ _ _ _ _ _ _ Ho) as Eq. cbn [probe_conf qsets_max] in Eq.
      eexists. split; [exact Ed|done|exact Er|by split|done| |]; cbn [md_hndl md_xp fst].
      { unfold xpdev_alloc. cbn [xp_qmax xp_qdata set eta xpdev_eta]. by rewrite Eq. }
      split.
      * intros q. unfold used. cbn. destruct (get_descq _ _) eqn:Eg; [|done]. cbn. by eapply Hu.
      * exists n. split_and!; [by rewrite El'|exact Ho|].
        destruct (op_idx _ _ _ _ _ _ _ Ho) as [-> E2]. exact E2.
  - destruct H as (El & Eh & Hz & Hle). specialize (Hle Hr He). destruct (Z.ltb_spec rv 0) as [Hlt|Hge].
    { exists rv, m1. split; [done|]. split; [done|]. left. split; [done|]. by split_and!. }
    assert (rv = 0) as -> by lia.
    destruct (attach_outcome p id alloc major (probe_conf w) None (env, iov) m1 (env, iov) l' ltac:(done) Ha)
      as (rv & m' & -> & [Elv Ek] & [(Hrv & El' & Ed & Er)|(-> & El' & Er & Ed)]); eexists _, _; (split; [done|]); rewrite El'.
    + split; [done|]. left. split; [done|].
      split_and!; [exact Ed|by rewrite El'|by rewrite El'|exact Elv|exact Ek|exact Er].
    + split; [done|]. right. split; [done|]. eexists. split; [exact Ed|done|exact Er|by split|done|done|].
      cbn [md_hndl]. rewrite El'. split_and!; [by apply Hz|done..].
Qed.

Lemma omap_sublist {A B} (f : A → option B) l k : l `sublist_of` k → omap f l `sublist_of` omap f k.
Proof.
  induction 1; cbn; [constructor|..]; destruct (f x); [by apply sublist_skip|done|by apply sublist_cons|done].
Qed.

(** The other functions' handles. *)
Lemma other_handle m i d d' :
  mods_inv m → m_devs m !! i = Some d → is_Some (md_hndl d) → d' ∈ delete i (m_devs m) → md_hndl d' ≠ md_hndl d.
Proof.
  intros Hm Ei [h Eh] Hd' E. pose proof (mo_hndl _ Hm) as Hn. rewrite <- (take_drop_middle _ _ _ Ei), omap_app in Hn.
  cbn [omap list_omap] in Hn. rewrite Eh in Hn. apply NoDup_app in Hn as (_ & H1 & [H2 _]%NoDup_cons).
  rewrite Eh in E. rewrite delete_take_drop in Hd'. apply elem_of_app in Hd' as [Hin|Hin].
  - apply (H1 h); [|by left]. apply list_elem_of_omap. by exists d'.
  - apply H2, list_elem_of_omap. by exists d'.
Qed.

Lemma other_major m i d d' :
  mods_inv m → m_devs m !! i = Some d → d' ∈ delete i (m_devs m) → fn_major d' ≠ fn_major d.
Proof.
  intros Hm Ei Hd' E. pose proof (mo_majors _ Hm) as Hn. rewrite <- (take_drop_middle _ _ _ Ei), fmap_app in Hn.
  apply NoDup_app in Hn as (_ & H1 & [H2 _]%NoDup_cons). rewrite delete_take_drop in Hd'.
  apply elem_of_app in Hd' as [Hin|Hin]; apply (list_elem_of_fmap_2 fn_major) in Hin; rewrite E in Hin.
  - apply (H1 (fn_major d)); [done|by left].
  - by apply H2.
Qed.

(** C27: removing a function that is attached.  The queues that are still in
    use are stopped first, with whatever the library does then
    ([qdma_device_cleanup]); when it follows a NULL pointer there - with
    interrupts, where it stops a queue that has been stopped already - so does
    the removal.  Otherwise the function's character devices are unregistered
    and no other function's, the device is closed with all it holds and taken
    off both lists, and the invariant of the driver holds for the functions
    that are left.  Only the region of device numbers stays, which nothing
    gives back. *)
Theorem remove_detaches m p i d h :
  mods_inv m → find_mdev p m = Some (i, d) → md_hndl d = Some h →
  match qdma_device_cleanup (sriov_off (xp_sys (md_xp d), md_iov d)).1 with
  | None => Probe.remove_one p m = None
  | Some _ => ∃ m', Probe.remove_one p m = Some (tt, m') ∧ mods_inv m' ∧ m_devs m' = delete i (m_devs m) ∧
      (∀ no, no ∈ live (m_os m') ↔ no ∈ live (m_os m) ∧ MAJOR no ≠ fn_major d) ∧
      regions (m_os m') = regions (m_os m) ∧
      xdev_list (m_lib m') = filter (λ k, n_id k ≠ h) (xdev_list (m_lib m)) ∧
      ∀ q r, (q, r) ∈ held (m_lib m') ↔ (q, r) ∈ held (m_lib m) ∧ q ≠ p
  end.
Proof.
  intros Hm Ef Eh. unfold remove_one. rewrite Ef, Eh.
  apply list_find_Some in Ef as (Ei & <- & _). pose proof (list_elem_of_lookup_2 _ _ _ Ei) as Hd.
  destruct (mo_dev _ Hm d Hd) as [_ Ha]. destruct (Ha h Eh) as (Hmi & n & Hn & <- & En & Ev).
  destruct (device_cleanup_spec _ Hmi) as (y & -> & Hl & Hnd & Hr & Hb & Es).
  cbn [mbind option_bind xp xos] in *. rewrite Es, <- En.
  pose proof (qi_qmax _ (mi_lib _ Hmi)) as Hq. cbn [xp] in Hq.
  destruct (qdma_device_cleanup _) as [s'|] eqn:Hs.
  2: { unfold qdma_device_close, xdev_check_hndl. rewrite (find_pdev_some _ n (mo_lib _ Hm) Hn).
    rewrite bool_decide_eq_true_2 by done. cbn [negb Z.ltb Z.compare].
    unfold device_cleanup, mbind, LIB_bind. 
    assert (qmax (s_qd (sriov_off (xp_sys (md_xp d), md_iov d)).1) = qmax (s_qd (xp_sys (md_xp d)))) as Eq
      by (unfold sriov_off, xdev_sriov_disable; by destruct (pci_disable_sriov _)).
    rewrite Eq, (proj2 (Z.eqb_neq _ _)) by lia. by rewrite Hs. }
  destruct (close_spec n (xp_sys (md_xp d), md_iov d) s' (m_lib m) (mo_lib _ Hm) Hn) as (l' & -> & Hi' & El & Hh);
    [by rewrite Ev|cbn; lia|exact Hs|].
  cbn [mbind option_bind]. eexists. split; [done|]. cbn [m_devs m_os m_lib].
  split; [|by split_and!]. split; cbn [m_devs m_os m_lib]; [done| | | | |exact Hnd].
  - intros d' Hd'. assert (d' ∈ m_devs m) as Hin by (eapply sublist_subseteq; [apply (sublist_delete _ i)|exact Hd']).
    destruct (mo_dev _ Hm d' Hin) as [Hr' Ha']. split; cbn [m_os m_lib]; [by rewrite Hr|].
    intros h' Eh'. destruct (Ha' h' Eh') as (Hmi' & n' & Hn' & En' & ?). split.
    + apply (mod_inv_beside (Xst (md_xp d) (m_os m))); [done..| |done]. by apply (other_major m i).
    + exists n'. split; [|done]. rewrite El. apply list_elem_of_filter. split; [|done]. intros E.
      apply (other_handle m i d d' Hm Ei); [by rewrite Eh|done|]. by rewrite Eh, Eh', <- En', E.
  - eapply sublist_NoDup; [apply (mo_hndl _ Hm)|]. apply omap_sublist, sublist_delete.
  - eapply sublist_NoDup; [apply (mo_majors _ Hm)|]. apply fmap_sublist, sublist_delete.
  - intros no. rewrite Hl, Hr. intros [Hno _]. by apply (mo_live _ Hm).
Qed.

End probing.

(** ** One function with a queue, and a second one *)

Module SampleProbe.
Import SamplePci.
Definition params : mod_params := ModParams 1 0 0.

(** A function with a queue added, as the module sees it. *)
Definition x : xst SimHw.t := SampleX.x1 <| xp ::= λ p,
  p <| xp_sys := on_xd (λ x, x <| num_vecs := 2 |>) (xp_sys (xp SampleX.x1)) |> |>.
Definition d1 : mdev SimHw.t nat := Mdev 8 (Some 0%nat) (xp x) 0%nat.
Definition m1 : mst SimHw.t nat := Mst l1 [d1] (xos x).

Lemma attached_inv : mod_inv (Xst (xp x) (xos x)).
Proof.
  assert (∀ y : xst SimHw.t, mod_inv y → mod_inv (Xst (xp y) (xos y))) as H by (by intros []).
  apply H.
  unfold x. generalize SampleX.x1, SampleX.inv1. intros y Hy. apply mod_inv_after; [exact Hy|].
  apply after_refl, (mi_lib _ Hy).
Qed.

Lemma m1_inv : mods_inv m1.
Proof.
  assert (fn_major d1 = 240 ∧ regions (xos x) = [240] ∧ live (xos x) = [MKDEV 240 0] ∧
    num_vecs (s_xd (xp_sys (xp x))) = n_vecs n1) as (Em & Er & El & Ev) by (by vm_compute).
  split; cbn [m1 m_lib m_devs m_os].
  - exact pci_inv1.
  - intros d ->%list_elem_of_singleton. split; [cbn [m1 m_os]; rewrite Em, Er; by left|]. intros id [= <-].
    split; [exact attached_inv|]. exists n1. split; [by left|]. by split_and!.
  - apply NoDup_singleton.
  - apply NoDup_singleton.
  - rewrite El, Er. intros no ->%list_elem_of_singleton. apply list_elem_of_singleton. by vm_compute.
  - rewrite El. apply NoDup_singleton.
Qed.

Lemma found : find_mdev 8 m1 = Some (0%nat, d1).
Proof. unfold find_mdev, m1. cbn [m_devs list_find]. by rewrite decide_True. Qed.

(** The second function is probed. *)
Notation probed_at := (probe_one params 9 (PciId 2 0 0) ans true 241 fresh_sys 0%nat m1).

Lemma probed_ok : fst <$> probed_at = Some 0.
Proof. by vm_compute. Qed.

Lemma attached_cleanup : is_Some (qdma_device_cleanup (sriov_off (xp_sys (md_xp d1), md_iov d1)).1).
Proof. apply (bool_decide_eq_true_1 _). by vm_compute. Qed.
End SampleProbe.

Lemma probe_balanced_witness : ∃ m' d,
  SampleProbe.probed_at = Some (0, m') ∧ mods_inv m' ∧ m_devs m' = [SampleProbe.d1; d] ∧
  regions (m_os m') = [241; 240] ∧ live (m_os m') = [MKDEV 240 0] ∧ cdev_cb (md_xp d) = CdevCb 241 QDMA_MINOR_MAX.
Proof.
  assert (regions (m_os SampleProbe.m1) = [240] ∧ live (m_os SampleProbe.m1) = [MKDEV 240 0] ∧
    answers (m_os SampleProbe.m1) = []) as (Er & El & Ea) by (by vm_compute).
  destruct (probe_balanced SampleProbe.params 9 (PciId 2 0 0) SamplePci.ans true 241 fresh_sys 0%nat SampleProbe.m1)
    as (rv & m' & E & Hi & H); [exact SampleProbe.m1_inv| |done|done|rewrite Ea; constructor|].
  { rewrite Er. by intros ?%list_elem_of_singleton. }
  pose proof SampleProbe.probed_ok as Hs. rewrite E in Hs. cbn [fmap option_fmap option_map fst] in Hs.
  injection Hs as ->. destruct H as [[? _]|(_ & d & Hd)]; [lia|]. exists m', d.
  destruct Hd as [Ed _ Er' [El' _] Ecb _ _]. rewrite Er in Er'. rewrite El in El'. by split_and!.
Defined.

Lemma remove_detaches_witness : ∃ m',
  Probe.remove_one 8 SampleProbe.m1 = Some (tt, m') ∧ live (m_os SampleProbe.m1) = [MKDEV 240 0] ∧
  mods_inv m' ∧ live (m_os m') = [] ∧ m_devs m' = [].
Proof.
  assert (live (m_os SampleProbe.m1) = [MKDEV 240 0] ∧ fn_major SampleProbe.d1 = 240) as [El Em] by (by vm_compute).
  pose proof (remove_detaches SampleProbe.m1 8 0%nat SampleProbe.d1 0%nat) as H.
  specialize (H SampleProbe.m1_inv). specialize (H SampleProbe.found). specialize (H eq_refl).
  destruct SampleProbe.attached_cleanup as [s Hs].
  rewrite Hs in H.
  destruct H as (m' & E & Hi & Hd & Hl & _). exists m'.
  split; [exact E|]. split; [exact El|]. split; [exact Hi|]. split; [|exact Hd].
  apply elem_of_nil_inv. intros no [Hno Hm]%Hl. rewrite El in Hno. rewrite Em in Hm.
  apply list_elem_of_singleton in Hno as ->. apply Hm. vm_compute. reflexivity.
Defined.

(** Where the module's start fails, what it has registered stays. *)
Lemma mod_init_leaves lib nl (cls : bool) drv g :
  0 <= lib → (qdma_mod_init lib nl cls drv g).1 < 0 →
  let g' := (qdma_mod_init lib nl cls drv g).2 in
  g_threads g' = true ∧ (nl = 0 → g_family g' = true) ∧ (nl = 0 → cls = true → g_class g' = true).
Proof.
  intros Hl. unfold qdma_mod_init, mbind, ST_bind, st_modify, mret, ST_ret. rewrite (proj2 (Z.ltb_ge _ _)) by done.
  cbn. destruct (Z.eqb_spec nl 0), (Z.ltb_spec nl 0), cls; try lia; cbn; try destruct (drv =? 0); cbn; naive_solver.
Qed.
