(* ===== verification/Recover.v ===== *)
(** * PCI errors (qdma_mod.c)

    The handlers the PCI core calls when a function reports an error, before
    and after it resets the function. *)

From stdpp Require Import gmap.
From S2P Require Import Prelude Regs Types Context Sgl Descq RxQueue Thread Resource Intr Queue Api Sriov Msg Mbox.
From S2P Require Import PciDev Cdev Xpdev Probe.
#[local] Open Scope Z_scope.

Inductive pci_channel_state_t := pci_channel_io_normal | pci_channel_io_frozen | pci_channel_io_perm_failure.
Inductive pci_ers_result_t :=
  | PCI_ERS_RESULT_CAN_RECOVER | PCI_ERS_RESULT_NEED_RESET | PCI_ERS_RESULT_DISCONNECT | PCI_ERS_RESULT_RECOVERED.

Section recover.
Context {D : Type} `{!RegIo D} {P : Type} `{!PciIov P}.
Implicit Types m : mst D P.

Definition qdma_error_detected (p : Z) (state : pci_channel_state_t) : MOD (D := D) (P := P) pci_ers_result_t :=
  match state with
  | pci_channel_io_normal => mret PCI_ERS_RESULT_CAN_RECOVER
  | pci_channel_io_frozen => _ ← on_xlib (release p Enabled); mret PCI_ERS_RESULT_NEED_RESET
  | pci_channel_io_perm_failure => mret PCI_ERS_RESULT_DISCONNECT
  end.

(** [enable]: the answer of [pci_enable_device_mem]. *)
Definition qdma_slot_reset (p enable : Z) : MOD (D := D) (P := P) pci_ers_result_t := λ m,
  match find_mdev p m with
  | None => Some (PCI_ERS_RESULT_DISCONNECT, m)
  | Some _ =>
      (if negb (enable =? 0) then mret PCI_ERS_RESULT_DISCONNECT else
       _ ← on_xlib (acquire p Enabled); mret PCI_ERS_RESULT_RECOVERED) m
  end.

(** It clears the error registers of an attached function. *)
Definition qdma_error_resume (p : Z) : MOD (D := D) (P := P) unit := mret tt.

(** A frozen function and its reset, as the PCI core calls the handlers. *)
Definition frozen_reset (p enable : Z) : MOD (D := D) (P := P) (pci_ers_result_t * pci_ers_result_t) :=
  r ← qdma_error_detected p pci_channel_io_frozen;
  r' ← qdma_slot_reset p enable;
  mret (r, r').

(** ** Lemmas *)

(** Giving back leaves no more than there was. *)
Definition shrinks {A} (k : LIB A) : Prop := ∀ l a l', k l = Some (a, l') → held l' ⊆ held l.

Lemma release_shrinks p r : shrinks (release p r).
Proof.
  intros l a l'. unfold release. case_bool_decide; [|done]. intros [= _ <-]. cbn. set_solver.
Qed.

Lemma release_all_shrinks p rs : shrinks (release_all p rs).
Proof.
  induction rs as [|r rs IH]; intros l a l'; cbn [release_all]; [by intros [= _ <-]|].
  unfold mbind, LIB_bind. destruct (release p r l) as [[u l1]|] eqn:E; [|done]. cbn [mbind option_bind].
  intros H. apply IH in H. apply release_shrinks in E. set_solver.
Qed.

Lemma device_cleanup_shrinks p (s : sys D) : shrinks (device_cleanup p s).
Proof.
  intros l a l'. unfold device_cleanup. destruct (qdma_device_cleanup s) as [s'|]; [|done]. cbn [mbind option_bind].
  destruct (_ =? _); [by intros [= _ <-]|]. unfold intr_teardown.
  destruct (release_all _ _ l) as [[u l1]|] eqn:E; [|done]. cbn [mbind option_bind]. intros [= _ <-].
  by apply release_all_shrinks in E.
Qed.

(** A device that is not enabled cannot be closed. *)
Lemma close_rest_disabled p id bs l : (p, Enabled) ∉ held l → close_rest p id bs l = None.
Proof.
  intros Hn. unfold close_rest, mbind, LIB_bind. cbn [mbind option_bind].
  set (l0 := l <| held ::= _ |>). assert (held l0 ⊆ held l) as H0 by (unfold l0; cbn; set_solver).
  destruct (xdev_unmap_bars p bs l0) as [[u l1]|] eqn:E1; [|done]. cbn [mbind option_bind].
  apply release_all_shrinks in E1. destruct (release p Regions l1) as [[u2 l2]|] eqn:E2; [|done]. cbn [mbind option_bind].
  apply release_shrinks in E2. assert (release p Enabled l2 = None) as -> by (unfold release; by rewrite bool_decide_eq_false_2 by set_solver).
  done.
Qed.

Lemma close_disabled p id (d : dstate (D := D) (P := P)) l :
  xdev_check_hndl p id l = 0 → (p, Enabled) ∉ held l → qdma_device_close p (Some id) d l = None.
Proof.
  intros Hc Hn. unfold qdma_device_close. rewrite Hc. cbn [Z.ltb Z.compare]. unfold mbind, LIB_bind.
  destruct (device_cleanup p (sriov_off d).1 l) as [[s l1]|] eqn:E; [|done]. cbn [mbind option_bind].
  apply device_cleanup_shrinks in E. by rewrite close_rest_disabled by set_solver.
Qed.

(** What a frozen function is left with. *)
Definition frozen (p : Z) (m : mst D P) : mst D P :=
  m <| m_lib ::= λ l, l <| held ::= λ h, h ∖ {[(p, Enabled)]} |> |>.

Lemma detected_frozen p m :
  (p, Enabled) ∈ held (m_lib m) →
  qdma_error_detected p pci_channel_io_frozen m = Some (PCI_ERS_RESULT_NEED_RESET, frozen p m).
Proof.
  intros Hh. unfold qdma_error_detected, on_xlib, mbind, MOD_bind.
  assert (release p Enabled (m_lib m) = Some (tt, m_lib (frozen p m))) as ->
    by (unfold release; by rewrite bool_decide_eq_true_2).
  done.
Qed.

Lemma frozen_reset_eq p enable m x :
  find_mdev p m = Some x → (p, Enabled) ∈ held (m_lib m) →
  frozen_reset p enable m =
  Some (if enable =? 0
        then ((PCI_ERS_RESULT_NEED_RESET, PCI_ERS_RESULT_RECOVERED),
              (frozen p m) <| m_lib ::= λ l, l <| held ::= λ h, {[(p, Enabled)]} ∪ h |> |>)
        else ((PCI_ERS_RESULT_NEED_RESET, PCI_ERS_RESULT_DISCONNECT), frozen p m)).
Proof.
  intros Hf Hh. unfold frozen_reset, mbind, MOD_bind. rewrite detected_frozen by done. cbn [mbind option_bind].
  unfold qdma_slot_reset. assert (find_mdev p (frozen p m) = Some x) as -> by exact Hf.
  destruct (enable =? 0); cbn [negb]; unfold on_xlib, acquire, mret, MOD_ret, mbind, MOD_bind; cbn [mbind option_bind];
    reflexivity.
Qed.

(** ** Properties *)

(** A function that was enabled recovers from a reset with everything it had. *)
Theorem reset_recovers p m :
  is_Some (find_mdev p m) → (p, Enabled) ∈ held (m_lib m) →
  frozen_reset p 0 m = Some ((PCI_ERS_RESULT_NEED_RESET, PCI_ERS_RESULT_RECOVERED), m).
Proof.
  intros [x Hf] Hh. rewrite (frozen_reset_eq p 0 m x) by done. cbn [Z.eqb].
  destruct m as [[ns h c] ds os]. do 2 f_equal.
  change (Mst (Xlib ns ({[(p, Enabled)]} ∪ h ∖ {[(p, Enabled)]}) c) ds os = Mst (Xlib ns h c) ds os).
  by rewrite <- union_difference_singleton_L.
Qed.

(** When it cannot be enabled again after the reset, the function stays
    attached, and removing it disables it a second time. *)
Theorem failed_reset_faults p enable i d id m :
  find_mdev p m = Some (i, d) → md_hndl d = Some id → xdev_check_hndl p id (m_lib m) = 0 →
  (p, Enabled) ∈ held (m_lib m) → enable ≠ 0 →
  ∃ m', frozen_reset p enable m = Some ((PCI_ERS_RESULT_NEED_RESET, PCI_ERS_RESULT_DISCONNECT), m') ∧
    find_mdev p m' = Some (i, d) ∧ remove_one p m' = None.
Proof.
  intros Hf Hid Hc Hh He. exists (frozen p m). split_and!; [|exact Hf|].
  - rewrite (frozen_reset_eq p enable m (i, d)) by done. by rewrite (proj2 (Z.eqb_neq _ _)).
  - unfold remove_one. assert (find_mdev p (frozen p m) = Some (i, d)) as -> by exact Hf.
    destruct (xpdev_device_cleanup _) as [x|]; [|done]. cbn [mbind option_bind].
    rewrite Hid, close_disabled; [done|exact Hc|]. unfold frozen. cbn. set_solver.
Qed.

End recover.

Lemma reset_recovers_witness :
  frozen_reset 8 0 SampleProbe.m1 = Some ((PCI_ERS_RESULT_NEED_RESET, PCI_ERS_RESULT_RECOVERED), SampleProbe.m1).
Proof.
  apply reset_recovers; [by eexists|]. apply (bool_decide_eq_true_1 _). vm_compute. reflexivity.
Defined.

Lemma failed_reset_faults_witness : ∃ m',
  frozen_reset 8 (-5) SampleProbe.m1 = Some ((PCI_ERS_RESULT_NEED_RESET, PCI_ERS_RESULT_DISCONNECT), m') ∧
  remove_one 8 m' = None.
Proof.
  destruct (failed_reset_faults 8 (-5) 0 (Mdev 8 (Some 0%nat) (xp SampleProbe.x) 0%nat) 0 SampleProbe.m1)
    as (m' & H1 & _ & H2); [reflexivity|reflexivity|reflexivity| |done|].
  - apply (bool_decide_eq_true_1 _). vm_compute. reflexivity.
  - exists m'. split; [exact H1|exact H2].
Defined.
