(* ===== verification/Dump.v ===== *)
(** * Dumping a queue (qdma_descq.c, libqdma_export.c)

    The dump functions print a queue's state, rings and contexts.  What they
    print is in [Text]; here is what they do besides: the context reads of
    [qdma_queue_dump], the pointers [qdma_descq_dump_desc] follows, and the
    change [qdma_descq_dump_wrb] makes to the writeback ring. *)

From S2P Require Import Prelude Regs Types Context Sgl Descq RxQueue Thread Resource Intr Queue.

(** The turns of a dump loop from [start] to [end_], both [int]s, over a ring of
    [size] entries; [i < size] compares unsigned numbers. *)
Definition dump_count (start end_ size : Z) : Z :=
  if s32 start <? 0 then 0 else Z.max 0 (Z.min (s32 end_) size - s32 start).

(** [None]: a NULL pointer is followed.  The free list, which only a streaming
    C2H queue has, is read whatever the queue. *)
Definition qdma_descq_dump_desc (q : qdma_descq) : option unit :=
  match desc (ring q) with
  | None => Some tt
  | Some _ =>
      fl ← st_rx_fl (rx q);
      e ← fl !! 0%nat;
      _ ← fl_pg e;
      Some tt
  end.

(** Each turn of the loop calls [wrb_next] on the queue. *)
Definition qdma_descq_dump_wrb (start end_ : Z) (q : qdma_descq) : qdma_descq :=
  match desc_wrb (wrb q) with
  | None => q
  | Some _ => Nat.iter (Z.to_nat (dump_count start end_ (rngsz_wrb (wrb q)))) wrb_next q
  end.

Section dump.
Context {D : Type} `{!RegIo D}.

(** The result: negative on an error, 0 standing for the length of the text. *)
Definition qdma_queue_dump (id : Z) : ST (sys D) Z := λ s,
  match qdma_device_get_descq_by_id (s_qd s) id false with
  | None => (- EINVAL, s)
  | Some d =>
      let q := queue_of s d in
      let '((rv, _), s) := on_hw (qdma_descq_context_read (qidx_hw q) (st (conf q)) (c2h (conf q))) s in
      (if rv <? 0 then rv else 0, s)
  end.

Definition qdma_queue_dump_desc (id start end_ : Z) (s : sys D) : option (Z * sys D) :=
  match qdma_device_get_descq_by_id (s_qd s) id true with
  | None => Some (- EINVAL, s)
  | Some d =>
      let q := queue_of s d in
      if negb (inited q) then Some (0, s) else
      _ ← qdma_descq_dump_desc q; Some (0, s)
  end.

Definition qdma_queue_dump_wrb (id start end_ : Z) (s : sys D) : option (Z * sys D) :=
  match qdma_device_get_descq_by_id (s_qd s) id true with
  | None => Some (- EINVAL, s)
  | Some d =>
      let q := queue_of s d in
      if negb (inited q) then Some (0, s)
      else Some (0, (upd_queue d (qdma_descq_dump_wrb start end_) s).2)
  end.

End dump.

(** ** Lemmas *)

Lemma wrb_next_conf q :
  conf (wrb_next q) = conf q ∧ enabled (wrb_next q) = enabled q ∧ inited (wrb_next q) = inited q ∧
  online (wrb_next q) = online q ∧ rngsz_wrb (wrb (wrb_next q)) = rngsz_wrb (wrb q).
Proof. unfold wrb_next. by destruct (_ =? _). Qed.

(** Moving the consumer index [n] entries on. *)
Lemma wrb_next_iter n sz q :
  0 < sz < 2 ^ 16 → rngsz_wrb (wrb q) = sz → 0 <= cidx_wrb (wrb q) < sz →
  desc_wrb_cur (wrb q) = cidx_wrb (wrb q) →
  Nat.iter n wrb_next q = q <| wrb ::= wrb_at ((cidx_wrb (wrb q) + Z.of_nat n) mod sz) |>.
Proof.
  intros Hsz Hr Hc Hcur. induction n as [|n IH].
  - change (Nat.iter 0 wrb_next q) with q. rewrite Z.add_0_r, Z.mod_small by lia. destruct q as [????????????? [????????]].
    unfold wrb_at. cbn in *. by rewrite Hcur.
  - change (Nat.iter (S n) wrb_next q) with (wrb_next (Nat.iter n wrb_next q)). rewrite IH. rewrite (wrb_next_at sz); unfold wrb_at; cbn; try done.
    + rewrite Zplus_mod_idemp_l. replace (cidx_wrb (wrb q) + Z.of_nat n + 1) with (cidx_wrb (wrb q) + Z.of_nat (S n)) by lia.
      by destruct q as [????????????? []].
    + apply Z.mod_pos_bound. lia.
Qed.

(** ** Properties *)

(** Dumping part of a writeback ring consumes it: the queue's consumer
    index moves on by the number of entries printed, and nothing else of the
    queue changes: the packets of those entries are never received. *)
Theorem dump_wrb_consumes start end_ q l sz :
  desc_wrb (wrb q) = Some l → 0 < sz < 2 ^ 16 → rngsz_wrb (wrb q) = sz →
  0 <= cidx_wrb (wrb q) < sz → desc_wrb_cur (wrb q) = cidx_wrb (wrb q) →
  0 <= start <= end_ → end_ <= sz →
  qdma_descq_dump_wrb start end_ q =
  q <| wrb ::= wrb_at ((cidx_wrb (wrb q) + (end_ - start)) mod sz) |>.
Proof.
  intros Hd Hsz Hr Hc Hcur Hs He. unfold qdma_descq_dump_wrb. rewrite Hd.
  assert (∀ v, 0 <= v < 2 ^ 31 → s32 v = v) as Hs32 by (intros v Hv; unfold s32; rewrite Z.mod_small by lia; lia).
  unfold dump_count. rewrite !Hs32 by lia. rewrite (proj2 (Z.ltb_ge _ _)) by lia.
  rewrite Hr, Z.min_l by lia. rewrite Z.max_r by lia.
  rewrite (wrb_next_iter _ sz) by done. by rewrite Z2Nat.id by lia.
Qed.

(** Dumping the descriptors of a queue that has its ring but no free
    list, that is of every started queue but a streaming C2H one, follows a
    NULL pointer. *)
Theorem dump_desc_faults {D} `{!RegIo D} id start end_ (s : sys D) d l :
  qdma_device_get_descq_by_id (s_qd s) id true = Some d →
  inited (queue_of s d) = true → desc (ring (queue_of s d)) = Some l → st_rx_fl (rx (queue_of s d)) = None →
  qdma_queue_dump_desc id start end_ s = None.
Proof.
  intros Hid Hi Hd Hf. unfold qdma_queue_dump_desc, qdma_descq_dump_desc. by rewrite Hid, Hi, Hd, Hf.
Qed.

(** ** Concrete queues *)

Module SampleDump.
(** A writeback ring of four entries, three of them new. *)
Definition rxq : qdma_descq :=
  (Sample.queue true true) <| wrb := WrbRing 4 0 1 DESC_SZ_8B false 8 (Some [[1]; [2]; [3]; [4]]) 1 0 0 |>.

(** A started memory-mapped queue. *)
Definition up : qdma_descq := SampleSys.up <| ring ::= λ r, r <| desc := Some [] |> |>.
Definition sys : Queue.sys SimHw.t :=
  SampleSys.sys_up <| s_qd := set_descq (false, 0%nat) up SampleSys.qd |>.
End SampleDump.

Lemma dump_wrb_consumes_witness :
  cidx_wrb (wrb SampleDump.rxq) = 1 ∧
  qdma_descq_dump_wrb 0 2 SampleDump.rxq = SampleDump.rxq <| wrb ::= wrb_at 3 |>.
Proof.
  split; [reflexivity|].
  rewrite (dump_wrb_consumes 0 2 SampleDump.rxq [[1]; [2]; [3]; [4]] 4);
    [reflexivity|reflexivity|lia|reflexivity|cbn; lia|reflexivity|lia|lia].
Defined.

Lemma dump_desc_faults_witness : qdma_queue_dump_desc 0 0 4 SampleDump.sys = None.
Proof.
  apply (dump_desc_faults 0 0 4 SampleDump.sys (false, 0%nat) []); reflexivity.
Defined.
