(* ===== verification/Text.v ===== *)
(** * The text of lists and dumps (qdma_descq.c, libqdma_export.c, qdma_mod.c,
    xdev.c, thread.c)

    The list and dump functions write into a buffer of the caller with
    [sprintf], which knows no bound.  [Dump] has what they do to the queue;
    here is what they write and how far, and when that is beyond the buffer. *)

From stdpp Require Import strings.
From Stdlib Require Import Ascii.
From S2P Require Import Prelude Regs Types Context Sgl Descq RxQueue Thread Resource Intr Queue.
From S2P Require Import Cstring Xnl PciDev Xpdev Dump.
#[local] Open Scope Z_scope.

(** ** Buffers *)

Definition slen (s : string) : Z := Z.of_nat (String.length s).

(** A buffer that the caller has zeroed: the text in it, whose length is the
    code's [len] (and [strlen(buf)] again after a dump of bytes), and one past
    the last byte written. *)
Record tbuf := TBuf { tx : string; hi : Z }.

Definition len (b : tbuf) : Z := slen (tx b).
Definition blank : tbuf := TBuf "" 0.

(** [len += sprintf(buf + len, ...)]: the text and a NUL. *)
Definition sprintf (s : string) (b : tbuf) : tbuf :=
  TBuf (tx b +:+ s) (Z.max (hi b) (len b + slen s + 1)).

(** [buf[len++] = c] *)
Definition put_char (c : ascii) (b : tbuf) : tbuf :=
  TBuf (tx b +:+ String c "") (Z.max (hi b) (len b + 1)).

(** [buf[len] = '\0'] *)
Definition put_nul (b : tbuf) : tbuf := TBuf (tx b) (Z.max (hi b) (len b + 1)).

Definition nl : ascii := "010".
Definition tab : ascii := "009".
Definition line (s : string) : string := s +:+ String nl "".

(** ** What the kernel prints *)

(** The areas of a queue, and the pointers the dumps print. *)
Inductive area := ADesc | ADescWb | AWrb | AWrbWb.
Inductive kptr :=
  | PNull
  | PArea (is_c2h : bool) (qid_hw : Z) (a : area) (off : Z)
  | PPage (pg : option nat)
  | PData (pg : nat).

(** [%p]; one row of the bytes at a pointer, as [hex_dump_to_buffer] prints them
    in groups of four into so much room; the name of a function. *)
Class KPrint := {
  k_ptr : kptr → string;
  k_hex : kptr → Z → Z → string;
  k_devname : pci_id → string }.

(** The length of a whole row: at most 16 bytes, each group of four as eight
    digits and a space between two groups. *)
Definition hex_row (n : Z) : Z := 9 * (Z.min n 16 / 4) - 1.

(** The documented lengths: [%p] of a 64-bit kernel; a row is cut_at to the room,
    whose last byte is for the NUL; a domain, bus, slot and function. *)
Class KPrintLaws `{!KPrint} : Prop := {
  k_ptr_len p : slen (k_ptr p) = 16;
  k_hex_len p n room : 4 <= n → n mod 4 = 0 → 0 < room →
    slen (k_hex p n room) = Z.min (room - 1) (hex_row n);
  k_devname_len i : slen (k_devname i) <= 16 }.

Section text.
Context `{!KPrint}.

(** The room is an [int] that becomes a [size_t]; without room nothing is
    written. *)
Definition hex_dump (p : kptr) (n buflen : Z) (b : tbuf) : tbuf :=
  let room := u64 (buflen - len b) in
  if room =? 0 then b else sprintf (k_hex p n room) b.

(** ** One queue *)

Definition q_ptr (q : qdma_descq) (a : area) (off : Z) : kptr :=
  PArea (c2h (conf q)) (qidx_hw q) a off.

(** A pointer of the queue that is NULL without its ring. *)
Definition ring_ptr {A} (q : qdma_descq) (o : option A) (a : area) : kptr :=
  match o with Some _ => q_ptr q a 0 | None => PNull end.

Definition descq_dump_state (q : qdma_descq) (b : tbuf) : tbuf :=
  let b := sprintf ("ID 0x" +:+ show_hex (qidx (conf q)) +:+ ",0x" +:+ show_hex (qidx_hw q)
                      +:+ " " +:+ name (conf q) +:+ ": ") b in
  if online q then put_char nl (sprintf "online" b)
  else if inited q then put_char nl (sprintf "up" b)
  else if enabled q then put_char nl (sprintf "cfg'ed" b)
  else sprintf (line "un-initialized") b.

(** [thp ? thp->name : "?"] *)
Definition thp_name (l : list qdma_kthread) (t : option nat) : string :=
  match t with None => "?" | Some i => default "" (th_name <$> l !! i) end.

(** The second line of a dump, and the third for a streaming C2H queue. *)
Definition thp_text (thr : thread_sys) (q : qdma_descq) : string :=
  String tab "thp " +:+ thp_name (wrk_threads thr) (wrkthp q) +:+ ", "
    +:+ thp_name (wb_threads thr) (wbthp q) +:+ ", desc 0x" +:+ k_ptr (ring_ptr q (desc (ring q)) ADesc)
    +:+ "/0x" +:+ show_hex (desc_bus (ring q)) +:+ line (", " +:+ show (rngsz (conf q))).

Definition wrb_text (q : qdma_descq) : string :=
  String tab "wrb desc 0x" +:+ k_ptr (ring_ptr q (desc_wrb (wrb q)) AWrb) +:+ "/0x"
    +:+ show_hex (desc_wrb_bus (wrb q)) +:+ ", " +:+ show (rngsz_wrb (wrb q)) +:+ ", rxq 0x"
    +:+ show_hex (dlen (rx_queue (rx q))).

(** A writeback structure: a label, the pointer, the bytes there. *)
Definition dump_wb (label : string) (p : kptr) (buflen : Z) (b : tbuf) : tbuf :=
  put_char nl (hex_dump p 8 buflen (sprintf (label +:+ k_ptr p +:+ ", ") b)).

(** With a buffer; without one, a line goes to the kernel's log. *)
Definition descq_dump (thr : thread_sys) (q : qdma_descq) (buflen : Z) (detail : bool) (b : tbuf) : tbuf :=
  let b := descq_dump_state q b in
  if negb (enabled q) then put_nul b else
  let b := sprintf (thp_text thr q) b in
  let b := if st (conf q) && c2h (conf q) then sprintf (wrb_text q) b else b in
  if negb detail then put_nul b else
  let b := match desc (ring q) with
           | Some _ => dump_wb (String nl (String tab "WB: 0x")) (q_ptr q ADescWb 0) buflen b
           | None => b
           end in
  let b := match desc_wrb (wrb q) with
           | Some _ => dump_wb (String tab "WRB WB: 0x") (q_ptr q AWrbWb 0) buflen b
           | None => b
           end in
  put_nul b.

(** ** The list of queues

    [buf] is [None] for NULL. *)

Definition list_full (buflen : Z) (buf : option tbuf) : bool :=
  match buf with None => false | Some b => buflen <=? len b end.

Fixpoint list_loop (thr : thread_sys) (buflen : Z) (l : list qdma_descq) (buf : option tbuf) : option tbuf :=
  match l with
  | [] => buf
  | q :: l =>
      let buf := if enabled q then descq_dump thr q buflen false <$> buf else buf in
      if list_full buflen buf then buf else list_loop thr buflen l buf
  end.

Definition list_head (qd : qdma_dev) : string :=
  "H2C Q: " +:+ show (h2c_qcnt qd) +:+ ", C2H Q: " +:+ show (c2h_qcnt qd) +:+ line ".".

(** The buffer afterwards; the result is always 0. *)
Definition qdma_queue_list (qd : qdma_dev) (thr : thread_sys) (buflen : Z) (buf : option tbuf) : option tbuf :=
  let n := Z.to_nat (qmax qd) in
  let put f := if buflen =? 0 then id else fmap f in
  let done buf := put put_nul buf in
  let c2h_queues buf :=
    if c2h_qcnt qd =? 0 then done buf else done (list_loop thr buflen (take n (c2h_descq qd)) buf) in
  let buf := put (sprintf (list_head qd)) buf in
  if h2c_qcnt qd =? 0 then c2h_queues buf else
  let buf := list_loop thr buflen (take n (h2c_descq qd)) buf in
  if list_full buflen buf then done buf else c2h_queues buf.

(** ** The dump of a queue *)

Definition hex8 (v : Z) : string := "0x" +:+ hex_pad 8 v.

(** [0x%08x] of the words [data], the highest first. *)
Fixpoint words (data : list Z) : string :=
  match data with
  | [] => ""
  | w :: l => match l with [] => hex8 w | _ => words l +:+ " " +:+ hex8 w end
  end.

Definition ctxt_text (label : string) (data : list Z) : string :=
  String tab label +:+ line (words data).

(** What [qdma_queue_dump] adds once the contexts are read. *)
Definition dump_ctxts (q : qdma_descq) (ctxt : hw_descq_context) (b : tbuf) : tbuf :=
  let b := sprintf (ctxt_text "SW CTXT:    " (ctxt_sw ctxt)) b in
  let b := sprintf (ctxt_text "HW CTXT:    " (ctxt_hw ctxt)) b in
  let b := sprintf (ctxt_text "CR CTXT:    " (ctxt_cr ctxt)) b in
  let b := if c2h (conf q) && st (conf q)
           then sprintf (ctxt_text "PFTCH CTXT: " (ctxt_prefetch ctxt))
                  (sprintf (ctxt_text "WRB CTXT:   " (ctxt_wrb ctxt)) b)
           else b in
  put_nul b.

(** [rv] and [ctxt] are what reading the contexts gave. *)
Definition queue_dump (thr : thread_sys) (q : qdma_descq) (buflen rv : Z) (ctxt : hw_descq_context)
    (b : tbuf) : tbuf :=
  let b := descq_dump thr q buflen true b in
  if rv <? 0 then sprintf (name (conf q) +:+ " read context failed " +:+ show_int rv +:+ line ".") b
  else dump_ctxts q ctxt b.

(** ** The dumps of the rings *)

(** [fl->pg], [fl->dma_addr] *)
Definition fl_text (e : fl_desc) : string :=
  " fl pg 0x" +:+ k_ptr (PPage (fl_pg e)) +:+ ", 0x" +:+ show_hex (fl_dma_addr e) +:+ line ".".

(** One entry: its index, its address, its bytes. *)
Definition dump_item (i : Z) (p : kptr) (n buflen : Z) (b : tbuf) : tbuf :=
  hex_dump p n buflen (sprintf (show_int i +:+ ": 0x" +:+ k_ptr p +:+ " ") b).

(** A label with a pointer, the bytes there, the end of the line. *)
Definition dump_bytes (label : string) (p : kptr) (n buflen : Z) (b : tbuf) : tbuf :=
  put_char nl (hex_dump p n buflen (sprintf (label +:+ k_ptr p +:+ " ") b)).

(** [fl] walks the free list from its first entry, whatever the first index;
    [None]: it runs past the last one. *)
Fixpoint desc_lines (n : nat) (i : Z) (fl : option (list fl_desc)) (q : qdma_descq) (buflen : Z)
    (b : tbuf) : option tbuf :=
  match n with
  | O => Some b
  | S n =>
      let sz := get_desc_size q in
      let b := dump_item i (q_ptr q ADesc (i * sz)) sz buflen b in
      match fl with
      | None => desc_lines n (i + 1) None q buflen (put_char nl b)
      | Some [] => None
      | Some (e :: fl) => desc_lines n (i + 1) (Some fl) q buflen (sprintf (fl_text e) b)
      end
  end.

(** [None]: a NULL pointer is followed. *)
Definition descq_dump_desc (q : qdma_descq) (start end_ buflen : Z) (b : tbuf) : option tbuf :=
  match desc (ring q) with
  | None => Some b
  | Some _ =>
      b ← desc_lines (Z.to_nat (dump_count start end_ (rngsz (conf q)))) (s32 start) (st_rx_fl (rx q)) q buflen b;
      let b := dump_bytes "WB: 0x" (q_ptr q ADescWb 0) get_desc_wb_size buflen b in
      fl ← st_rx_fl (rx q);
      e ← fl !! 0%nat;
      pg ← fl_pg e;
      Some (dump_bytes "data 0: 0x" (PData pg) 128 buflen b)
  end.

(** The pointer [wrb] stays at the first entry of the range while [wrb_next]
    moves the queue on. *)
Fixpoint wrb_lines (n : nat) (i : Z) (p : kptr) (buflen : Z) (s : qdma_descq * tbuf) : qdma_descq * tbuf :=
  match n with
  | O => s
  | S n =>
      let b := put_char nl (dump_item i p (wrb_entry_len (wrb s.1)) buflen s.2) in
      wrb_lines n (i + 1) p buflen (wrb_next s.1, b)
  end.

Definition descq_dump_wrb (start end_ buflen : Z) (s : qdma_descq * tbuf) : qdma_descq * tbuf :=
  let '(q, b) := s in
  match desc_wrb (wrb q) with
  | None => s
  | Some _ =>
      let p := q_ptr q AWrb (s32 start * wrb_entry_len (wrb q)) in
      let '(q, b) := wrb_lines (Z.to_nat (dump_count start end_ (rngsz_wrb (wrb q)))) (s32 start) p buflen (q, b) in
      (q, dump_bytes "WB: 0x" (q_ptr q AWrbWb 0) 8 buflen b)
  end.

(** [qdma_queue_dump_desc] and [qdma_queue_dump_wrb] of a queue they found. *)
Definition queue_dump_desc (q : qdma_descq) (start end_ buflen : Z) (b : tbuf) : option tbuf :=
  let b := descq_dump_state q b in
  if negb (inited q) then Some b else descq_dump_desc q start end_ buflen b.

Definition queue_dump_wrb (start end_ buflen : Z) (s : qdma_descq * tbuf) : qdma_descq * tbuf :=
  let '(q, b) := s in
  let b := descq_dump_state q b in
  if negb (inited q) then (q, b) else descq_dump_wrb start end_ buflen (q, b).

(** ** Lists of devices and threads *)

(** The loop both lists of devices have. *)
Fixpoint dev_loop {A} (text : A → string) (buflen : Z) (l : list A) (b : tbuf) : tbuf :=
  match l with
  | [] => b
  | x :: l => let b := sprintf (text x) b in if buflen <=? len b then b else dev_loop text buflen l b
  end.

(** With a function, whether [qdma_device_get_config] has a configuration for
    its handle. *)
Definition dev_text {D} (is_vf : bool) (p : bool * xlnx_pci_dev D) : string :=
  let '(conf, p) := p in
  if negb conf then "qdma" +:+ show (xp_idx p) +:+ String tab (line " ERR") else
  (if is_vf then "qdmavf" else "qdma") +:+ show (xp_idx p) +:+ String tab (k_devname (pdev p))
    +:+ String tab "max QP: " +:+ line (show (qsets_max (dev_conf (s_xd (xp_sys p))))).

Definition xpdev_list_dump {D} (is_vf : bool) (buflen : Z) (devs : list (bool * xlnx_pci_dev D)) (b : tbuf) : tbuf :=
  if buflen =? 0 then b else put_nul (dev_loop (dev_text is_vf) buflen devs b).

(** The library's own list; [where] the functions are on the bus. *)
Definition xdev_text (where_ : Z → pci_id) (n : xnode) : string :=
  let i := where_ (n_pdev n) in
  "qdma" +:+ show_int (n_idx n) +:+ String tab (hex_pad 2 (pci_bus i)) +:+ ":" +:+ hex_pad 2 (pci_slot i)
    +:+ "." +:+ line (hex_pad 2 (pci_func i)).

Definition xdev_list_dump (where_ : Z → pci_id) (buflen : Z) (l : list xnode) (b : tbuf) : tbuf :=
  put_nul (dev_loop (xdev_text where_) buflen l b).

Definition qdma_kthread_dump (thp : qdma_kthread) (buflen : Z) (b : tbuf) : tbuf :=
  if buflen =? 0 then b else
  put_nul (sprintf (th_name thp +:+ ", cpu " +:+ show (cpu thp) +:+ ", work " +:+ line (show (work_cnt thp) +:+ ".")) b).

End text.

(** ** Lemmas: lengths *)

Lemma slen_app s t : slen (s +:+ t) = slen s + slen t.
Proof. unfold slen. rewrite append_length. lia. Qed.

Lemma slen_cons c s : slen (String c s) = 1 + slen s.
Proof. unfold slen. cbn [String.length]. lia. Qed.

Lemma slen_nonneg s : 0 <= slen s.
Proof. unfold slen. lia. Qed.

Ltac literal s := lazymatch s with EmptyString => idtac | String _ ?r => literal r end.

(** Compute the lengths of the literals, split the others. *)
Ltac slen_lit :=
  repeat match goal with
         | |- context [slen (String.append _ _)] => rewrite slen_app
         | |- context [slen (String ?c ?s)] =>
             literal s;
             let v := eval vm_compute in (slen (String c s)) in
             lazymatch v with Z0 => idtac | Zpos _ => change (slen (String c s)) with v end
         | |- context [slen EmptyString] => change (slen EmptyString) with 0
         | |- context [slen (String ?c ?s)] => rewrite (slen_cons c s)
         end.

Lemma show_go_grows fuel n s : b2z (negb (fuel =? 0)%nat) + slen s <= slen (show_go fuel n s).
Proof.
  revert n s. induction fuel as [|fuel IH]; intros n s; cbn [show_go Nat.eqb negb b2z]; [lia|].
  destruct (_ =? _); [rewrite slen_cons; lia|]. specialize (IH (n / 10) (String (digit (n mod 10)) s)).
  rewrite slen_cons in IH. destruct fuel; cbn [Nat.eqb negb b2z] in IH; lia.
Qed.

Lemma hex_go_grows fuel n s : b2z (negb (fuel =? 0)%nat) + slen s <= slen (hex_go fuel n s).
Proof.
  revert n s. induction fuel as [|fuel IH]; intros n s; cbn [hex_go Nat.eqb negb b2z]; [lia|].
  destruct (_ =? _); [rewrite slen_cons; lia|]. specialize (IH (n / 16) (String (hex_digit (n mod 16)) s)).
  rewrite slen_cons in IH. destruct fuel; cbn [Nat.eqb negb b2z] in IH; lia.
Qed.

(** A number has a digit, and at most as many as its size needs. *)
Lemma slen_show n : 0 <= n < 2 ^ 32 → 1 <= slen (show n) <= 10.
Proof.
  intros Hn. split; [apply (show_go_grows 10 n "")|].
  unfold slen. pose proof (show_length n 10 ltac:(lia) ltac:(lia)). lia.
Qed.

Lemma slen_hex_pos n : 1 <= slen (show_hex n).
Proof. apply (hex_go_grows 16 n ""). Qed.

Lemma slen_hex k n : 0 <= n < 16 ^ Z.of_nat k → (0 < k)%nat → slen (show_hex n) <= Z.of_nat k.
Proof. intros Hn Hk. unfold slen. pose proof (show_hex_length n k Hn Hk). lia. Qed.

Lemma slen_line s : slen (line s) = slen s + 1.
Proof. unfold line. by rewrite slen_app, slen_cons. Qed.

(** ** Lemmas: buffers *)

Lemma len_sprintf s b : len (sprintf s b) = len b + slen s.
Proof. apply slen_app. Qed.
Lemma len_put_char c b : len (put_char c b) = len b + 1.
Proof. unfold len, put_char. cbn [tx]. by rewrite slen_app, slen_cons. Qed.
Lemma len_put_nul b : len (put_nul b) = len b.
Proof. done. Qed.

Lemma append_cons c s t : String c s +:+ t = String c (s +:+ t).
Proof. done. Qed.
Lemma append_empty_r s : s +:+ "" = s.
Proof. induction s as [|c s IH]; [done|by rewrite append_cons, IH]. Qed.
Lemma append_assoc (s t u : string) : (s +:+ t) +:+ u = s +:+ (t +:+ u).
Proof. induction s as [|c s IH]; [done|by rewrite !append_cons, IH]. Qed.

(** Writes one behind the other are one. *)
Lemma sprintf_sprintf s t b : sprintf t (sprintf s b) = sprintf (s +:+ t) b.
Proof.
  unfold sprintf, len. cbn. rewrite append_assoc, !slen_app. f_equal.
  pose proof (slen_nonneg s). pose proof (slen_nonneg t). lia.
Qed.
Lemma sprintf_put_char c s t b : sprintf t (put_char c (sprintf s b)) = sprintf (s +:+ String c t) b.
Proof.
  unfold sprintf, put_char, len. cbn. rewrite !append_assoc, append_cons, !slen_app, !slen_cons. f_equal.
  pose proof (slen_nonneg s). pose proof (slen_nonneg t). change (slen "") with 0. lia.
Qed.
Lemma put_nul_sprintf s b : put_nul (sprintf s b) = sprintf s b.
Proof. unfold sprintf, put_nul, len. cbn. rewrite slen_app. f_equal. lia. Qed.

Lemma hi_sprintf s b : hi b <= len b + 1 → hi (sprintf s b) = len (sprintf s b) + 1.
Proof. rewrite len_sprintf. unfold sprintf. cbn [hi]. pose proof (slen_nonneg s). lia. Qed.

Lemma sprintf_empty b : hi b = len b + 1 → sprintf "" b = b.
Proof. destruct b as [s h]. unfold sprintf, len. cbn. intros ->. rewrite append_empty_r. change (slen "") with 0. f_equal. lia. Qed.

(** ** Lemmas: the list of queues *)

Fixpoint cat (l : list string) : string := match l with [] => "" | s :: l => s +:+ cat l end.

(** The texts up to the one that fills the room. *)
Fixpoint cut_at (room : Z) (l : list string) : list string :=
  match l with
  | [] => []
  | s :: l => s :: if room <=? slen s then [] else cut_at (room - slen s) l
  end.

Lemma cat_app l k : cat (l ++ k) = cat l +:+ cat k.
Proof. induction l as [|s l IH]; [done|]. cbn. by rewrite IH, append_assoc. Qed.

Lemma cut_all room l : slen (cat l) < room → cut_at room l = l.
Proof.
  revert room. induction l as [|s l IH]; intros room Hl; [done|]. cbn in *. rewrite slen_app in Hl.
  pose proof (slen_nonneg (cat l)). rewrite (proj2 (Z.leb_gt _ _)) by lia. by rewrite IH by lia.
Qed.

Lemma cut_filled room l : 0 < room → room <= slen (cat l) → room <= slen (cat (cut_at room l)).
Proof.
  revert room. induction l as [|s l IH]; intros room Hr Hl; [change (slen (cat [])) with 0 in Hl; lia|].
  cbn in *. rewrite slen_app in *. destruct (Z.leb_spec room (slen s)); [cbn [cat]; slen_lit; lia|].
  specialize (IH (room - slen s)). lia.
Qed.

Lemma cut_bound B room l :
  0 < room → 0 <= B → Forall (λ s, slen s <= B) l → slen (cat (cut_at room l)) < room + B.
Proof.
  intros Hr HB Hl. revert room Hr. induction Hl as [|s l Hs Hl IH]; intros room Hr;
    [change (slen (cat (cut_at room []))) with 0; lia|].
  cbn. rewrite slen_app. destruct (Z.leb_spec room (slen s)); [cbn [cat]; slen_lit; lia|].
  specialize (IH (room - slen s)). lia.
Qed.

Lemma cut_app room l k :
  cut_at room (l ++ k) = if bool_decide (slen (cat l) < room) || bool_decide (l = [])
                      then l ++ cut_at (room - slen (cat l)) k else cut_at room l.
Proof.
  revert room. induction l as [|s l IH]; intros room.
  - rewrite orb_true_r. cbn. by rewrite Z.sub_0_r.
  - rewrite (bool_decide_eq_false_2 (s :: l = [])), orb_false_r by done. cbn. rewrite slen_app.
    pose proof (slen_nonneg (cat l)). destruct (Z.leb_spec room (slen s)).
    + by rewrite bool_decide_eq_false_2 by lia.
    + rewrite IH. destruct l as [|s' l'].
      * rewrite orb_true_r. cbn. rewrite bool_decide_eq_true_2 by (cbn [cat]; slen_lit; lia).
        f_equal. f_equal. cbn [cat]. slen_lit. lia.
      * rewrite (bool_decide_eq_false_2 (s' :: l' = [])), orb_false_r by done.
        set (k' := s' :: l') in *. destruct (Z.lt_ge_cases (slen s + slen (cat k')) room).
        -- rewrite (bool_decide_eq_true_2 (slen (cat k') < _)), (bool_decide_eq_true_2 (slen s + _ < _)) by lia.
           cbn [app]. f_equal. f_equal. f_equal. lia.
        -- by rewrite (bool_decide_eq_false_2 (slen (cat k') < _)), (bool_decide_eq_false_2 (slen s + _ < _)) by lia.
Qed.

Section lists.
Context `{!KPrint, !KPrintLaws}.

(** The entry of a queue in the list. *)
Definition queue_text (thr : thread_sys) (q : qdma_descq) : string :=
  "ID 0x" +:+ show_hex (qidx (conf q)) +:+ ",0x" +:+ show_hex (qidx_hw q) +:+ " " +:+ name (conf q) +:+ ": "
    +:+ (if online q then "online" else if inited q then "up" else "cfg'ed")
    +:+ String nl (thp_text thr q +:+ if st (conf q) && c2h (conf q) then wrb_text q else "").

Definition texts (thr : thread_sys) (l : list qdma_descq) : list string :=
  map (queue_text thr) (filter (λ q, enabled q = true) l).

Lemma descq_dump_text thr q buflen b :
  enabled q = true → descq_dump thr q buflen false b = sprintf (queue_text thr q) b.
Proof.
  intros He. unfold descq_dump, descq_dump_state, queue_text. rewrite He. cbn [negb].
  destruct (online q), (inited q), (st (conf q) && c2h (conf q));
    rewrite ?sprintf_sprintf, ?sprintf_put_char, ?sprintf_sprintf, put_nul_sprintf;
    rewrite ?append_empty_r, ?append_assoc, ?append_cons; reflexivity.
Qed.

Lemma texts_cons thr q l :
  texts thr (q :: l) = if enabled q then queue_text thr q :: texts thr l else texts thr l.
Proof. unfold texts. rewrite filter_cons. by destruct (enabled q). Qed.

(** The loop appends the entries up to the one that fills the buffer. *)
Lemma list_loop_texts thr buflen l b :
  len b < buflen → hi b = len b + 1 →
  list_loop thr buflen l (Some b) = Some (sprintf (cat (cut_at (buflen - len b) (texts thr l))) b).
Proof.
  revert b. induction l as [|q l IH]; intros b Hb Hh; [by cbn; rewrite sprintf_empty|].
  rewrite texts_cons. cbn [list_loop]. destruct (enabled q) eqn:He.
  - cbn [fmap option_fmap option_map]. rewrite (descq_dump_text _ _ _ _ He). cbn [list_full].
    rewrite len_sprintf. cbn [cut_at cat]. pose proof (slen_nonneg (queue_text thr q)) as Hn.
    destruct (Z.leb_spec buflen (len b + slen (queue_text thr q))) as [Hf|Hf].
    + rewrite (proj2 (Z.leb_le _ _)) by lia. cbn [cat]. by rewrite append_empty_r.
    + rewrite (proj2 (Z.leb_gt _ _)) by lia. rewrite IH; [|by rewrite len_sprintf|].
      * rewrite sprintf_sprintf, len_sprintf. do 4 f_equal. f_equal. lia.
      * apply hi_sprintf. lia.
  - cbn [list_full]. rewrite (proj2 (Z.leb_gt _ _)) by lia. by apply IH.
Qed.

Lemma no_texts thr l : count_enabled l = 0 → texts thr l = [].
Proof.
  unfold count_enabled, texts. intros Hc. destruct (filter _ l) as [|q l']; [done|cbn in Hc; lia].
Qed.

Lemma some_texts thr l : count_enabled l ≠ 0 → texts thr l ≠ [].
Proof. unfold count_enabled, texts. intros Hc. by destruct (filter _ l). Qed.

(** The second loop, for [cnt] queues, and the end. *)
Lemma list_rest thr buflen l cnt b :
  cnt = count_enabled l → len b < buflen → hi b = len b + 1 →
  (if cnt =? 0 then Some (put_nul b) else put_nul <$> list_loop thr buflen l (Some b)) =
  Some (sprintf (cat (cut_at (buflen - len b) (texts thr l))) b).
Proof.
  intros -> Hb Hh. destruct (Z.eqb_spec (count_enabled l) 0) as [E|E].
  - rewrite (no_texts thr l E). cbn [cut_at cat]. rewrite sprintf_empty by done.
    by rewrite <- (sprintf_empty b Hh) at 1; rewrite put_nul_sprintf, sprintf_empty.
  - rewrite (list_loop_texts thr buflen l b Hb Hh). cbn [fmap option_fmap option_map]. by rewrite put_nul_sprintf.
Qed.

(** All of it at once: both directions, cut_at where the buffer is full. *)
Lemma queue_list_text qd thr buflen :
  qdev_inv qd → slen (list_head qd) < buflen →
  qdma_queue_list qd thr buflen (Some blank) =
  Some (sprintf (list_head qd +:+ cat (cut_at (buflen - slen (list_head qd))
                                         (texts thr (h2c_descq qd ++ c2h_descq qd)))) blank).
Proof.
  intros [Hm Hl _ Hc] Hb. pose proof (slen_nonneg (list_head qd)) as Hh0.
  set (h := list_head qd) in *. set (b0 := sprintf h blank).
  assert (len b0 = slen h) as Hb0 by (unfold b0; rewrite len_sprintf; change (len blank) with 0; lia).
  assert (hi b0 = len b0 + 1) as Hh by by apply hi_sprintf.
  assert (take (Z.to_nat (qmax qd)) (h2c_descq qd) = h2c_descq qd) as Et
    by (apply take_ge; pose proof (Hl false); cbn in *; lia).
  assert (take (Z.to_nat (qmax qd)) (c2h_descq qd) = c2h_descq qd) as Et'
    by (apply take_ge; pose proof (Hl true); cbn in *; lia).
  pose proof (Hc false) as Hc1. pose proof (Hc true) as Hc2. cbn [cnt_of dir_list] in Hc1, Hc2.
  assert (∀ l, texts thr (h2c_descq qd ++ l) = texts thr (h2c_descq qd) ++ texts thr l) as Eapp
    by (intros l; unfold texts; by rewrite filter_app, map_app).
  rewrite Eapp. unfold qdma_queue_list. rewrite (proj2 (Z.eqb_neq buflen 0)) by lia.
  cbn [fmap option_fmap option_map]. fold b0. rewrite Et, Et'. unfold h, b0.
  rewrite <- sprintf_sprintf. fold h. fold b0. set (room := buflen - slen h).
  destruct (Z.eqb_spec (h2c_qcnt qd) 0) as [E|E].
  - rewrite (no_texts thr (h2c_descq qd)) by congruence. rewrite (list_rest thr buflen _ _ b0) by (lia || done). by rewrite Hb0.
  - rewrite (list_loop_texts thr buflen (h2c_descq qd) b0) by lia. rewrite Hb0. fold room.
    cbn [fmap option_fmap option_map]. set (l1 := texts thr (h2c_descq qd)). assert (l1 ≠ []) as Hne by (apply some_texts; congruence).
    rewrite cut_app, (bool_decide_eq_false_2 (l1 = [])), orb_false_r by done.
    cbn [list_full]. rewrite len_sprintf, Hb0. destruct (Z.lt_ge_cases (slen (cat l1)) room) as [Hlt|Hge].
    + rewrite bool_decide_eq_true_2 by done. rewrite (cut_all room l1 Hlt).
      rewrite (proj2 (Z.leb_gt _ _)) by lia. rewrite list_rest; [|done|rewrite len_sprintf; lia|apply hi_sprintf; lia].
      rewrite sprintf_sprintf, len_sprintf, Hb0, cat_app. do 3 f_equal. f_equal. f_equal. unfold room. lia.
    + rewrite bool_decide_eq_false_2 by lia. pose proof (cut_filled room l1 ltac:(lia) ltac:(lia)).
      rewrite (proj2 (Z.leb_le _ _)) by lia. cbn [option_map]. by rewrite put_nul_sprintf.
Qed.

(** What is printed fits its field: [char name[32]] of a queue, [char name[16]]
    of a thread, and numbers of their width. *)
Record printable (thr : thread_sys) (q : qdma_descq) : Prop := {
  pr_qidx : 0 <= qidx (conf q) < 2 ^ 16;
  pr_qidx_hw : 0 <= qidx_hw q < 2 ^ 32;
  pr_name : slen (name (conf q)) <= 31;
  pr_wrk : slen (thp_name (wrk_threads thr) (wrkthp q)) <= 15;
  pr_wb : slen (thp_name (wb_threads thr) (wbthp q)) <= 15;
  pr_rngsz : 0 <= rngsz (conf q) < 2 ^ 32;
  pr_rngsz_wrb : 0 <= rngsz_wrb (wrb q) < 2 ^ 32;
  pr_bus : 0 <= desc_bus (ring q) < 2 ^ 64;
  pr_wrb_bus : 0 <= desc_wrb_bus (wrb q) < 2 ^ 64;
  pr_dlen : 0 <= dlen (rx_queue (rx q)) < 2 ^ 32 }.

Lemma queue_text_size thr q : printable thr q → slen (queue_text thr q) <= 230.
Proof.
  intros [? ? ? ? ? ? ? ? ? ?]. unfold queue_text, thp_text, wrb_text.
  pose proof (slen_hex 4 (qidx (conf q)) ltac:(lia) ltac:(lia)).
  pose proof (slen_hex 8 (qidx_hw q) ltac:(lia) ltac:(lia)).
  pose proof (slen_hex 16 (desc_bus (ring q)) ltac:(lia) ltac:(lia)).
  pose proof (slen_hex 16 (desc_wrb_bus (wrb q)) ltac:(lia) ltac:(lia)).
  pose proof (slen_hex 8 (dlen (rx_queue (rx q))) ltac:(lia) ltac:(lia)).
  pose proof (slen_show (rngsz (conf q)) ltac:(lia)). pose proof (slen_show (rngsz_wrb (wrb q)) ltac:(lia)).
  destruct (st (conf q) && c2h (conf q)), (online q), (inited q);
    slen_lit; rewrite ?slen_line; slen_lit; rewrite ?k_ptr_len; lia.
Qed.

Lemma texts_size thr l : Forall (printable thr) l → Forall (λ s, slen s <= 230) (texts thr l).
Proof.
  intros Hl. induction Hl as [|q l Hq Hl IH]; [constructor|]. rewrite texts_cons.
  destruct (enabled q); [constructor; [by apply queue_text_size|done]|done].
Qed.

(** ** Lemmas: the dumps of the rings *)

(** Nothing is written beyond the text and its NUL. *)
Definition tight (b : tbuf) : Prop := len b <= hi b <= len b + 1.

Lemma tight_sprintf s b : tight b → tight (sprintf s b).
Proof. intros Hb. unfold tight in *. rewrite (hi_sprintf s b) by lia. lia. Qed.
Lemma tight_put_char c b : tight b → tight (put_char c b).
Proof. unfold tight. rewrite len_put_char. unfold put_char. cbn [hi]. lia. Qed.
Lemma tight_hex p n buflen b : tight b → tight (hex_dump p n buflen b).
Proof. intros Hb. unfold hex_dump. destruct (_ =? _); [done|by apply tight_sprintf]. Qed.

(** A row adds at most what a whole one has. *)
Lemma len_hex p n buflen b :
  4 <= n → n mod 4 = 0 → len b <= len (hex_dump p n buflen b) <= len b + hex_row n.
Proof.
  intros Hn Hm. unfold hex_dump.
  assert (0 <= hex_row n) by (unfold hex_row; assert (1 <= Z.min n 16 / 4) by (apply Z.div_le_lower_bound; lia); lia).
  destruct (Z.eqb_spec (u64 (buflen - len b)) 0) as [E|E]; [lia|].
  assert (0 < u64 (buflen - len b)) by (revert E; unfold u64; pose proof (Z.mod_pos_bound (buflen - len b) (2 ^ 64)); lia).
  rewrite len_sprintf, k_hex_len by done. lia.
Qed.

(** A write of so many characters into a buffer with nothing behind its text. *)
Definition wrote (lo up : Z) (b b' : tbuf) : Prop := (tight b → tight b') ∧ len b + lo <= len b' <= len b + up.

Lemma wrote_trans lo up lo' up' b1 b2 b3 : wrote lo up b1 b2 → wrote lo' up' b2 b3 → wrote (lo + lo') (up + up') b1 b3.
Proof. intros [H1 H2] [H3 H4]. split; [auto|lia]. Qed.

Lemma wrote_sprintf lo up s b : lo <= slen s <= up → wrote lo up b (sprintf s b).
Proof. intros Hs. split; [apply tight_sprintf|rewrite len_sprintf; lia]. Qed.
Lemma wrote_put_char c b : wrote 1 1 b (put_char c b).
Proof. split; [apply tight_put_char|rewrite len_put_char; lia]. Qed.
Lemma wrote_hex p n buflen b : 4 <= n → n mod 4 = 0 → wrote 0 (hex_row n) b (hex_dump p n buflen b).
Proof. intros Hn Hm. split; [apply tight_hex|]. pose proof (len_hex p n buflen b Hn Hm). lia. Qed.

Lemma wrote_entry i p n buflen b :
  0 <= i < 2 ^ 32 → 4 <= n → n mod 4 = 0 → wrote 22 (31 + hex_row n) b (dump_item i p n buflen b).
Proof.
  intros Hi Hn Hm. unfold dump_item. eapply (wrote_trans 22 31 0); [|by apply wrote_hex].
  apply wrote_sprintf. unfold show_int. rewrite (proj2 (Z.ltb_ge _ _)) by lia.
  pose proof (slen_show i Hi). slen_lit. rewrite k_ptr_len. lia.
Qed.

Lemma wrote_bytes label p n buflen b :
  4 <= n → n mod 4 = 0 →
  wrote (slen label + 18) (slen label + 18 + hex_row n) b (dump_bytes label p n buflen b).
Proof.
  intros Hn Hm. unfold dump_bytes.
  assert (wrote (slen label + 17) (slen label + 17) b (sprintf (label +:+ k_ptr p +:+ " ") b)) as Hs
    by (apply wrote_sprintf; slen_lit; rewrite k_ptr_len; lia).
  pose proof (wrote_trans _ _ _ _ _ _ _ (wrote_trans _ _ _ _ _ _ _ Hs (wrote_hex p n buflen _ Hn Hm))
                (wrote_put_char nl _)) as [H1 H2]. split; [done|lia].
Qed.

Lemma wrote_state thr q b : printable thr q → inited q = true → wrote 16 61 b (descq_dump_state q b).
Proof.
  intros [? ? ? ? ? ? ? ? ? ?] Hi. unfold descq_dump_state. rewrite Hi.
  pose proof (slen_hex 4 (qidx (conf q)) ltac:(lia) ltac:(lia)). pose proof (slen_hex_pos (qidx (conf q))).
  pose proof (slen_hex 8 (qidx_hw q) ltac:(lia) ltac:(lia)). pose proof (slen_hex_pos (qidx_hw q)).
  pose proof (slen_nonneg (name (conf q))).
  destruct (online q); rewrite sprintf_sprintf; (eapply (wrote_trans 15 60 1 1); [|apply wrote_put_char]);
    apply wrote_sprintf; slen_lit; lia.
Qed.

(** An entry of the free list as it is printed. *)
Definition fl_ok (e : fl_desc) : Prop := is_Some (fl_pg e) ∧ 0 <= fl_dma_addr e < 2 ^ 64.

Lemma fl_text_size e : fl_ok e → 32 <= slen (fl_text e) <= 47.
Proof.
  intros [_ He]. unfold fl_text. pose proof (slen_hex_pos (fl_dma_addr e)).
  pose proof (slen_hex 16 (fl_dma_addr e) ltac:(lia) ltac:(lia)).
  slen_lit. rewrite slen_line. slen_lit. rewrite k_ptr_len. lia.
Qed.

Lemma desc_size_row q : 4 <= get_desc_size q ∧ get_desc_size q mod 4 = 0.
Proof. unfold get_desc_size. by destruct (st (conf q)), (c2h (conf q)). Qed.

Lemma desc_lines_wrote n i fl q buflen b :
  0 <= i → i + Z.of_nat n < 2 ^ 32 → (n <= length fl)%nat → Forall fl_ok fl →
  ∃ b', desc_lines n i (Some fl) q buflen b = Some b' ∧
    wrote (54 * Z.of_nat n) ((78 + hex_row (get_desc_size q)) * Z.of_nat n) b b'.
Proof.
  intros Hi Hn Hl Hfl. revert i b n Hi Hn Hl. induction Hfl as [|e fl He Hfl IH]; intros i b n Hi Hn Hl.
  - destruct n; [|cbn in Hl; lia]. exists b. split; [done|]. split; [done|lia].
  - destruct n as [|n]; [exists b; split; [done|]; split; [done|lia]|]. cbn [desc_lines length] in *.
    destruct (desc_size_row q) as [H4 Hm]. set (sz := get_desc_size q) in *.
    destruct (IH (i + 1) (sprintf (fl_text e) (dump_item i (q_ptr q ADesc (i * sz)) sz buflen b)) n) as (b' & Hb' & Hw);
      [lia..|].
    exists b'. split; [done|].
    pose proof (wrote_trans _ _ _ _ _ _ _
                  (wrote_trans _ _ _ _ _ _ _ (wrote_entry i (q_ptr q ADesc (i * sz)) sz buflen b ltac:(lia) H4 Hm)
                     (wrote_sprintf 32 47 (fl_text e) _ (fl_text_size e He))) Hw) as [H1 H2].
    split; [done|]. lia.
Qed.

Lemma wrb_lines_wrote n i p buflen q b :
  0 <= i → i + Z.of_nat n < 2 ^ 32 → 4 <= wrb_entry_len (wrb q) → wrb_entry_len (wrb q) mod 4 = 0 →
  let r := wrb_lines n i p buflen (q, b) in
  r.1 = Nat.iter n wrb_next q ∧
  wrote (23 * Z.of_nat n) ((32 + hex_row (wrb_entry_len (wrb q))) * Z.of_nat n) b r.2.
Proof.
  revert i q b. induction n as [|n IH]; intros i q b Hi Hn H4 Hm; cbn [wrb_lines].
  - split; [done|]. split; [done|cbn [fst snd]; lia].
  - assert (wrb_entry_len (wrb (wrb_next q)) = wrb_entry_len (wrb q)) as El
      by (unfold wrb_next; by destruct (_ =? _)).
    cbn [fst snd]. rewrite Nat.iter_succ_r.
    specialize (IH (i + 1) (wrb_next q) (put_char nl (dump_item i p (wrb_entry_len (wrb q)) buflen b)) ltac:(lia) ltac:(lia)).
    rewrite El in IH. destruct (IH H4 Hm) as [H1 Hw]. split; [done|].
    pose proof (wrote_trans _ _ _ _ _ _ _
                  (wrote_trans _ _ _ _ _ _ _ (wrote_entry i p _ buflen b ltac:(lia) H4 Hm)
                     (wrote_put_char nl _)) Hw) as [H2 H3].
    split; [done|]. lia.
Qed.

End lists.

(** How far a list that is cut_at like this goes. *)
Lemma cut_list_bounds B h buflen ls :
  slen h < buflen → 0 <= B → Forall (λ s, slen s <= B) ls →
  let b := sprintf (h +:+ cat (cut_at (buflen - slen h) ls)) blank in
  let all := h +:+ cat ls in
  hi b = len b + 1 ∧ (slen all < buflen → tx b = all ∧ hi b <= buflen) ∧
  (buflen <= slen all → buflen < hi b <= buflen + B).
Proof.
  intros Hb HB Hls b all. set (room := buflen - slen h) in *.
  assert (hi b = len b + 1) as Hh by by apply hi_sprintf.
  assert (tx b = h +:+ cat (cut_at room ls)) as Ht by done.
  assert (len b = slen h + slen (cat (cut_at room ls))) as Hl by (unfold len; rewrite Ht; apply slen_app).
  assert (slen all = slen h + slen (cat ls)) as Ea by apply slen_app.
  split_and!; [done| |].
  - intros Hs. rewrite (cut_all room ls) in * by lia. split; [done|]. lia.
  - intros Hs. pose proof (cut_filled room ls ltac:(lia) ltac:(lia)).
    pose proof (cut_bound B room ls ltac:(lia) HB Hls). lia.
Qed.

(** The loop over devices cuts likewise. *)
Lemma dev_loop_texts {A} (text : A → string) buflen l b :
  len b < buflen → hi b <= len b + 1 →
  put_nul (dev_loop text buflen l b) = sprintf (cat (cut_at (buflen - len b) (map text l))) b.
Proof.
  revert b. induction l as [|x l IH]; intros b Hb Hh.
  - unfold sprintf, put_nul. cbn. rewrite append_empty_r. change (slen "") with 0. f_equal. lia.
  - cbn [dev_loop map cut_at cat]. rewrite len_sprintf. destruct (Z.leb_spec buflen (len b + slen (text x))) as [Hf|Hf].
    + rewrite (proj2 (Z.leb_le _ _)) by lia. cbn [cat]. by rewrite append_empty_r, put_nul_sprintf.
    + rewrite (proj2 (Z.leb_gt _ _)) by lia. rewrite IH; [|by rewrite len_sprintf|].
      * rewrite sprintf_sprintf, len_sprintf. by rewrite <- Z.sub_add_distr.
      * rewrite hi_sprintf by done. lia.
Qed.

Lemma dev_text_size `{!KPrint, !KPrintLaws} {D} is_vf (p : bool * xlnx_pci_dev D) :
  0 <= xp_idx p.2 < 2 ^ 32 → 0 <= qsets_max (dev_conf (s_xd (xp_sys p.2))) < 2 ^ 32 → slen (dev_text is_vf p) <= 53.
Proof.
  destruct p as [conf p]. cbn [snd]. intros Hi Hm. unfold dev_text. pose proof (slen_show _ Hi). pose proof (slen_show _ Hm).
  pose proof (k_devname_len (pdev p)).
  destruct conf, is_vf; cbn [negb]; slen_lit; rewrite slen_line; slen_lit; lia.
Qed.

Lemma wrb_lines_queue `{!KPrint} n i p buflen s : (wrb_lines n i p buflen s).1 = Nat.iter n wrb_next s.1.
Proof.
  revert i s. induction n as [|n IH]; intros i s; [done|]. cbn [wrb_lines]. rewrite IH, Nat.iter_succ_r. done.
Qed.

(** What a dump of a writeback ring does to the queue is [Dump]'s. *)
Lemma dump_wrb_queue `{!KPrint} start end_ buflen q b :
  (descq_dump_wrb start end_ buflen (q, b)).1 = qdma_descq_dump_wrb start end_ q.
Proof.
  unfold descq_dump_wrb, qdma_descq_dump_wrb. destruct (desc_wrb (wrb q)); [|done].
  rewrite <- (wrb_lines_queue _ (s32 start) (q_ptr q AWrb (s32 start * wrb_entry_len (wrb q))) buflen (q, b)).
  by destruct (wrb_lines _ _ _ _ _).
Qed.

(** A dump of descriptors faults exactly when [Dump]'s does, as long as the
    range is within the free list. *)
Lemma dump_desc_fault `{!KPrint} q start end_ buflen b :
  (∀ fl, st_rx_fl (rx q) = Some fl → dump_count start end_ (rngsz (conf q)) <= Z.of_nat (length fl)) →
  descq_dump_desc q start end_ buflen b = None ↔ qdma_descq_dump_desc q = None.
Proof.
  intros Hfl. unfold descq_dump_desc, qdma_descq_dump_desc. destruct (desc (ring q)); [|done].
  assert (is_Some (desc_lines (Z.to_nat (dump_count start end_ (rngsz (conf q)))) (s32 start) (st_rx_fl (rx q)) q buflen b))
    as [b' ->].
  { assert (∀ n i fl b, match fl with Some l => (n <= length l)%nat | None => True end →
              is_Some (desc_lines n i fl q buflen b)) as Hs.
    { intros n. induction n as [|n IH]; intros i fl b1 Hn; [by eexists|]. cbn [desc_lines].
      destruct fl as [[|e fl]|]; cbn in Hn; [lia|apply IH; cbn; lia|by apply IH]. }
    apply Hs. destruct (st_rx_fl (rx q)) as [fl|]; [|done]. specialize (Hfl fl eq_refl). lia. }
  cbn [mbind option_bind]. destruct (st_rx_fl (rx q)) as [fl|]; [|done]. cbn [mbind option_bind].
  destruct (fl !! 0%nat) as [e|]; [|done]. cbn [mbind option_bind]. by destruct (fl_pg e).
Qed.

(** ** Properties *)

(** C21: the list of queues writes the head and then the entries of the queues in
    use, the H2C ones first, up to the one that fills the buffer; the length is
    looked at only after an entry is written.  What fits in the buffer with its
    NUL stays in it and is complete; when the whole does not fit, bytes
    behind the buffer's end are written, at most 230. *)
Theorem queue_list_bounds `{!KPrint, !KPrintLaws} qd thr buflen :
  qdev_inv qd → slen (list_head qd) < buflen →
  Forall (printable thr) (h2c_descq qd ++ c2h_descq qd) →
  let entries := texts thr (h2c_descq qd ++ c2h_descq qd) in
  let all := list_head qd +:+ cat entries in
  ∃ b, qdma_queue_list qd thr buflen (Some blank) = Some b ∧ hi b = len b + 1 ∧
    tx b = list_head qd +:+ cat (cut_at (buflen - slen (list_head qd)) entries) ∧
    (slen all < buflen → tx b = all ∧ hi b <= buflen) ∧
    (buflen <= slen all → buflen < hi b <= buflen + 230).
Proof.
  intros Hi Hb Hp entries all. eexists. split; [by apply queue_list_text|].
  destruct (cut_list_bounds 230 (list_head qd) buflen entries Hb ltac:(lia) (texts_size _ _ Hp)) as (Hh & Hs & Hf).
  split_and!; [exact Hh|done|exact Hs|exact Hf].
Qed.

(** The same for the list of devices, whose lines have at most 53 bytes. *)
Theorem dev_list_bounds `{!KPrint, !KPrintLaws} {D} is_vf buflen (devs : list (bool * xlnx_pci_dev D)) :
  0 < buflen →
  Forall (λ p, 0 <= xp_idx p.2 < 2 ^ 32 ∧ 0 <= qsets_max (dev_conf (s_xd (xp_sys p.2))) < 2 ^ 32) devs →
  let all := cat (map (dev_text is_vf) devs) in
  let b := xpdev_list_dump is_vf buflen devs blank in
  hi b = len b + 1 ∧ (slen all < buflen → tx b = all ∧ hi b <= buflen) ∧
  (buflen <= slen all → buflen < hi b <= buflen + 53).
Proof.
  intros Hb Hd all b. unfold b, xpdev_list_dump. rewrite (proj2 (Z.eqb_neq _ _)) by lia.
  rewrite dev_loop_texts by done. apply (cut_list_bounds 53 "" buflen); [done..|].
  induction Hd as [|p l [Hi Hm] Hl IH]; constructor; [by apply dev_text_size|done].
Qed.

(** C22: a dump of descriptors of a streaming C2H queue writes at least 54 and at
    most 95 bytes for each of them, whatever the length of the buffer: up to
    nine fit in the 1024 bytes of a reply, with eighteen the bytes behind them
    are written over. *)
Theorem dump_desc_bounds `{!KPrint, !KPrintLaws} thr q start end_ buflen l fl :
  printable thr q → inited q = true → st (conf q) && c2h (conf q) = true →
  desc (ring q) = Some l → st_rx_fl (rx q) = Some fl → Forall fl_ok fl →
  rngsz (conf q) <= Z.of_nat (length fl) → 0 < Z.of_nat (length fl) < 2 ^ 31 →
  let n := dump_count start end_ (rngsz (conf q)) in
  ∃ b, queue_dump_desc q start end_ buflen blank = Some b ∧ len b <= hi b <= len b + 1 ∧
    54 * n + 68 <= len b <= 95 * n + 165 ∧
    (n <= 9 → hi b <= XNL_RESP_BUFLEN_MAX) ∧ (18 <= n → XNL_RESP_BUFLEN_MAX < hi b).
Proof.
  intros Hp Hin Hst Hd Hf Hok Hr Hlen n. unfold queue_dump_desc, descq_dump_desc. rewrite Hin, Hd, Hf. cbn [negb].
  pose proof (wrote_state thr q blank Hp Hin) as Hs.
  assert (0 <= n ∧ (0 < n → 0 <= s32 start ∧ s32 start + n <= rngsz (conf q))) as [Hn0 Hn].
  { unfold n, dump_count. destruct (Z.ltb_spec (s32 start) 0); lia. }
  assert (get_desc_size q = 8) as Esz
    by (apply andb_true_iff in Hst as [H1 H2]; unfold get_desc_size; by rewrite H1, H2).
  assert (∃ b1, desc_lines (Z.to_nat n) (s32 start) (Some fl) q buflen (descq_dump_state q blank) = Some b1 ∧
            wrote (54 * n) (95 * n) (descq_dump_state q blank) b1) as (b1 & E1 & Hw1).
  { destruct (Z.eq_dec n 0) as [->|Hne]; [exists (descq_dump_state q blank); split; [done|]; split; [done|lia]|].
    destruct (desc_lines_wrote (Z.to_nat n) (s32 start) fl q buflen (descq_dump_state q blank)) as (b1 & E & Hw); [lia..|done|].
    exists b1. split; [done|]. rewrite Esz, Z2Nat.id in Hw by lia. done. }
  fold n. rewrite E1. cbn [mbind option_bind].
  destruct fl as [|e fl]; [cbn in Hlen; lia|]. apply Forall_cons in Hok as [[[pg Epg] _] _]. cbn [lookup list_lookup mbind option_bind].
  rewrite Epg. cbn [mbind option_bind]. eexists. split; [done|].
  pose proof (wrote_bytes "WB: 0x" (q_ptr q ADescWb 0) get_desc_wb_size buflen b1 ltac:(done) ltac:(done)) as Hw2.
  pose proof (wrote_trans _ _ _ _ _ _ _ (wrote_trans _ _ _ _ _ _ _ (wrote_trans _ _ _ _ _ _ _ Hs Hw1) Hw2)
                (wrote_bytes "data 0: 0x" (PData pg) 128 buflen _ ltac:(done) ltac:(done))) as [Ht Hl].
  change (slen "WB: 0x") with 6 in Hl. change (slen "data 0: 0x") with 10 in Hl.
  change (hex_row get_desc_wb_size) with 17 in Hl. change (hex_row 128) with 35 in Hl. change (len blank) with 0 in Hl.
  assert (tight blank) as Hb0 by done. specialize (Ht Hb0). unfold tight in Ht.
  change XNL_RESP_BUFLEN_MAX with 1024. split_and!; lia.
Qed.

(** A dump of a writeback ring writes at least 23 bytes for each entry, again
    whatever the length of the buffer, and consumes the entries. *)
Theorem dump_wrb_bounds `{!KPrint, !KPrintLaws} thr q start end_ buflen l :
  printable thr q → inited q = true → desc_wrb (wrb q) = Some l →
  wrb_entry_len (wrb q) ∈ [8; 16; 32] → rngsz_wrb (wrb q) < 2 ^ 31 →
  let n := dump_count start end_ (rngsz_wrb (wrb q)) in
  let '(q', b) := queue_dump_wrb start end_ buflen (q, blank) in
  q' = qdma_descq_dump_wrb start end_ q ∧ len b <= hi b <= len b + 1 ∧ 23 * n + 40 <= len b <= 67 * n + 102.
Proof.
  intros Hp Hin Hd Hl Hr n. unfold queue_dump_wrb. rewrite Hin. cbn [negb].
  destruct (descq_dump_wrb start end_ buflen (q, descq_dump_state q blank)) as [q' b] eqn:E.
  split; [by rewrite <- (dump_wrb_queue start end_ buflen q (descq_dump_state q blank)), E|].
  pose proof (wrote_state thr q blank Hp Hin) as Hs. unfold descq_dump_wrb in E. rewrite Hd in E. fold n in E.
  assert (4 <= wrb_entry_len (wrb q) ∧ wrb_entry_len (wrb q) mod 4 = 0 ∧ hex_row (wrb_entry_len (wrb q)) <= 35) as (H4 & Hm & Hrow)
    by (rewrite !elem_of_cons, elem_of_nil in Hl; destruct Hl as [->|[->|[->|[]]]]; by vm_compute).
  set (p := q_ptr q AWrb (s32 start * wrb_entry_len (wrb q))) in *. pose proof (pr_rngsz_wrb _ _ Hp).
  assert (0 <= n ∧ (0 < n → 0 <= s32 start ∧ s32 start + n <= rngsz_wrb (wrb q))) as [Hn0 Hn].
  { unfold n, dump_count. destruct (Z.ltb_spec (s32 start) 0); lia. }
  assert (wrote (23 * n) (67 * n) (descq_dump_state q blank)
            (wrb_lines (Z.to_nat n) (s32 start) p buflen (q, descq_dump_state q blank)).2) as Hw1.
  { destruct (Z.eq_dec n 0) as [->|Hne]; [split; [done|]; change (Z.to_nat 0) with 0%nat; cbn [wrb_lines snd]; lia|].
    destruct (wrb_lines_wrote (Z.to_nat n) (s32 start) p buflen q (descq_dump_state q blank)) as [_ [Ht1 Hl1]]; [lia..|].
    split; [done|]. nia. }
  destruct (wrb_lines _ _ _ _ _) as [q1 b1]. cbn [snd] in Hw1. injection E as <- <-.
  pose proof (wrote_trans _ _ _ _ _ _ _ (wrote_trans _ _ _ _ _ _ _ Hs Hw1)
                (wrote_bytes "WB: 0x" (q_ptr q1 AWrbWb 0) 8 buflen b1 ltac:(done) ltac:(done))) as [Ht Hlen].
  change (slen "WB: 0x") with 6 in Hlen. change (hex_row 8) with 17 in Hlen. change (len blank) with 0 in Hlen.
  assert (tight blank) as Hb0 by done. specialize (Ht Hb0). unfold tight in Ht. lia.
Qed.

(** ** A concrete kernel and concrete queues *)

Module SampleText.
#[global] Instance print : KPrint := {
  k_ptr _ := "ffff888012345678";
  k_hex _ n room := zeros (Z.to_nat (Z.min (room - 1) (hex_row n)));
  k_devname i := hex_pad 4 0 +:+ ":01:00.0" }.

Lemma slen_zeros n : slen (zeros n) = Z.of_nat n.
Proof. induction n as [|n IH]; [done|]. cbn [zeros]. rewrite slen_cons. lia. Qed.

#[global] Instance print_laws : KPrintLaws.
Proof.
  split; [done| |done]. intros p n room Hn Hm Hr. unfold k_hex, print. rewrite slen_zeros.
  assert (1 <= Z.min n 16 / 4) by (apply Z.div_le_lower_bound; lia). unfold hex_row. lia.
Qed.

(** Sixteen H2C queues, all started, and room for as many C2H queues. *)
Definition at_idx (i : nat) (q : qdma_descq) : qdma_descq := q <| conf ::= λ c, c <| qidx := Z.of_nat i |> |>.
Definition qd : qdma_dev :=
  Qdev true 16 0 16 0 (map (λ i, at_idx i SampleSys.up) (seq 0 16))
    (map (λ i, at_idx i zero_descq) (seq 0 16)).

Lemma list_inv : qdev_inv qd.
Proof.
  split; [cbn; lia|by intros [|]| |by intros [|]].
  intros [[|] i] q Hq; unfold get_descq in Hq; cbn [fst snd qd h2c_descq c2h_descq] in Hq;
    apply list_lookup_fmap_Some in Hq as (j & -> & Hj); apply lookup_seq in Hj as [-> _]; by split.
Qed.

Lemma texts_fit : Forall (printable SampleSys.thr_up) (h2c_descq qd ++ c2h_descq qd).
Proof. repeat constructor; vm_compute; done. Qed.

(** A streaming C2H queue with a ring of 32 descriptors. *)
Definition rxq : qdma_descq :=
  (Sample.queue true true) <| enabled := true |> <| inited := true |>
    <| conf ::= λ c, c <| rngsz := 32 |> |>
    <| ring ::= λ r, r <| desc := Some [] |> |>
    <| wrb := WrbRing 64 0 0 DESC_SZ_8B false 8 (Some []) 0 0 0 |>
    <| rx := RxState (Some (replicate 32 (FlDesc (Some 5%nat) 0x1000 PAGE_SIZE))) rx_empty |>.

Lemma rxq_printable : printable SampleSys.thr_up rxq.
Proof. split; vm_compute; done. Qed.

Definition devs : list (bool * xlnx_pci_dev SimHw.t) := replicate 40 (true, xp SampleX.x1).
End SampleText.

(** With sixteen started queues the list runs over the 1024 bytes of a reply. *)
Lemma queue_list_bounds_witness :
  ∃ b, qdma_queue_list SampleText.qd SampleSys.thr_up XNL_RESP_BUFLEN_MAX (Some blank) = Some b ∧
    XNL_RESP_BUFLEN_MAX < hi b <= XNL_RESP_BUFLEN_MAX + 230.
Proof.
  destruct (queue_list_bounds SampleText.qd SampleSys.thr_up XNL_RESP_BUFLEN_MAX SampleText.list_inv eq_refl SampleText.texts_fit)
    as (b & Hb & _ & _ & _ & Hf).
  exists b. split; [exact Hb|]. apply Hf. apply Z.leb_le. vm_compute. reflexivity.
Defined.

(** A dump of all 32 descriptors does, too. *)
Lemma dump_desc_bounds_witness :
  ∃ b, queue_dump_desc SampleText.rxq 0 32 XNL_RESP_BUFLEN_MAX blank = Some b ∧ XNL_RESP_BUFLEN_MAX < hi b.
Proof.
  destruct (dump_desc_bounds SampleSys.thr_up SampleText.rxq 0 32 XNL_RESP_BUFLEN_MAX []
              (replicate 32 (FlDesc (Some 5%nat) 0x1000 PAGE_SIZE)) SampleText.rxq_printable)
    as (b & Hb & _ & _ & _ & Ho);
    [reflexivity|reflexivity|reflexivity|reflexivity|apply Forall_replicate; split; [by eexists|vm_compute; done]|
     vm_compute; done|vm_compute; done|].
  exists b. split; [exact Hb|]. apply Ho. vm_compute. discriminate.
Defined.

Lemma dump_wrb_bounds_witness :
  let r := queue_dump_wrb 0 64 XNL_RESP_BUFLEN_MAX (SampleText.rxq, blank) in
  r.1 = qdma_descq_dump_wrb 0 64 SampleText.rxq ∧ XNL_RESP_BUFLEN_MAX < hi r.2.
Proof.
  pose proof (dump_wrb_bounds SampleSys.thr_up SampleText.rxq 0 64 XNL_RESP_BUFLEN_MAX []
                SampleText.rxq_printable eq_refl eq_refl ltac:(by left) ltac:(vm_compute; done)) as H.
  destruct (queue_dump_wrb 0 64 XNL_RESP_BUFLEN_MAX (SampleText.rxq, blank)) as [q b].
  destruct H as (Hq & Hb & Hl). split; [exact Hq|].
  change (dump_count 0 64 (rngsz_wrb (wrb SampleText.rxq))) with 64 in Hl.
  change XNL_RESP_BUFLEN_MAX with 1024. cbn [snd]. lia.
Defined.

Lemma dev_list_bounds_witness :
  XNL_RESP_BUFLEN_MAX < hi (xpdev_list_dump false XNL_RESP_BUFLEN_MAX SampleText.devs blank) <= XNL_RESP_BUFLEN_MAX + 53.
Proof.
  apply (dev_list_bounds false XNL_RESP_BUFLEN_MAX SampleText.devs); [reflexivity| |].
  - apply Forall_replicate. split; vm_compute; done.
  - apply Z.leb_le. vm_compute. reflexivity.
Defined.
