(* ===== verification/Nl.v ===== *)
(** * The driver's side of the control interface (nl.c)

    The handlers of the commands: each finds the function, reads the queue from
    the attributes, calls the module or the library, and sends a reply.  The
    attributes come parsed ([struct genl_info]); the kernel's calls are
    parameters, their results part of the state.  The text of replies is not
    modelled. *)

From S2P Require Import Prelude Regs Types Context Sgl Descq RxQueue Thread Resource Intr Queue Api.
From S2P Require Import Cdev Xpdev Dump Xnl.

(** ** State *)

(** [struct genl_info]: the command and the attributes by type. *)
Record nl_info := NlInfo { i_cmd : Z; i_attrs : xnl_attr_t → option nlattr }.

(** A reply: text, or numbers. *)
Inductive reply := RText (cmd : Z) | RAttrs (cmd : Z) (l : list (xnl_attr_t * Z)).

(** The functions, the kernel's character devices, the results of its next
    calls (0 when none is left), the socket buffers not yet freed or sent, and
    the replies delivered. *)
Record nst (D : Type) := Nst {
  devs : list (xlnx_pci_dev D); nl_os : cdev_os; nl_ans : list Z; skbs : Z; sent : list reply }.
Arguments Nst {D}.
Arguments devs {D}.
Arguments nl_os {D}.
Arguments nl_ans {D}.
Arguments skbs {D}.
Arguments sent {D}.
#[export] Instance nst_eta {D} : Settable (nst D) := λ r,
  Nst (devs r) (nl_os r) (nl_ans r) (skbs r) (sent r).

(** An action that may fault: [None] is a NULL or unset pointer followed. *)
Definition NL (D A : Type) : Type := nst D → option (A * nst D).
#[export] Instance NL_ret D : MRet (NL D) := λ A a s, Some (a, s).
#[export] Instance NL_bind D : MBind (NL D) := λ A B f m s, '(a, s) ← m s; f a s.

Section nl.
Context {D : Type} `{!RegIo D}.

Definition lift {A} (m : ST (nst D) A) : NL D A := λ s, Some (m s).

Definition nl_answer : ST (nst D) Z := λ s,
  match nl_ans s with [] => (0, s) | a :: l => (a, s <| nl_ans := l |>) end.

(** ** Replies *)

(** [genlmsg_new] and [genlmsg_put]: whether there is a message. *)
Definition xnl_msg_alloc : ST (nst D) bool :=
  a ← nl_answer;
  if a <? 0 then mret false else
  _ ← st_modify (λ s, s <| skbs ::= λ n, n + 1 |>);
  b ← nl_answer;
  if b <? 0 then _ ← st_modify (λ s, s <| skbs ::= λ n, n - 1 |>); mret false else mret true.

(** [nla_put_string] or [nla_put_u32]. *)
Definition xnl_msg_add_attr : ST (nst D) Z :=
  a ← nl_answer; mret (if negb (a =? 0) then - EINVAL else 0).

(** [genlmsg_unicast] consumes the message; its failure is not reported. *)
Definition xnl_msg_send (r : reply) : ST (nst D) Z :=
  a ← nl_answer;
  _ ← st_modify (λ s, s <| skbs ::= λ n, n - 1 |>);
  _ ← st_modify (λ s, if a =? 0 then s <| sent ::= λ l, l ++ [r] |> else s);
  mret 0.

Definition xnl_respond_buffer (info : nl_info) : ST (nst D) Z :=
  ok ← xnl_msg_alloc;
  if negb ok then mret (- ENOMEM) else
  rv ← xnl_msg_add_attr;
  if negb (rv =? 0) then mret rv else
  xnl_msg_send (RText (i_cmd info)).

(** Whether there is a buffer; otherwise the tool has been told. *)
Definition xnl_mem_alloc (info : nl_info) : ST (nst D) bool :=
  a ← nl_answer;
  if a <? 0 then _ ← xnl_respond_buffer info; mret false else mret true.

(** The numbers of a reply, one after the other; the message is not freed when
    one does not fit. *)
Fixpoint add_uints (l : list (xnl_attr_t * Z)) (k : ST (nst D) Z) : ST (nst D) Z :=
  match l with
  | [] => k
  | _ :: l => rv ← xnl_msg_add_attr; if rv <? 0 then mret rv else add_uints l k
  end.

(** ** Arguments *)

(** [nla_get_u32(info->attrs[a])] *)
Definition get_u32 (info : nl_info) (a : xnl_attr_t) : NL D Z := λ s,
  v ← i_attrs info a; Some (nla_get_u32 v, s).
Definition get_u8 (info : nl_info) (a : xnl_attr_t) : NL D Z := λ s,
  v ← i_attrs info a; Some (nla_get_u8 v, s).

(** The function the command names, by its place in the list; a function in
    the list has a configuration. *)
Definition xnl_rcv_check_xpdev (info : nl_info) : NL D (option nat) :=
  idx ← get_u32 info XNL_ATTR_DEV_IDX;
  s ← lift st_get;
  match xpdev_find_by_idx idx (devs s) with
  | Some (i, _) => mret (Some i)
  | None => _ ← lift (xnl_respond_buffer info); mret None
  end.

Definition has (f m : Z) : bool := negb (Z.land f m =? 0).

(** The queue of a command: an error code, or its configuration. *)
Definition qconf_get (info : nl_info) : NL D (Z + qdma_queue_conf) :=
  let err_out := _ ← lift (xnl_respond_buffer info); mret (inl (- EINVAL)) in
  f ← get_u32 info XNL_ATTR_QFLAG;
  if has f XNL_F_QMODE_ST && has f XNL_F_QMODE_MM then err_out else
  let f := if negb (has f XNL_F_QMODE_ST) && negb (has f XNL_F_QMODE_MM) then Z.lor f XNL_F_QMODE_MM else f in
  if has f XNL_F_QDIR_H2C && has f XNL_F_QDIR_C2H then err_out else
  let f := if negb (has f XNL_F_QDIR_H2C) && negb (has f XNL_F_QDIR_C2H) then Z.lor f XNL_F_QDIR_H2C else f in
  i ← get_u32 info XNL_ATTR_QIDX;
  let i := u16 i in
  let i := if i =? XNL_QIDX_INVALID then QDMA_QUEUE_IDX_INVALID else i in
  mret (inr (QueueConf i (has f XNL_F_QMODE_ST) (has f XNL_F_QDIR_C2H) 0 "" 0)).

(** An action of the module on the function at place [i]. *)
Definition on_xp {A} (i : nat) (m : xst D → option (A * xst D)) : NL D A := λ s,
  p ← devs s !! i;
  '(a, x) ← m (Xst p (nl_os s));
  Some (a, s <| devs ::= <[i := xp x]> |> <| nl_os := xos x |>).

Definition get_dev (i : nat) : NL D (xlnx_pci_dev D) := λ s, p ← devs s !! i; Some (p, s).

(** A call of the library on the function's device. *)
Definition lib_call {A} (m : sys D → option (A * sys D)) (x : xst D) : option (A * xst D) :=
  '(a, s) ← m (xp_sys (xp x)); Some (a, x <| xp ::= λ p, p <| xp_sys := s |> |>).

Definition total {A} (m : ST (sys D) A) (s : sys D) : option (A * sys D) := Some (m s).

(** The handle of the queue, when it has been added. *)
Definition queue_handle (qconf : qdma_queue_conf) (x : xst D) : option (option Z * xst D) :=
  match xpdev_queue_get (xp x) (qidx qconf) (c2h qconf) true with
  | None => None
  | Some None => Some (None, x)
  | Some (Some j) => Some (Some (qhndl (default qdata_zero (xp_qdata (xp x) !! j))), x)
  end.

Definition xnl_rcv_check_qidx (info : nl_info) (i : nat) (qconf : qdma_queue_conf) : NL D (option Z) :=
  q ← on_xp i (queue_handle qconf);
  match q with
  | Some h => mret (Some h)
  | None => _ ← lift (xnl_respond_buffer info); mret None
  end.

(** ** Handlers

    [if (rv < 0) return rv;] and otherwise the reply. *)

Definition then_respond (info : nl_info) (rv : Z) : NL D Z :=
  if rv <? 0 then mret rv else lift (xnl_respond_buffer info).

(** [xpdev_list_dump] only prints ([Text]). *)
Definition xnl_dev_list (info : nl_info) : NL D Z :=
  buf ← lift (xnl_mem_alloc info);
  if negb buf then mret (- ENOMEM) else lift (xnl_respond_buffer info).

Definition dev_info (p : xlnx_pci_dev D) : list (xnl_attr_t * Z) :=
  let conf := dev_conf (s_xd (xp_sys p)) in
  [(XNL_ATTR_PCI_BUS, pci_bus (pdev p)); (XNL_ATTR_PCI_DEV, pci_slot (pdev p));
   (XNL_ATTR_PCI_FUNC, pci_func (pdev p)); (XNL_ATTR_DEV_CFG_BAR, u32 (bar_num_config conf));
   (XNL_ATTR_DEV_USR_BAR, u32 (bar_num_user conf)); (XNL_ATTR_DEV_QSET_MAX, qsets_max conf)].

Definition xnl_dev_info (info : nl_info) : NL D Z :=
  i ← xnl_rcv_check_xpdev info;
  match i with
  | None => mret (- EINVAL)
  | Some i =>
      p ← get_dev i;
      lift (ok ← xnl_msg_alloc;
            if negb ok then mret (- ENOMEM) else
            add_uints (dev_info p) (xnl_msg_send (RAttrs (op_z XNL_CMD_DEV_INFO) (dev_info p))))
  end.

(** [qdma_queue_list] only prints ([Text]). *)
Definition xnl_q_list (info : nl_info) : NL D Z :=
  i ← xnl_rcv_check_xpdev info;
  match i with
  | None => mret 0
  | Some _ =>
      buf ← lift (xnl_mem_alloc info);
      if negb buf then mret (- ENOMEM) else lift (xnl_respond_buffer info)
  end.

(** A command on a queue of a function; [no_dev] is the result without one. *)
Definition with_qconf (info : nl_info) (no_dev : Z) (k : nat → qdma_queue_conf → NL D Z) : NL D Z :=
  i ← xnl_rcv_check_xpdev info;
  match i with
  | None => mret no_dev
  | Some i =>
      c ← qconf_get info;
      match c with inl rv => mret rv | inr qconf => k i qconf end
  end.

(** A command on a queue that has been added. *)
Definition with_qdata (info : nl_info) (k : nat → Z → NL D Z) : NL D Z :=
  with_qconf info (- EINVAL) (λ i qconf,
    h ← xnl_rcv_check_qidx info i qconf;
    match h with None => mret (- EINVAL) | Some h => k i h end).

Definition xnl_q_add (info : nl_info) : NL D Z :=
  with_qconf info 0 (λ i qconf,
    let add qconf := rv ← on_xp i (xpdev_queue_add qconf); then_respond info rv in
    if c2h qconf && st qconf
    then v ← get_u8 info XNL_ATTR_WRB_DESC_SIZE; add (qconf <| conf_wrb_desc_size := v |>)
    else add qconf).

Definition xnl_q_start (info : nl_info) : NL D Z :=
  with_qdata info (λ i h, rv ← on_xp i (lib_call (qdma_queue_start h)); then_respond info rv).

Definition xnl_q_stop (info : nl_info) : NL D Z :=
  with_qdata info (λ i h, rv ← on_xp i (lib_call (qdma_queue_stop h)); then_respond info rv).

Definition xnl_q_del (info : nl_info) : NL D Z :=
  with_qconf info (- EINVAL) (λ i qconf,
    rv ← on_xp i (xpdev_queue_delete (qidx qconf) (c2h qconf)); then_respond info rv).

Definition xnl_q_dump (info : nl_info) : NL D Z :=
  with_qdata info (λ i h,
    buf ← lift (xnl_mem_alloc info);
    if negb buf then mret (- ENOMEM) else
    rv ← on_xp i (lib_call (total (qdma_queue_dump h))); then_respond info rv).

(** The dump of a ring: the range is read first. *)
Definition dump_ring (dump : Z → Z → Z → sys D → option (Z * sys D)) (info : nl_info) : NL D Z :=
  v1 ← get_u32 info XNL_ATTR_RANGE_START;
  v2 ← get_u32 info XNL_ATTR_RANGE_END;
  with_qdata info (λ i h,
    buf ← lift (xnl_mem_alloc info);
    if negb buf then _ ← lift (xnl_respond_buffer info); mret (- ENOMEM) else
    rv ← on_xp i (lib_call (dump h v1 v2)); then_respond info rv).

Definition xnl_q_dump_desc : nl_info → NL D Z := dump_ring qdma_queue_dump_desc.
Definition xnl_q_dump_wrb : nl_info → NL D Z := dump_ring qdma_queue_dump_wrb.

(** [xnl_ops]: the handler of a command, if it has one. *)
Definition xnl_ops (cmd : Z) : option (nl_info → NL D Z) :=
  if cmd =? op_z XNL_CMD_DEV_LIST then Some xnl_dev_list
  else if cmd =? op_z XNL_CMD_DEV_INFO then Some xnl_dev_info
  else if cmd =? op_z XNL_CMD_Q_LIST then Some xnl_q_list
  else if cmd =? op_z XNL_CMD_Q_ADD then Some xnl_q_add
  else if cmd =? op_z XNL_CMD_Q_START then Some xnl_q_start
  else if cmd =? op_z XNL_CMD_Q_STOP then Some xnl_q_stop
  else if cmd =? op_z XNL_CMD_Q_DEL then Some xnl_q_del
  else if cmd =? op_z XNL_CMD_Q_DUMP then Some xnl_q_dump
  else if cmd =? op_z XNL_CMD_Q_DESC then Some xnl_q_dump_desc
  else if cmd =? op_z XNL_CMD_Q_WRB then Some xnl_q_dump_wrb
  else None.

End nl.

(** ** The invariant of the driver *)

(** Every function's table is in step with the library, each function has a
    major number of its own, and the kernel's calls for character devices
    succeed. *)
Record nl_inv {D} (s : nst D) : Prop := {
  nv_tables : ∀ i p, devs s !! i = Some p → mod_inv (Xst p (nl_os s));
  nv_majors : NoDup (cdev_major ∘ cdev_cb <$> devs s);
  nv_calls : calls_succeed (nl_os s) }.

(** One command served without a fault. *)
Inductive nl_step {D} `{!RegIo D} : nst D → nst D → Prop :=
  | step_cmd info h s rv s' : xnl_ops (i_cmd info) = Some h → h info s = Some (rv, s') → nl_step s s'.

Section invariant.
Context {D : Type} `{!RegIo D}.

(** An action that keeps the invariant; one that leaves the functions alone. *)
Definition kept {A} (m : NL D A) : Prop := ∀ s a s', nl_inv s → m s = Some (a, s') → nl_inv s'.
Definition quiet {A} (m : ST (nst D) A) : Prop := ∀ s, devs (m s).2 = devs s ∧ nl_os (m s).2 = nl_os s.

Lemma quiet_ret {A} (a : A) : quiet (mret a).
Proof. by intros s. Qed.

Lemma quiet_bind {A B} (m : ST (nst D) A) (f : A → ST (nst D) B) :
  quiet m → (∀ a, quiet (f a)) → quiet (m ≫= f).
Proof.
  intros Hm Hf s. unfold mbind, ST_bind. specialize (Hm s). destruct (m s) as [a s']. cbn [fst snd] in *.
  destruct (Hf a s') as [-> ->]. exact Hm.
Qed.

Lemma quiet_answer : quiet nl_answer.
Proof. intros s. unfold nl_answer. by destruct (nl_ans s). Qed.

Lemma quiet_modify f : (∀ s, devs (f s) = devs s ∧ nl_os (f s) = nl_os s) → quiet (st_modify f).
Proof. intros Hf s. apply Hf. Qed.

(** Replies are quiet. *)
Ltac quiet_tac :=
  repeat first
    [ apply quiet_ret | apply quiet_answer
    | apply quiet_bind; [|intros ?]
    | apply quiet_modify; intros ?; try case_match; done
    | match goal with |- quiet (if ?b then _ else _) => destruct b end ].

Lemma quiet_alloc : quiet xnl_msg_alloc.
Proof. unfold xnl_msg_alloc. quiet_tac. Qed.
Lemma quiet_attr : quiet xnl_msg_add_attr.
Proof. unfold xnl_msg_add_attr. quiet_tac. Qed.
Lemma quiet_send r : quiet (xnl_msg_send r).
Proof. unfold xnl_msg_send. quiet_tac. Qed.

Lemma quiet_respond info : quiet (xnl_respond_buffer info).
Proof.
  unfold xnl_respond_buffer. apply quiet_bind; [apply quiet_alloc|]. intros [|]; [|apply quiet_ret].
  apply quiet_bind; [apply quiet_attr|]. intros rv. destruct (negb _); [apply quiet_ret|apply quiet_send].
Qed.

Lemma quiet_mem info : quiet (xnl_mem_alloc info).
Proof.
  unfold xnl_mem_alloc. apply quiet_bind; [apply quiet_answer|]. intros a. destruct (a <? 0); [|apply quiet_ret].
  apply quiet_bind; [apply quiet_respond|]. intros _. apply quiet_ret.
Qed.

Lemma quiet_uints l k : quiet k → quiet (add_uints l k).
Proof.
  intros Hk. induction l as [|a l IH]; cbn [add_uints]; [done|].
  apply quiet_bind; [apply quiet_attr|]. intros rv. destruct (_ <? 0); [apply quiet_ret|done].
Qed.

Lemma kept_lift {A} (m : ST (nst D) A) : quiet m → kept (lift m).
Proof.
  intros Hm s a s' [] [= E]. destruct (Hm s) as [E1 E2]. rewrite E in E1, E2. cbn in *. split; by rewrite ?E1, ?E2.
Qed.

Lemma kept_ret {A} (a : A) : kept (mret a).
Proof. by intros s b s' Hi [= _ <-]. Qed.

Lemma kept_bind {A B} (m : NL D A) (f : A → NL D B) : kept m → (∀ a, kept (f a)) → kept (m ≫= f).
Proof.
  intros Hm Hf s b s' Hi. unfold mbind, NL_bind. destruct (m s) as [[a s1]|] eqn:E; [|done].
  cbn [mbind option_bind]. intros H. by eapply Hf, H; eapply Hm.
Qed.

Lemma kept_get {A} (g : nst D → option A) : kept (λ s, v ← g s; Some (v, s)).
Proof. intros s a s' Hi. destruct (g s); cbn; [by intros [= _ <-]|done]. Qed.

Lemma kept_u32 info a : kept (get_u32 info a).
Proof. intros s v s' Hi. unfold get_u32. destruct (i_attrs info a); cbn; [by intros [= _ <-]|done]. Qed.
Lemma kept_u8 info a : kept (get_u8 info a).
Proof. intros s v s' Hi. unfold get_u8. destruct (i_attrs info a); cbn; [by intros [= _ <-]|done]. Qed.

(** An action on the function: it keeps the table in step. *)
Definition table_kept {A} (m : xst D → option (A * xst D)) : Prop := ∀ x a x',
  mod_inv x → calls_succeed (xos x) → m x = Some (a, x') →
  mod_inv x' ∧ calls_succeed (xos x') ∧ beside x x'.

Lemma kept_on_xp {A} i (m : xst D → option (A * xst D)) : table_kept m → kept (on_xp i m).
Proof.
  intros Hm s a s' [Ht Hma Ho]. unfold on_xp. destruct (devs s !! i) as [p|] eqn:Ep; [|done]. cbn [mbind option_bind].
  destruct (m (Xst p (nl_os s))) as [[b x]|] eqn:E; [|done]. cbn [mbind option_bind]. intros [= <- <-].
  destruct (Hm _ _ _ (Ht _ _ Ep) Ho E) as (Hi' & Ho' & Hb). pose proof Hb as (Ecb & _ & _). cbn [xp] in Ecb.
  split; cbn [devs nl_os set eta nst_eta]; [| |done].
  - intros j p' Hp'. destruct (decide (j = i)) as [->|Hne].
    + rewrite list_lookup_insert_eq in Hp' by (by eapply lookup_lt_Some). injection Hp' as <-. by destruct x.
    + rewrite list_lookup_insert_ne in Hp' by done.
      apply (mod_inv_beside (Xst p (nl_os s))); [done|by apply mi_nodup| |by apply (Ht j)]. cbn [xp]. intros Em.
      apply Hne. apply (NoDup_lookup _ j i (cdev_major (cdev_cb p)) Hma); rewrite list_lookup_fmap; [rewrite Hp'|rewrite Ep]; cbn; by rewrite ?Em.
  - rewrite list_fmap_insert. rewrite list_insert_id; [done|]. rewrite list_lookup_fmap, Ep. cbn. by rewrite Ecb.
Qed.

Lemma table_kept_lib {A} (m : sys D → option (A * sys D)) :
  (∀ s a s', qdev_inv (s_qd s) → m s = Some (a, s') → after (s_qd s) (s_qd s')) → table_kept (lib_call m).
Proof.
  intros Hm x a x' Hi Ho. unfold lib_call. destruct (m (xp_sys (xp x))) as [[b s']|] eqn:E; [|done].
  cbn. intros [= <- <-]. split; [|by split; [|apply beside_refl]]. apply mod_inv_after; [done|]. eapply Hm; [apply (mi_lib _ Hi)|exact E].
Qed.

Lemma table_kept_handle qconf : table_kept (queue_handle qconf).
Proof.
  intros x a x' Hi Ho. unfold queue_handle.
  destruct (xpdev_queue_get _ _ _ _) as [[j|]|]; [intros [= _ <-]; by split_and!; [..|apply beside_refl]..|done].
Qed.

Lemma table_kept_add qconf : 0 <= qidx qconf → table_kept (xpdev_queue_add qconf).
Proof.
  intros H0 x a x' Hi Ho Ex. pose proof (add_outcome (xp_sys (xp x)) qconf (mi_lib _ Hi) H0) as Hadd.
  destruct (qdma_queue_add qconf false (xp_sys (xp x))) as [r s'] eqn:E.
  destruct Hadd as (Hl & Em & [[Hrv Hg]|[d Hd]]); rewrite (mi_qmax _ Hi) in Em.
  - destruct (add_refused x qconf r s' Hi E Hrv Hg Hl Em) as (x1 & E' & Hi' & _ & Eo & Hb).
    rewrite E' in Ex. injection Ex as <- <-. by rewrite Eo.
  - destruct (add_entered x qconf r s' d Hi Ho E Hd Hl Em) as (x1 & E' & Hi' & _ & _ & _ & _ & Ho' & Hb).
    rewrite E' in Ex. by injection Ex as <- <-.
Qed.

Lemma table_kept_delete qidx c2h : 0 <= qidx → table_kept (xpdev_queue_delete qidx c2h).
Proof.
  intros H0 x a x' Hi Ho Ex.
  destruct (used (xp_sys (xp x)) (c2h, Z.to_nat qidx)) eqn:Hu.
  - destruct (Z.leb_spec (xp_qmax (xp x)) qidx) as [Hle|Hlt].
    { revert Ex. unfold xpdev_queue_delete, xpdev_queue_get. rewrite (proj2 (Z.leb_le _ _)) by done.
      cbn. intros [= _ <-]. by split_and!; [..|apply beside_refl]. }
    destruct (delete_used x (c2h, Z.to_nat qidx) Hi) as (x1 & E & Hi1 & _ & _ & Ea & Hb); [unfold in_range; cbn; lia|done|].
    cbn [fst snd] in E. rewrite Z2Nat.id in E by lia. rewrite E in Ex. injection Ex as <- <-.
    split; [done|]. split; [|done]. unfold calls_succeed. by rewrite Ea.
  - revert Ex. unfold xpdev_queue_delete. rewrite get_unused by done. cbn. intros [= _ <-].
    by split_and!; [..|apply beside_refl].
Qed.

Lemma dump_after id (s : sys D) a s' :
  qdev_inv (s_qd s) → total (qdma_queue_dump id) s = Some (a, s') → after (s_qd s) (s_qd s').
Proof.
  intros Hi. unfold total, qdma_queue_dump. destruct (qdma_device_get_descq_by_id _ _ _); [|by intros [= _ <-]].
  unfold on_hw. destruct (qdma_descq_context_read _ _ _ _) as [[rv c] h]. by intros [= _ <-].
Qed.

Lemma dump_desc_after id v1 v2 (s : sys D) a s' :
  qdev_inv (s_qd s) → qdma_queue_dump_desc id v1 v2 s = Some (a, s') → after (s_qd s) (s_qd s').
Proof.
  intros Hi. unfold qdma_queue_dump_desc. destruct (qdma_device_get_descq_by_id _ _ _); [|by intros [= _ <-]].
  destruct (negb _); [by intros [= _ <-]|]. destruct (qdma_descq_dump_desc _); [by intros [= _ <-]|done].
Qed.

Lemma dump_wrb_use start end_ q :
  let q' := qdma_descq_dump_wrb start end_ q in
  conf q' = conf q ∧ enabled q' = enabled q ∧ inited q' = inited q ∧ online q' = online q.
Proof.
  unfold qdma_descq_dump_wrb. destruct (desc_wrb (wrb q)); [|done].
  set (n := Z.to_nat _). clearbody n. induction n as [|n IH]; [done|].
  change (Nat.iter (S n) wrb_next q) with (wrb_next (Nat.iter n wrb_next q)).
  destruct (wrb_next_conf (Nat.iter n wrb_next q)) as (-> & -> & -> & -> & _). exact IH.
Qed.

Lemma dump_wrb_after id v1 v2 (s : sys D) a s' :
  qdev_inv (s_qd s) → qdma_queue_dump_wrb id v1 v2 s = Some (a, s') → after (s_qd s) (s_qd s').
Proof.
  intros Hi. unfold qdma_queue_dump_wrb.
  destruct (qdma_device_get_descq_by_id _ _ _) as [d|] eqn:E; [|by intros [= _ <-]].
  destruct (negb _); [by intros [= _ <-]|].
  destruct (by_id_exists _ _ _ E) as (q & Hq & _). rewrite (upd_queue_eq d _ q s Hq). intros [= _ <-].
  pose proof (qi_ok _ Hi d q Hq) as Hok. destruct (dump_wrb_use v1 v2 q) as (Ec & Ee & En & Eo).
  apply (keeps_after _ d q); [by apply after_refl|done|]. unfold keeps. rewrite Ec, Ee, En, Eo.
  split_and!; try done; apply Hok.
Qed.

(** ** The handlers *)

Lemma kept_check info : kept (xnl_rcv_check_xpdev info).
Proof.
  unfold xnl_rcv_check_xpdev. apply kept_bind; [apply kept_u32|]. intros idx.
  apply kept_bind; [by apply kept_lift|]. intros s.
  destruct (xpdev_find_by_idx _ _) as [[i p]|]; [apply kept_ret|].
  apply kept_bind; [apply kept_lift, quiet_respond|]. intros _. apply kept_ret.
Qed.

Lemma kept_respond info rv : kept (then_respond info rv).
Proof. unfold then_respond. destruct (rv <? 0); [apply kept_ret|apply kept_lift, quiet_respond]. Qed.

(** The configuration has an index of 16 bits. *)
Lemma qconf_get_spec info (s : nst D) r s' :
  nl_inv s → qconf_get info s = Some (r, s') →
  nl_inv s' ∧ match r with inl rv => rv = - EINVAL | inr qconf => 0 <= qidx qconf < 2 ^ 16 end.
Proof.
  intros Hi. unfold qconf_get, get_u32.
  assert (∀ rv, kept ((_ ← lift (xnl_respond_buffer info); mret (inl rv)) : NL D (Z + qdma_queue_conf))) as Herr.
  { intros rv. apply kept_bind; [apply kept_lift, quiet_respond|]. intros _. apply kept_ret. }
  specialize (Herr (- EINVAL)).
  unfold mbind at 1, NL_bind at 1. destruct (i_attrs info XNL_ATTR_QFLAG) as [af|]; [|done]. cbn [mbind option_bind].
  set (f := nla_get_u32 af).
  assert (∀ s0 s1 r,
    ((_ ← lift (xnl_respond_buffer info); mret (inl (- EINVAL))) : NL D (Z + qdma_queue_conf)) s0 = Some (r, s1) →
    r = inl (- EINVAL)) as Hval.
  { intros s0 s1 r0. unfold mbind, NL_bind, lift. cbn [mbind option_bind].
    destruct (xnl_respond_buffer info s0). by intros [= <- _]. }
  destruct (has f XNL_F_QMODE_ST && has f XNL_F_QMODE_MM).
  { intros E. split; [by eapply Herr|]. by rewrite (Hval _ _ _ E). }
  set (f1 := if _ && _ then _ else f). clearbody f1. destruct (has f1 XNL_F_QDIR_H2C && has f1 XNL_F_QDIR_C2H).
  { intros E. split; [by eapply Herr|]. by rewrite (Hval _ _ _ E). }
  set (f2 := if _ && _ then _ else f1). clearbody f2.
  unfold mbind at 1, NL_bind at 1. destruct (i_attrs info XNL_ATTR_QIDX) as [ai|]; [|done]. cbn.
  intros [= <- <-]. split; [done|]. cbn. unfold QDMA_QUEUE_IDX_INVALID.
  pose proof (Z.mod_pos_bound (nla_get_u32 ai) (2 ^ 16) ltac:(lia)). unfold u16.
  destruct (_ =? XNL_QIDX_INVALID); lia.
Qed.

Lemma kept_with_qconf info no_dev k :
  (∀ i qconf, 0 <= qidx qconf → kept (k i qconf)) → kept (with_qconf info no_dev k).
Proof.
  intros Hk. unfold with_qconf. apply kept_bind; [apply kept_check|]. intros [i|]; [|apply kept_ret].
  intros s a s' Hi. unfold mbind, NL_bind. destruct (qconf_get info s) as [[r s1]|] eqn:E; [|done].
  destruct (qconf_get_spec _ _ _ _ Hi E) as [Hi1 Hr]. cbn [mbind option_bind].
  destruct r as [rv|qconf]; [by intros [= _ <-]|]. intros E'. by eapply (Hk i qconf); [apply Hr|exact Hi1|].
Qed.

Lemma kept_with_qdata info k : (∀ i h, kept (k i h)) → kept (with_qdata info k).
Proof.
  intros Hk. apply kept_with_qconf. intros i qconf H0. apply kept_bind.
  - apply kept_bind; [apply kept_on_xp, table_kept_handle|]. intros [h|]; [apply kept_ret|].
    apply kept_bind; [apply kept_lift, quiet_respond|]. intros _. apply kept_ret.
  - intros [h|]; [apply Hk|apply kept_ret].
Qed.

Lemma kept_lib info i (m : sys D → option (Z * sys D)) :
  (∀ s a s', qdev_inv (s_qd s) → m s = Some (a, s') → after (s_qd s) (s_qd s')) →
  kept (rv ← on_xp i (lib_call m); then_respond info rv).
Proof.
  intros Hm. apply kept_bind; [apply kept_on_xp, table_kept_lib, Hm|]. intros rv. apply kept_respond.
Qed.

Lemma kept_buffer info (k : NL D Z) (e : NL D Z) :
  kept k → kept e → kept (buf ← lift (xnl_mem_alloc info); if negb buf then e else k).
Proof.
  intros Hk He. apply kept_bind; [apply kept_lift, quiet_mem|]. by intros [|].
Qed.

Lemma kept_dump_ring dump info :
  (∀ h v1 v2 s a s', qdev_inv (s_qd s) → dump h v1 v2 s = Some (a, s') → after (s_qd s) (s_qd s')) →
  kept (dump_ring dump info).
Proof.
  intros Hd. unfold dump_ring. apply kept_bind; [apply kept_u32|]. intros v1.
  apply kept_bind; [apply kept_u32|]. intros v2. apply kept_with_qdata. intros i h.
  apply kept_buffer; [apply kept_lib; intros s a s'; apply Hd|].
  apply kept_bind; [apply kept_lift, quiet_respond|]. intros _. apply kept_ret.
Qed.

Lemma kept_dev_info info : kept (xnl_dev_info info).
Proof.
  unfold xnl_dev_info. apply kept_bind; [apply kept_check|]. intros [i|]; [|apply kept_ret].
  apply kept_bind; [unfold get_dev; apply (kept_get (λ s, devs s !! i))|]. intros p. apply kept_lift.
  apply quiet_bind; [apply quiet_alloc|]. intros [|]; [|apply quiet_ret]. apply quiet_uints, quiet_send.
Qed.

Lemma ops_kept cmd h info : xnl_ops cmd = Some h → kept (h info).
Proof.
  unfold xnl_ops. repeat (case_match; [intros [= <-]|]); [..|done]; clear.
  - apply kept_buffer; [apply kept_lift, quiet_respond|apply kept_ret].
  - apply kept_dev_info.
  - unfold xnl_q_list. apply kept_bind; [apply kept_check|]. intros [i|]; [|apply kept_ret].
    apply kept_buffer; [apply kept_lift, quiet_respond|apply kept_ret].
  - apply kept_with_qconf. intros i qconf H0.
    assert (∀ c, qidx c = qidx qconf → kept (rv ← on_xp i (xpdev_queue_add c); then_respond info rv)) as Hadd.
    { intros c Ec. apply kept_bind; [apply kept_on_xp, table_kept_add; by rewrite Ec|]. intros rv. apply kept_respond. }
    destruct (_ && _); [|by apply Hadd]. apply kept_bind; [apply kept_u8|]. intros v. by apply Hadd.
  - apply kept_with_qdata. intros i h. apply kept_lib. intros s a s'. apply queue_start_after.
  - apply kept_with_qdata. intros i h. apply kept_lib. intros s a s'. apply queue_stop_after.
  - apply kept_with_qconf. intros i qconf H0.
    apply kept_bind; [by apply kept_on_xp, table_kept_delete|]. intros rv. apply kept_respond.
  - apply kept_with_qdata. intros i h. apply kept_buffer; [|apply kept_ret]. apply kept_lib, dump_after.
  - apply kept_dump_ring, dump_desc_after.
  - apply kept_dump_ring, dump_wrb_after.
Qed.

(** C16: whatever commands the driver serves, from any process, for any of
    its functions, with any attributes and in any order, as long as none faults
    and the kernel's calls for character devices succeed ([xpdev_add_garbage]
    is what happens otherwise): the module's table of every function - each has
    a major number of its own - stays in step with the library: every queue in
    use has its handle and its character device there, every other entry is
    empty, the devices the kernel knows under the function's major number are
    those of its table, and the library's own invariant holds. *)
Theorem nl_reachable_inv (s s' : nst D) : nl_inv s → rtc nl_step s s' → nl_inv s'.
Proof.
  intros Hi Hr. induction Hr as [s|s s1 s2 [info h s0 rv s0' Hop Hrun] _ IH]; [done|].
  apply IH. by eapply (ops_kept _ _ info Hop).
Qed.

(** A command without the attribute that names the function makes the
    kernel follow a NULL pointer, whatever it asks for (but the list of the
    functions): the attribute is read without a test, and any process may
    send it. *)
Theorem nl_missing_dev_idx info h (s : nst D) :
  i_attrs info XNL_ATTR_DEV_IDX = None → i_cmd info ≠ op_z XNL_CMD_DEV_LIST →
  xnl_ops (i_cmd info) = Some h → h info s = None.
Proof.
  intros Ha Hc. unfold xnl_ops. rewrite (proj2 (Z.eqb_neq _ _)) by done.
  assert (∀ s : nst D, xnl_rcv_check_xpdev info s = None) as Hn
    by (intros s1; unfold xnl_rcv_check_xpdev, mbind, NL_bind, get_u32; by rewrite Ha).
  assert (∀ (s : nst D) rv k, with_qconf info rv k s = None) as Hq
    by (intros s1 rv k; unfold with_qconf, mbind, NL_bind; by rewrite Hn).
  repeat (case_match; [intros [= <-]|]); [..|done].
  - unfold xnl_dev_info, mbind, NL_bind. by rewrite Hn.
  - unfold xnl_q_list, mbind, NL_bind. by rewrite Hn.
  - apply Hq.
  - apply Hq.
  - apply Hq.
  - apply Hq.
  - apply Hq.
  - unfold xnl_q_dump_desc, dump_ring, mbind, NL_bind, get_u32.
    destruct (i_attrs info XNL_ATTR_RANGE_START), (i_attrs info XNL_ATTR_RANGE_END); cbn; [apply Hq|done..].
  - unfold xnl_q_dump_wrb, dump_ring, mbind, NL_bind, get_u32.
    destruct (i_attrs info XNL_ATTR_RANGE_START), (i_attrs info XNL_ATTR_RANGE_END); cbn; [apply Hq|done..].
Qed.

End invariant.

Module SampleNl.
Definition s0 : nst SimHw.t := Nst [xp SampleX.x0] SampleX.os [] 0 [].

(** A message with the given numbers. *)
Definition info (op : xnl_op_t) (l : list (xnl_attr_t * Z)) : nl_info :=
  NlInfo (op_z op) (λ a, (λ p, nla_u32 p.1 p.2) <$> (snd <$> list_find (λ p, p.1 = a) l)).

Definition add_info : nl_info :=
  info XNL_CMD_Q_ADD [(XNL_ATTR_DEV_IDX, xp_idx (xp SampleX.x0)); (XNL_ATTR_QIDX, 1); (XNL_ATTR_QFLAG, 0x6)].

Definition s1 : nst SimHw.t := (default (0, s0) (xnl_q_add add_info s0)).2.

Lemma add_step : nl_step s0 s1.
Proof.
  apply (step_cmd add_info xnl_q_add s0 0 s1); [done|]. unfold s1.
  destruct (xnl_q_add add_info s0) as [[rv s]|] eqn:E.
  - assert (fst <$> xnl_q_add add_info s0 = Some 0) as Hrv by (by vm_compute).
    rewrite E in Hrv. by injection Hrv as ->.
  - assert (fst <$> xnl_q_add add_info s0 = Some 0) as Hrv by (by vm_compute). by rewrite E in Hrv.
Qed.
End SampleNl.

Lemma nl_reachable_inv_witness :
  nl_inv SampleNl.s0 ∧ rtc nl_step SampleNl.s0 SampleNl.s1 ∧ nl_inv SampleNl.s1.
Proof.
  assert (nl_inv SampleNl.s0) as Hi.
  { split; [|apply NoDup_singleton|constructor]. intros [|i] p; [|done]. intros [= <-]. exact SampleX.inv0. }
  assert (rtc nl_step SampleNl.s0 SampleNl.s1) as Hr by (apply rtc_once, SampleNl.add_step).
  split_and!; [exact Hi|exact Hr|]. by apply (nl_reachable_inv SampleNl.s0).
Defined.

Lemma nl_missing_dev_idx_witness :
  xnl_ops (op_z XNL_CMD_Q_STOP) = Some (xnl_q_stop (D := SimHw.t)) ∧
  xnl_q_stop (SampleNl.info XNL_CMD_Q_STOP [(XNL_ATTR_QIDX, 0); (XNL_ATTR_QFLAG, 0x6)]) SampleNl.s0 = None.
Proof.
  split; [done|].
  by apply (nl_missing_dev_idx (SampleNl.info XNL_CMD_Q_STOP [(XNL_ATTR_QIDX, 0); (XNL_ATTR_QFLAG, 0x6)])).
Defined.
