(* ===== verification/Ctl.v ===== *)
(** * The control path, from the command line to the library

    The tool's request ([NlUser]) and the driver's handlers ([Nl]) put
    together: between them the kernel's generic netlink layer, which is a
    parameter ([Genl]) with the law that it parses a well-formed message into
    its command and attributes.  The theorems follow a command line to the
    call of the module it causes. *)

From stdpp Require Import strings.
From S2P Require Import Prelude Regs Types Context Sgl Descq RxQueue Thread Resource Intr Queue Api.
From S2P Require Import Cdev Xpdev Dump Xnl Cstring Cli NlUser Nl.
#[local] Open Scope Z_scope.

(** ** Generic netlink *)

(** The attributes by type: of two with the same type, the last. *)
Definition attrs_by_type (l : list nlattr) (a : xnl_attr_t) : option nlattr :=
  snd <$> list_find (λ n, nla_type n = attr_z a) (reverse l).

(** A number of the interface. *)
Definition u32_attr (a : nlattr) : Prop := attr_wf a ∧ nla_type a < XNL_ATTR_MAX ∧ length (nla_data a) = 4%nat.

Class Genl := {
  genl_parse : list Z → option nl_info;
  genl_parse_numbers m l :
    Forall u32_attr l → 0 <= g_cmd m < 2 ^ 8 → nlmsg_len m = XNL_HDRLEN + Z.of_nat (length (attrs_bytes l)) →
    nlmsg_len m < 2 ^ 16 →
    genl_parse (hdr_bytes m ++ attrs_bytes l) = Some (NlInfo (g_cmd m) (attrs_by_type l)) }.

Definition EOPNOTSUPP : Z := 95.

(** A message for the driver's family: the handler of its command runs. *)
Definition deliver {D} `{!RegIo D, !Genl} (bytes : list Z) : NL D Z := λ s,
  match genl_parse bytes with
  | None => Some (- EINVAL, s)
  | Some info =>
      match xnl_ops (i_cmd info) with
      | Some h => h info s
      | None => Some (- EOPNOTSUPP, s)
      end
  end.

(** An executable parser. *)
Module SimGenl.

Fixpoint parse_attrs (fuel : nat) (l : list Z) : option (list nlattr) :=
  match l, fuel with
  | [], _ => Some []
  | _, O => None
  | _, S fuel =>
      len ← buf_get 0 2 l;
      ty ← buf_get 2 2 l;
      as_ ← parse_attrs fuel (skipn (Z.to_nat (NLA_ALIGN len)) l);
      Some (Nlattr ty (firstn (Z.to_nat (len - NLA_HDRLEN)) (skipn 4 l)) :: as_)
  end.

Definition parse (bytes : list Z) : option nl_info :=
  cmd ← buf_get 16 1 bytes;
  as_ ← parse_attrs (length bytes) (skipn (Z.to_nat XNL_HDRLEN) bytes);
  Some (NlInfo cmd (attrs_by_type as_)).

Lemma parse_attrs_bytes l fuel :
  Forall attr_wf l → (length (attrs_bytes l) <= fuel)%nat → parse_attrs fuel (attrs_bytes l) = Some l.
Proof.
  revert fuel. induction l as [|a l IH]; intros fuel Hl Hf; [by destruct fuel|].
  apply Forall_cons in Hl as [Ha Hl]. pose proof (nla_bytes_pos a) as Hpos.
  unfold attrs_bytes in *. cbn [fmap list_fmap concat] in *. rewrite length_app in Hf.
  destruct (attr_head a (concat (nla_bytes <$> l)) Ha) as (E1 & E2 & E3).
  destruct (nla_bytes a ++ concat (nla_bytes <$> l)) as [|b r] eqn:E.
  { apply (f_equal length) in E. rewrite length_app in E. cbn in E. lia. }
  destruct fuel as [|fuel]; [lia|]. cbn [parse_attrs]. rewrite E1. cbn [mbind option_bind].
  rewrite E2. cbn [mbind option_bind]. rewrite E3, IH by (done || lia). cbn [mbind option_bind].
  do 2 f_equal. destruct a as [ty data]. f_equal. rewrite <- E. unfold nla_bytes.
  rewrite <- !app_assoc, (app_assoc (le_bytes 2 _)), skip_app_exact by done.
  apply take_app_exact. unfold nla_len. cbn [nla_data]. lia.
Qed.

#[export] Instance genl : Genl.
Proof.
  refine {| genl_parse := parse |}.
  intros m l Hl Hc Hlen Hmax. unfold parse.
  assert (buf_get 16 1 (hdr_bytes m ++ attrs_bytes l) = Some (g_cmd m)) as ->.
  { unfold hdr_bytes. rewrite <- !app_assoc.
    rewrite (app_assoc (le_bytes 4 (nlmsg_seq m))), (app_assoc (le_bytes 2 (nlmsg_flags m))),
      (app_assoc (le_bytes 2 (nlmsg_type m))), (app_assoc (le_bytes 4 (nlmsg_len m))).
    apply buf_get_field; [by rewrite !length_app, !le_bytes_length|done]. }
  cbn [mbind option_bind].
  assert (length (hdr_bytes m) = 20%nat) as Hh by (unfold hdr_bytes; by rewrite !length_app, !le_bytes_length).
  rewrite skip_app_exact by done. rewrite parse_attrs_bytes; [done| |rewrite length_app; lia].
  eapply Forall_impl; [exact Hl|]. by intros a [H _].
Defined.

End SimGenl.

(** ** What a command line asks of the driver *)

Section control.
Context {D : Type} `{!RegIo D}.

(** The call on the function [if_idx], as the command's [k]; [no_dev] is the
    result when there is none. *)
Definition on_function (x : xcmd_info) (no_dev : Z) (info : nl_info) (k : nat → NL D Z) : NL D Z := λ s,
  match xpdev_find_by_idx (if_idx x) (devs s) with
  | Some (i, _) => k i s
  | None => (_ ← lift (xnl_respond_buffer info); mret no_dev) s
  end.

(** The queue a command names: the index is cut to 16 bits.  The other options
    of [q add] - the sizes of the ring and of the buffers, and [cdev] - are not
    in it: the driver does not look at them. *)
Definition wanted (x : xcmd_info) : qdma_queue_conf :=
  let q := u_qparm (u x) in
  let st := Z.testbit (Cli.flags q) 0 in
  let c2h := Z.testbit (Cli.flags q) 3 in
  QueueConf (u16 (idx q)) st c2h (if c2h && st then u8 (entry_size q) else 0) "" 0.

(** The call on a queue that has been added, by its handle. *)
Definition on_queue (x : xcmd_info) (info : nl_info) (k : nat → Z → NL D Z) : NL D Z :=
  on_function x (- EINVAL) info (λ i,
    h ← xnl_rcv_check_qidx info i (wanted x);
    match h with None => mret (- EINVAL) | Some h => k i h end).

(** A call of the library on the function, then the reply. *)
Definition call (info : nl_info) (i : nat) (m : sys D → option (Z * sys D)) : NL D Z :=
  rv ← on_xp i (lib_call m); then_respond info rv.

(** With a buffer for text, or [e]. *)
Definition with_buffer (info : nl_info) (e k : NL D Z) : NL D Z :=
  buf ← lift (xnl_mem_alloc info); if negb buf then e else k.

Definition report (info : nl_info) : NL D Z :=
  with_buffer info (mret (- ENOMEM)) (lift (xnl_respond_buffer info)).

Definition ring_report (x : xcmd_info) (info : nl_info) (dump : Z → Z → Z → sys D → option (Z * sys D)) : NL D Z :=
  let q := u_qparm (u x) in
  on_queue x info (λ i h, with_buffer info (_ ← lift (xnl_respond_buffer info); mret (- ENOMEM))
    (call info i (dump h (range_start q) (range_end q)))).

(** Every command that the tool sends. *)
Definition asked (x : xcmd_info) (info : nl_info) : option (NL D Z) :=
  match op x with
  | XNL_CMD_DEV_LIST => Some (report info)
  | XNL_CMD_DEV_INFO => Some (on_function x (- EINVAL) info (λ i,
      p ← get_dev i;
      lift (ok ← xnl_msg_alloc;
            if negb ok then mret (- ENOMEM) else
            add_uints (dev_info p) (xnl_msg_send (RAttrs (op_z XNL_CMD_DEV_INFO) (dev_info p))))))
  | XNL_CMD_Q_LIST => Some (on_function x 0 info (λ _, report info))
  | XNL_CMD_Q_ADD => Some (on_function x 0 info (λ i,
      rv ← on_xp i (xpdev_queue_add (wanted x)); then_respond info rv))
  | XNL_CMD_Q_DEL => Some (on_function x (- EINVAL) info (λ i,
      rv ← on_xp i (xpdev_queue_delete (qidx (wanted x)) (c2h (wanted x))); then_respond info rv))
  | XNL_CMD_Q_START => Some (on_queue x info (λ i h, call info i (qdma_queue_start h)))
  | XNL_CMD_Q_STOP => Some (on_queue x info (λ i h, call info i (qdma_queue_stop h)))
  | XNL_CMD_Q_DUMP => Some (on_queue x info (λ i h,
      with_buffer info (mret (- ENOMEM)) (call info i (total (qdma_queue_dump h)))))
  | XNL_CMD_Q_DESC => Some (ring_report x info qdma_queue_dump_desc)
  | XNL_CMD_Q_WRB => Some (ring_report x info qdma_queue_dump_wrb)
  | _ => None
  end.

(** ** Lemmas *)

(** What the driver sees of a request. *)
Definition req_info (x : xcmd_info) : nl_info :=
  NlInfo (op_z (op x)) (attrs_by_type ((λ tv, nla_u32 tv.1 tv.2) <$> request_attrs x)).

Lemma u32_attr_u32 t v : u32_attr (nla_u32 t v).
Proof. unfold u32_attr, attr_wf. split_and!; by destruct t. Qed.

Lemma request_attrs_length x : (length (request_attrs x) <= 6)%nat.
Proof. unfold request_attrs. destruct (op x); cbn; try lia. destruct (has_bit _ _); cbn; lia. Qed.

Lemma attrs_bytes_u32 l :
  Z.of_nat (length (attrs_bytes ((λ tv : xnl_attr_t * Z, nla_u32 tv.1 tv.2) <$> l))) = 8 * Z.of_nat (length l).
Proof.
  induction l as [|[t v] l IH]; [done|].
  rewrite fmap_cons. cbn [fst snd]. change (attrs_bytes (?a :: ?l)) with (nla_bytes a ++ attrs_bytes l).
  rewrite length_app, Nat2Z.inj_add, IH, nla_bytes_length.
  change (NLA_ALIGN (nla_len (nla_u32 t v))) with 8. cbn [length]. lia.
Qed.

Lemma request_bytes pid fam seq x :
  let m := (request pid fam x) <| nlmsg_seq := seq |> in
  msg_bytes m = hdr_bytes m ++ attrs_bytes ((λ tv, nla_u32 tv.1 tv.2) <$> request_attrs x) ∧
  g_cmd m = op_z (op x) ∧ nlmsg_len m = XNL_HDRLEN + 8 * Z.of_nat (length (request_attrs x)).
Proof.
  cbv zeta. unfold request.
  destruct (add_attrs_spec (request_attrs x) (xnl_msg_set_hdr pid fam (op x) xnl_msg_zero)) as (E1 & E2 & E3); [done|].
  cbv zeta in *. set (m := add_attrs _ _) in *. split; [|split].
  - unfold msg_bytes. f_equal. cbn [msg_data set eta xnl_msg_eta]. by rewrite E1.
  - cbn [g_cmd set eta xnl_msg_eta]. by rewrite E3.
  - cbn [nlmsg_len set eta xnl_msg_eta]. rewrite E2, E1. cbn [app xnl_msg_set_hdr xnl_msg_zero msg_data set eta xnl_msg_eta].
    by rewrite attrs_bytes_u32.
Qed.

Lemma deliver_request `{!Genl} pid fam seq x (s : nst D) :
  deliver (msg_bytes ((request pid fam x) <| nlmsg_seq := seq |>)) s =
  match xnl_ops (op_z (op x)) with Some h => h (req_info x) s | None => Some (- EOPNOTSUPP, s) end.
Proof.
  destruct (request_bytes pid fam seq x) as (E1 & E2 & E3). cbv zeta in *. pose proof (request_attrs_length x) as Hl.
  unfold deliver. rewrite E1, genl_parse_numbers.
  - cbn [i_cmd]. by rewrite E2.
  - apply Forall_fmap, Forall_true. intros tv. apply u32_attr_u32.
  - rewrite E2. by destruct (op x).
  - by rewrite attrs_bytes_u32.
  - rewrite E3. unfold XNL_HDRLEN. lia.
Qed.

Lemma has_testbit f b : 0 <= b → has f (2 ^ b) = Z.testbit f b.
Proof. intros Hb. rewrite <- has_bit_spec by done. unfold has, has_bit. by rewrite Z.shiftl_1_l. Qed.

(** The flags of a well-formed command are not refused. *)
Lemma qconf_get_wf info q (s : nst D) :
  q_wf q →
  i_attrs info XNL_ATTR_QFLAG = Some (nla_u32 XNL_ATTR_QFLAG (Cli.flags q)) →
  i_attrs info XNL_ATTR_QIDX = Some (nla_u32 XNL_ATTR_QIDX (idx q)) →
  qconf_get info s =
    Some (inr (QueueConf (u16 (idx q)) (Z.testbit (Cli.flags q) 0) (Z.testbit (Cli.flags q) 3) 0 "" 0), s).
Proof.
  intros [Hr Hm Hd] Ef Ei. unfold qconf_get, get_u32, mbind, NL_bind. rewrite Ef. cbn [mbind option_bind].
  rewrite nla_get_u32_u32 by (pose proof (qr_flags _ Hr); lia). set (f := Cli.flags q) in *.
  change XNL_F_QMODE_ST with (2 ^ 0). change XNL_F_QMODE_MM with (2 ^ 1).
  change XNL_F_QDIR_H2C with (2 ^ 2). change XNL_F_QDIR_C2H with (2 ^ 3).
  rewrite (has_testbit f 0), (has_testbit f 1), Hm, andb_negb_r, negb_involutive, andb_negb_l by done.
  rewrite (has_testbit f 2), (has_testbit f 3), Hd, andb_negb_r, negb_involutive, andb_negb_l by done.
  rewrite Ei. cbn [mbind option_bind]. rewrite nla_get_u32_u32 by apply (qr_idx _ Hr).
  unfold mret, NL_ret. rewrite (has_testbit f 0), (has_testbit f 3), Hd by done. do 4 f_equal.
  unfold XNL_QIDX_INVALID, QDMA_QUEUE_IDX_INVALID. by destruct (Z.eqb_spec (u16 (idx q)) 0xFFFF).
Qed.

(** The attributes of a queue command are there. *)
Lemma req_dev x : i_attrs (req_info x) XNL_ATTR_DEV_IDX = Some (nla_u32 XNL_ATTR_DEV_IDX (if_idx x)).
Proof. unfold req_info, request_attrs. cbn [i_attrs]. destruct (op x); try reflexivity. by destruct (has_bit _ _). Qed.

Definition queue_cmd (o : xnl_op_t) : bool :=
  bool_decide (o ∈ [XNL_CMD_Q_ADD; XNL_CMD_Q_START; XNL_CMD_Q_STOP; XNL_CMD_Q_DEL; XNL_CMD_Q_DUMP;
    XNL_CMD_Q_DESC; XNL_CMD_Q_WRB]).

Lemma req_queue x :
  queue_cmd (op x) = true →
  i_attrs (req_info x) XNL_ATTR_QFLAG = Some (nla_u32 XNL_ATTR_QFLAG (Cli.flags (u_qparm (u x)))) ∧
  i_attrs (req_info x) XNL_ATTR_QIDX = Some (nla_u32 XNL_ATTR_QIDX (idx (u_qparm (u x)))).
Proof.
  unfold req_info, request_attrs. cbn [i_attrs]. destruct (op x); try discriminate; intros _; try (split; reflexivity).
  by destruct (has_bit _ _).
Qed.

Lemma req_wrbsz x :
  op x = XNL_CMD_Q_ADD → has_bit (sflags (u_qparm (u x))) QPARM_WRBSZ = true →
  i_attrs (req_info x) XNL_ATTR_WRB_DESC_SIZE =
    Some (nla_u32 XNL_ATTR_WRB_DESC_SIZE (entry_size (u_qparm (u x)))).
Proof. unfold req_info, request_attrs. cbn [i_attrs]. by intros -> ->. Qed.

Lemma req_range x :
  op x = XNL_CMD_Q_DESC ∨ op x = XNL_CMD_Q_WRB →
  i_attrs (req_info x) XNL_ATTR_RANGE_START = Some (nla_u32 XNL_ATTR_RANGE_START (range_start (u_qparm (u x)))) ∧
  i_attrs (req_info x) XNL_ATTR_RANGE_END = Some (nla_u32 XNL_ATTR_RANGE_END (range_end (u_qparm (u x)))).
Proof. unfold req_info, request_attrs. cbn [i_attrs]. by intros [-> | ->]. Qed.

(** A queue command carries parameters that the driver accepts. *)
Lemma wf_queue x : xcmd_wf x → queue_cmd (op x) = true → q_wf (u_qparm (u x)).
Proof. intros (_ & Hu & _) Hop. destruct (op x), (u x); try discriminate; cbn [u_qparm]; by destruct Hu. Qed.

Definition named (x : xcmd_info) : qdma_queue_conf := (wanted x) <| conf_wrb_desc_size := 0 |>.

Lemma check_xpdev x (s : nst D) :
  0 <= if_idx x < 2 ^ 32 →
  xnl_rcv_check_xpdev (req_info x) s =
  match xpdev_find_by_idx (if_idx x) (devs s) with
  | Some (i, _) => Some (Some i, s)
  | None => Some (None, (xnl_respond_buffer (req_info x) s).2)
  end.
Proof.
  intros Hr. unfold xnl_rcv_check_xpdev, get_u32, mbind, NL_bind. rewrite req_dev. cbn [mbind option_bind].
  rewrite nla_get_u32_u32 by done. unfold lift, st_get. cbn [mbind option_bind].
  destruct (xpdev_find_by_idx (if_idx x) (devs s)) as [[i p]|]; [done|].
  cbn [mbind option_bind]. by destruct (xnl_respond_buffer _ _).
Qed.

Lemma with_qconf_wf x no_dev k (s : nst D) :
  xcmd_wf x → queue_cmd (op x) = true →
  with_qconf (req_info x) no_dev k s = on_function x no_dev (req_info x) (λ i, k i (named x)) s.
Proof.
  intros Hx Hop. destruct (req_queue x Hop) as [Ef Ei].
  unfold with_qconf, on_function, mbind, NL_bind. rewrite check_xpdev by (destruct Hx; lia).
  destruct (xpdev_find_by_idx (if_idx x) (devs s)) as [[i p]|]; cbn [mbind option_bind].
  - unfold mret at 1, NL_ret at 1. cbn [mbind option_bind].
    by rewrite (qconf_get_wf (req_info x) (u_qparm (u x)) s (wf_queue x Hx Hop) Ef Ei).
  - unfold lift. cbn [mbind option_bind]. by destruct (xnl_respond_buffer _ _).
Qed.

(** A command on a function only. *)
Lemma on_check x rv k (s : nst D) :
  xcmd_wf x →
  (i ← xnl_rcv_check_xpdev (req_info x); match i with None => mret rv | Some i => k i end) s =
  on_function x rv (req_info x) k s.
Proof.
  intros (Hr & _). unfold on_function, mbind, NL_bind. rewrite check_xpdev by lia.
  destruct (xpdev_find_by_idx _ _) as [[i p]|]; cbn [mbind option_bind]; [done|].
  unfold lift. cbn [mbind option_bind]. by destruct (xnl_respond_buffer _ _).
Qed.

Lemma on_function_ext x rv info k k' (s : nst D) :
  (∀ i s, k i s = k' i s) → on_function x rv info k s = on_function x rv info k' s.
Proof. intros Hk. unfold on_function. by destruct (xpdev_find_by_idx _ _) as [[i p]|]. Qed.

(** The dump of a ring reads the range first. *)
Lemma dump_ring_wf x dump (s : nst D) :
  xcmd_wf x → op x = XNL_CMD_Q_DESC ∨ op x = XNL_CMD_Q_WRB →
  dump_ring dump (req_info x) s = ring_report x (req_info x) dump s.
Proof.
  intros Hx Ho. assert (queue_cmd (op x) = true) as Hq by (by destruct Ho as [-> | ->]).
  destruct (req_range x Ho) as [E1 E2]. destruct (wf_queue x Hx Hq) as [Hr _ _].
  unfold dump_ring, get_u32. unfold mbind at 1, NL_bind at 1. rewrite E1. cbn [mbind option_bind].
  unfold mbind at 1, NL_bind at 1. rewrite E2. cbn [mbind option_bind].
  rewrite !nla_get_u32_u32 by apply Hr. unfold with_qdata. rewrite with_qconf_wf by done.
  by apply on_function_ext.
Qed.

(** A queue of the streaming mode comes with the size of its entries. *)
Lemma add_wrbsz x :
  xcmd_wf x → op x = XNL_CMD_Q_ADD →
  Z.testbit (Cli.flags (u_qparm (u x))) 3 && Z.testbit (Cli.flags (u_qparm (u x))) 0 = true →
  has_bit (sflags (u_qparm (u x))) QPARM_WRBSZ = true.
Proof.
  intros (_ & Hu & _) Eo. rewrite Eo in Hu. destruct (u x); [done|]. cbn [u_qparm]. destruct Hu as [_ Hu].
  rewrite andb_true_iff. intros [_ Hst]. by apply Hu.
Qed.

(** C15: from the command line to the driver, for every command the tool sends:
    the message it sends for a command line it accepts makes the driver do
    what the command asks ([asked]), on the function and the queue it names,
    whatever the state of the driver: no attribute is missing, no flag is
    refused, and the numbers the driver reads are those of the command line,
    but for the queue's index, which it cuts to 16 bits.  What the command
    asks is stated as the driver takes it: the sizes of the ring and of the
    buffers and the [cdev] option of [q add], which the tool accepts, are not
    part of it, since the driver does not use them. *)
Theorem control_refines `{!Genl} argv x m pid fam seq (s : nst D) :
  parse_cmd argv = Ok x → asked x (req_info x) = Some m →
  deliver (msg_bytes ((request pid fam x) <| nlmsg_seq := seq |>)) s = m s.
Proof.
  intros Ep Ha. rewrite deliver_request.
  assert (xcmd_wf x) as Hx.
  { destruct (parse_cmd_cases argv) as [[_ Ec]|[_ [Hy|[c Ec]]]]; [congruence| |congruence]. by rewrite Ep in Hy. }
  unfold asked in Ha.
  destruct (op x) eqn:Eo; try discriminate; injection Ha as <-; cbn [op_z].
  - done.
  - change (xnl_ops 1) with (Some (xnl_dev_info (D := D))). cbn iota. unfold xnl_dev_info. by rewrite on_check.
  - change (xnl_ops 5) with (Some (xnl_q_list (D := D))). cbn iota. unfold xnl_q_list.
    by rewrite (on_check x 0 (λ _, report (req_info x))).
  - change (xnl_ops 6) with (Some (xnl_q_add (D := D))). cbn iota. unfold xnl_q_add.
    rewrite with_qconf_wf by (done || by rewrite Eo). apply on_function_ext. intros i s1.
    change (c2h (named x)) with (Z.testbit (Cli.flags (u_qparm (u x))) 3).
    change (st (named x)) with (Z.testbit (Cli.flags (u_qparm (u x))) 0).
    assert ((named x) <| conf_wrb_desc_size := conf_wrb_desc_size (wanted x) |> = wanted x) as En by done.
    revert En. unfold wanted at 1. cbn [conf_wrb_desc_size].
    destruct (Z.testbit _ 3 && Z.testbit _ 0) eqn:E; intros En; [|by rewrite <- En].
    unfold get_u8, mbind, NL_bind. rewrite req_wrbsz; [|done|by apply add_wrbsz].
    cbn [mbind option_bind]. by rewrite nla_get_u8_u32, En.
  - change (xnl_ops 7) with (Some (xnl_q_start (D := D))). cbn iota.
    unfold xnl_q_start, with_qdata. rewrite with_qconf_wf by (done || by rewrite Eo).
    apply on_function_ext. reflexivity.
  - change (xnl_ops 8) with (Some (xnl_q_stop (D := D))). cbn iota.
    unfold xnl_q_stop, with_qdata. rewrite with_qconf_wf by (done || by rewrite Eo).
    apply on_function_ext. reflexivity.
  - change (xnl_ops 9) with (Some (xnl_q_del (D := D))). cbn iota.
    unfold xnl_q_del. rewrite with_qconf_wf by (done || by rewrite Eo). by apply on_function_ext.
  - change (xnl_ops 10) with (Some (xnl_q_dump (D := D))). cbn iota.
    unfold xnl_q_dump, with_qdata. rewrite with_qconf_wf by (done || by rewrite Eo). by apply on_function_ext.
  - change (xnl_ops 11) with (Some (xnl_q_dump_desc (D := D))). cbn iota. apply dump_ring_wf; [done|]. rewrite Eo. auto.
  - change (xnl_ops 12) with (Some (xnl_q_dump_wrb (D := D))). cbn iota. apply dump_ring_wf; [done|]. rewrite Eo. auto.
Qed.

(** A command line run by the tool, and several, as long as nothing faults. *)
Definition served `{!Genl} (pid fam : Z) (line : list string) : NL D Z :=
  match parse_cmd line with
  | Ok x => deliver (msg_bytes (request pid fam x))
  | _ => λ _, None
  end.

Fixpoint served_all `{!Genl} (pid fam : Z) (lines : list (list string)) : NL D (list Z) :=
  match lines with
  | [] => mret []
  | l :: lines => rv ← served pid fam l; rvs ← served_all pid fam lines; mret (rv :: rvs)
  end.

End control.

(** ** A concrete run *)

Module SampleCtl.
Import SimGenl.

(** One function with two queues, whose allocations succeed. *)
Definition ready : sys SimHw.t :=
  init_sys <| s_is ::= λ i, i <| i_coh := [Some 0x10000; Some 0x20000; Some 0x30000] |> |>.
Definition s0 : nst SimHw.t :=
  Nst [(xp SampleX.x0) <| xp_idx := 0 |> <| xp_sys := ready |>] SampleX.os [] 0 [].

Definition q (verb : string) : list string :=
  ["dmactl"; "qdma0"; "q"; verb; "idx"; "0"; "mode"; "mm"; "dir"; "h2c"].

Definition run (lines : list (list string)) : option (list Z) := fst <$> served_all 1 20 lines s0.

(** A queue that is deleted while it runs stays in the list of its service
    thread; added and started again, it is linked twice and the list is
    corrupt.  Stopped first, it can be started again. *)
Example restart_after_delete_faults :
  run [q "add"; q "start"; q "del"; q "add"] = Some [0; 0; 0; 0] ∧
  run [q "add"; q "start"; q "del"; q "add"; q "start"] = None ∧
  run [q "add"; q "start"; q "stop"; q "del"; q "add"; q "start"] = Some [0; 0; 0; 0; 0; 0].
Proof. split_and!; by vm_compute. Qed.
End SampleCtl.

Lemma control_refines_witness : ∃ x m rv s,
  parse_cmd (SampleCtl.q "add") = Ok x ∧ asked x (req_info x) = Some m ∧ m SampleCtl.s0 = Some (rv, s) ∧ rv = 0 ∧
  deliver (H := SimGenl.genl) (msg_bytes ((request 1 20 x) <| nlmsg_seq := 7 |>)) SampleCtl.s0 = m SampleCtl.s0.
Proof.
  destruct (parse_cmd (SampleCtl.q "add")) as [x| | |] eqn:Ex; [|by vm_compute in Ex..].
  destruct (asked (D := SimHw.t) x (req_info x)) as [m|] eqn:Em; [|by vm_compute in Ex; injection Ex as <-].
  assert (∃ rv s, m SampleCtl.s0 = Some (rv, s) ∧ rv = 0) as (rv & s & Hm & Hrv).
  { vm_compute in Ex. injection Ex as <-. injection Em as <-. eexists _, _. split; [by vm_compute|done]. }
  exists x, m, rv, s. split_and!; [done..|]. by apply (control_refines (SampleCtl.q "add")).
Defined.
