(* ===== verification/Dmactl.v ===== *)
(** * The tool: register access and main (regs.c, reg_defs_qdma.c, nl_user.c)

    Registers are read and written through the file of a BAR in sysfs, mapped
    into the tool; files and mappings are a parameter ([Bars]) whose laws
    ([BarLaws]) say what the kernel promises.  [main] asks the driver for the
    function's address and BARs and then serves the command. *)

From stdpp Require Import strings.
From Stdlib Require Import Ascii.
From S2P Require Import Prelude Regs Types Context Sgl Descq RxQueue Thread Resource Intr Queue Api.
From S2P Require Import Cdev Xpdev Dump Xnl Cstring Cli NlUser Nl.
#[local] Open Scope Z_scope.

(** ** The tables of registers (nl_user.h, reg_defs_qdma.c) *)

Record xreg_info := Xreg { x_name : string; x_addr : Z; x_repeat : Z; x_step : Z; x_shift : Z; x_len : Z }.

(** An entry that is no bit field. *)
Definition reg_at (name : string) (addr repeat step : Z) : xreg_info := Xreg name addr repeat step 0 0.

Definition qdma_config_bar_max_addr : Z := 0xB400.
Definition qdma_config_regs : list xreg_info :=
  [reg_at "GLBL_RNGSZ" 0x204 16 0; reg_at "GLBL_SCRATCH" 0x244 0 0; reg_at "GLBL_ERR_STAT" 0x248 0 0;
   reg_at "GLBL_ERR_MASK" 0x24C 0 0; reg_at "GLBL_WB_ACC" 0x250 0 0; reg_at "GLBL_DSC_ERR_STS" 0x254 0 0;
   reg_at "GLBL_DSC_ERR_MSK" 0x258 0 0; reg_at "GLBL_DSC_ERR_LOG" 0x25C 0 0;
   reg_at "GLBL_TRQ_ERR_STS" 0x260 0 0; reg_at "GLBL_TRQ_ERR_MSK" 0x264 0 0;
   reg_at "GLBL_TRQ_ERR_LOG" 0x268 0 0; reg_at "TRQ_SEL_FMAP" 0x400 2 0; reg_at "IND_CTXT_DATA" 0x804 4 0;
   reg_at "IND_CTXT_MASK" 0x814 4 0; reg_at "IND_CTXT_CMD" 0x824 0 0; reg_at "IND_CAUSE" 0x828 0 0;
   reg_at "IND_ENABLE" 0x82C 0 0; reg_at "C2H_TIMER_CNT" 0xA00 16 0; reg_at "C2H_CNT_THRESH" 0xA40 16 0;
   reg_at "C2H_QID2VEC_MAP_QID" 0xA80 0 0; reg_at "C2H_QID2VEC_MAP" 0xA84 0 0;
   reg_at "C2H_STAT_S_AXIS_C2H_ACCEPTED" 0xA88 0 0; reg_at "C2H_STAT_S_AXIS_WRB_ACCEPTED" 0xA8C 0 0;
   reg_at "C2H_STAT_DESC_RSP_PKT_ACCEPTED" 0xA90 0 0; reg_at "C2H_STAT_AXIS_PKG_CMP" 0xA94 0 0;
   reg_at "C2H_STAT_DESC_RSP_ACCEPTED" 0xA98 0 0; reg_at "C2H_STAT_DESC_RSP_CMP" 0xA9C 0 0;
   reg_at "C2H_STAT_WRQ_OUT" 0xAA0 0 0; reg_at "C2H_STAT_WPL_REN_ACCEPTED" 0xAA4 0 0;
   reg_at "C2H_STAT_TOTAL_WRQ_LEN" 0xAA8 0 0; reg_at "C2H_STAT_TOTAL_WPL_LEN" 0xAAC 0 0;
   reg_at "C2H_BUF_SZ" 0xAB0 16 0; reg_at "C2H_ERR_STAT" 0xAF0 0 0; reg_at "C2H_ERR_MASK" 0xAF4 0 0;
   reg_at "C2H_FATAL_ERR_STAT" 0xAF8 0 0; reg_at "C2H_FATAL_ERR_MASK" 0xAFC 0 0;
   reg_at "C2H_FATAL_ERR_ENABLE" 0xB00 0 0; reg_at "C2H_ERR_INT" 0xB04 0 0; reg_at "C2H_PFCH_CFG" 0xB08 0 0;
   reg_at "C2H_INT_TIMER_TICK" 0xB0C 0 0; reg_at "C2H_STAT_DESC_RSP_DROP_ACCEPTED" 0xB10 0 0;
   reg_at "C2H_STAT_DESC_RSP_ERR_ACCEPTED" 0xB14 0 0; reg_at "C2H_STAT_DESC_REQ" 0xB18 0 0;
   reg_at "C2H_STAT_DEBUG_DMA_ENG_0" 0xB1C 0 0; reg_at "C2H_STAT_DEBUG_DMA_ENG_1" 0xB20 0 0;
   reg_at "C2H_STAT_DEBUG_DMA_ENG_2" 0xB24 0 0; reg_at "C2H_STAT_DEBUG_DMA_ENG_3" 0xB28 0 0;
   reg_at "C2H_DBG_PFCH_ERR_CTXT" 0xB2C 0 0; reg_at "C2H_FIRST_ERR_QID" 0xB30 0 0;
   reg_at "C2H_MM0_CONTROL" 0x1004 0 0; reg_at "C2H_MM1_CONTROL" 0x1104 0 0;
   reg_at "H2C_MM0_CONTROL" 0x1204 0 0; reg_at "H2C_MM1_CONTROL" 0x1304 0 0;
   reg_at "DMAP_SEL_INT_CIDX" 0x6400 64 0x10; reg_at "DMAP_SEL_H2C_DSC_PIDX" 0x6404 64 0x10;
   reg_at "DMAP_SEL_C2H_DSC_PIDX" 0x6408 64 0x10; reg_at "DMAP_SEL_WRB_CIDX" 0x640C 64 0x10].

Definition qdma_user_max_addr : Z := 0x24.
Definition qdma_user_regs : list xreg_info :=
  [reg_at "ST_C2H_QID" 0x0 0 0; reg_at "ST_C2H_PKTLEN" 0x4 0 0; reg_at "ST_C2H_CONTROL" 0x8 0 0;
   reg_at "ST_H2C_CONTROL" 0xC 0 0; reg_at "ST_H2C_QID_MATCH" 0x10 0 0; reg_at "ST_H2C_XFER_CNT" 0x14 0 0;
   reg_at "ST_C2H_PKT_CNT" 0x20 0 0; reg_at "ST_C2H_WRB_DATA" 0x30 8 0; reg_at "ST_C2H_WRB_TYPE" 0x50 0 0;
   reg_at "ST_SCRATCH_PAD" 0x60 2 0].

(** ** Files and mappings *)

(** [open] for reading and writing or for reading, [mmap] of a file's first
    bytes for writing or for reading ([None]: [MAP_FAILED]), [close],
    [munmap], and the access to a 32-bit word of a mapping, which faults
    outside of it.  Words are in the order of the host ([le32toh] is the
    identity). *)
Class Bars (W : Type) := {
  b_open : string → bool → ST W Z;
  b_mmap : Z → Z → bool → ST W (option nat);
  b_close : Z → ST W unit;
  b_munmap : nat → Z → ST W unit;
  b_load : nat → Z → ST W (option Z);
  b_store : nat → Z → Z → ST W bool }.

(** ** Output and results *)

(** A printed line: the arguments of its [printf]. *)
Inductive line :=
  | L_sep
  | L_dump (if_idx bus dev func : Z)
  | L_bar (user : bool) (no : Z)
  | L_reg (addr : Z) (name : string) (v : Z)
  | L_field (hi lo : Z) (name : string) (v : Z)
  | L_read (if_idx bus dev func barno reg v : Z)
  | L_write (if_idx bus dev func barno reg val v : Z).

(** [exit], or undefined behaviour: an access outside a mapping, a read
    outside a message, an undefined command line. *)
Inductive stop := Exited (code : Z) | Undefined.

Definition TOOL (W A : Type) : Type := W * list line → (A + stop) * (W * list line).
#[export] Instance TOOL_ret W : MRet (TOOL W) := λ A a s, (inl a, s).
#[export] Instance TOOL_bind W : MBind (TOOL W) := λ A B f m s,
  match m s with (inl a, s) => f a s | (inr e, s) => (inr e, s) end.

Definition halt {W A} (e : stop) : TOOL W A := λ s, (inr e, s).
Definition os {W A} (m : ST W A) : TOOL W A := λ s, let '(a, w) := m s.1 in (inl a, (w, s.2)).
Definition print {W} (l : list line) : TOOL W unit := λ s, (inl tt, (s.1, s.2 ++ l)).

(** Undefined without a result. *)
Definition defined {W A} (a : option A) : TOOL W A := match a with Some a => mret a | None => halt Undefined end.

(** ** Registers *)

(** [struct xdev_info] *)
Record xdev_info := XdevInfo { xi_bus : Z; xi_dev : Z; xi_func : Z; xi_config_bar : Z; xi_user_bar : Z }.

(** [%02x] and [%x] of an [unsigned char]. *)
Definition hex2 (v : Z) : string := String (hex_digit (v / 16)) (String (hex_digit (v mod 16)) EmptyString).
Definition hex (v : Z) : string := if v <? 16 then String (hex_digit v) EmptyString else hex2 v.

(** [get_syspath_bar_mmap] *)
Definition syspath (x : xdev_info) (barno : Z) : string :=
  "/sys/bus/pci/devices/0000:" +:+ hex2 (xi_bus x) +:+ ":" +:+ hex2 (xi_dev x) +:+ "." +:+ hex (xi_func x) +:+
  "/resource" +:+ show barno.

Section regs.
Context {W : Type} `{!Bars W}.

Definition mmap_bar (fname : string) (len : Z) (write : bool) : ST W (option nat) :=
  fd ← b_open fname write;
  if fd <? 0 then mret None else
  bar ← b_mmap fd len write;
  _ ← b_close fd;
  mret bar.

(** [mmap_bar], and [err] when it fails. *)
Definition map_or_exit (fname : string) (len : Z) (write : bool) : TOOL W nat :=
  bar ← os (mmap_bar fname len write);
  match bar with Some b => mret b | None => halt (Exited 1) end.

(** [bar[addr / 4]] *)
Definition load (b : nat) (addr : Z) : TOOL W Z := v ← os (b_load b (addr / 4)); defined v.

(** [barno] is an [unsigned char], [addr] a 32-bit number. *)
Definition reg_read_mmap (x : xdev_info) (barno addr : Z) : TOOL W Z :=
  b ← map_or_exit (syspath x barno) (u32 (addr + 4)) false;
  v ← load b addr;
  _ ← os (b_munmap b (u32 (addr + 4)));
  mret v.

Definition reg_write_mmap (x : xdev_info) (barno addr v : Z) : TOOL W unit :=
  b ← map_or_exit (syspath x barno) (u32 (addr + 4)) true;
  ok ← os (b_store b (addr / 4) v);
  if negb ok then halt Undefined else
  os (b_munmap b (u32 (addr + 4))).

(** The registers [i], .. of a repeated entry; [name] is a [char[40]]. *)
Fixpoint dump_repeat (b : nat) (name : string) (cnt : nat) (i addr step : Z) : TOOL W unit :=
  match cnt with
  | O => mret tt
  | S cnt =>
      v ← load b addr;
      _ ← (if 40 <=? Z.of_nat (String.length (name +:+ "_" +:+ show i)) then halt Undefined else mret tt);
      _ ← print [L_reg addr (name +:+ "_" +:+ show i) v];
      dump_repeat b name cnt (i + 1) (u32 (addr + step)) step
  end.

Definition dump_entry (b : nat) (r : xreg_info) : TOOL W unit :=
  if x_len r =? 0 then
    if negb (x_repeat r =? 0) then
      dump_repeat b (x_name r) (Z.to_nat (s32 (x_repeat r))) 0 (x_addr r)
        (if negb (x_step r =? 0) then s32 (x_step r) else 4)
    else v ← load b (x_addr r); print [L_reg (x_addr r) (x_name r) v]
  else
    v ← load b (x_addr r);
    let f := Z.land (Z.shiftr v (x_shift r)) (Z.shiftl 1 (x_len r) - 1) in
    print [L_field (x_shift r + x_len r - 1) (x_shift r) (x_name r) f].

Fixpoint dump_entries (b : nat) (l : list xreg_info) : TOOL W unit :=
  match l with [] => mret tt | r :: l => _ ← dump_entry b r; dump_entries b l end.

Definition reg_dump_mmap (x : xdev_info) (barno : Z) (l : list xreg_info) (max : Z) : TOOL W unit :=
  b ← map_or_exit (syspath x barno) max false;
  _ ← dump_entries b l;
  os (b_munmap b max).

(** The attributes a register command needs. *)
Definition reg_mask : Z := or_bits ((λ a, Z.shiftl 1 (attr_z a)) <$>
  [XNL_ATTR_PCI_BUS; XNL_ATTR_PCI_DEV; XNL_ATTR_PCI_FUNC; XNL_ATTR_DEV_CFG_BAR; XNL_ATTR_DEV_USR_BAR]).

(** [xdev] from the attributes. *)
Definition reg_target (x : xcmd_info) : xdev_info :=
  let at_ a := u8 (array (attrs x) (Z.to_nat (attr_z a))) in
  XdevInfo (at_ XNL_ATTR_PCI_BUS) (at_ XNL_ATTR_PCI_DEV) (at_ XNL_ATTR_PCI_FUNC)
    (at_ XNL_ATTR_DEV_CFG_BAR) (at_ XNL_ATTR_DEV_USR_BAR).

Definition reg_proc_cmd (x : xcmd_info) : TOOL W Z :=
  let r := u_reg (u x) in
  if negb (Z.land (attr_mask x) reg_mask =? reg_mask) then mret (- EINVAL) else
  let d := reg_target x in
  let barno := if negb (Z.land (r_sflags r) XCMD_REG_F_BAR_SET =? 0) then bar r else xi_config_bar d in
  _ ← match op x with
      | XNL_CMD_REG_RD =>
          v ← reg_read_mmap d (u8 barno) (reg r);
          print [L_read (if_idx x) (xi_bus d) (xi_dev d) (xi_func d) barno (reg r) v]
      | XNL_CMD_REG_WRT =>
          _ ← reg_write_mmap d (u8 barno) (reg r) (val r);
          v ← reg_read_mmap d (u8 barno) (reg r);
          print [L_write (if_idx x) (xi_bus d) (xi_dev d) (xi_func d) barno (reg r) (val r) v]
      | XNL_CMD_REG_DUMP =>
          _ ← print [L_sep; L_dump (if_idx x) (xi_bus d) (xi_dev d) (xi_func d); L_sep;
                     L_bar true (xi_user_bar d)];
          _ ← reg_dump_mmap d (xi_user_bar d) qdma_user_regs qdma_user_max_addr;
          _ ← print [L_bar false (xi_config_bar d)];
          reg_dump_mmap d (xi_config_bar d) qdma_config_regs qdma_config_bar_max_addr
      | _ => mret tt
      end;
  mret 0.

(** ** The program *)

Context `{!Socket W}.

(** One server of [dev list]: its result is not looked at. *)
Definition list_devices (pid : Z) (is_vf : bool) (x : xcmd_info) : TOOL W (Z * xcmd_info) :=
  r ← os (xnl_connect pid is_vf (XnlCb 0 0 0));
  '(rv, cb) ← defined r;
  '(rv, cb, x) ← (if rv =? 0 then r ← os (xnl_send_cmd pid cb x); defined r else mret (rv, cb, x));
  _ ← os (xnl_close cb);
  mret (rv, x).

(** [pid] is [getpid()]; the socket is closed a second time at [close]. *)
Definition main (pid : Z) (argv : list string) : TOOL W Z :=
  match parse_cmd argv with
  | Bad => mret (- EINVAL)
  | Exit c => halt (Exited c)
  | Crash => halt Undefined
  | Ok x =>
      match op x with
      | XNL_CMD_DEV_LIST =>
          '(_, x) ← list_devices pid false x;
          r ← os (xnl_connect pid true (XnlCb 0 0 0));
          '(rv, cb) ← defined r;
          '(rv, cb, x) ← (if rv =? 0 then r ← os (xnl_send_cmd pid cb x); defined r else mret (rv, cb, x));
          _ ← os (xnl_close cb);
          _ ← os (xnl_close cb);
          mret rv
      | op0 =>
          r ← os (xnl_connect pid (vf x) (XnlCb 0 0 0));
          '(rv, cb) ← defined r;
          '(rv, cb) ← (if rv <? 0 then mret (rv, cb) else
            r ← os (xnl_send_cmd pid cb (x <| op := XNL_CMD_DEV_INFO |>));
            '(rv, cb, x) ← defined r;
            let x := x <| op := op0 |> in
            if rv <? 0 then mret (rv, cb) else
            match op0 with
            | XNL_CMD_REG_DUMP | XNL_CMD_REG_RD | XNL_CMD_REG_WRT => rv ← reg_proc_cmd x; mret (rv, cb)
            | _ => r ← os (xnl_send_cmd pid cb x); '(rv, cb, _) ← defined r; mret (rv, cb)
            end);
          _ ← os (xnl_close cb);
          mret rv
      end
  end.

End regs.

(** ** What the kernel promises *)

(** A mapping covers whole pages. *)
Definition page_up (n : Z) : Z := (n + 4095) / 4096 * 4096.

(** The open files and the mappings (the file, the length, whether for
    writing); the word of a file a load would give; the words written so
    far.  Registers may change by themselves when one is accessed; an access
    outside the pages of a mapping faults. *)
Class BarLaws (W : Type) `{!Bars W} := {
  fds : W → gmap Z string;
  maps : W → gmap nat (string * Z * bool);
  peek : W → string → Z → Z;
  wrote : W → list (string * Z * Z);
  open_law p wr w : let '(fd, w') := b_open p wr w in
    maps w' = maps w ∧ peek w' = peek w ∧ wrote w' = wrote w ∧
    ((fd < 0 ∧ fds w' = fds w) ∨ (0 <= fd ∧ fds w !! fd = None ∧ fds w' = <[fd := p]> (fds w)));
  mmap_law fd p len wr w : fds w !! fd = Some p → let '(b, w') := b_mmap fd len wr w in
    fds w' = fds w ∧ peek w' = peek w ∧ wrote w' = wrote w ∧
    match b with
    | None => maps w' = maps w
    | Some b => maps w !! b = None ∧ maps w' = <[b := (p, len, wr)]> (maps w)
    end;
  close_law fd w : let '(_, w') := b_close fd w in
    fds w' = delete fd (fds w) ∧ maps w' = maps w ∧ peek w' = peek w ∧ wrote w' = wrote w;
  munmap_law b len w : let '(_, w') := b_munmap b len w in
    fds w' = fds w ∧ maps w' = delete b (maps w) ∧ peek w' = peek w ∧ wrote w' = wrote w;
  load_law b p len i w : maps w !! b = Some (p, len, false) → 0 <= i → 4 * i < page_up len →
    ∃ w', b_load b i w = (Some (peek w p i), w') ∧
      fds w' = fds w ∧ maps w' = maps w ∧ wrote w' = wrote w;
  store_law b p len i v w : maps w !! b = Some (p, len, true) → 0 <= i → 4 * i < page_up len →
    ∃ w', b_store b i v w = (true, w') ∧
      fds w' = fds w ∧ maps w' = maps w ∧ wrote w' = wrote w ++ [(p, i, v)];
  load_out b p len i w : maps w !! b = Some (p, len, false) → page_up len <= 4 * i → b_load b i w = (None, w);
  store_out b p len i v w : maps w !! b = Some (p, len, true) → page_up len <= 4 * i → b_store b i v w = (false, w) }.

(** ** Lemmas *)

Section laws.
Context {W : Type} `{!Bars W, !BarLaws W}.
Implicit Types (w : W) (out : list line).

(** Files and mappings are as before, and so are the words written. *)
Definition clean w w' : Prop := fds w' = fds w ∧ maps w' = maps w.

Lemma tool_ok {A B} (m : TOOL W A) (f : A → TOOL W B) s a s' : m s = (inl a, s') → (m ≫= f) s = f a s'.
Proof. intros E. unfold mbind, TOOL_bind. by rewrite E. Qed.

Lemma tool_stop {A B} (m : TOOL W A) (f : A → TOOL W B) s e s' : m s = (inr e, s') → (m ≫= f) s = (inr e, s').
Proof. intros E. unfold mbind, TOOL_bind. by rewrite E. Qed.

Lemma os_eq {A} (m : ST W A) w out a w' : m w = (a, w') → os m (w, out) = (inl a, (w', out)).
Proof. intros E. unfold os. cbn. by rewrite E. Qed.

Lemma page_up_le n : n <= page_up n.
Proof. unfold page_up. pose proof (Z.div_mod (n + 4095) 4096). pose proof (Z.mod_pos_bound (n + 4095) 4096). lia. Qed.

(** Mapping: an exit with all as before, or a new mapping of the file. *)
Lemma map_spec fname len wr w out :
  ∃ w', fds w' = fds w ∧ peek w' = peek w ∧ wrote w' = wrote w ∧
    ((map_or_exit fname len wr (w, out) = (inr (Exited 1), (w', out)) ∧ maps w' = maps w) ∨
     ∃ b, map_or_exit fname len wr (w, out) = (inl b, (w', out)) ∧
       maps w !! b = None ∧ maps w' = <[b := (fname, len, wr)]> (maps w)).
Proof.
  unfold map_or_exit, mmap_bar, os, mbind, TOOL_bind, ST_bind. cbn [fst snd].
  pose proof (open_law fname wr w) as Ho. destruct (b_open fname wr w) as [fd w1].
  destruct Ho as (Hm1 & Hp1 & Hw1 & [[Hfd Hf1]|(Hfd & Hnew & Hf1)]).
  { rewrite (proj2 (Z.ltb_lt _ _)) by done. exists w1. split_and!; [done..|]. by left. }
  rewrite (proj2 (Z.ltb_ge _ _)) by done.
  assert (fds w1 !! fd = Some fname) as Hin by (by rewrite Hf1, lookup_insert_eq).
  pose proof (mmap_law fd fname len wr w1 Hin) as Hmm. destruct (b_mmap fd len wr w1) as [b w2].
  destruct Hmm as (Hf2 & Hp2 & Hw2 & Hm2). pose proof (close_law fd w2) as Hc. destruct (b_close fd w2) as [u w3].
  destruct Hc as (Hf3 & Hm3 & Hp3 & Hw3). exists w3.
  assert (fds w3 = fds w) as -> by (by rewrite Hf3, Hf2, Hf1, delete_insert_id).
  rewrite Hp3, Hp2, Hp1, Hw3, Hw2, Hw1, Hm3. split_and!; [done..|]. rewrite <- Hm1. destruct b as [b|].
  - right. exists b.
    split; [done|]. exact Hm2.
  - left. by rewrite Hm2.
Qed.

Lemma load_spec b p len addr w out :
  maps w !! b = Some (p, len, false) → 0 <= addr < page_up len →
  ∃ w', load b addr (w, out) = (inl (peek w p (addr / 4)), (w', out)) ∧ clean w w' ∧ wrote w' = wrote w.
Proof.
  intros Hb Ha. pose proof (Z.div_pos addr 4 ltac:(lia) ltac:(lia)).
  destruct (load_law b p len (addr / 4) w Hb) as (w' & E & Hf & Hm & Hw); [done|pose proof (Z.mul_div_le addr 4); lia|].
  exists w'. split; [|by repeat split]. unfold load. by rewrite (tool_ok _ _ _ _ _ (os_eq _ _ out _ _ E)).
Qed.

Lemma unmap_spec b len w out :
  ∃ w', os (b_munmap b len) (w, out) = (inl tt, (w', out)) ∧
    fds w' = fds w ∧ maps w' = delete b (maps w) ∧ peek w' = peek w ∧ wrote w' = wrote w.
Proof.
  pose proof (munmap_law b len w) as H. destruct (b_munmap b len w) as [[] w'] eqn:E.
  exists w'. split; [by apply os_eq|done].
Qed.

(** Reading a register. *)
Lemma read_mmap_spec x barno addr w out :
  0 <= addr < 2 ^ 32 - 4 →
  ∃ r w', reg_read_mmap x barno addr (w, out) = (r, (w', out)) ∧ clean w w' ∧ wrote w' = wrote w ∧
    (r = inr (Exited 1) ∨ r = inl (peek w (syspath x barno) (addr / 4))).
Proof.
  intros Ha. unfold reg_read_mmap.
  assert (u32 (addr + 4) = addr + 4) as -> by (apply Z.mod_small; lia).
  destruct (map_spec (syspath x barno) (addr + 4) false w out) as (w1 & Hf & Hp & Hw & [[E Hm]|(b & E & Hn & Hm)]).
  { rewrite (tool_stop _ _ _ _ _ E). eexists _, w1. split_and!; [done..|]. by left. }
  rewrite (tool_ok _ _ _ _ _ E). pose proof (page_up_le (addr + 4)).
  destruct (load_spec b (syspath x barno) (addr + 4) addr w1 out) as (w2 & E2 & [Hf2 Hm2] & Hw2);
    [by rewrite Hm, lookup_insert_eq|lia|].
  rewrite (tool_ok _ _ _ _ _ E2).
  destruct (unmap_spec b (addr + 4) w2 out) as (w3 & E3 & Hf3 & Hm3 & _ & Hw3). rewrite (tool_ok _ _ _ _ _ E3).
  eexists _, w3. split; [done|]. unfold clean. rewrite Hf3, Hf2, Hf, Hm3, Hm2, Hm, delete_insert_id by done.
  rewrite Hw3, Hw2, Hw, Hp. split_and!; [done..|]. by right.
Qed.

(** Writing a register. *)
Lemma write_mmap_spec x barno addr v w out :
  0 <= addr < 2 ^ 32 - 4 →
  ∃ r w', reg_write_mmap x barno addr v (w, out) = (r, (w', out)) ∧ clean w w' ∧
    ((r = inr (Exited 1) ∧ wrote w' = wrote w) ∨
     (r = inl tt ∧ wrote w' = wrote w ++ [(syspath x barno, addr / 4, v)])).
Proof.
  intros Ha. unfold reg_write_mmap.
  assert (u32 (addr + 4) = addr + 4) as -> by (apply Z.mod_small; lia).
  destruct (map_spec (syspath x barno) (addr + 4) true w out) as (w1 & Hf & Hp & Hw & [[E Hm]|(b & E & Hn & Hm)]).
  { rewrite (tool_stop _ _ _ _ _ E). eexists _, w1. split_and!; [done..|]. by left. }
  rewrite (tool_ok _ _ _ _ _ E).
  pose proof (page_up_le (addr + 4)). pose proof (Z.mul_div_le addr 4). pose proof (Z.div_pos addr 4 ltac:(lia) ltac:(lia)).
  destruct (store_law b (syspath x barno) (addr + 4) (addr / 4) v w1) as (w2 & E2 & Hf2 & Hm2 & Hw2);
    [by rewrite Hm, lookup_insert_eq|lia|lia|].
  rewrite (tool_ok _ _ _ _ _ (os_eq _ _ out _ _ E2)). cbn [negb].
  destruct (unmap_spec b (addr + 4) w2 out) as (w3 & -> & Hf3 & Hm3 & _ & Hw3).
  eexists _, w3. split; [done|]. unfold clean. rewrite Hf3, Hf2, Hf, Hm3, Hm2, Hm, delete_insert_id by done.
  rewrite Hw3, Hw2, Hw. split_and!; [done..|]. by right.
Qed.

(** The last four addresses: the length of the mapping wraps around. *)
Definition far (addr : Z) : Prop := 2 ^ 32 - 4 <= addr < 2 ^ 32.

Lemma far_outside addr : far addr → page_up (u32 (addr + 4)) <= 4 * (addr / 4).
Proof.
  intros Ha. unfold far in Ha. assert (u32 (addr + 4) = addr + 4 - 2 ^ 32) as ->
    by (unfold u32; symmetry; apply (Z.mod_unique_pos _ _ 1); lia).
  assert (page_up (addr + 4 - 2 ^ 32) <= 4096).
  { unfold page_up. assert ((addr + 4 - 2 ^ 32 + 4095) / 4096 < 2) by (apply Z.div_lt_upper_bound; lia). lia. }
  pose proof (Z.div_mod addr 4 ltac:(lia)). pose proof (Z.mod_pos_bound addr 4 ltac:(lia)). lia.
Qed.

(** A command that fails before it has touched a register. *)
Definition failed {A} (r : A + stop) w w' : Prop :=
  wrote w' = wrote w ∧ ((r = inr (Exited 1) ∧ clean w w') ∨ r = inr Undefined).

Lemma read_far x barno addr w out : far addr →
  ∃ r w', reg_read_mmap x barno addr (w, out) = (r, (w', out)) ∧ failed r w w'.
Proof.
  intros Ha. unfold reg_read_mmap.
  destruct (map_spec (syspath x barno) (u32 (addr + 4)) false w out) as (w1 & Hf & Hp & Hw & [[E Hm]|(b & E & Hn & Hm)]).
  { rewrite (tool_stop _ _ _ _ _ E). eexists _, w1. split; [done|]. split; [done|]. by left. }
  rewrite (tool_ok _ _ _ _ _ E). eexists _, w1. split; [|split; [done|by right]].
  apply tool_stop. unfold load. erewrite tool_ok; [|apply os_eq, (load_out b (syspath x barno) (u32 (addr + 4)));
    [by rewrite Hm, lookup_insert_eq|by apply far_outside]]. done.
Qed.

Lemma write_far x barno addr v w out : far addr →
  ∃ r w', reg_write_mmap x barno addr v (w, out) = (r, (w', out)) ∧ failed r w w'.
Proof.
  intros Ha. unfold reg_write_mmap.
  destruct (map_spec (syspath x barno) (u32 (addr + 4)) true w out) as (w1 & Hf & Hp & Hw & [[E Hm]|(b & E & Hn & Hm)]).
  { rewrite (tool_stop _ _ _ _ _ E). eexists _, w1. split; [done|]. split; [done|]. by left. }
  rewrite (tool_ok _ _ _ _ _ E). eexists _, w1. split; [|split; [done|by right]].
  erewrite tool_ok; [|apply os_eq, (store_out b (syspath x barno) (u32 (addr + 4)));
    [by rewrite Hm, lookup_insert_eq|by apply far_outside]]. done.
Qed.

(** ** Dumping registers *)

(** The registers an entry stands for: address and printed name. *)
Definition repeated (a step : Z) (name : string) (i n : nat) : list (Z * string) :=
  (λ k, (a + Z.of_nat k * step, name +:+ "_" +:+ show (Z.of_nat k))) <$> seq i n.
Definition entry_regs (r : xreg_info) : list (Z * string) :=
  if (x_len r =? 0) && negb (x_repeat r =? 0)
  then repeated (x_addr r) (if x_step r =? 0 then 4 else s32 (x_step r)) (x_name r) 0 (Z.to_nat (s32 (x_repeat r)))
  else [(x_addr r, x_name r)].

(** The register is in the pages of [max] bytes, the name fits its buffer. *)
Definition reg_fits (max : Z) (k : Z * string) : Prop :=
  (0 <= k.1 < page_up max ∧ k.1 < 2 ^ 32) ∧ Z.of_nat (String.length k.2) < 40.

(** The line printed for a register. *)
Definition shows (l : line) (k : Z * string) : Prop :=
  match l with
  | L_reg addr name _ => addr = k.1 ∧ name = k.2
  | L_field _ _ name _ => name = k.2
  | _ => False
  end.

(** [m] prints the registers [ks] and nothing else, and leaves all as it was. *)
Definition dumps (m : TOOL W unit) (b : nat) (max : Z) (ks : list (Z * string)) : Prop :=
  ∀ w out p, maps w !! b = Some (p, max, false) →
  ∃ w' ls, m (w, out) = (inl tt, (w', out ++ ls)) ∧ clean w w' ∧ wrote w' = wrote w ∧ Forall2 shows ls ks.

Lemma dumps_nil b max : dumps (mret tt) b max [].
Proof. intros w out p _. exists w, []. rewrite app_nil_r. split_and!; [done..|constructor]. Qed.

Lemma dumps_app m1 m2 b max k1 k2 : dumps m1 b max k1 → dumps m2 b max k2 → dumps (_ ← m1; m2) b max (k1 ++ k2).
Proof.
  intros H1 H2 w out p Hb. destruct (H1 w out p Hb) as (w1 & l1 & E1 & [Hf1 Hm1] & Hw1 & Hs1).
  destruct (H2 w1 (out ++ l1) p) as (w2 & l2 & E2 & [Hf2 Hm2] & Hw2 & Hs2); [by rewrite Hm1|].
  exists w2, (l1 ++ l2). rewrite (tool_ok _ _ _ _ _ E1), E2, app_assoc, Hw2, Hw1. unfold clean.
  rewrite Hf2, Hf1, Hm2, Hm1. split_and!; [done..|]. by apply Forall2_app.
Qed.

(** One register: read, then print. *)
Lemma dumps_one b max k (l : Z → line) :
  reg_fits max k → (∀ v, shows (l v) k) → dumps (v ← load b k.1; print [l v]) b max [k].
Proof.
  intros [[Ha _] _] Hl w out p Hb. destruct (load_spec b p max k.1 w out Hb Ha) as (w' & E & Hc & Hw).
  exists w', [l (peek w p (k.1 / 4))]. rewrite (tool_ok _ _ _ _ _ E). split_and!; [done..|]. by repeat constructor.
Qed.

Lemma dumps_ext m m' b max ks : (∀ s, m s = m' s) → dumps m b max ks → dumps m' b max ks.
Proof. intros E H w out p Hb. rewrite <- E. by apply (H w out p). Qed.

Lemma repeat_dumps b max name a step n i addr :
  Forall (reg_fits max) (repeated a step name i n) → (n ≠ 0%nat → addr = a + Z.of_nat i * step) →
  dumps (dump_repeat b name n (Z.of_nat i) addr step) b max (repeated a step name i n).
Proof.
  revert i addr. induction n as [|n IH]; intros i addr Hf Ha; [apply dumps_nil|].
  unfold repeated in *. cbn [seq fmap list_fmap] in *. apply Forall_cons in Hf as [Hk Hf]. specialize (Ha ltac:(done)).
  set (k := (a + Z.of_nat i * step, name +:+ "_" +:+ show (Z.of_nat i))) in *.
  apply (dumps_ext (_ ← (v ← load b k.1; print [L_reg k.1 k.2 v]); dump_repeat b name n (Z.of_nat (S i)) (u32 (addr + step)) step)).
  - intros s. cbn [dump_repeat]. rewrite (proj2 (Z.leb_gt 40 _)) by apply Hk.
    rewrite Ha. replace (Z.of_nat i + 1) with (Z.of_nat (S i)) by lia.
    unfold mbind, TOOL_bind. change (a + Z.of_nat i * step) with k.1. by destruct (load b k.1 s) as [[v|e] s'].
  - apply (dumps_app _ _ _ _ [k]); [by apply dumps_one|]. apply IH; [done|]. intros Hn. destruct n as [|n]; [done|].
    cbn [seq fmap list_fmap] in Hf. apply Forall_cons in Hf as [[[H1 H2] _] _]. cbn [fst] in H1, H2.
    unfold u32. rewrite Z.mod_small by lia. lia.
Qed.

Lemma entry_dumps b max r :
  Forall (reg_fits max) (entry_regs r) → dumps (dump_entry b r) b max (entry_regs r).
Proof.
  unfold entry_regs, dump_entry. intros Hf. destruct (x_len r =? 0); cbn [andb] in *.
  - destruct (x_repeat r =? 0); cbn [negb] in *.
    + apply Forall_cons in Hf as [Hf _]. by apply (dumps_one _ _ (x_addr r, x_name r)).
    + destruct (x_step r =? 0); cbn [negb]; apply (repeat_dumps _ _ _ _ _ _ 0); try done; lia.
  - apply Forall_cons in Hf as [Hf _].
    by apply (dumps_one _ _ (x_addr r, x_name r)
      (λ v, L_field (x_shift r + x_len r - 1) (x_shift r) (x_name r) (Z.land (Z.shiftr v (x_shift r)) (Z.shiftl 1 (x_len r) - 1)))).
Qed.

Definition table_regs (l : list xreg_info) : list (Z * string) := l ≫= entry_regs.

Lemma entries_dump b max l :
  Forall (reg_fits max) (table_regs l) → dumps (dump_entries b l) b max (table_regs l).
Proof.
  unfold table_regs. induction l as [|r l IH]; [intros _; apply dumps_nil|].
  cbn [dump_entries mbind list_bind]. intros [H1 H2]%Forall_app. apply dumps_app; [by apply entry_dumps|by apply IH].
Qed.

Lemma dump_spec x barno l max w out :
  Forall (reg_fits max) (table_regs l) →
  ∃ r w' ls, reg_dump_mmap x barno l max (w, out) = (r, (w', out ++ ls)) ∧ clean w w' ∧ wrote w' = wrote w ∧
    ((r = inr (Exited 1) ∧ ls = []) ∨ (r = inl tt ∧ Forall2 shows ls (table_regs l))).
Proof.
  intros Hf. unfold reg_dump_mmap.
  destruct (map_spec (syspath x barno) max false w out) as (w1 & Hf1 & Hp & Hw & [[E Hm]|(b & E & Hn & Hm)]).
  { rewrite (tool_stop _ _ _ _ _ E). eexists _, w1, []. rewrite app_nil_r. split_and!; [done..|]. by left. }
  rewrite (tool_ok _ _ _ _ _ E).
  destruct (entries_dump b max l Hf w1 out (syspath x barno)) as (w2 & ls & E2 & [Hf2 Hm2] & Hw2 & Hs);
    [by rewrite Hm, lookup_insert_eq|].
  rewrite (tool_ok _ _ _ _ _ E2). destruct (unmap_spec b max w2 (out ++ ls)) as (w3 & -> & Hf3 & Hm3 & _ & Hw3).
  eexists _, w3, ls. split; [done|]. unfold clean. rewrite Hf3, Hf2, Hf1, Hm3, Hm2, Hm, delete_insert_id by done.
  rewrite Hw3, Hw2, Hw. split_and!; [done..|]. by right.
Qed.

#[global] Instance reg_fits_dec max k : Decision (reg_fits max k).
Proof. unfold reg_fits. apply _. Defined.

(** Both tables lie in the pages their dumps map. *)
Lemma tables_fit :
  Forall (reg_fits qdma_config_bar_max_addr) (table_regs qdma_config_regs) ∧
  Forall (reg_fits qdma_user_max_addr) (table_regs qdma_user_regs).
Proof. split; apply (bool_decide_unpack _); by vm_compute. Qed.

(** ** Properties *)

(** The BAR of a command, by the number that is printed. *)
Definition bar_of (x : xcmd_info) : Z :=
  if negb (Z.land (r_sflags (u_reg (u x))) XCMD_REG_F_BAR_SET =? 0) then bar (u_reg (u x)) else xi_config_bar (reg_target x).

(** The two dumps of a command, and the lines before them. *)
Definition dump_head (n : Z) (d : xdev_info) : list line :=
  [L_sep; L_dump n (xi_bus d) (xi_dev d) (xi_func d); L_sep; L_bar true (xi_user_bar d)].

Lemma dump_both d n w out :
  ∃ res w' ls,
    (_ ← print (dump_head n d);
     _ ← reg_dump_mmap d (xi_user_bar d) qdma_user_regs qdma_user_max_addr;
     _ ← print [L_bar false (xi_config_bar d)];
     reg_dump_mmap d (xi_config_bar d) qdma_config_regs qdma_config_bar_max_addr) (w, out) = (res, (w', out ++ ls)) ∧
    clean w w' ∧ wrote w' = wrote w ∧
    (res = inr (Exited 1) ∨ (res = inl tt ∧ ∃ lu lc, ls = dump_head n d ++ lu ++ [L_bar false (xi_config_bar d)] ++ lc ∧
      Forall2 shows lu (table_regs qdma_user_regs) ∧ Forall2 shows lc (table_regs qdma_config_regs))).
Proof.
  destruct (dump_spec d (xi_user_bar d) qdma_user_regs qdma_user_max_addr w (out ++ dump_head n d))
    as (ru & w1 & lu & Eu & [Hf1 Hm1] & Hw1 & Hu); [apply tables_fit|].
  destruct (dump_spec d (xi_config_bar d) qdma_config_regs qdma_config_bar_max_addr w1
    (((out ++ dump_head n d) ++ lu) ++ [L_bar false (xi_config_bar d)]))
    as (rc & w2 & lc & Ec & [Hf2 Hm2] & Hw2 & Hc); [apply tables_fit|].
  assert (clean w w2) as Hc2 by (split; congruence).
  rewrite (tool_ok (print _) _ _ tt (w, out ++ dump_head n d)) by done. destruct Hu as [[-> ->]|[-> Hu]].
  { rewrite (tool_stop _ _ _ _ _ Eu). eexists _, w1, (dump_head n d ++ []). rewrite app_assoc. split_and!; [done..|]. by left. }
  rewrite (tool_ok _ _ _ _ _ Eu), (tool_ok (print _) _ _ tt (w1, ((out ++ dump_head n d) ++ lu) ++ [L_bar false (xi_config_bar d)]))
    by done.
  rewrite Ec. eexists _, w2, (dump_head n d ++ lu ++ [L_bar false (xi_config_bar d)] ++ lc). rewrite !app_assoc.
  split; [done|]. split; [done|]. split; [congruence|]. destruct Hc as [[-> ->]|[-> Hc]]; [by left|right].
  split; [done|]. exists lu, lc. by rewrite !app_assoc.
Qed.

(** What a command whose register is within reach does. *)
Definition reg_effect (x : xcmd_info) w (res : Z + stop) w' ls : Prop :=
  let d := reg_target x in let r := u_reg (u x) in let path := syspath d (u8 (bar_of x)) in
  clean w w' ∧
  match op x with
  | XNL_CMD_REG_RD => wrote w' = wrote w ∧ (res = inr (Exited 1) ∨ (res = inl 0 ∧
      ls = [L_read (if_idx x) (xi_bus d) (xi_dev d) (xi_func d) (bar_of x) (reg r) (peek w path (reg r / 4))]))
  | XNL_CMD_REG_WRT => (res = inr (Exited 1) ∧ wrote w' = wrote w) ∨
      (wrote w' = wrote w ++ [(path, reg r / 4, val r)] ∧ (res = inr (Exited 1) ∨ (res = inl 0 ∧ ∃ v,
        ls = [L_write (if_idx x) (xi_bus d) (xi_dev d) (xi_func d) (bar_of x) (reg r) (val r) v])))
  | XNL_CMD_REG_DUMP => wrote w' = wrote w ∧ (res = inr (Exited 1) ∨ (res = inl 0 ∧ ∃ lu lc,
      ls = dump_head (if_idx x) d ++ lu ++ [L_bar false (xi_config_bar d)] ++ lc ∧
      Forall2 shows lu (table_regs qdma_user_regs) ∧ Forall2 shows lc (table_regs qdma_config_regs)))
  | _ => res = inl 0 ∧ w' = w ∧ ls = []
  end.

Lemma reg_command_near x w out :
  Z.land (attr_mask x) reg_mask = reg_mask →
  op x = XNL_CMD_REG_RD ∨ op x = XNL_CMD_REG_WRT → 0 <= reg (u_reg (u x)) < 2 ^ 32 - 4 →
  ∃ res w' ls, reg_proc_cmd x (w, out) = (res, (w', out ++ ls)) ∧ reg_effect x w res w' ls.
Proof.
  intros Hm Ho Ha. unfold reg_proc_cmd, reg_effect. rewrite Hm, Z.eqb_refl. cbn [negb].
  set (d := reg_target x). set (r := u_reg (u x)) in *. fold (bar_of x). set (path := syspath d (u8 (bar_of x))).
  destruct Ho as [-> | ->].
  - destruct (read_mmap_spec d (u8 (bar_of x)) (reg r) w out Ha) as (rv & w1 & E & Hc & Hw & [->| ->]).
    + eexists _, w1, []. rewrite app_nil_r. split; [apply tool_stop; by apply tool_stop|]. split; [done|].
      split; [done|]. by left.
    + eexists _, w1, _. split; [|split; [done|]; split; [done|]; right; by split].
      by rewrite (tool_ok _ _ _ _ _ (tool_ok _ _ _ _ _ E)).
  - destruct (write_mmap_spec d (u8 (bar_of x)) (reg r) (val r) w out Ha) as (rw & w1 & Ew & [Hf1 Hm1] & [[-> Hw]|[-> Hw]]).
    { eexists _, w1, []. rewrite app_nil_r. split; [apply tool_stop; by apply tool_stop|]. split; [done|]. by left. }
    destruct (read_mmap_spec d (u8 (bar_of x)) (reg r) w1 out Ha) as (rv & w2 & E & [Hf2 Hm2] & Hw2 & Hrv).
    assert (clean w w2 ∧ wrote w2 = wrote w ++ [(path, reg r / 4, val r)]) as [Hc Hw3]
      by (unfold clean; by rewrite Hf2, Hf1, Hm2, Hm1, Hw2, Hw).
    destruct Hrv as [->| ->].
    + eexists _, w2, []. rewrite app_nil_r. split; [|split; [done|]; right; split; [done|]; by left].
      apply tool_stop. rewrite (tool_ok _ _ _ _ _ Ew). by apply tool_stop.
    + eexists _, w2, _. split; [|split; [done|]; right; split; [done|]; right; split; [done|]; by eexists].
      eapply eq_trans; [apply (tool_ok _ _ _ tt); by rewrite (tool_ok _ _ _ _ _ Ew), (tool_ok _ _ _ _ _ E)|done].
Qed.

Lemma reg_command_other x w out :
  Z.land (attr_mask x) reg_mask = reg_mask → op x ≠ XNL_CMD_REG_RD → op x ≠ XNL_CMD_REG_WRT →
  ∃ res w' ls, reg_proc_cmd x (w, out) = (res, (w', out ++ ls)) ∧ reg_effect x w res w' ls.
Proof.
  intros Hm H1 H2. unfold reg_proc_cmd, reg_effect. rewrite Hm, Z.eqb_refl. cbn [negb]. set (d := reg_target x).
  destruct (op x); try done; try (eexists _, w, []; rewrite app_nil_r; by split_and!).
  destruct (dump_both d (if_idx x) w out) as (res & w' & ls & E & Hc & Hw & [->|[-> H]]); eexists _, w', ls.
    + split; [by apply tool_stop|]. split; [done|]. split; [done|]. by left.
    + split; [by rewrite (tool_ok _ _ _ _ _ E)|]. split; [done|]. split; [done|]. by right.
Qed.

(** C30: what a register command of the tool does, for every 32-bit register
    address.  Without all the device's attributes it fails with -EINVAL and
    touches nothing.  Otherwise it touches what it was asked for and nothing
    else: reading gives the word at the address in the file of the chosen BAR
    of the device; writing stores exactly that one word there; dumping prints
    one line for every register of both tables, in order, and never reads
    outside what it has mapped; every file is closed and every mapping
    removed; and the only failure is that a file cannot be opened or mapped,
    when the tool exits.  The exception are reads and writes of the last four
    addresses, where the length of the mapping wraps around: nothing is
    written, and the tool exits or, when the file can be mapped, accesses
    memory outside the mapping. *)
Theorem reg_command_effect x w out :
  0 <= reg (u_reg (u x)) < 2 ^ 32 →
  ∃ res w' ls, reg_proc_cmd x (w, out) = (res, (w', out ++ ls)) ∧
    if decide (Z.land (attr_mask x) reg_mask ≠ reg_mask) then res = inl (- EINVAL) ∧ w' = w ∧ ls = []
    else if decide ((op x = XNL_CMD_REG_RD ∨ op x = XNL_CMD_REG_WRT) ∧ 2 ^ 32 - 4 <= reg (u_reg (u x)))
    then failed res w w' ∧ ls = []
    else reg_effect x w res w' ls.
Proof.
  intros Ha. destruct (decide (Z.land _ _ ≠ _)) as [Hm|Hm].
  { eexists _, w, []. rewrite app_nil_r. split; [|done]. unfold reg_proc_cmd. by rewrite (proj2 (Z.eqb_neq _ _)). }
  apply dec_stable in Hm. destruct (decide _) as [[Ho Hf]|Hn].
  - unfold reg_proc_cmd. rewrite Hm, Z.eqb_refl. cbn [negb]. fold (bar_of x). assert (far (reg (u_reg (u x)))) as Hfar by (unfold far; lia).
    destruct Ho as [-> | ->].
    + destruct (read_far (reg_target x) (u8 (bar_of x)) _ w out Hfar) as (r & w' & E & Hw & Hr).
      exists (inr match r with inr e => e | inl _ => Undefined end), w', []. rewrite app_nil_r.
      split; [apply tool_stop, tool_stop; rewrite E; by destruct Hr as [[-> _]| ->]|].
      split; [|done]. split; [done|]. destruct Hr as [[-> ?]| ->]; [by left|by right].
    + destruct (write_far (reg_target x) (u8 (bar_of x)) _ (val (u_reg (u x))) w out Hfar) as (r & w' & E & Hw & Hr).
      exists (inr match r with inr e => e | inl _ => Undefined end), w', []. rewrite app_nil_r.
      split; [apply tool_stop, tool_stop; rewrite E; by destruct Hr as [[-> _]| ->]|].
      split; [|done]. split; [done|]. destruct Hr as [[-> ?]| ->]; [by left|by right].
  - destruct (decide (op x = XNL_CMD_REG_RD ∨ op x = XNL_CMD_REG_WRT)) as [Ho|Ho].
    + apply reg_command_near; [done..|]. destruct (Z.le_gt_cases (2 ^ 32 - 4) (reg (u_reg (u x)))); [by destruct Hn|lia].
    + apply reg_command_other; [done|..]; intros E; apply Ho; auto.
Qed.

End laws.

(** ** The device of a command *)

(** The driver's reply about a device. *)
Definition device_reply {D} (p : xlnx_pci_dev D) : list nlattr := (λ tv, nla_u32 tv.1 tv.2) <$> dev_info p.

Lemma array_insert_same l i v : (i < length l)%nat → array (<[i := v]> l) i = v.
Proof. intros Hi. unfold array. apply nth_lookup_Some. by apply list_lookup_insert_eq. Qed.

Lemma array_insert_other l i j v : i ≠ j → array (<[i := v]> l) j = array l j.
Proof. intros Hi. unfold array. by rewrite !nth_lookup, list_lookup_insert_ne. Qed.

(** Taking a number. *)
Lemma take_number t v x :
  0 <= v < 2 ^ 32 → attr_z t ≠ 0 → attr_z t ≠ 1 →
  take_attr (nla_type (nla_u32 t v)) (nla_get_u32 (nla_u32 t v)) x =
  x <| attr_mask ::= Z.lor (Z.shiftl 1 (attr_z t)) |> <| attrs ::= <[Z.to_nat (attr_z t) := v]> |>.
Proof.
  intros Hv H0 H1. rewrite nla_get_u32_u32 by done. unfold take_attr. cbn [nla_type nla_u32].
  change (attr_z XNL_ATTR_GENMSG) with 0. change (attr_z XNL_ATTR_DRV_INFO) with 1.
  by rewrite (proj2 (Z.eqb_neq _ 0)), (proj2 (Z.eqb_neq _ 1)) by done.
Qed.

Lemma u8_u32 v : u8 (u32 v) = u8 v.
Proof. unfold u8, u32. apply Z.mod_mod_divide. by exists (2 ^ 24). Qed.

(** What the tool has after taking the reply. *)
Lemma device_taken {D} (p : xlnx_pci_dev D) x :
  let c := dev_conf (s_xd (xp_sys p)) in
  (0 <= pci_bus (pdev p) < 2 ^ 8 ∧ 0 <= pci_slot (pdev p) < 2 ^ 8 ∧ 0 <= pci_func (pdev p) < 2 ^ 8) →
  0 <= qsets_max c < 2 ^ 32 →
  let y := foldl (λ x a, take_attr (nla_type a) (nla_get_u32 a) x) (x <| attr_mask := 0 |>) (device_reply p) in
  attr_mask y = Z.lor (Z.shiftl 1 8) reg_mask ∧ u y = u x ∧ op y = op x ∧ if_idx y = if_idx x ∧
  attrs y = <[8%nat := qsets_max c]> (<[7%nat := u32 (bar_num_user c)]> (<[6%nat := u32 (bar_num_config c)]>
    (<[5%nat := pci_func (pdev p)]> (<[4%nat := pci_slot (pdev p)]> (<[3%nat := pci_bus (pdev p)]> (attrs x)))))).
Proof.
  intros c (Hb & Hs & Hf) Hq. assert (∀ v, 0 <= u32 v < 2 ^ 32) as Hu by (intros v; apply Z.mod_pos_bound; lia).
  unfold device_reply, dev_info. cbn [fmap list_fmap foldl fst snd]. fold c.
  cbv zeta. rewrite !take_number by (done || lia). destruct x as [? ? ? ? ? ? ? ? l].
  split_and!; reflexivity.
Qed.

Lemma device_target {D} (p : xlnx_pci_dev D) x y :
  let c := dev_conf (s_xd (xp_sys p)) in
  (0 <= pci_bus (pdev p) < 2 ^ 8 ∧ 0 <= pci_slot (pdev p) < 2 ^ 8 ∧ 0 <= pci_func (pdev p) < 2 ^ 8) →
  length (attrs x) = Z.to_nat XNL_ATTR_MAX → attr_mask y = Z.lor (Z.shiftl 1 8) reg_mask →
  attrs y = <[8%nat := qsets_max c]> (<[7%nat := u32 (bar_num_user c)]> (<[6%nat := u32 (bar_num_config c)]>
    (<[5%nat := pci_func (pdev p)]> (<[4%nat := pci_slot (pdev p)]> (<[3%nat := pci_bus (pdev p)]> (attrs x)))))) →
  Z.land (attr_mask y) reg_mask = reg_mask ∧
  reg_target y = XdevInfo (pci_bus (pdev p)) (pci_slot (pdev p)) (pci_func (pdev p))
    (u8 (bar_num_config c)) (u8 (bar_num_user c)).
Proof.
  intros c (Hb & Hs & Hf) Hl Em Ea. rewrite Em. split; [done|]. unfold reg_target. rewrite Ea. cbn [attr_z].
  change XNL_ATTR_MAX with 19 in Hl. assert (∀ v, 0 <= v < 2 ^ 8 → u8 v = v) as H8 by (intros v Hv; by apply Z.mod_small).
  f_equal; repeat (rewrite array_insert_other by done);
    (rewrite array_insert_same by (rewrite ?length_insert, Hl; cbn; lia)); first [by apply H8|by apply u8_u32].
Qed.

Lemma device_reply_length {D} (p : xlnx_pci_dev D) : length (attrs_bytes (device_reply p)) = 48%nat.
Proof. reflexivity. Qed.

Lemma device_reply_known {D} (p : xlnx_pci_dev D) : Forall known_attr (device_reply p).
Proof. unfold device_reply, dev_info. repeat constructor; cbn; lia. Qed.

Lemma with_bars x a b q :
  let z := x <| config_bar := a |> <| user_bar := b |> <| qmax := q |> in
  attr_mask z = attr_mask x ∧ attrs z = attrs x ∧ u z = u x ∧ op z = op x ∧ if_idx z = if_idx x.
Proof. by destruct x. Qed.

(** The tool addresses the device the driver tells it about: from the
    reply to the query every command starts with, the function's bus, slot
    and function numbers and its two BARs reach the register commands
    unchanged, each in its place, whatever follows in the buffer and whatever
    the command held before; the command itself is not touched. *)
Theorem device_info_target {D} (p : xlnx_pci_dev D) m rest x :
  let c := dev_conf (s_xd (xp_sys p)) in
  (0 <= pci_bus (pdev p) < 2 ^ 8 ∧ 0 <= pci_slot (pdev p) < 2 ^ 8 ∧ 0 <= pci_func (pdev p) < 2 ^ 8) →
  0 <= qsets_max c < 2 ^ 32 → length (attrs x) = Z.to_nat XNL_ATTR_MAX →
  nlmsg_len m = XNL_HDRLEN + Z.of_nat (length (attrs_bytes (device_reply p))) →
  let buf := hdr_bytes m ++ attrs_bytes (device_reply p) ++ rest in
  ∃ x', recv_nl_msg (recv_fuel buf) buf x = Some (0, x') ∧
    Z.land (attr_mask x') reg_mask = reg_mask ∧
    reg_target x' = XdevInfo (pci_bus (pdev p)) (pci_slot (pdev p)) (pci_func (pdev p))
      (u8 (bar_num_config c)) (u8 (bar_num_user c)) ∧
    u x' = u x ∧ op x' = op x ∧ if_idx x' = if_idx x.
Proof.
  intros c Hp Hq Hl Hn buf. assert (∀ v, 0 <= u32 v < 2 ^ 32) as Hu by (intros v; apply Z.mod_pos_bound; lia).
  unfold recv_nl_msg, buf. rewrite recv_attrs_all; [|apply device_reply_known|exact Hn|by rewrite Hn, device_reply_length].
  cbn [mbind option_bind]. destruct (device_taken p x Hp Hq) as (Em & Eu & Eo & Ei & Ea). set (y := foldl _ _ _) in *.
  clearbody y. generalize (le_get (take 1 (drop 16 (hdr_bytes m ++ attrs_bytes (device_reply p) ++ rest)))). intros g.
  destruct (device_target p x y Hp Hl Em Ea) as [H1 H2].
  destruct (g =? _); [|exists y; by split_and!].
  generalize (u8 (array (attrs y) (Z.to_nat (attr_z XNL_ATTR_DEV_CFG_BAR)))).
  generalize (u8 (array (attrs y) (Z.to_nat (attr_z XNL_ATTR_DEV_USR_BAR)))).
  generalize (u16 (array (attrs y) (Z.to_nat (attr_z XNL_ATTR_DEV_QSET_MAX)))). intros q b a.
  eexists. split; [reflexivity|]. destruct (with_bars y a b q) as (E1 & E2 & E3 & E4 & E5).
  rewrite E1, E3, E4, E5. unfold reg_target in *. rewrite E2. by split_and!.
Qed.

(** ** An executable kernel: BARs that keep what is written *)

Module SimBars.
Record t := T {
  files : list string; fdt : gmap Z string; mpt : gmap nat (string * Z * bool);
  next_fd : Z; next_map : nat; log : list (string * Z * Z) }.
#[export] Instance t_eta : Settable t := λ r, T (files r) (fdt r) (mpt r) (next_fd r) (next_map r) (log r).

Definition word (w : t) (p : string) (i : Z) : Z :=
  foldl (λ v e, if (e.1.1 =s p) && (e.1.2 =? i) then e.2 else v) 0 (log w).

Definition open (p : string) (wr : bool) : ST t Z := λ w,
  if bool_decide (p ∈ files w) && (0 <=? next_fd w) && bool_decide (fdt w !! next_fd w = None)
  then (next_fd w, w <| fdt ::= <[next_fd w := p]> |> <| next_fd ::= Z.succ |>) else (-1, w).
Definition mmap (fd len : Z) (wr : bool) : ST t (option nat) := λ w,
  match fdt w !! fd with
  | Some p => if (0 <? len) && bool_decide (mpt w !! next_map w = None)
              then (Some (next_map w), w <| mpt ::= <[next_map w := (p, len, wr)]> |> <| next_map ::= S |>) else (None, w)
  | None => (None, w)
  end.
Definition inside (w : t) (b : nat) (i : Z) (wr : bool) : option string :=
  match mpt w !! b with
  | Some (p, len, wr') => if eqb wr wr' && (0 <=? i) && (4 * i <? page_up len) then Some p else None
  | None => None
  end.

#[global] Instance bars : Bars t := {
  b_open := open; b_mmap := mmap;
  b_close fd w := (tt, w <| fdt ::= delete fd |>);
  b_munmap b _ w := (tt, w <| mpt ::= delete b |>);
  b_load b i w := (p ← inside w b i false; Some (word w p i), w);
  b_store b i v w := match inside w b i true with
    | Some p => (true, w <| log ::= λ l, l ++ [(p, i, v)] |>)
    | None => (false, w)
    end }.

Lemma inside_ok w b p len i wr :
  mpt w !! b = Some (p, len, wr) → 0 <= i → 4 * i < page_up len → inside w b i wr = Some p.
Proof.
  intros E H0 H1. unfold inside. rewrite E, eqb_reflx. by rewrite (proj2 (Z.leb_le _ _)), (proj2 (Z.ltb_lt _ _)).
Qed.

Lemma inside_not w b p len i wr : mpt w !! b = Some (p, len, wr) → page_up len <= 4 * i → inside w b i wr = None.
Proof. intros E H. unfold inside. rewrite E, (proj2 (Z.ltb_ge _ _)) by done. by rewrite andb_false_r. Qed.

#[global] Program Instance laws : BarLaws t := {
  fds := fdt; maps := mpt; peek := word; wrote := log }.
Next Obligation.
  intros p wr w. cbn. unfold open. destruct (_ && _) eqn:E; [|split_and!; [done..|by left]].
  apply andb_true_iff in E as [[_ H%Z.leb_le]%andb_true_iff Hn%bool_decide_eq_true].
  split_and!; [done..|]. by right.
Qed.
Next Obligation.
  intros fd p len wr w E. cbn. unfold mmap. rewrite E. destruct (_ && _) eqn:Ec; [|by split_and!].
  by apply andb_true_iff in Ec as [_ Hn%bool_decide_eq_true].
Qed.
Next Obligation. done. Qed.
Next Obligation. done. Qed.
Next Obligation. intros b p len i w E H0 H1. cbn. rewrite (inside_ok _ _ _ _ _ _ E H0 H1). by exists w. Qed.
Next Obligation. intros b p len i v w E H0 H1. cbn. rewrite (inside_ok _ _ _ _ _ _ E H0 H1). by eexists. Qed.
Next Obligation. intros b p len i w E H. cbn. by rewrite (inside_not _ _ _ _ _ _ E H). Qed.
Next Obligation. intros b p len i v w E H. cbn. by rewrite (inside_not _ _ _ _ _ _ E H). Qed.

Definition dev : xdev_info := XdevInfo 6 0 1 0 2.
Definition world : t := T [syspath dev 0; syspath dev 2] ∅ ∅ 3 0 [(syspath dev 2, 4, 7)].

(** [qdma0 reg write bar 2 0x10 9] after the device has been asked. *)
Definition cmd : xcmd_info :=
  Xcmd false XNL_CMD_REG_WRT 0 0 2 0 (U_reg (XcmdReg 7 2 0x10 9)) reg_mask
    ([0; 0; 0; 6; 0; 1; 0; 2] ++ replicate 11 0).
End SimBars.

Lemma reg_command_effect_witness :
  (∃ res w' ls, reg_proc_cmd SimBars.cmd (SimBars.world, []) = (res, (w', [] ++ ls)) ∧ clean SimBars.world w') ∧
  (reg_proc_cmd SimBars.cmd (SimBars.world, [])).1 = inl 0 ∧
  (reg_proc_cmd SimBars.cmd (SimBars.world, [])).2.2 = [L_write 0 6 0 1 2 0x10 9 9].
Proof.
  split; [|split; by vm_compute].
  destruct (reg_command_effect SimBars.cmd SimBars.world []) as (res & w' & ls & E & H); [split; by vm_compute|].
  rewrite !decide_False in H by (intros H'; by vm_compute in H' || (destruct H' as [_ H']; by vm_compute in H')).
  destruct H as [Hc _]. exists res, w', ls. split; [exact E|exact Hc].
Defined.

(** The reply about the function of [SampleX]. *)
Lemma device_info_target_witness :
  let m := XnlMsg (XNL_HDRLEN + 48) 0 0 0 0 (op_z XNL_CMD_DEV_INFO) 0 [] in
  let buf := hdr_bytes m ++ attrs_bytes (device_reply (xp SampleX.x0)) ++ [] in
  ∃ x', recv_nl_msg (recv_fuel buf) buf SimBars.cmd = Some (0, x') ∧
    xi_bus (reg_target x') = 1 ∧ op x' = XNL_CMD_REG_WRT.
Proof.
  intros m buf. destruct (device_info_target (xp SampleX.x0) m [] SimBars.cmd) as (x' & E & _ & Et & _ & Eo & _).
  - by vm_compute.
  - by vm_compute.
  - by vm_compute.
  - by vm_compute.
  - exists x'. split; [exact E|]. split; [rewrite Et; by vm_compute|]. rewrite Eo. by vm_compute.
Defined.
