(* ===== verification/Tools.v ===== *)
(** * The transfer tools (src/tools)

    The programs that copy a file to a character device and a device to a
    file: the transfer loops of dma_utils.c and the two [test_dma].  Files are
    a parameter ([FileIo]); [FileLaws] says what a file that holds bytes
    promises of a call that succeeds. *)

From stdpp Require Import strings.
From Stdlib Require Import Ascii.
From S2P Require Import Prelude Cstring Xnl Cli Cdev.
#[local] Open Scope Z_scope.

(** ** Runs *)

(** A run gives a result, goes beyond the end of the buffer, or needs more
    turns than it was given. *)
Inductive run (A : Type) := Done (a : A) | Overrun | OutOfFuel.
Arguments Done {A}.
Arguments Overrun {A}.
Arguments OutOfFuel {A}.
#[export] Instance run_ret : MRet run := λ A a, Done a.
#[export] Instance run_bind : MBind run := λ A B f m,
  match m with Done a => f a | Overrun => Overrun | OutOfFuel => OutOfFuel end.

(** ** Files *)

(** [lseek(fd, off, SEEK_SET)]; [read]: the result and the bytes stored;
    [write]. *)
Class FileIo (F : Type) := {
  f_lseek : Z → F → Z * F;
  f_read : Z → F → (Z * list Z) * F;
  f_write : list Z → F → Z * F }.

(** ** dma_utils.c *)

Definition RW_MAX_SIZE : Z := 0x7ffff000.

(** The number, if one is read: the variable is not set otherwise. *)
Definition getopt_integer (optarg : string) : option Z :=
  let hex := if String.prefix "0x" optarg then scan_lx (str_drop 2 optarg) else None in
  match hex with Some v => Some v | None => scan_lu optarg end.

(** [read] stores the bytes it returns at [buf + count]; [write] takes [n]
    bytes from there. *)
Definition splice (buf : list Z) (count : Z) (bytes : list Z) : run (list Z) :=
  if Z.of_nat (length buf) <? count + Z.of_nat (length bytes) then Overrun
  else Done (take (Z.to_nat count) buf ++ bytes ++ drop (Z.to_nat count + length bytes) buf).
Definition slice (buf : list Z) (count n : Z) : run (list Z) :=
  if Z.of_nat (length buf) <? count + n then Overrun else Done (take (Z.to_nat n) (drop (Z.to_nat count) buf)).

Section utils.
Context {F : Type} `{!FileIo F}.

(** The seek before a piece: none at offset 0. *)
Definition seek (offset : Z) (f : F) : bool * F :=
  if offset =? 0 then (true, f) else
  let '(rc, f) := f_lseek offset f in
  if rc <? 0 then (false, f) else (rc =? offset, f).

(** The loops; [max] is [RW_MAX_SIZE].  The count is returned as a
    [ssize_t]. *)
Fixpoint read_loop (fuel : nat) (max : Z) (buf : list Z) (size count offset : Z) (f : F)
    : run (Z * list Z * F) :=
  if size <=? count then Done (if negb (count =? size) then - EIO else s64 count, buf, f) else
  match fuel with
  | O => OutOfFuel
  | S fuel =>
      let bytes := if max <? size - count then max else size - count in
      let '(ok, f) := seek offset f in
      if negb ok then Done (- EIO, buf, f) else
      let '((rc, bs), f) := f_read bytes f in
      buf ← splice buf count bs;
      if rc <? 0 then Done (- EIO, buf, f) else
      if negb (rc =? bytes) then Done (- EIO, buf, f) else
      read_loop fuel max buf size (count + bytes) (s64 (offset + bytes)) f
  end.

Fixpoint write_loop (fuel : nat) (max : Z) (buf : list Z) (size count offset : Z) (f : F) : run (Z * F) :=
  if size <=? count then Done (if negb (count =? size) then - EIO else s64 count, f) else
  match fuel with
  | O => OutOfFuel
  | S fuel =>
      let bytes := if max <? size - count then max else size - count in
      let '(ok, f) := seek offset f in
      if negb ok then Done (- EIO, f) else
      bs ← slice buf count bytes;
      let '(rc, f) := f_write bs f in
      if rc <? 0 then Done (- EIO, f) else
      if negb (rc =? bytes) then Done (- EIO, f) else
      write_loop fuel max buf size (count + bytes) (s64 (offset + bytes)) f
  end.

(** Enough turns for pieces of [max] bytes. *)
Definition turns (max size : Z) : nat := S (Z.to_nat (size / max)).

Definition read_to_buffer (buf : list Z) (size base : Z) : F → run (Z * list Z * F) :=
  read_loop (turns RW_MAX_SIZE size) RW_MAX_SIZE buf size 0 (s64 base).
Definition write_from_buffer (buf : list Z) (size base : Z) : F → run (Z * F) :=
  write_loop (turns RW_MAX_SIZE size) RW_MAX_SIZE buf size 0 (s64 base).

End utils.

(** [struct timespec] *)
Record timespec := Timespec { tv_sec : Z; tv_nsec : Z }.
Definition timespec_check (t : timespec) : Z := if (tv_nsec t <? 0) || (1000000000 <=? tv_nsec t) then -1 else 0.

(** The new [t1]. *)
Definition timespec_sub (t1 t2 : timespec) : timespec :=
  if timespec_check t1 <? 0 then t1 else if timespec_check t2 <? 0 then t1 else
  let sec := s64 (tv_sec t1 - tv_sec t2) in
  let nsec := tv_nsec t1 - tv_nsec t2 in
  if 1000000000 <=? nsec then Timespec (s64 (sec + 1)) (nsec - 1000000000)
  else if nsec <? 0 then Timespec (s64 (sec - 1)) (nsec + 1000000000)
  else Timespec sec nsec.

(** ** The programs

    The three files; those that are open, and whether the buffer is
    allocated.  The times are only printed. *)

Inductive handle := Fpga | Infile | Outfile | Buffer.
#[export] Instance handle_eq_dec : EqDecision handle.
Proof. solve_decision. Defined.

Record files (F : Type) := Files { fpga : F; infile : F; outfile : F; open_now : list handle }.
Arguments Files {F}.
Arguments fpga {F}.
Arguments infile {F}.
Arguments outfile {F}.
Arguments open_now {F}.
#[export] Instance files_eta {F} : Settable (files F) := λ r, Files (fpga r) (infile r) (outfile r) (open_now r).

(** The options: [infname] and [ofname] tell whether they are given. *)
Record dma_opts := DmaOpts { o_addr : Z; o_size : Z; o_offset : Z; o_count : Z; infname : bool; ofname : bool; no_write : bool }.

#[export] Instance dma_opts_eta : Settable dma_opts := λ r,
  DmaOpts (o_addr r) (o_size r) (o_offset r) (o_count r) (infname r) (ofname r) (no_write r).

Definition SIZE_DEFAULT : Z := 32.
Definition COUNT_DEFAULT : Z := 1.
Definition opts_default : dma_opts := DmaOpts 0 SIZE_DEFAULT 0 COUNT_DEFAULT false false false.

(** A number argument; an unset variable is undefined behaviour. *)
Definition opt_number (arg : string) : parsed Z := match getopt_integer arg with Some v => Ok v | None => Crash end.

(** The options both programs have: what [getopt_long] returned, with
    [optarg].  The name of the device and [-v] are not kept. *)
Definition common_opt (c : ascii) (arg : string) (o : dma_opts) : parsed dma_opts :=
  if bool_decide (c ∈ ["000"; "d"; "v"]%char) then Ok o
  else if bool_decide (c = "a"%char) then v ← opt_number arg; Ok (o <| o_addr := v |>)
  else if bool_decide (c = "s"%char) then v ← opt_number arg; Ok (o <| o_size := v |>)
  else if bool_decide (c = "o"%char) then v ← opt_number arg; Ok (o <| o_offset := Z.land v 4095 |>)
  else if bool_decide (c = "c"%char) then v ← opt_number arg; Ok (o <| o_count := v |>)
  else Exit 0.

Definition to_opt (c : ascii) (arg : string) (o : dma_opts) : parsed dma_opts :=
  if bool_decide (c = "f"%char) then Ok (o <| infname := true |>)
  else if bool_decide (c = "w"%char) then Ok (o <| ofname := true |>)
  else common_opt c arg o.

Definition from_opt (c : ascii) (arg : string) (o : dma_opts) : parsed dma_opts :=
  if bool_decide (c = "f"%char) then Ok (o <| ofname := true |>)
  else if bool_decide (c = "x"%char) then Ok (o <| no_write := true |>)
  else common_opt c arg o.

(** The loop over the options. *)
Fixpoint read_opts (f : ascii → string → dma_opts → parsed dma_opts) (l : list (ascii * string)) (o : dma_opts)
    : parsed dma_opts :=
  match l with [] => Ok o | (c, arg) :: l => o ← f c arg o; read_opts f l o end.

(** What the kernel answers: the results of the [open]s, and the memory
    [posix_memalign] gives for a number of bytes. *)
Record dma_answers := DmaAns { r_dev : Z; r_in : Z; r_out : Z; r_mem : Z → option (list Z) }.

(** The memory has the size asked for. *)
Definition allocates (a : dma_answers) : Prop :=
  ∀ n mem, 0 <= n → r_mem a n = Some mem → Z.of_nat (length mem) = n.

(** The bytes asked for: a 64-bit sum. *)
Definition buffer_size (o : dma_opts) : Z := u64 (o_size o + 4096).

Section programs.
Context {F : Type} `{!FileIo F}.
Implicit Types s : files F.

Definition opened (h : handle) s : files F := s <| open_now ::= cons h |>.

Definition closed (h : handle) s : files F := s <| open_now ::= filter (λ x, x ≠ h) |>.

(** [out], with the descriptors (-1: never opened); [rc] is returned as an
    [int]. *)
Definition dma_out (rc in_fd out_fd : Z) s : Z * files F :=
  let s := closed Fpga s in
  let s := if 0 <=? in_fd then closed Infile s else s in
  let s := if 0 <=? out_fd then closed Outfile s else s in
  (s32 rc, closed Buffer s).

(** The loop of dma_to_device. *)
Fixpoint to_device_loop (n : nat) (i : Z) (o : dma_opts) (buf : list Z) (s : files F) : run (Z * files F) :=
  match n with
  | O => Done (0, s)
  | S n =>
      '(rc, f) ← write_from_buffer buf (o_size o) (o_addr o) (fpga s);
      let s := s <| fpga := f |> in
      if rc <? 0 then Done (rc, s) else
      if ofname o then
        '(rc, f) ← write_from_buffer buf (o_size o) (u64 (i * o_size o)) (outfile s);
        let s := s <| outfile := f |> in
        if rc <? 0 then Done (rc, s) else to_device_loop n (i + 1) o buf s
      else to_device_loop n (i + 1) o buf s
  end.

Definition test_dma_to (o : dma_opts) (a : dma_answers) (s : files F) : run (Z * files F) :=
  if r_dev a <? 0 then Done (- EINVAL, s) else
  let s := opened Fpga s in
  let in_fd := if infname o then r_in a else -1 in
  if infname o && (in_fd <? 0) then Done (dma_out (- EINVAL) in_fd (-1) s) else
  let s := if infname o then opened Infile s else s in
  let out_fd := if ofname o then r_out a else -1 in
  if ofname o && (out_fd <? 0) then Done (dma_out (- EINVAL) in_fd out_fd s) else
  let s := if ofname o then opened Outfile s else s in
  match r_mem a (buffer_size o) with
  | None => Done (dma_out (- ENOMEM) in_fd out_fd s)
  | Some mem =>
      let s := opened Buffer s in
      let buf := drop (Z.to_nat (o_offset o)) mem in
      '(rc, buf, s) ← (if 0 <=? in_fd then
                          '(rc, buf, f) ← read_to_buffer buf (o_size o) 0 (infile s);
                          Done (rc, buf, s <| infile := f |>)
                        else Done (0, buf, s));
      if rc <? 0 then Done (dma_out rc in_fd out_fd s) else
      '(rc, s) ← to_device_loop (Z.to_nat (o_count o)) 0 o buf s;
      Done (dma_out rc in_fd out_fd s)
  end.

(** The loop of dma_from_device. *)
Fixpoint from_device_loop (n : nat) (i : Z) (o : dma_opts) (buf : list Z) (s : files F) : run (Z * files F) :=
  match n with
  | O => Done (0, s)
  | S n =>
      '(rc, buf, f) ← read_to_buffer buf (o_size o) (o_addr o) (fpga s);
      let s := s <| fpga := f |> in
      if rc <? 0 then Done (rc, s) else
      if ofname o && negb (no_write o) then
        '(rc, f) ← write_from_buffer buf (o_size o) (u64 (i * o_size o)) (outfile s);
        let s := s <| outfile := f |> in
        if rc <? 0 then Done (rc, s) else from_device_loop n (i + 1) o buf s
      else from_device_loop n (i + 1) o buf s
  end.

Definition test_dma_from (o : dma_opts) (a : dma_answers) (s : files F) : run (Z * files F) :=
  if r_dev a <? 0 then Done (- EINVAL, s) else
  let s := opened Fpga s in
  let out_fd := if ofname o then r_out a else -1 in
  if ofname o && (out_fd <? 0) then Done (dma_out (- EINVAL) (-1) out_fd s) else
  let s := if ofname o then opened Outfile s else s in
  match r_mem a (buffer_size o) with
  | None => Done (dma_out (- ENOMEM) (-1) out_fd s)
  | Some mem =>
      let s := opened Buffer s in
      '(rc, s) ← from_device_loop (Z.to_nat (o_count o)) 0 o (drop (Z.to_nat (o_offset o)) mem) s;
      Done (dma_out rc (-1) out_fd s)
  end.

End programs.

(** ** Files that hold bytes *)

(** The position and the bytes; nothing is promised of a call that fails or is
    cut short, nor of the position after a read or write. *)
Class FileLaws (F : Type) `{!FileIo F} := {
  f_pos : F → Z;
  f_byte : F → Z → Z;
  lseek_law o f : let '(rc, f') := f_lseek o f in
    (∀ x, f_byte f' x = f_byte f x) ∧ (rc = o → f_pos f' = o);
  read_law n f : let '((rc, bs), f') := f_read n f in
    (∀ x, f_byte f' x = f_byte f x) ∧ (rc = n → bs = f_byte f <$> seqZ (f_pos f) n) ∧
    Z.of_nat (length bs) <= Z.max 0 n;
  write_law bs f : let '(rc, f') := f_write bs f in
    rc = Z.of_nat (length bs) → ∀ x, f_byte f' x =
      if (f_pos f <=? x) && (x <? f_pos f + Z.of_nat (length bs)) then array bs (Z.to_nat (x - f_pos f))
      else f_byte f x }.

(** What the options give: numbers of 64 bits, an offset within a page. *)
Definition opts_wf (o : dma_opts) : Prop :=
  0 <= o_addr o < 2 ^ 64 ∧ 0 <= o_size o < 2 ^ 64 ∧ 0 <= o_offset o < 4096 ∧ 0 <= o_count o < 2 ^ 64.

(** Unless the sum wraps around, the transfer fits the buffer. *)
Lemma buffer_fits o a mem :
  allocates a → 0 <= o_size o < 2 ^ 64 - 4096 → 0 <= o_offset o < 4096 → r_mem a (buffer_size o) = Some mem →
  o_size o <= Z.of_nat (length (drop (Z.to_nat (o_offset o)) mem)).
Proof.
  intros Ha Hs Ho E. assert (buffer_size o = o_size o + 4096) as Eb by (apply Z.mod_small; lia).
  rewrite Eb in E. pose proof (Ha (o_size o + 4096) mem ltac:(lia) E). rewrite length_drop. lia.
Qed.

(** ** The loops end *)

Section total.
Context {F : Type} `{!FileIo F, !FileLaws F}.

(** A turn transfers [max] bytes or all that is left. *)
Lemma piece_left max size count fuel :
  0 < max → size - count <= Z.of_nat (S fuel) * max → count < size →
  let bytes := if max <? size - count then max else size - count in
  0 < bytes <= max ∧ count + bytes <= size ∧ (size - (count + bytes) <= Z.of_nat fuel * max).
Proof. 
  intros Hm Hf Hc. rewrite Nat2Z.inj_succ, Z.mul_succ_l in Hf. cbv zeta.
  pose proof (Z.mul_nonneg_nonneg (Z.of_nat fuel) max ltac:(lia) ltac:(lia)).
  destruct (Z.ltb_spec max (size - count)); lia. Qed.

Lemma turns_enough max size : 0 < max → size - 0 <= Z.of_nat (turns max size) * max.
Proof.
  intros Hm. unfold turns. pose proof (Z.div_mod size max ltac:(lia)). pose proof (Z.mod_pos_bound size max Hm).
  assert (size / max + 1 <= Z.of_nat (S (Z.to_nat (size / max)))) by lia. nia.
Qed.

(** A buffer in which [size] bytes fit is not left. *)
Lemma read_loop_ends fuel max buf size count offset (f : F) :
  0 < max → size - count <= Z.of_nat fuel * max → 0 <= count →
  match read_loop fuel max buf size count offset f with
  | Done (_, buf', _) => length buf' = length buf
  | Overrun => Z.of_nat (length buf) < size
  | OutOfFuel => False
  end.
Proof.
  intros Hm. revert buf count offset f. induction fuel as [|fuel IH]; intros buf count offset f Hf H0; cbn [read_loop];
    (destruct (Z.leb_spec size count); [done|]); [lia|].
  destruct (piece_left max size count fuel Hm Hf) as (Hp & Hs & Hl); [done|]. set (bytes := if max <? _ then _ else _) in *.
  destruct (seek offset f) as [ok f1]. destruct (negb ok); [done|].
  pose proof (read_law bytes f1) as Hr. destruct (f_read bytes f1) as [[rc bs] f2]. destruct Hr as (_ & _ & Hr).
  unfold splice. destruct (Z.ltb_spec (Z.of_nat (length buf)) (count + Z.of_nat (length bs))); cbn [mbind run_bind]; [lia|].
  set (buf' := _ ++ _). assert (length buf' = length buf) as E by (unfold buf'; rewrite !length_app, length_take, length_drop; lia).
  destruct (rc <? 0); [done|]. destruct (negb _); [done|]. rewrite <- E. apply IH; lia.
Qed.

Lemma write_loop_ends fuel max buf size count offset (f : F) :
  0 < max → size - count <= Z.of_nat fuel * max → 0 <= count →
  match write_loop fuel max buf size count offset f with
  | Done _ => True
  | Overrun => Z.of_nat (length buf) < size
  | OutOfFuel => False
  end.
Proof.
  intros Hm. revert count offset f. induction fuel as [|fuel IH]; intros count offset f Hf H0; cbn [write_loop];
    (destruct (Z.leb_spec size count); [done|]); [lia|].
  destruct (piece_left max size count fuel Hm Hf) as (Hp & Hs & Hl); [done|]. set (bytes := if max <? _ then _ else _) in *.
  destruct (seek offset f) as [ok f1]. destruct (negb ok); [done|].
  unfold slice. destruct (Z.ltb_spec (Z.of_nat (length buf)) (count + bytes)); cbn [mbind run_bind]; [lia|].
  destruct (f_write _ f1) as [rc f2]. destruct (rc <? 0); [done|]. destruct (negb _); [done|]. apply IH; lia.
Qed.

Lemma read_ends buf size base (f : F) :
  match read_to_buffer buf size base f with
  | Done (_, buf', _) => length buf' = length buf
  | Overrun => Z.of_nat (length buf) < size
  | OutOfFuel => False
  end.
Proof. apply read_loop_ends; [done| |done]. by apply turns_enough. Qed.

Lemma write_ends buf size base (f : F) :
  match write_from_buffer buf size base f with
  | Done _ => True
  | Overrun => Z.of_nat (length buf) < size
  | OutOfFuel => False
  end.
Proof. apply write_loop_ends; [done| |done]. by apply turns_enough. Qed.

(** The end of a loop over a buffer of [n] bytes. *)
Definition loop_ends (n size : Z) (l : list handle) (r : run (Z * files F)) : Prop :=
  match r with
  | Done (_, s') => open_now s' = l
  | Overrun => n < size
  | OutOfFuel => False
  end.

(** The rest of a loop, from the files as they are now. *)
Ltac again IH :=
  lazymatch goal with
  | |- loop_ends _ _ _ (to_device_loop _ ?i _ _ ?s) => exact (IH i s)
  | |- loop_ends _ _ _ (from_device_loop _ ?i _ ?b ?s) => exact (IH i b s)
  end.

Lemma to_device_ends n i o buf (s : files F) :
  loop_ends (Z.of_nat (length buf)) (o_size o) (open_now s) (to_device_loop n i o buf s).
Proof.
  revert i s. induction n as [|n IH]; intros i s; cbn [to_device_loop]; [done|].
  pose proof (write_ends buf (o_size o) (o_addr o) (fpga s)) as H.
  destruct (write_from_buffer buf (o_size o) (o_addr o) (fpga s)) as [[rc f]| |]; cbn [mbind run_bind]; [|done..].
  destruct (rc <? 0); [done|]. destruct (ofname o); [|again IH]. cbn [outfile set eta files_eta].
  pose proof (write_ends buf (o_size o) (u64 (i * o_size o)) (outfile s)) as H2.
  destruct (write_from_buffer buf (o_size o) (u64 (i * o_size o)) (outfile s)) as [[rc2 f2]| |]; cbn [mbind run_bind]; [|done..].
  destruct (rc2 <? 0); [done|again IH].
Qed.

Lemma from_device_ends n i o buf (s : files F) :
  loop_ends (Z.of_nat (length buf)) (o_size o) (open_now s) (from_device_loop n i o buf s).
Proof.
  revert i buf s. induction n as [|n IH]; intros i buf s; cbn [from_device_loop]; [done|].
  pose proof (read_ends buf (o_size o) (o_addr o) (fpga s)) as H.
  destruct (read_to_buffer buf (o_size o) (o_addr o) (fpga s)) as [[[rc buf1] f]| |]; cbn [mbind run_bind]; [|done..].
  rewrite <- H. destruct (rc <? 0); [done|]. destruct (ofname o && negb (no_write o)); [|again IH]. cbn [outfile set eta files_eta].
  pose proof (write_ends buf1 (o_size o) (u64 (i * o_size o)) (outfile s)) as H2.
  destruct (write_from_buffer buf1 (o_size o) (u64 (i * o_size o)) (outfile s)) as [[rc2 f2]| |]; cbn [mbind run_bind]; [|done..].
  destruct (rc2 <? 0); [done|again IH].
Qed.

End total.

(** ** What the loops transfer *)

Section transfer.
Context {F : Type} `{!FileIo F, !FileLaws F}.
Implicit Types f : F.

Lemma s64_small x : 0 <= x < 2 ^ 63 → s64 x = x.
Proof. intros Hx. unfold s64. rewrite Z.mod_small by lia. lia. Qed.

Lemma splice_spec buf count bs :
  0 <= count → count + Z.of_nat (length bs) <= Z.of_nat (length buf) →
  ∃ buf', splice buf count bs = Done buf' ∧ length buf' = length buf ∧
    ∀ k, 0 <= k → array buf' (Z.to_nat k) =
      if (count <=? k) && (k <? count + Z.of_nat (length bs)) then array bs (Z.to_nat (k - count)) else array buf (Z.to_nat k).
Proof.
  intros H0 Hl. unfold splice. rewrite (proj2 (Z.ltb_ge _ _)) by done. eexists. split; [done|].
  split; [rewrite !length_app, length_take, length_drop; lia|]. intros k Hk. unfold array.
  destruct (Z.leb_spec count k); cbn [andb]; [destruct (Z.ltb_spec k (count + Z.of_nat (length bs)))|];
    rewrite !nth_lookup; f_equal.
  - rewrite lookup_app_r by (rewrite length_take; lia). rewrite length_take, Nat.min_l by lia.
    rewrite lookup_app_l by lia. f_equal. lia.
  - rewrite lookup_app_r by (rewrite length_take; lia). rewrite length_take, Nat.min_l by lia.
    rewrite lookup_app_r by lia. rewrite lookup_drop. f_equal. lia.
  - rewrite lookup_app_l by (rewrite length_take; lia). by rewrite lookup_take_lt by lia.
Qed.

Lemma seqZ_array (g : Z → Z) a n k : 0 <= k < n → array (g <$> seqZ a n) (Z.to_nat k) = g (a + k).
Proof.
  intros Hk. unfold array. rewrite nth_lookup, list_lookup_fmap.
  rewrite (proj2 (lookup_seqZ a n (Z.to_nat k) (a + k))) by lia. done.
Qed.

Lemma slice_array buf count n k :
  0 <= count → 0 <= k < n → count + n <= Z.of_nat (length buf) →
  array (take (Z.to_nat n) (drop (Z.to_nat count) buf)) (Z.to_nat k) = array buf (Z.to_nat (count + k)).
Proof.
  intros H0 Hk Hl. unfold array. rewrite !nth_lookup, lookup_take_lt, lookup_drop by lia. f_equal. f_equal. lia.
Qed.

Lemma seek_spec offset f :
  let '(ok, f') := seek offset f in
  (∀ x, f_byte f' x = f_byte f x) ∧ (ok = true → offset ≠ 0 ∨ f_pos f = 0 → f_pos f' = offset).
Proof.
  unfold seek. destruct (Z.eqb_spec offset 0) as [->|E]; [split; [done|]; by intros _ [?|?]|].
  pose proof (lseek_law offset f) as H. destruct (f_lseek offset f) as [rc f']. destruct H as [H1 H2].
  destruct (rc <? 0); (split; [done|]); [done|]. intros ->%Z.eqb_eq _. by apply H2.
Qed.

(** Reading: an error, or the bytes of the file from [base + count] on. *)
Lemma read_loop_spec fuel max buf size count base f :
  0 < max → size - count <= Z.of_nat fuel * max → 0 <= count <= size → size <= Z.of_nat (length buf) →
  0 <= base → base + size < 2 ^ 63 → (base + count ≠ 0 ∨ f_pos f = 0) →
  ∃ rc buf' f', read_loop fuel max buf size count (base + count) f = Done (rc, buf', f') ∧
    (∀ x, f_byte f' x = f_byte f x) ∧ length buf' = length buf ∧
    (rc = - EIO ∨ (rc = size ∧ ∀ k, 0 <= k < size →
       array buf' (Z.to_nat k) = if count <=? k then f_byte f (base + k) else array buf (Z.to_nat k))).
Proof.
  intros Hm. revert buf count f. induction fuel as [|fuel IH]; intros buf count f Hf Hc Hb H0 H63 Hpos;
    cbn [read_loop]; destruct (Z.leb_spec size count) as [Hle|Hlt]; try lia.
  1, 2: assert (count = size) as -> by lia; rewrite Z.eqb_refl, s64_small by lia; cbn [negb]; eexists _, _, _; (split; [done|]);
    (split; [done|]); (split; [done|]); right; (split; [done|]); intros k Hk; by rewrite (proj2 (Z.leb_gt _ _)) by lia.
  destruct (piece_left max size count fuel Hm Hf Hlt) as (Hp & Hs & Hl). set (bytes := if max <? _ then _ else _) in *.
  pose proof (seek_spec (base + count) f) as Hk. destruct (seek (base + count) f) as [ok f1]. destruct Hk as [Hk1 Hk2].
  destruct ok; cbn [negb]; [|by eexists _, _, _; split_and!; [..|left]]. specialize (Hk2 eq_refl Hpos).
  pose proof (read_law bytes f1) as Hr. destruct (f_read bytes f1) as [[rc bs] f2]. destruct Hr as (Hr1 & Hr2 & Hr3).
  destruct (splice_spec buf count bs) as (buf1 & -> & Hsl & Hsp); [lia..|]. cbn [mbind run_bind].
  assert (∀ x, f_byte f2 x = f_byte f x) as Hf2 by (intros x; by rewrite Hr1, Hk1).
  destruct (rc <? 0); [by eexists _, _, _; split_and!; [..|left]|].
  destruct (Z.eqb_spec rc bytes) as [E|E]; cbn [negb]; [|by eexists _, _, _; split_and!; [..|left]].
  specialize (Hr2 E). assert (s64 (base + count + bytes) = base + (count + bytes)) as ->
    by (unfold s64; rewrite Z.mod_small by lia; lia).
  destruct (IH buf1 (count + bytes) f2) as (rc' & buf' & f' & -> & Hb' & Hl' & H); try lia.
  eexists _, _, _. split; [done|]. split; [intros x; by rewrite Hb', Hf2|]. split; [lia|].
  destruct H as [->|[-> H]]; [by left|right]. split; [done|]. intros k Hk. rewrite H, Hf2 by done.
  assert (Z.of_nat (length bs) = bytes) as Hbl by (rewrite Hr2, length_fmap, length_seqZ; lia).
  rewrite Hsp by lia. rewrite Hbl.
  destruct (Z.leb_spec count k), (Z.leb_spec (count + bytes) k), (Z.ltb_spec k (count + bytes)); cbn [andb]; try lia; try done.
  rewrite Hr2, seqZ_array by lia. rewrite Hk2, Hk1. f_equal. lia.
Qed.

(** Writing: an error, or the bytes of the buffer in the file from there on. *)
Lemma write_loop_spec fuel max buf size count base f :
  0 < max → size - count <= Z.of_nat fuel * max → 0 <= count <= size → size <= Z.of_nat (length buf) →
  0 <= base → base + size < 2 ^ 63 → (base + count ≠ 0 ∨ f_pos f = 0) →
  ∃ rc f', write_loop fuel max buf size count (base + count) f = Done (rc, f') ∧
    (rc = - EIO ∨ (rc = size ∧ ∀ x,
       f_byte f' x = if (base + count <=? x) && (x <? base + size) then array buf (Z.to_nat (x - base)) else f_byte f x)).
Proof.
  intros Hm. revert count f. induction fuel as [|fuel IH]; intros count f Hf Hc Hb H0 H63 Hpos;
    cbn [write_loop]; destruct (Z.leb_spec size count) as [Hle|Hlt]; try lia.
  1, 2: assert (count = size) as -> by lia; rewrite Z.eqb_refl, s64_small by lia; cbn [negb]; eexists _, _; (split; [done|]);
    right; (split; [done|]); intros x; destruct (Z.leb_spec (base + size) x), (Z.ltb_spec x (base + size)); cbn [andb]; try done; lia.
  destruct (piece_left max size count fuel Hm Hf Hlt) as (Hp & Hs & Hl). set (bytes := if max <? _ then _ else _) in *.
  pose proof (seek_spec (base + count) f) as Hk. destruct (seek (base + count) f) as [ok f1]. destruct Hk as [Hk1 Hk2].
  destruct ok; cbn [negb]; [|by eexists _, _; split; [|left]]. specialize (Hk2 eq_refl Hpos).
  unfold slice. rewrite (proj2 (Z.ltb_ge _ _)) by lia. cbn [mbind run_bind].
  set (bs := take _ _). pose proof (write_law bs f1) as Hr. destruct (f_write bs f1) as [rc f2].
  assert (Z.of_nat (length bs) = bytes) as Hbl by (unfold bs; rewrite length_take, length_drop; lia). rewrite Hbl in Hr.
  destruct (rc <? 0); [by eexists _, _; split; [|left]|].
  destruct (Z.eqb_spec rc bytes) as [E|E]; cbn [negb]; [|by eexists _, _; split; [|left]].
  specialize (Hr E). assert (s64 (base + count + bytes) = base + (count + bytes)) as ->
    by (unfold s64; rewrite Z.mod_small by lia; lia).
  destruct (IH (count + bytes) f2) as (rc' & f' & -> & H); try lia.
  eexists _, _. split; [done|]. destruct H as [->|[-> H]]; [by left|right]. split; [done|]. intros x. rewrite H, Hr, Hk1, Hk2.
  destruct (Z.leb_spec (base + count) x), (Z.leb_spec (base + (count + bytes)) x), (Z.ltb_spec x (base + size)),
    (Z.ltb_spec x (base + count + bytes)); cbn [andb]; try lia; try done.
  unfold bs. rewrite slice_array by lia. f_equal. lia.
Qed.

(** A piece of a file a call can transfer: it starts at an offset the loops
    seek to, or where the file is. *)
Definition reachable (size base : Z) f : Prop :=
  0 <= size ∧ 0 <= base ∧ base + size < 2 ^ 63 ∧ (base = 0 → size ≠ 0 → f_pos f = 0).

Lemma read_spec buf size base f :
  reachable size base f → size <= Z.of_nat (length buf) →
  ∃ rc buf' f', read_to_buffer buf size base f = Done (rc, buf', f') ∧
    (∀ x, f_byte f' x = f_byte f x) ∧ length buf' = length buf ∧
    (rc = - EIO ∨ (rc = size ∧ ∀ k, 0 <= k < size → array buf' (Z.to_nat k) = f_byte f (base + k))).
Proof.
  intros (Hs & Hb & H63 & Hp) Hl. unfold read_to_buffer. rewrite s64_small by lia.
  destruct (Z.eq_dec size 0) as [->|Hz].
  { exists 0, buf, f. cbn. split_and!; try done. right. split; [done|]. lia. }
  assert (base + 0 ≠ 0 ∨ f_pos f = 0) as Hpos by (destruct (Z.eq_dec base 0); [right; by apply Hp|left; lia]).
  destruct (read_loop_spec (turns RW_MAX_SIZE size) RW_MAX_SIZE buf size 0 base f) as (rc & buf' & f' & E & Hf & Hbl & H);
    try done; try lia; [by apply turns_enough|].
  rewrite Z.add_0_r in E.
  exists rc, buf', f'. split_and!; try done. destruct H as [->|[-> H]]; [by left|right]. split; [done|].
  intros k Hk. rewrite H by done. by rewrite (proj2 (Z.leb_le _ _)) by lia.
Qed.

(** The bytes of a file from [base] on are those of the buffer. *)
Definition holds f base buf size : Prop := ∀ k, 0 <= k < size → f_byte f (base + k) = array buf (Z.to_nat k).

Lemma write_spec buf size base f :
  reachable size base f → size <= Z.of_nat (length buf) →
  ∃ rc f', write_from_buffer buf size base f = Done (rc, f') ∧
    (rc = - EIO ∨ (rc = size ∧ holds f' base buf size ∧ ∀ x, x < base ∨ base + size <= x → f_byte f' x = f_byte f x)).
Proof.
  intros (Hs & Hb & H63 & Hp) Hl. unfold write_from_buffer. rewrite s64_small by lia.
  destruct (Z.eq_dec size 0) as [->|Hz].
  { exists 0, f. cbn. split; [done|]. right. split; [done|]. split; [|done]. intros k Hk. lia. }
  assert (base + 0 ≠ 0 ∨ f_pos f = 0) as Hpos by (destruct (Z.eq_dec base 0); [right; by apply Hp|left; lia]).
  destruct (write_loop_spec (turns RW_MAX_SIZE size) RW_MAX_SIZE buf size 0 base f) as (rc & f' & E & H);
    try done; try lia; [by apply turns_enough|].
  rewrite Z.add_0_r in E.
  exists rc, f'. split; [done|]. destruct H as [->|[-> H]]; [by left|right]. split; [done|]. split.
  - intros k Hk. rewrite H, (proj2 (Z.leb_le _ _)), (proj2 (Z.ltb_lt _ _)) by lia. cbn [andb]. f_equal. lia.
  - intros x Hx. rewrite H. destruct (Z.leb_spec (base + 0) x), (Z.ltb_spec x (base + size)); cbn [andb]; try done; lia.
Qed.

(** What a run is asked to do; the file position matters at address 0. *)
Record run_ok (o : dma_opts) (n i : Z) (s : files F) : Prop := {
  ro_size : 0 <= o_size o;
  ro_addr : 0 <= o_addr o ∧ o_addr o + o_size o < 2 ^ 63;
  ro_count : 0 <= i ∧ (i + n) * o_size o < 2 ^ 63;
  ro_dev : o_addr o ≠ 0 ∨ (n <= 1 ∧ f_pos (fpga s) = 0);
  ro_out : i = 0 → f_pos (outfile s) = 0 }.

Lemma out_reachable o n i s :
  run_ok o n i s → 0 < n → reachable (o_size o) (u64 (i * o_size o)) (outfile s) ∧ u64 (i * o_size o) = i * o_size o.
Proof.
  intros [Hs Ha [Hi Hc] Hd Ho] Hn. assert (0 <= i * o_size o) by nia. assert (i * o_size o + o_size o <= (i + n) * o_size o) by nia.
  assert (u64 (i * o_size o) = i * o_size o) as E by (apply Z.mod_small; lia). rewrite E. split; [|done].
  split; [done|]. split; [done|]. split; [lia|]. intros E0 Hz. apply Ho. nia.
Qed.

Lemma dev_reachable o n i s : run_ok o n i s → 0 < n → reachable (o_size o) (o_addr o) (fpga s).
Proof. intros [Hs Ha Hc Hd Ho] Hn. split; [done|]. split; [lia|]. split; [lia|]. intros E _. by destruct Hd as [?|[_ ?]]. Qed.

Lemma run_next o n i s f f2 :
  run_ok o n i s → 0 < n → run_ok o (n - 1) (i + 1) ((s <| fpga := f |>) <| outfile := f2 |>) ∨ n = 1.
Proof.
  intros [Hs Ha Hc Hd Ho] Hn. destruct (Z.eq_dec n 1); [by right|left]. split; try done; try lia.
Qed.

(** The loop of dma_to_device: an error, or the buffer is in the device. *)
Lemma to_device_holds n i o buf s :
  run_ok o (Z.of_nat n) i s → o_size o <= Z.of_nat (length buf) → (0 < n)%nat →
  ∃ rc s', to_device_loop n i o buf s = Done (rc, s') ∧
    (rc = - EIO ∨ (rc = 0 ∧ holds (fpga s') (o_addr o) buf (o_size o))).
Proof.
  revert i s. induction n as [|n IH]; intros i s Hr Hl Hn; [lia|]. cbn [to_device_loop].
  pose proof (dev_reachable _ _ _ _ Hr ltac:(lia)) as Hdev. destruct (out_reachable _ _ _ _ Hr ltac:(lia)) as [Hout Eu].
  destruct (write_spec buf (o_size o) (o_addr o) (fpga s) Hdev Hl) as (rc & f & -> & H). cbn [mbind run_bind].
  destruct H as [->|(-> & Hf & _)]; [by eexists _, _; split; [|left]|].
  rewrite (proj2 (Z.ltb_ge _ 0)) by apply Hr. cbn [outfile set eta files_eta].
  assert (∀ f2, ∃ rc s', to_device_loop n (i + 1) o buf ((s <| fpga := f |>) <| outfile := f2 |>) = Done (rc, s') ∧
    (rc = - EIO ∨ (rc = 0 ∧ holds (fpga s') (o_addr o) buf (o_size o)))) as Hnext.
  { intros f2. destruct n as [|n]; [by eexists _, _; split; [|right]|].
    destruct (run_next _ _ _ _ f f2 Hr ltac:(lia)) as [Hr'|?]; [|lia].
    replace (Z.of_nat (S (S n)) - 1) with (Z.of_nat (S n)) in Hr' by lia. apply IH; [done..|lia]. }
  destruct (ofname o); [|apply (Hnext (outfile s))].
  destruct (write_spec buf (o_size o) (u64 (i * o_size o)) (outfile s) Hout Hl) as (rc & f2 & -> & H2). cbn [mbind run_bind].
  destruct H2 as [->|(-> & _ & _)]; [by eexists _, _; split; [|left]|].
  rewrite (proj2 (Z.ltb_ge _ 0)) by apply Hr. apply Hnext.
Qed.

(** The loop of dma_from_device: an error, or every copy is in the file. *)
Lemma from_device_holds n i o buf s :
  run_ok o (Z.of_nat n) i s → o_size o <= Z.of_nat (length buf) → ofname o = true → no_write o = false →
  ∃ rc s', from_device_loop n i o buf s = Done (rc, s') ∧
    (rc = - EIO ∨ (rc = 0 ∧ (∀ x, x < i * o_size o → f_byte (outfile s') x = f_byte (outfile s) x) ∧
       ∀ j k, i <= j < i + Z.of_nat n → 0 <= k < o_size o →
         f_byte (outfile s') (j * o_size o + k) = f_byte (fpga s) (o_addr o + k))).
Proof.
  intros Hr Hl Eo En. revert i buf s Hr Hl. induction n as [|n IH]; intros i buf s Hr Hl; cbn [from_device_loop].
  { eexists _, _. split; [done|]. right. split_and!; [done..|]. lia. }
  pose proof (dev_reachable _ _ _ _ Hr ltac:(lia)) as Hdev. destruct (out_reachable _ _ _ _ Hr ltac:(lia)) as [Hout Eu].
  destruct (read_spec buf (o_size o) (o_addr o) (fpga s) Hdev Hl) as (rc & buf' & f & -> & Hf & Hl' & H).
  cbn [mbind run_bind]. destruct H as [->|(-> & Hbuf)]; [by eexists _, _; split; [|left]|].
  rewrite (proj2 (Z.ltb_ge _ 0)) by apply Hr. rewrite Eo, En. cbn [negb andb outfile set eta files_eta].
  rewrite <- Hl' in Hl.
  destruct (write_spec buf' (o_size o) (u64 (i * o_size o)) (outfile s) Hout Hl) as (rc & f2 & -> & H2). cbn [mbind run_bind].
  destruct H2 as [->|(-> & Hh & Hkeep)]; [by eexists _, _; split; [|left]|].
  rewrite (proj2 (Z.ltb_ge _ 0)) by apply Hr. rewrite Eu in Hh, Hkeep.
  pose proof (ro_size _ _ _ _ Hr) as Hs.
  assert (∀ k, 0 <= k < o_size o → f_byte f2 (i * o_size o + k) = f_byte (fpga s) (o_addr o + k)) as Hi
    by (intros k Hk; by rewrite Hh, Hbuf).
  destruct n as [|n].
  { eexists _, _. split; [done|]. right. split; [done|]. cbn [outfile set eta files_eta]. split; [intros x Hx; apply Hkeep; lia|].
    intros j k Hj Hk. replace j with i by lia. by apply Hi. }
  destruct (run_next _ _ _ _ f f2 Hr ltac:(lia)) as [Hr'|?]; [|lia].
  replace (Z.of_nat (S (S n)) - 1) with (Z.of_nat (S n)) in Hr' by lia.
  destruct (IH (i + 1) buf' _ Hr' Hl) as (rc & s' & E & H). eexists _, _. split; [exact E|].
  destruct H as [->|(-> & Hlow & Hall)]; [by left|right]. cbn [fpga outfile set eta files_eta] in Hlow, Hall.
  split; [done|]. split; [intros x Hx; rewrite Hlow by nia; apply Hkeep; lia|].
  intros j k Hj Hk. destruct (Z.eq_dec j i) as [->|Hne].
  - rewrite Hlow by nia. by apply Hi.
  - rewrite Hall by lia. by rewrite Hf.
Qed.

(** ** Properties *)

(** The memory is what was asked for, and the options are in range. *)
Record asked_ok (o : dma_opts) (a : dma_answers) (s : files F) : Prop := {
  ao_run : run_ok o (o_count o) 0 s;
  ao_count : 1 <= o_count o;
  ao_offset : 0 <= o_offset o < 4096;
  ao_mem : allocates a;
  ao_in : f_pos (infile s) = 0 }.

Lemma dma_out_files rc i k (s : files F) : let '(rc', s') := dma_out rc i k s in
  rc' = s32 rc ∧ outfile s' = outfile s ∧ fpga s' = fpga s.
Proof. unfold dma_out. by destruct (0 <=? i), (0 <=? k). Qed.

Lemma mem_length o a s mem :
  asked_ok o a s → r_mem a (buffer_size o) = Some mem → o_size o <= Z.of_nat (length (drop (Z.to_nat (o_offset o)) mem)).
Proof.
  intros [Hr _ Ho Ha _] E. pose proof (ro_size _ _ _ _ Hr). pose proof (ro_addr _ _ _ _ Hr).
  apply (buffer_fits o a); [done|lia|done..].
Qed.

(** dma_to_device: the file is in the device. *)
Lemma to_device_copies o a (s s' : files F) :
  asked_ok o a s → infname o = true → test_dma_to o a s = Done (0, s') →
  ∀ k, 0 <= k < o_size o → f_byte (fpga s') (o_addr o + k) = f_byte (infile s) k.
Proof.
  intros H Ei. unfold test_dma_to. destruct (r_dev a <? 0); [done|]. rewrite Ei. cbn [andb].
  destruct (Z.ltb_spec (r_in a) 0); [done|]. destruct (ofname o && _); [done|].
  destruct (r_mem a _) as [mem|] eqn:Em; [|done]. rewrite (proj2 (Z.leb_le 0 (r_in a))) by done.
  set (s1 := if ofname o then opened Outfile _ else _). assert (infile s1 = infile s ∧ fpga s1 = fpga s ∧ outfile s1 = outfile s) as (E1 & E2 & E3)
    by (unfold s1; by destruct (ofname o)). clearbody s1. set (buf := drop _ mem).
  pose proof (mem_length o a s mem H Em) as Hl. fold buf in Hl. pose proof (ao_run _ _ _ H) as Hr.
  assert (reachable (o_size o) 0 (infile s)) as Hin.
  { split; [apply Hr|]. split; [done|]. split; [pose proof (ro_addr _ _ _ _ Hr); lia|]. intros _ _. apply H. }
  change (infile (opened Buffer s1)) with (infile s1). rewrite E1.
  destruct (read_spec buf (o_size o) 0 (infile s) Hin Hl) as (rc & buf' & f & -> & _ & Hl' & Hrd). cbn [mbind run_bind].
  destruct Hrd as [->|[-> Hbuf]]; [done|]. rewrite (proj2 (Z.ltb_ge (o_size o) 0)) by apply Hr.
  assert (run_ok o (Z.of_nat (Z.to_nat (o_count o))) 0 (opened Buffer s1 <| infile := f |>)) as Hr1.
  { pose proof (ao_count _ _ _ H). rewrite Z2Nat.id by lia. destruct Hr as [? ? ? Hd Ho]. split; try done; cbn;
      [by rewrite E2|by rewrite E3]. }
  rewrite <- Hl' in Hl. destruct (to_device_holds _ 0 o buf' _ Hr1 Hl) as (rc & s2 & E & Hh); [pose proof (ao_count _ _ _ H); lia|].
  match goal with |- context [to_device_loop ?n ?i ?o ?b ?s] =>
    change (to_device_loop n i o b s) with (to_device_loop n i o b (opened Buffer s1 <| infile := f |>)) end. rewrite E.
  cbn [mbind run_bind]. pose proof (dma_out_files rc (r_in a) (if ofname o then r_out a else -1) s2) as Hd.
  destruct (dma_out _ _ _ s2) as [rc' s3]. destruct Hd as (-> & _ & Ef). intros [= Erc <-].
  destruct Hh as [->|[_ Hh]]; [done|]. intros k Hk. rewrite Ef, Hh, Hbuf by done. done.
Qed.

(** dma_from_device: the device is in the file, once for every count. *)
Lemma from_device_copies o a (s s' : files F) :
  asked_ok o a s → ofname o = true → no_write o = false → test_dma_from o a s = Done (0, s') →
  ∀ j k, 0 <= j < o_count o → 0 <= k < o_size o →
    f_byte (outfile s') (j * o_size o + k) = f_byte (fpga s) (o_addr o + k).
Proof.
  intros H Eo En. unfold test_dma_from. destruct (r_dev a <? 0); [done|]. rewrite Eo. cbn [andb].
  destruct (Z.ltb_spec (r_out a) 0); [done|]. destruct (r_mem a _) as [mem|] eqn:Em; [|done].
  set (buf := drop _ mem). pose proof (mem_length o a s mem H Em) as Hl. fold buf in Hl.
  assert (run_ok o (Z.of_nat (Z.to_nat (o_count o))) 0 (opened Buffer (opened Outfile (opened Fpga s)))) as Hr1.
  { pose proof (ao_count _ _ _ H). rewrite Z2Nat.id by lia. by destruct (ao_run _ _ _ H). }
  destruct (from_device_holds _ 0 o buf _ Hr1 Hl Eo En) as (rc & s2 & -> & Hh). cbn [mbind run_bind].
  pose proof (dma_out_files rc (-1) (r_out a) s2) as Hd. destruct (dma_out _ _ _ s2) as [rc' s3].
  destruct Hd as (-> & Ef & _). intros [= Erc <-]. destruct Hh as [->|(_ & _ & Hh)]; [done|]. intros j k Hj Hk.
  rewrite Ef, Hh by lia. done.
Qed.

(** C31: what dma_to_device copies from a file to a device, dma_from_device
    gets back: when both programs succeed, for the same address and size and
    any count (at address 0: a count of one), whatever the sizes of the
    pieces the loops move, the file written second holds, once for every
    count, the bytes of the file read first. *)
Theorem dma_roundtrip o1 o2 a1 a2 s1 s1' s2 s2' :
  asked_ok o1 a1 s1 → asked_ok o2 a2 s2 → infname o1 = true → ofname o2 = true → no_write o2 = false →
  o_addr o2 = o_addr o1 → o_size o2 = o_size o1 → (∀ x, f_byte (fpga s2) x = f_byte (fpga s1') x) →
  test_dma_to o1 a1 s1 = Done (0, s1') → test_dma_from o2 a2 s2 = Done (0, s2') →
  ∀ j k, 0 <= j < o_count o2 → 0 <= k < o_size o1 →
    f_byte (outfile s2') (j * o_size o1 + k) = f_byte (infile s1) k.
Proof.
  intros H1 H2 Ei Eo En Ea Es Hsame E1 E2 j k Hj Hk.
  pose proof (to_device_copies o1 a1 s1 s1' H1 Ei E1) as Hto.
  pose proof (from_device_copies o2 a2 s2 s2' H2 Eo En E2) as Hfrom. rewrite <- Es in *.
  rewrite Hfrom, Hsame, Ea by done. by apply Hto.
Qed.

End transfer.

(** ** Everything is closed *)

Section release.
Context {F : Type} `{!FileIo F, !FileLaws F}.
Implicit Types s : files F.

(** What [out] closes. *)
Definition closes (i k : Z) (h : handle) : Prop :=
  match h with Fpga | Buffer => True | Infile => 0 <= i | Outfile => 0 <= k end.

Lemma elem_of_closed h x s : x ∈ open_now (closed h s) ↔ x ≠ h ∧ x ∈ open_now s.
Proof. unfold closed. cbn [open_now set eta files_eta]. apply (list_elem_of_filter (λ y, y ≠ h)). Qed.

Lemma dma_out_closes rc i k s : Forall (closes i k) (open_now s) → open_now (dma_out rc i k s).2 = [].
Proof.
  intros H. apply elem_of_nil_inv. intros x Hx.
  assert (x ∈ open_now s ∧ x ≠ Fpga ∧ x ≠ Buffer ∧ (0 <= i → x ≠ Infile) ∧ (0 <= k → x ≠ Outfile)) as (Hin & H1 & H2 & H3 & H4).
  { revert Hx. unfold dma_out. cbn [snd]. destruct (Z.leb_spec 0 k), (Z.leb_spec 0 i);
      rewrite ?elem_of_closed; intros; destruct_and?; split_and!; try done; try lia. }
  rewrite Forall_forall in H. specialize (H x Hin). destruct x; cbn in H; naive_solver.
Qed.

(** A run ends with everything closed; it leaves the buffer only when the size
    of the buffer wraps around. *)
Definition ends_closed (o : dma_opts) (r : run (Z * files F)) : Prop :=
  match r with
  | Done (_, s') => open_now s' = []
  | Overrun => 2 ^ 64 - 4096 <= o_size o
  | OutOfFuel => False
  end.

(** The end of a program. *)
Lemma ends o rc i k s : Forall (closes i k) (open_now s) → ends_closed o (Done (dma_out rc i k s)).
Proof.
  intros H. pose proof (dma_out_closes rc i k s H). by destruct (dma_out rc i k s) as [rc' s'] eqn:E.
Qed.

(** The loop and the end of a program, with a buffer of [mem]. *)
Lemma after_loop o a mem (buf : list Z) i k s (m : run (Z * files F)) :
  opts_wf o → allocates a → r_mem a (buffer_size o) = Some mem →
  length buf = length (drop (Z.to_nat (o_offset o)) mem) → Forall (closes i k) (open_now s) →
  loop_ends (Z.of_nat (length buf)) (o_size o) (open_now s) m →
  ends_closed o ('(rc, s) ← m; Done (dma_out rc i k s)).
Proof.
  intros (_ & Hs & Ho & _) Ha Em Hl Hc Hm. destruct m as [[rc s']| |]; cbn [mbind run_bind]; [|cbn in *|done].
  - apply ends. cbn in Hm. by rewrite Hm.
  - destruct (Z.le_gt_cases (2 ^ 64 - 4096) (o_size o)); [done|].
    pose proof (buffer_fits o a mem Ha ltac:(lia) Ho Em). lia.
Qed.

Lemma dma_to_ends o a s : opts_wf o → allocates a → open_now s = [] → ends_closed o (test_dma_to o a s).
Proof.
  intros Hw Ha E. unfold test_dma_to. destruct (r_dev a <? 0); [exact E|].
  set (i := if infname o then r_in a else -1). set (k := if ofname o then r_out a else -1).
  assert (Forall (closes i (-1)) (open_now (opened Fpga s))) as H0 by (cbn; rewrite E; by repeat constructor).
  destruct (infname o && (i <? 0)) eqn:Ei; [by apply ends|].
  set (s1 := if infname o then _ else opened Fpga s).
  assert (Forall (closes i k) (open_now s1)) as H1.
  { unfold s1, i in *. destruct (infname o); cbn in *; rewrite E; repeat constructor; cbn; try done. by apply Z.ltb_ge. }
  clearbody s1. destruct (ofname o && (k <? 0)) eqn:Ek; [by apply ends|].
  set (s2 := if ofname o then opened Outfile s1 else s1).
  assert (Forall (closes i k) (open_now s2)) as H2.
  { unfold s2. destruct (ofname o); [|done]. constructor; [|done]. cbn. by apply Z.ltb_ge. }
  clearbody s2. destruct (r_mem a _) as [mem|] eqn:Em; [|by apply ends].
  assert (Forall (closes i k) (open_now (opened Buffer s2))) as H3 by (by constructor).
  set (s3 := opened Buffer s2) in *. clearbody s3. set (buf := drop _ mem).
  assert (∀ rc buf' s4, length buf' = length buf → open_now s4 = open_now s3 →
    ends_closed o (if rc <? 0 then Done (dma_out rc i k s4) else
      '(rc, s) ← to_device_loop (Z.to_nat (o_count o)) 0 o buf' s4; Done (dma_out rc i k s))) as Hrest.
  { intros rc buf' s4 El E4. rewrite <- E4 in H3. destruct (rc <? 0); [by apply ends|].
    apply (after_loop o a mem buf' i k s4); try done. apply to_device_ends. }
  destruct (0 <=? i); [|by apply (Hrest 0 buf s3)].
  pose proof (read_ends buf (o_size o) 0 (infile s3)) as Hr.
  destruct (read_to_buffer buf (o_size o) 0 (infile s3)) as [[[rc buf'] f]| |]; cbn [mbind run_bind]; [|cbn|done].
  - by apply Hrest.
  - destruct Hw as (_ & Hs & Ho & _). destruct (Z.le_gt_cases (2 ^ 64 - 4096) (o_size o)); [done|].
    pose proof (buffer_fits o a mem Ha ltac:(lia) Ho Em). unfold buf in Hr. lia.
Qed.

Lemma dma_from_ends o a s : opts_wf o → allocates a → open_now s = [] → ends_closed o (test_dma_from o a s).
Proof.
  intros Hw Ha E. unfold test_dma_from. destruct (r_dev a <? 0); [exact E|].
  set (k := if ofname o then r_out a else -1).
  assert (Forall (closes (-1) k) (open_now (opened Fpga s))) as H0 by (cbn; rewrite E; by repeat constructor).
  destruct (ofname o && (k <? 0)) eqn:Ek; [by apply ends|].
  set (s2 := if ofname o then _ else opened Fpga s).
  assert (Forall (closes (-1) k) (open_now s2)) as H2.
  { unfold s2. destruct (ofname o); [|done]. constructor; [|done]. cbn. by apply Z.ltb_ge. }
  clearbody s2. destruct (r_mem a _) as [mem|] eqn:Em; [|by apply ends].
  apply (after_loop o a mem (drop (Z.to_nat (o_offset o)) mem) (-1) k (opened Buffer s2)); try done; [by constructor|].
  apply from_device_ends.
Qed.

(** C32: both programs end, for all options the command line can give and
    whatever the files do (a read stores no more than it was asked for) - the
    loops need no more turns than there are pieces - and when they do every
    file they opened is closed and the buffer is freed; the one exception are
    the sizes of the last page below 2^64: the size of the buffer, [size +
    4096], wraps around there, and the transfer can run beyond the end of the
    buffer. With such a size, once it has its buffer, dma_to_device without
    files does so in its first write to address 0. *)
Theorem dma_tools_release o a s :
  opts_wf o → allocates a → open_now s = [] →
  ends_closed o (test_dma_to o a s) ∧ ends_closed o (test_dma_from o a s) ∧
  (2 ^ 64 - 4096 <= o_size o → o_addr o = 0 → 1 <= o_count o → infname o = false → ofname o = false →
   0 <= r_dev a → is_Some (r_mem a (buffer_size o)) → test_dma_to o a s = Overrun).
Proof.
  intros Hw Ha E. split; [by apply dma_to_ends|]. split; [by apply dma_from_ends|].
  intros Hs Ez Hc Ei Eo Hd [mem Em]. destruct Hw as (_ & [_ Hs2] & Ho & _).
  assert (buffer_size o = o_size o + 4096 - 2 ^ 64) as Eb.
  { unfold buffer_size, u64. symmetry. apply (Z.mod_unique_pos _ _ 1); lia. }
  assert (Z.of_nat (length (drop (Z.to_nat (o_offset o)) mem)) < 4096) as Hl.
  { pose proof (Ha (buffer_size o) mem ltac:(rewrite Eb; lia) Em). rewrite length_drop. lia. }
  unfold test_dma_to. rewrite (proj2 (Z.ltb_ge _ 0)) by done. rewrite Ei, Eo. cbn [andb]. rewrite Em. cbn [Z.leb Z.compare].
  cbn [mbind run_bind Z.ltb Z.compare]. replace (Z.to_nat (o_count o)) with (S (Z.to_nat (o_count o - 1))) by lia.
  cbn [to_device_loop]. unfold write_from_buffer. rewrite Ez. change (turns RW_MAX_SIZE (o_size o)) with
    (S (Z.to_nat (o_size o / RW_MAX_SIZE))). cbn [write_loop]. rewrite (proj2 (Z.leb_gt _ _)) by lia.
  change (seek (s64 0) (fpga ?s)) with (true, fpga s). cbn [negb].
  rewrite Z.sub_0_r, (proj2 (Z.ltb_lt RW_MAX_SIZE _)) by (unfold RW_MAX_SIZE; lia).
  unfold slice. rewrite (proj2 (Z.ltb_lt _ _)) by (unfold RW_MAX_SIZE; lia). done.
Qed.

End release.

(** ** Options *)

Lemma digits_bound base neg s : 0 <= base → 0 <= (ulong base neg s).1 < 2 ^ 64.
Proof.
  intros Hb. unfold ulong. pose proof (digits_nonneg base 0 s ltac:(lia) Hb) as Hd. destruct (digits base 0 s) as [v p].
  cbn [fst] in *. destruct (Z.leb_spec (2 ^ 64) v); [lia|]. destruct neg; [apply Z.mod_pos_bound; lia|lia].
Qed.

Lemma getopt_bound arg v : getopt_integer arg = Some v → 0 <= v < 2 ^ 64.
Proof.
  unfold getopt_integer, scan_lx, scan_lu.
  repeat case_match; intros [= <-]; simplify_eq; apply digits_bound; lia.
Qed.

Lemma common_opt_wf c arg o o' : opts_wf o → common_opt c arg o = Ok o' → opts_wf o'.
Proof.
  intros (H1 & H2 & H3 & H4). unfold common_opt, opt_number.
  destruct (getopt_integer arg) as [v|] eqn:E; [apply getopt_bound in E|]; repeat case_bool_decide; cbn;
    intros [= <-]; repeat split; cbn; try lia; change 4095 with (Z.ones 12); rewrite Z.land_ones by lia;
    apply Z.mod_pos_bound; lia.
Qed.

Lemma read_opts_wf f l o o' :
  (∀ c arg o o', opts_wf o → f c arg o = Ok o' → opts_wf o') → opts_wf o → read_opts f l o = Ok o' → opts_wf o'.
Proof.
  intros Hf. revert o. induction l as [|[c arg] l IH]; intros o Ho; cbn [read_opts]; [by intros [= <-]|].
  destruct (f c arg o) as [o1| | |] eqn:E; try done. cbn. apply IH. by eapply Hf.
Qed.

(** Both programs work with options in range. *)
Lemma options_wf l o :
  read_opts to_opt l opts_default = Ok o ∨ read_opts from_opt l opts_default = Ok o → opts_wf o.
Proof.
  assert (opts_wf opts_default) as H0 by (repeat split; by vm_compute).
  intros [H|H]; (eapply read_opts_wf; [|exact H0|exact H]); intros c arg o1 o2 Ho; unfold to_opt, from_opt;
    repeat case_bool_decide; try (by apply common_opt_wf); intros [= <-]; exact Ho.
Qed.

(** ** Times *)

(** The difference of two times is exact and normalised again. *)
Lemma timespec_sub_exact t1 t2 :
  0 <= tv_nsec t1 < 10 ^ 9 → 0 <= tv_nsec t2 < 10 ^ 9 → 0 <= tv_sec t2 <= tv_sec t1 → tv_sec t1 < 2 ^ 62 →
  let t := timespec_sub t1 t2 in
  0 <= tv_nsec t < 10 ^ 9 ∧
  tv_sec t * 10 ^ 9 + tv_nsec t = (tv_sec t1 * 10 ^ 9 + tv_nsec t1) - (tv_sec t2 * 10 ^ 9 + tv_nsec t2).
Proof.
  intros H1 H2 Hs Hm. assert (∀ x, - 2 ^ 63 <= x < 2 ^ 63 → s64 x = x) as Hsm.
  { intros x Hx. unfold s64. rewrite Z.mod_small by lia. lia. }
  unfold timespec_sub, timespec_check.
  rewrite (proj2 (Z.ltb_ge (tv_nsec t1) 0)), (proj2 (Z.leb_gt _ (tv_nsec t1))) by lia.
  rewrite (proj2 (Z.ltb_ge (tv_nsec t2) 0)), (proj2 (Z.leb_gt _ (tv_nsec t2))) by lia. cbn [orb Z.ltb Z.compare].
  rewrite (Hsm (tv_sec t1 - tv_sec t2)) by lia. rewrite (proj2 (Z.leb_gt 1000000000 _)) by lia.
  destruct (Z.ltb_spec (tv_nsec t1 - tv_nsec t2) 0); cbn [tv_sec tv_nsec]; [rewrite Hsm by lia|]; lia.
Qed.

(** ** A regular file *)

Module SimFile.
Record t := T { pos : Z; log : list (Z * list Z) }.
#[export] Instance t_eta : Settable t := λ r, T (pos r) (log r).

Definition byte (f : t) (x : Z) : Z :=
  foldl (λ v e, if (e.1 <=? x) && (x <? e.1 + Z.of_nat (length e.2)) then array e.2 (Z.to_nat (x - e.1)) else v) 0 (log f).

#[global] Instance io : FileIo t := {
  f_lseek o f := (o, f <| pos := o |>);
  f_read n f := ((n, byte f <$> seqZ (pos f) n), f <| pos ::= λ p, p + n |>);
  f_write bs f := (Z.of_nat (length bs), f <| pos ::= λ p, p + Z.of_nat (length bs) |> <| log ::= λ l, l ++ [(pos f, bs)] |>) }.

#[global] Program Instance file_laws : FileLaws t := { f_pos := pos; f_byte := byte }.
Next Obligation. done. Qed.
Next Obligation. intros n f. cbn. split; [done|]. split; [done|]. rewrite length_fmap, length_seqZ. lia. Qed.
Next Obligation. intros bs f _ x. unfold byte. cbn. by rewrite foldl_app. Qed.

Definition empty : t := T 0 [].
Definition data : t := T 0 [(0, [1; 2; 3; 4; 5])].
Definition opts (addr count : Z) : dma_opts := DmaOpts addr 5 3 count true true false.
Definition ans : dma_answers := DmaAns 3 4 5 (λ n, Some (replicate (Z.to_nat n) 0)).
Definition s1 : files t := Files empty data empty [].
Definition sent (addr count : Z) : run (Z * files t) := test_dma_to (opts addr count) ans s1.
Definition dev (addr count : Z) : t := match sent addr count with Done (_, s) => fpga s | _ => empty end.
Definition s2 : files t := Files (dev 64 2) empty empty [].

Lemma sent_ok : ∃ s, sent 64 2 = Done (0, s).
Proof. eexists. vm_compute. reflexivity. Qed.
Lemma received_ok : ∃ s, test_dma_from (opts 64 2) ans s2 = Done (0, s).
Proof. eexists. vm_compute. reflexivity. Qed.

(** At address 0 nothing seeks back before the second copy: with a file that
    advances it lands behind the first one. *)
Lemma zero_address_drifts : (byte (dev 0 2) <$> seqZ 0 10) = [1; 2; 3; 4; 5; 1; 2; 3; 4; 5].
Proof. by vm_compute. Qed.
End SimFile.

Lemma allocates_ans : allocates SimFile.ans.
Proof. intros n mem Hn [= <-]. rewrite length_replicate. lia. Qed.

Lemma dma_roundtrip_witness : ∃ s',
  test_dma_from (SimFile.opts 64 2) SimFile.ans SimFile.s2 = Done (0, s') ∧
  f_byte (outfile s') 7 = 3 ∧ f_byte (infile SimFile.s1) 2 = 3.
Proof.
  destruct SimFile.sent_ok as [s1' E1]. destruct SimFile.received_ok as [s2' E2].
  assert (∀ s : files SimFile.t, f_pos (infile s) = 0 → f_pos (outfile s) = 0 →
    asked_ok (SimFile.opts 64 2) SimFile.ans s) as Hok.
  { intros s Hi Ho. split; cbn; [|lia|lia|exact allocates_ans|exact Hi].
    split; cbn; [lia|lia|lia|by left|by intros _]. }
  assert (SimFile.dev 64 2 = fpga s1') as Hdev by (unfold SimFile.dev; by rewrite E1).
  exists s2'. split; [exact E2|].
  split; [|by vm_compute]. transitivity (f_byte (infile SimFile.s1) 2); [|by vm_compute].
  apply (dma_roundtrip (SimFile.opts 64 2) (SimFile.opts 64 2) SimFile.ans SimFile.ans SimFile.s1 s1' SimFile.s2 s2'
    (Hok SimFile.s1 eq_refl eq_refl) (Hok SimFile.s2 eq_refl eq_refl) eq_refl eq_refl eq_refl eq_refl eq_refl) with (j := 1) (k := 2);
    [|exact E1|exact E2|cbn; lia|cbn; lia].
  intros x. exact (f_equal (λ f, f_byte f x) Hdev).
Defined.

Lemma dma_tools_release_witness :
  ends_closed (SimFile.opts 64 2) (test_dma_to (SimFile.opts 64 2) SimFile.ans SimFile.s1) ∧
  test_dma_to (opts_default <| o_size := 2 ^ 64 - 1 |>) SimFile.ans SimFile.s1 = Overrun.
Proof.
  assert (opts_wf (SimFile.opts 64 2)) as H1 by (repeat split; by vm_compute).
  assert (opts_wf (opts_default <| o_size := 2 ^ 64 - 1 |>)) as H2 by (repeat split; by vm_compute).
  destruct (dma_tools_release (SimFile.opts 64 2) SimFile.ans SimFile.s1 H1 allocates_ans eq_refl) as (Ht & _).
  destruct (dma_tools_release _ SimFile.ans SimFile.s1 H2 allocates_ans eq_refl) as (_ & _ & Ho).
  split; [exact Ht|]. apply Ho; clear; [by vm_compute|done|by vm_compute|done|done|by vm_compute|].
  exists (replicate (Z.to_nat (buffer_size (opts_default <| o_size := 2 ^ 64 - 1 |>))) 0). reflexivity.
Defined.
